(* ===== verification/_CoqProject ===== *)
-Q . S2P
Prelude.v
LittleEndian.v
Wire.v
Replay.v
Crypto.v
Keys.v
Events.v
Detector.v
Access.v
FrameHandling.v
Engine.v
Overlap.v
Sqlite.v
SqliteStore.v
AuditLog.v
Config.v
HwService.v
AppState.v
Durable.v
FailClosed.v
Services.v
Http.v
JsonText.v
Routes.v
Life.v
System.v
Firmware.v
