(* ===== verification/Prelude.v ===== *)
(** * A verified model of the access security system

    The program (C++20, under src/) is the server of a physical access control
    system, with the firmware of its card readers. A reader signs the card it
    reads and posts it; the server makes an encrypted frame of it (or is sent one),
    parses it, authenticates it, checks that it is fresh, watches for protocol
    anomalies, decides by the policy whether the card opens the door, and records
    the decision in a hash-chained audit log; the reader shows the answer. This
    library models that path from the bytes on the card to the rows of the
    database and back to the light at the door, with the administration of the
    policy, by shallow embedding: each C++ function is a Rocq function of the same
    name.

    ** Files, from the leaves up

    - [Prelude]: machine integers ([u8], [u32], [u64], with [i32]/[i64] for the
      casts at the SQLite interface), strings and their NUL-terminated reading
      [cstr], the three results of a call ([res]: it returns, throws, or does
      something the language leaves undefined), the state-and-exception monad
      [M], its weakest-precondition calculus [wp], the calculus of what a
      computation does to its state however it ends ([keeps], and [always] where
      the state has an invariant), shared lemmas and tactics.
    - [LittleEndian]: the reference little-endian codec.
    - [Wire]: protocol_lib. [Utils] (protocol_utils.cpp), [Packet], [Frame] and
      [FrameParser] (frame_parser.cpp, a state machine over an offset into the
      input; a read outside the input is [Fault]).
    - [Replay]: protocol_lib/replay_window, and its specification over the
      history of accepted sequence numbers.
    - [Crypto]: crypto_lib. libsodium is the class [Sodium], what its
      documentation promises the class [SodiumLaws]; [Hkdf], [SecureAead] and
      [Nonce] are the program's code over it.
    - [Keys]: key_manager ([Hex], [KeyManager]).
    - [Events]: runtime_events, the bounded event buffer.
    - [Detector]: access_core/protocol_anomaly_detector, with its calls as the
      steps of a state machine.
    - [Access]: access_decision around the engine. The abstract class
      IAccessStore is the class [IAccessStore], its contract [AccessStoreSpec]
      (a store holds a [PolicyView] and answers from it); IAuditLog is
      [IAuditLog], its contract [AuditLogSpec] (a log holds a trail of events);
      [AccessPolicy], [CardIdHasher], [Payload] (over the class [Json], which
      stands for nlohmann::json).
    - [FrameHandling]: access_core/frame_decryptor and handle_frame. Its state
      [HState] is the map of replay windows, the state behind the store, and a
      counter of the reads of clock and random generator (class [Env]).
    - [Engine]: access_decision/engine. Its state [EState] adds the detector and
      the event bus, the two objects the engine has optional pointers to.
    - [Overlap]: calls of the engine that overlap. The access server and the
      administration server are two objects of httplib with a mutex each, and call
      one engine; here each thread runs its call in parts, and the parts of the
      threads interleave as the two mutexes allow. [OverlapSpec] has the serial
      server: one call after the other, each answered as the specification says.
    - [Sqlite]: sqlite_helpers, the class [Sqlite] (the C API in the four calling
      patterns the program has: exec, prepare, prepare-bind-step, columns), the
      SQL texts of the program and the meaning of each statement on the tables.
      [SqliteRows]: a row that is delivered is a row of the answer, also when the
      query then fails.
    - [SqliteStore]: sqlite_access_store; it is an instance of [IAccessStore],
      and [SqliteLaws] is enough for [AccessStoreSpec].
    - [AuditLog]: serialization, sqlite_audit_log and audit_verify; an instance
      of [IAuditLog] that meets [AuditLogSpec].
    - [Config]: config_loader. yaml-cpp is the class [Yaml].
    - [HwService]: access_admin/service/hw_service, which turns a signed card
      scan into such a frame and has the engine decide it, over any store and log.
    - [AppState]: access_admin/app_state, the objects of the server ([AppState])
      and how they are opened and replaced. The file system is the class [Files],
      opening and closing a database file [SqliteFiles];
      what an import relies on is [UploadLaws], and a restored backup
      [BackupLaws] (what a file is as a database, without a write-ahead log).
    - [Durable]: what is on disk (the tables as committed), and what the statements
      of store and log can do to it on a database where any statement may fail
      ([harmless] statements, [SqliteConfined]). That the query for the last hash
      does not fail is the class [LogReadable]; only the statements that the chain
      stays intact ask for it ([chain_kept]). [SqliteReliableBut] is a database on
      which exactly one statement may fail.
    - [FailClosed]: what the engine grants and logs on such a database. The class
      [AccessStoreSound] is the weak contract of a store whose queries may fail;
      the SQLite classes meet it with [SqliteRows].
    - [Services]: access_admin/service, every operation of the administration and
      the two endpoints on the state of the server; the requests that change the
      policy as a small language ([request]).
    - [Http]: access_admin/http_utils, the requests and responses of httplib as
      records, the documents of nlohmann::json as the class [JsonDoc], and reading
      a scan from one ([HwRequest]).
    - [JsonText]: what the firmware and the server assume of each other's texts
      ([JsonTextLaws]), and a printer and parser of flat objects that meets it.
    - [Routes]: access_admin/routes_api (the handlers, from request to response)
      and main ([Main.start], the decision endpoint).
    - [Life]: what the engine, the services and each route do to the disk and to
      the quarantine list whatever fails, for callers with and without the token.
    - [System]: the server over its life as a step relation ([node_step]): requests
      of administrators and of others, imports, crashes and restarts.
    - [Firmware]: hw_layer.ino. The board (clock, WiFi, flash memory, HTTP client,
      card reader) is the class [Board], which may lose power in any call; lights,
      tones and requests are a trace.

    The engine calls the frame handler, the detector, the payload parser and the
    store; the frame handler calls the parser, the store, the windows, the key
    manager and the AEAD. The engine is proved against the two interfaces
    [IAccessStore] and [IAuditLog]; the SQLite classes discharge them, so every
    theorem on the engine holds of the engine over SQLite. A handler of [Routes]
    calls a service of [Services], which calls the store or the engine through the
    members of [AppState] ([on_store], [on_engine]; a null pointer is [Fault]).
    The firmware talks to [Routes] through [NetworkLaws]: what it posts is handed
    to [post_hw_uid], and what that answers is what it reads.

    In each file a Module has the C++ definitions, a [...Spec] Module what they
    are meant to do, a [...Facts] Module the lemmas and a [...Props] Module the
    properties, each with an evaluation at a concrete input. Concrete instances
    ([ToySodium], [ToyJson], [ToyStore], [MemDb]) show that the hypotheses on the
    libraries can be met; they are not models of those libraries. [MemFiles],
    [ToyYaml], [FlatJson] and [SimBoard] are the same for files, YAML, JSON texts
    and the board.

    ** What the theorems show

    - Decision: the engine returns on every input the verdict of
      [EngineSpec.engine_verdict]; it grants only what passed every check
      ([grant_is_mediated]), never twice for the same bytes
      ([grant_is_not_replayable]), with exactly one audit entry per decision,
      and refuses a quarantined reader; a scan at the hardware endpoint is
      decided by the policy ([hw_scan_is_decided]).
    - Whole server: whoever does not show the token changes no policy
      ([outsiders_change_no_policy]) and lifts no quarantine
      ([outsiders_lift_no_quarantine]); whatever fails, nothing is granted, or logged
      as granted, that the policy has no ground for ([grants_fail_closed]); nobody
      rewrites the log but by an import
      ([log_only_grows]); with files and a database that do not fail, the log on
      disk always verifies ([log_always_verifies]); the event buffer and each replay
      window stay within their configured sizes ([server_buffers_bounded]; the
      detector's records do not, see [detector_remembers_strangers]). These hold
      after any history of a server that [main] started, restarts included.
      [log_always_verifies] is about a database that does not fail. The others need
      no statement of the database to succeed, with one exception: the clauses of
      [outsiders_change_no_policy] and [log_only_grows] that the chain stays intact
      need the query for the last hash not to fail ([LogReadable]), and
      [failed_query_forks_log] shows what happens when it does.
      [grants_fail_closed] leaves out the time in which a change of the policy
      waits in a transaction that could be neither committed nor rolled back. What
      was answered survives a crash ([answered_requests_survive]).
    - Frames: the handler is its table of checks; accepted exactly when all of
      them pass; resubmission is refused; the parser is its decision table, and
      parsing and serializing are inverse, with one byte string per frame.
    - Replay: the window refines the history of accepted numbers; numbers sent
      in order are accepted once each; with arrivals out of order a replay gets
      through every window of two or more ([out_of_order_replay_accepted]).
    - Detector: quarantine ends only by an administrator's call; readers do not
      affect each other; when a rollback is reported, with the 64-bit overflow.
    - Cryptography: HKDF is RFC 5869; opening inverts sealing; nonces of
      consecutive numbers differ; keys for different purposes have different
      derivation inputs; key files and card hashes.
    - Storage: each store operation is the policy operation it names; audit
      entries form a chain that [verifyAuditChain] accepts, rejects when broken,
      and that two different logs share only if HMAC-SHA256 collides; an append
      is all or nothing; and when the query for the last hash fails, the append
      goes on and forks the chain ([failed_query_forks_log]).
    - End to end: the light at the door is the verdict of the policy
      ([signal_is_verdict], from the card through firmware, JSON, signature,
      route, frame, engine and SQLite, and back); a card enrolled through the
      administration opens its door, and is refused after its role is withdrawn
      ([enrolled_card_opens]).
    - Administration: any sequence of requests is the same sequence of updates of
      the abstract policy ([requests_refine_policy]); the routes ask for the token
      ([admin_routes_need_token]) and the hardware endpoint for a signature
      ([hw_route_gate], [hw_signature_decides]); importing a database swaps it or
      keeps it, in one of five ways, whatever fails ([import_swaps_or_keeps]; the
      chain is verified there, and not when the server starts); and importing an
      export restores the tables of the exporting server, if its main file held
      all that was committed ([export_import_roundtrip]; in WAL mode the program
      does not see to that).
    - Start: settings that load are well typed ([loaded_config_ok]), and a start on
      good settings gets to the point where it serves ([startup_serves]).
    - Firmware: it always returns ([firmware_returns]), never sends a number twice
      over its whole life ([seq_never_reused]), and gives the allow signal only on
      the server's word ([allow_needs_answer]).
    - Overlap: what the threads of one server do together is what some sequence
      of whole calls does, each answered with the verdict of the specification or
      failing ([one_server_is_serial]); a frame is granted once, whatever store and
      log do ([one_server_grants_once]); with both servers it can be granted twice
      ([two_servers_grant_twice]). After a restart it is granted again
      ([restart_readmits_frame]).

    Where the code has a corner that surprises, the theorem states it as it is:
    [junk_quarantines_reader_zero], [reportSeq_overflow], [path_ids_wrap],
    [large_key_version_reads_zero], [event_bus_zero]; and the example
    [failed_lookup_revives_role] has a role that comes back when a query fails.

    ** Bounds and fuel

    Loops of the program are structural recursions here (over the input, the
    block indices, the rows). [ToyJson.decode] and the parser of [FlatJson] have
    the length of the text as fuel. [HwService.remote_decision] has three
    attempts, the loop bound of the code. The loop of the firmware that waits for
    the WiFi has fuel; [firmware_returns] shows that [FwSpec.passes] units (the
    time-out over the delay of a pass, plus two) are enough on a clock that
    advances by what a delay asks for. Some theorems say what a call that returned
    has done; that calls do return is proved in [handle_refines_table],
    [engine_refines_decision], [hw_scan_is_decided], [requests_refine_policy],
    [enrolled_card_opens], [startup_serves], [signal_is_verdict] and the store and
    log properties, under the classes [StoreReturns], [AuditReturns],
    [SqliteReliable] and [FilesReliable] (a database and a disk that are not busy,
    full or broken).

    ** What is not modelled

    Threads: a call of a component runs to its end. [Overlap] is the exception; it
    has the mutexes of the two servers and cuts a call of the engine where the
    threads can interfere: after the replay check, and between the decryption and
    the decision. Data races inside those parts, and a
    request that uses the store while an import replaces it, are undefined
    behaviour of the C++ and are not modelled; so the steps of [System] are whole
    requests, one at a time. A crash in the middle of a request is, for the disk,
    a database all of whose later statements fail, which the theorems of [Durable],
    [Life] and [System] allow. The database has one connection, and no other
    process writes between two statements. httplib (matching a path to its
    handler, multipart bodies, the files under /static) is left to the library: a
    handler is a function of the request. In the remote mode the decision comes
    from the class [HwService.Http]. The serial output of the firmware, the
    closing of a connection by the program's end, and the web interface (src/web,
    JavaScript) are not modelled. The write-ahead log beside a database file is not
    a file of the model: an import takes the files as SQLite sees them after the
    store is closed, and of the bytes that an export reads nothing is assumed. *)
From Stdlib Require Import ZArith Lia Ascii.
From stdpp Require Import base option list gmap strings pretty.

Local Open Scope Z_scope.
#[export] Set Warnings "-clear-no-such-hyp".  (* raised inside set_solver *)

(** ** Machine integers

    A [uintN_t] is a [Z]; every C++ operation that can leave the range is
    written with its wrap-around. *)

Definition wrap (w z : Z) : Z := z mod 2 ^ w.
Definition u8 (z : Z) : Z := wrap 8 z.
Definition u32 (z : Z) : Z := wrap 32 z.
Definition u64 (z : Z) : Z := wrap 64 z.

(** [static_cast<int>] of a [uint32_t] and [static_cast<sqlite3_int64>] of a
    [uint64_t]: two's complement reinterpretation. *)
Definition i32 (z : Z) : Z := (z + 2 ^ 31) mod 2 ^ 32 - 2 ^ 31.
Definition i64 (z : Z) : Z := (z + 2 ^ 63) mod 2 ^ 64 - 2 ^ 63.

Definition is_u8 (z : Z) : Prop := 0 <= z < 2 ^ 8.
Definition is_u32 (z : Z) : Prop := 0 <= z < 2 ^ 32.
Definition is_u64 (z : Z) : Prop := 0 <= z < 2 ^ 64.

#[export] Instance is_u8_dec z : Decision (is_u8 z).
Proof. unfold is_u8. apply _. Defined.
#[export] Instance is_u32_dec z : Decision (is_u32 z).
Proof. unfold is_u32. apply _. Defined.
#[export] Instance is_u64_dec z : Decision (is_u64 z).
Proof. unfold is_u64. apply _. Defined.

(** [std::vector<uint8_t>], [std::span<const uint8_t>] and the fixed-size
    [std::array]s of bytes. *)
Abbreviation bytes := (list Z).

Definition bytes_ok (l : bytes) : Prop := Forall is_u8 l.
#[export] Instance bytes_ok_dec l : Decision (bytes_ok l).
Proof. unfold bytes_ok. apply _. Defined.

(** A fixed-size array of bytes. *)
Definition array_ok (n : nat) (l : bytes) : Prop := length l = n /\ bytes_ok l.
#[export] Instance array_ok_dec n l : Decision (array_ok n l).
Proof. unfold array_ok. apply _. Defined.

Create HintDb widths.

Lemma wrap_range w z : 0 <= w -> 0 <= wrap w z < 2 ^ w.
Proof. intros Hw. unfold wrap. apply Z.mod_pos_bound. by apply Z.pow_pos_nonneg. Qed.

Lemma u8_range z : is_u8 (u8 z).
Proof. by apply wrap_range. Qed.
Lemma u32_range z : is_u32 (u32 z).
Proof. by apply wrap_range. Qed.
Lemma u64_range z : is_u64 (u64 z).
Proof. by apply wrap_range. Qed.

Lemma u8_id z : is_u8 z -> u8 z = z.
Proof. apply Z.mod_small. Qed.
Lemma u32_id z : is_u32 z -> u32 z = z.
Proof. apply Z.mod_small. Qed.
Lemma u64_id z : is_u64 z -> u64 z = z.
Proof. apply Z.mod_small. Qed.

#[export] Hint Resolve u8_range u32_range u64_range : widths.
Create Rewrite HintDb widths.
#[export] Hint Rewrite u8_id u32_id u64_id using assumption : widths.

(** Reinterpreting an unsigned value as signed and back is the identity. *)
Lemma u32_i32 z : is_u32 z -> u32 (i32 z) = z.
Proof.
  unfold u32, i32, wrap, is_u32. intros Hz.
  rewrite Zminus_mod_idemp_l. replace (z + 2 ^ 31 - 2 ^ 31) with z by lia.
  by apply Z.mod_small.
Qed.
Lemma u64_i64 z : is_u64 z -> u64 (i64 z) = z.
Proof.
  unfold u64, i64, wrap, is_u64. intros Hz.
  rewrite Zminus_mod_idemp_l. replace (z + 2 ^ 63 - 2 ^ 63) with z by lia.
  by apply Z.mod_small.
Qed.
Lemma i32_i64_range z : - 2 ^ 31 <= i32 z < 2 ^ 31.
Proof. unfold i32. pose proof (Z.mod_pos_bound (z + 2 ^ 31) (2 ^ 32)). lia. Qed.
Lemma i32_id z : - 2 ^ 31 <= z < 2 ^ 31 -> i32 z = z.
Proof. intros Hz. unfold i32. rewrite Z.mod_small; lia. Qed.
Lemma i64_id z : - 2 ^ 63 <= z < 2 ^ 63 -> i64 z = z.
Proof. intros Hz. unfold i64. rewrite Z.mod_small; lia. Qed.
Lemma i32_inj a b : is_u32 a -> is_u32 b -> i32 a = i32 b -> a = b.
Proof. intros Ha Hb E. by rewrite <- (u32_i32 a), <- (u32_i32 b), E. Qed.

(** ** Strings

    [std::string] and [std::string_view] are [string]: a sequence of 8-bit
    characters that may contain NUL. *)

Fixpoint bytes_of_string (s : string) : bytes :=
  match s with
  | EmptyString => []
  | String a s' => Z.of_N (N_of_ascii a) :: bytes_of_string s'
  end.

Fixpoint string_of_bytes (l : bytes) : string :=
  match l with
  | [] => EmptyString
  | b :: l' => String (ascii_of_N (Z.to_N b)) (string_of_bytes l')
  end.

(** What [c_str()] with length -1 passes on: the text up to the first NUL. *)
Fixpoint cstr (s : string) : string :=
  match s with
  | EmptyString => EmptyString
  | String a s' => if decide (a = zero) then EmptyString else String a (cstr s')
  end.

(** [s.find(sub) != npos]. *)
Definition find_in (sub s : string) : bool :=
  match String.index 0 sub s with Some _ => true | None => false end.

(** [std::to_string] of an unsigned integer. *)
Definition to_string (z : Z) : string := pretty (Z.to_N z).

Lemma N_of_ascii_u8 a : is_u8 (Z.of_N (N_of_ascii a)).
Proof. unfold is_u8. pose proof (N_ascii_bounded a). lia. Qed.

Lemma bytes_of_string_ok s : bytes_ok (bytes_of_string s).
Proof. induction s; constructor; auto using N_of_ascii_u8. Qed.

Lemma length_bytes_of_string s : length (bytes_of_string s) = String.length s.
Proof. induction s; simpl; auto. Qed.

Lemma string_of_bytes_of_string s : string_of_bytes (bytes_of_string s) = s.
Proof.
  induction s as [|a s IH]; simpl; [done|].
  by rewrite N2Z.id, ascii_N_embedding, IH.
Qed.

Lemma bytes_of_string_of_bytes l : bytes_ok l -> bytes_of_string (string_of_bytes l) = l.
Proof.
  induction 1 as [|b l Hb _ IH]; simpl; [done|]. unfold is_u8 in Hb.
  rewrite N_ascii_embedding, Z2N.id, IH by lia. done.
Qed.

Lemma bytes_of_string_inj s t : bytes_of_string s = bytes_of_string t -> s = t.
Proof.
  intros E. by rewrite <- (string_of_bytes_of_string s), <- (string_of_bytes_of_string t), E.
Qed.

Lemma cstr_no_nul s : ~ In 0 (bytes_of_string s) -> cstr s = s.
Proof.
  induction s as [|a s IH]; simpl; [done|]. intros Hn.
  case_decide as Ha; [subst a; exfalso; apply Hn; by left|]. rewrite IH; auto.
Qed.

(** The text of [cstr] has no NUL. *)
Lemma cstr_cstr s : cstr (cstr s) = cstr s.
Proof.
  induction s as [|a s IH]; simpl; [done|]. case_decide as Ha; [done|]. simpl.
  by rewrite decide_False, IH.
Qed.

(** ** Exceptions and undefined behaviour

    A call returns ([Ok]), throws ([Throw]), or performs an access the
    language leaves undefined ([Fault]): a read past the end of a buffer, a
    [pop_front] of an empty deque. *)

Inductive exn : Type :=
| runtime_error (what : string)
| invalid_argument (what : string)
| length_error (what : string)
| std_exception (what : string)    (* any other [std::exception], of a library *)
| unknown_exception.               (* what only [catch (...)] sees *)

Inductive res (A : Type) : Type :=
| Ok (a : A)
| Throw (e : exn)
| Fault.
Arguments Ok {A} a.
Arguments Throw {A} e.
Arguments Fault {A}.

#[export] Instance exn_eq_dec : EqDecision exn.
Proof. solve_decision. Defined.
#[export] Instance res_eq_dec `{EqDecision A} : EqDecision (res A).
Proof. solve_decision. Defined.

#[export] Instance res_ret : MRet res := fun A a => Ok a.
#[export] Instance res_bind : MBind res := fun A B f m =>
  match m with Ok a => f a | Throw e => Throw e | Fault => Fault end.

(** ** State with exceptions

    [M S A]: a call that may change the state [S] before it returns, throws or
    faults; what it changed stays changed when it throws. *)

Definition M (S A : Type) : Type := S -> S * res A.
#[export] Instance M_ret S : MRet (M S) := fun A a s => (s, Ok a).
#[export] Instance M_bind S : MBind (M S) := fun A B f m s =>
  match m s with
  | (s', Ok a) => f a s'
  | (s', Throw e) => (s', Throw e)
  | (s', Fault) => (s', Fault)
  end.

Definition throw {S A} (e : exn) : M S A := fun s => (s, Throw e).
Definition fault {S A} : M S A := fun s => (s, Fault).
Definition get {S} : M S S := fun s => (s, Ok s).
Definition put {S} (s : S) : M S unit := fun _ => (s, Ok tt).
Definition modify {S} (f : S -> S) : M S unit := fun s => (f s, Ok tt).
Definition lift {S A} (r : res A) : M S A := fun s => (s, r).

(** [try { m } catch (...) { h }]; undefined behaviour is not catchable. *)
Definition try_catch {S A} (m : M S A) (h : exn -> M S A) : M S A := fun s =>
  match m s with
  | (s', Throw e) => h e s'
  | r => r
  end.

(** Running a call of a component on the part of a larger state it owns. *)
Definition zoom {S T A} (prj : S -> T) (upd : T -> S -> S) (m : M T A) : M S A := fun s =>
  match m (prj s) with (t, r) => (upd t s, r) end.

Lemma M_bind_ok {S A B} (m : M S A) (f : A -> M S B) s s' a :
  m s = (s', Ok a) -> (m ≫= f) s = f a s'.
Proof. intros E. unfold mbind, M_bind. by rewrite E. Qed.

Lemma M_bind_throw {S A B} (m : M S A) (f : A -> M S B) s s' e :
  m s = (s', Throw e) -> (m ≫= f) s = (s', Throw e).
Proof. intros E. unfold mbind, M_bind. by rewrite E. Qed.

(** A computation that returned went through each of its steps. *)
Lemma M_bind_inv_ok {S A B} (m : M S A) (f : A -> M S B) s s'' b :
  (m ≫= f) s = (s'', Ok b) -> exists s' a, m s = (s', Ok a) /\ f a s' = (s'', Ok b).
Proof.
  unfold mbind, M_bind. destruct (m s) as [s' [a|e|]] eqn:E; intros H; simplify_eq; eauto.
Qed.

(** [wp T m s Q]: if [m] returns from [s], [Q] holds of what it returns; and if
    [T] holds, it does return. *)
Definition wp {S A} (T : Prop) (m : M S A) (s : S) (Q : A -> S -> Prop) : Prop :=
  match m s with
  | (s', Ok a) => Q a s'
  | _ => ~ T
  end.

Section Wp.
Context {S : Type} (T : Prop).

Lemma wp_bind {A B} (m : M S A) (f : A -> M S B) s Q :
  wp T m s (fun a s' => wp T (f a) s' Q) -> wp T (m ≫= f) s Q.
Proof. unfold wp, mbind, M_bind. by destruct (m s) as [s' [a|e|]]. Qed.

Lemma wp_ret {A} (a : A) (s : S) (Q : A -> S -> Prop) : Q a s -> wp T (mret a) s Q.
Proof. done. Qed.

Lemma wp_mono {A} (m : M S A) s (P Q : A -> S -> Prop) :
  wp T m s P -> (forall a s', P a s' -> Q a s') -> wp T m s Q.
Proof. unfold wp. destruct (m s) as [s' [a|e|]]; auto. Qed.

Lemma wp_ok {A} (m : M S A) s s' a (Q : A -> S -> Prop) :
  wp T m s Q -> m s = (s', Ok a) -> Q a s'.
Proof. unfold wp. intros H E. by rewrite E in H. Qed.

Lemma wp_returns {A} (m : M S A) s (Q : A -> S -> Prop) :
  wp T m s Q -> T -> exists s' a, m s = (s', Ok a) /\ Q a s'.
Proof. unfold wp. destruct (m s) as [s' [a|e|]]; intros H HT; by eauto. Qed.

Lemma wp_intro {A} (m : M S A) s (Q : A -> S -> Prop) :
  (forall s' a, m s = (s', Ok a) -> Q a s') -> (T -> exists s' a, m s = (s', Ok a)) -> wp T m s Q.
Proof.
  unfold wp. intros HQ HT. destruct (m s) as [s' [a|e|]]; [by apply HQ|..];
    intros (? & ? & [=])%HT.
Qed.

Lemma wp_lift {A} (r : res A) (s : S) (a : A) (Q : A -> S -> Prop) :
  r = Ok a -> Q a s -> wp T (lift r) s Q.
Proof. by intros ->. Qed.

End Wp.

Lemma wp_zoom {S R A} (T : Prop) (prj : S -> R) (upd : R -> S -> S) (m : M R A) s Q :
  wp T m (prj s) (fun a t => Q a (upd t s)) -> wp T (zoom prj upd m) s Q.
Proof. unfold wp, zoom. by destruct (m (prj s)) as [t [a|e|]]. Qed.

(** [keeps I R m Q]: whatever comes of running [m] in a state in which [I] holds
    (a result, an exception or worse), [I] holds afterwards and [R] relates the
    two states; and what [m] returns, if it returns, satisfies [Q]. *)
Definition keeps {S A} (I : S -> Prop) (R : relation S) (m : M S A) (Q : A -> Prop) : Prop :=
  forall s, I s -> I (m s).1 /\ R s (m s).1 /\ forall a, (m s).2 = Ok a -> Q a.

(** Without a condition on the result. *)
Abbreviation always I R m := (keeps I R m (fun _ => True)).

Section Keeps.
Context {S : Type} (I : S -> Prop) (R : relation S) `{!PreOrder R}.

Lemma keeps_mono {A} (m : M S A) (P Q : A -> Prop) :
  keeps I R m P -> (forall a, P a -> Q a) -> keeps I R m Q.
Proof. intros Hm HQ s Hs. destruct (Hm s Hs) as (Hi & Hr & Hp). split_and!; auto. Qed.

Lemma keeps_always {A} (m : M S A) (Q : A -> Prop) : keeps I R m Q -> always I R m.
Proof. intros Hm. by eapply keeps_mono. Qed.

Lemma keeps_bind {A B} (m : M S A) (f : A -> M S B) (P : A -> Prop) (Q : B -> Prop) :
  keeps I R m P -> (forall a, P a -> keeps I R (f a) Q) -> keeps I R (m ≫= f) Q.
Proof.
  intros Hm Hf s Hs. unfold mbind, M_bind. destruct (Hm s Hs) as (Hi & Hr & Hp).
  destruct (m s) as [s1 [a|e|]]; cbn in *; [|done..].
  destruct (Hf a (Hp a eq_refl) s1 Hi) as (Hi' & Hr' & Hq). split_and!; [done|by etransitivity|done].
Qed.

Lemma always_bind {A B} (m : M S A) (f : A -> M S B) (Q : B -> Prop) :
  always I R m -> (forall a, keeps I R (f a) Q) -> keeps I R (m ≫= f) Q.
Proof. intros Hm Hf. by eapply keeps_bind. Qed.

Lemma keeps_ret {A} (a : A) (Q : A -> Prop) : Q a -> keeps I R (mret a) Q.
Proof. intros HQ s Hs. split_and!; [done|by cbn|by intros ? [= <-]]. Qed.

Lemma keeps_lift {A} (r : res A) (Q : A -> Prop) : (forall a, r = Ok a -> Q a) -> keeps I R (lift r) Q.
Proof. intros HQ s Hs. split_and!; [done|by cbn|done]. Qed.

Lemma keeps_throw {A} e (Q : A -> Prop) : keeps I R (throw e) Q.
Proof. intros s Hs. split_and!; [done|by cbn|done]. Qed.

Lemma keeps_fault {A} (Q : A -> Prop) : keeps I R fault Q.
Proof. intros s Hs. split_and!; [done|by cbn|done]. Qed.

Lemma keeps_get (Q : S -> Prop) : (forall s, I s -> Q s) -> keeps I R get Q.
Proof. intros HQ s Hs. split_and!; [done|by cbn|intros a [= <-]; by apply HQ]. Qed.

Lemma keeps_modify (f : S -> S) (Q : unit -> Prop) :
  (forall s, I s -> I (f s) /\ R s (f s)) -> Q tt -> keeps I R (modify f) Q.
Proof. intros Hf HQ s Hs. destruct (Hf s Hs). split_and!; [done..|by intros [] _]. Qed.

Lemma keeps_try {A} (m : M S A) h (Q : A -> Prop) :
  keeps I R m Q -> (forall e, keeps I R (h e) Q) -> keeps I R (try_catch m h) Q.
Proof.
  intros Hm Hh s Hs. unfold try_catch. destruct (Hm s Hs) as (Hi & Hr & Hq).
  destruct (m s) as [s1 [a|e|]]; cbn in *; [done| |done].
  destruct (Hh e s1 Hi) as (Hi' & Hr' & Hq'). split_and!; [done|by etransitivity|done].
Qed.

End Keeps.

(** [keeps_step]: one constructor of the monad; case distinctions are split.
    What remains are the calls. *)
Ltac keeps_step :=
  lazymatch goal with
  | |- keeps _ _ (_ ≫= _) _ => apply always_bind; [apply _| |intros ?]
  | |- keeps _ _ (mret _) _ => apply keeps_ret; [apply _|done]
  | |- keeps _ _ (throw _) _ => apply keeps_throw; apply _
  | |- keeps _ _ fault _ => apply keeps_fault; apply _
  | |- keeps _ _ (lift _) _ => apply keeps_lift; [apply _|done]
  | |- keeps _ _ get _ => apply keeps_get; [apply _|done]
  | |- keeps _ _ (try_catch _ _) _ => apply keeps_try; [apply _| |intros ?]
  | |- keeps _ _ (match ?x with _ => _ end) _ => destruct x
  | |- keeps _ _ (let '(_, _) := ?x in _) _ => destruct x
  end.

(** [keeps_by tac]: all of them, the calls by [tac]. *)
Ltac keeps_by tac := repeat first [solve [tac] | keeps_step].

Lemma keeps_zoom {S T A} (I : S -> Prop) (R : relation S) (J : T -> Prop) (R' : relation T)
    (prj : S -> T) (upd : T -> S -> S) (m : M T A) (Q : A -> Prop) :
  keeps J R' m Q -> (forall s, I s -> J (prj s)) ->
  (forall s t, I s -> J t -> R' (prj s) t -> I (upd t s) /\ R s (upd t s)) ->
  keeps I R (zoom prj upd m) Q.
Proof.
  intros Hm Hj Hu s Hs. unfold zoom. destruct (Hm (prj s) (Hj s Hs)) as (Hj' & Hr & Hq).
  destruct (m (prj s)) as [t r]. cbn in *. destruct (Hu s t Hs Hj' Hr). done.
Qed.

Lemma keeps_weaken {S A} (I : S -> Prop) (R R' : relation S) (m : M S A) (Q : A -> Prop) :
  (forall s s', I s -> R s s' -> R' s s') -> keeps I R m Q -> keeps I R' m Q.
Proof. intros HR Hm s Hs. destruct (Hm s Hs) as (Hi & Hr & Hq). split_and!; auto. Qed.

(** The same at one state. *)
Lemma keeps_bind_at {S A B} (I : S -> Prop) (R : relation S) `{!PreOrder R}
    (m : M S A) (f : A -> M S B) s :
  I (m s).1 /\ R s (m s).1 ->
  (forall a s', m s = (s', Ok a) -> I (f a s').1 /\ R s' (f a s').1) ->
  I ((m ≫= f) s).1 /\ R s ((m ≫= f) s).1.
Proof.
  intros [Hi Hr] Hf. unfold mbind, M_bind. destruct (m s) as [s1 [a|e|]]; cbn in *; [|done..].
  destruct (Hf a s1 eq_refl). split; [done|by etransitivity].
Qed.

(** [inv_ok]: split every hypothesis [(x ← m; k) s = (s', Ok v)]. *)
Ltac inv_ok :=
  repeat match goal with
  | H : (_ ≫= _) _ = (_, Ok _) |- _ =>
      let s := fresh "s" in let a := fresh "a" in let E := fresh "E" in
      apply M_bind_inv_ok in H; destruct H as (s & a & E & H); cbn beta in H
  | H : mret _ _ = (_, Ok _) |- _ => injection H as ? ?; subst
  | H : lift _ _ = (_, Ok _) |- _ => injection H as ? ?; subst
  | H : throw _ _ = (_, Ok _) |- _ => discriminate H
  | H : fault _ = (_, Ok _) |- _ => discriminate H
  end.

Lemma res_bind_inv_ok {A B} (m : res A) (f : A -> res B) b :
  m ≫= f = Ok b -> exists a, m = Ok a /\ f a = Ok b.
Proof. destruct m; cbn; intros E; simplify_eq; eauto. Qed.

(** [inv_res]: split every hypothesis [(x ← m; k) = Ok v]. *)
Ltac inv_res :=
  repeat match goal with
  | H : _ ≫= _ = Ok _ |- _ =>
      let a := fresh "a" in let E := fresh "E" in
      apply res_bind_inv_ok in H; destruct H as (a & E & H); cbn beta in H
  | H : Ok _ = Ok _ |- _ => injection H as ?; subst
  | H : Throw _ = Ok _ |- _ => discriminate H
  end.

(** A name with a suffix is another name. *)
Lemma append_ne (p q : string) : q <> EmptyString -> p +:+ q <> p.
Proof. intros Hq E. apply Hq. induction p as [|a p IH]; [done|]. cbn in E. injection E. auto. Qed.

(** ** Generic list lemmas *)

Lemma bytes_ok_app l k : bytes_ok (l ++ k) <-> bytes_ok l /\ bytes_ok k.
Proof. apply Forall_app. Qed.
Lemma bytes_ok_take n l : bytes_ok l -> bytes_ok (take n l).
Proof. apply Forall_take. Qed.
Lemma bytes_ok_drop n l : bytes_ok l -> bytes_ok (drop n l).
Proof. apply Forall_drop. Qed.
Lemma bytes_ok_replicate_0 n : bytes_ok (replicate n 0).
Proof. apply Forall_replicate. by compute. Qed.
#[export] Hint Resolve bytes_ok_take bytes_ok_drop bytes_ok_replicate_0 bytes_of_string_ok : widths.

Lemma app_inj_length {A} (l1 l2 k1 k2 : list A) :
  length l1 = length l2 -> l1 ++ k1 = l2 ++ k2 -> l1 = l2 /\ k1 = k2.
Proof. apply app_inj_1. Qed.
Lemma bytes_ok_lookup l i b : bytes_ok l -> l !! i = Some b -> is_u8 b.
Proof. unfold bytes_ok. rewrite Forall_lookup. eauto. Qed.

(** [by_decision]: settle a closed decidable goal by evaluation. *)
Ltac by_decision := refine (bool_decide_eq_true_1 _ _); vm_compute; reflexivity.

(** A decidable predicate given by an equivalent decidable one. *)
Definition iff_decision {P Q : Prop} (H : P <-> Q) (d : Decision P) : Decision Q :=
  match d with left p => left (proj1 H p) | right n => right (fun q => n (proj2 H q)) end.
