(* ===== verification/LittleEndian.v ===== *)
(** Little-endian encodings: the reference codec [le_bytes]/[le_value], its
    round trips, and the bit-level expressions the C++ writes for it. The four
    byte-writing helpers of the program (protocol_lib, crypto_lib, key_manager
    and access_storage each have their own) are all proved equal to it. *)
From Stdlib Require Import ZArith Lia.
From stdpp Require Import base list.
From S2P Require Import Prelude.
Local Open Scope Z_scope.

(** ** Reference codec *)

Fixpoint le_bytes (n : nat) (v : Z) : bytes :=
  match n with
  | O => []
  | S n' => v mod 256 :: le_bytes n' (v / 256)
  end.

Fixpoint le_value (l : bytes) : Z :=
  match l with
  | [] => 0
  | b :: l' => b + 256 * le_value l'
  end.

Lemma length_le_bytes n v : length (le_bytes n v) = n.
Proof. revert v. induction n; intros; simpl; auto. Qed.

Lemma le_bytes_ok n v : bytes_ok (le_bytes n v).
Proof.
  revert v. induction n; intros; constructor; [|by apply IHn].
  unfold is_u8. pose proof (Z.mod_pos_bound v 256). lia.
Qed.

Lemma pow256_S n : 256 ^ Z.of_nat (S n) = 256 * 256 ^ Z.of_nat n.
Proof. rewrite Nat2Z.inj_succ, Z.pow_succ_r; lia. Qed.

Lemma pow256_pos n : 0 < 256 ^ Z.of_nat n.
Proof. apply Z.pow_pos_nonneg; lia. Qed.

Lemma le_value_bytes n v : le_value (le_bytes n v) = v mod 256 ^ Z.of_nat n.
Proof.
  revert v. induction n as [|n IH]; intros v; simpl le_bytes; simpl le_value.
  - by rewrite Z.mod_1_r.
  - rewrite IH, pow256_S. pose proof (pow256_pos n).
    rewrite Z.rem_mul_r by lia. lia.
Qed.

Lemma le_value_bound l : bytes_ok l -> 0 <= le_value l < 256 ^ Z.of_nat (length l).
Proof.
  induction 1 as [|b l Hb _ IH]; simpl le_value; [simpl; lia|].
  simpl length. rewrite pow256_S. unfold is_u8 in Hb. lia.
Qed.

Lemma le_bytes_value l : bytes_ok l -> le_bytes (length l) (le_value l) = l.
Proof.
  induction 1 as [|b l Hb _ IH]; simpl; [done|]. unfold is_u8 in Hb.
  rewrite (Z.mul_comm 256), Z.mod_add, Z.mod_small by lia.
  by rewrite Z.div_add, Z.div_small, Z.add_0_l, IH by lia.
Qed.

Lemma le_bytes_inj n v w :
  0 <= v < 256 ^ Z.of_nat n -> 0 <= w < 256 ^ Z.of_nat n -> le_bytes n v = le_bytes n w -> v = w.
Proof.
  intros Hv Hw E. apply (f_equal le_value) in E. rewrite !le_value_bytes in E.
  by rewrite !Z.mod_small in E.
Qed.

(** ** The expressions of the source *)

(** [static_cast<uint8_t>((v >> (8 * i)) & 0xff)] *)
Definition byte_at (v : Z) (i : nat) : Z := u8 (Z.land (Z.shiftr v (8 * Z.of_nat i)) 255).

Lemma byte_at_div v i : byte_at v i = (v / 256 ^ Z.of_nat i) mod 256.
Proof.
  unfold byte_at, u8, wrap. rewrite (Z.land_ones _ 8) by lia.
  rewrite Z.mod_mod, Z.shiftr_div_pow2, Z.pow_mul_r by lia. done.
Qed.

Lemma map_byte_at_shift v k n :
  map (byte_at v) (seq (S k) n) = map (byte_at (v / 256)) (seq k n).
Proof.
  rewrite <- seq_shift, map_map. apply map_ext. intros i.
  rewrite !byte_at_div, pow256_S, Z.div_div by (pose proof (pow256_pos i); lia). done.
Qed.

Lemma map_byte_at v n : map (byte_at v) (seq 0 n) = le_bytes n v.
Proof.
  revert v. induction n as [|n IH]; intros v; [done|].
  simpl seq. simpl map. rewrite map_byte_at_shift, IH. simpl le_bytes.
  by rewrite byte_at_div, Z.div_1_r.
Qed.

(** Disjoint bits: or-ing a shifted byte in is adding it. *)
Lemma lor_shiftl_add a b k : 0 <= k -> 0 <= a < 2 ^ k -> Z.lor a (Z.shiftl b k) = a + b * 2 ^ k.
Proof.
  intros Hk Ha. rewrite <- Z.shiftl_mul_pow2 by done.
  assert (Z.land a (Z.shiftl b k) = 0) as E.
  { apply Z.bits_inj'. intros i Hi. rewrite Z.land_spec, Z.bits_0.
    destruct (Z.lt_ge_cases i k).
    - rewrite Z.shiftl_spec_low by lia. apply andb_false_r.
    - rewrite <- (Z.mod_small a (2 ^ k)), Z.mod_pow2_bits_high by lia. done. }
  pose proof (Z.add_lor_land a (Z.shiftl b k)). lia.
Qed.

(** [v |= (uint64_t)p[i] << (8 * i)] over the bytes [l] read from index [i]. *)
Fixpoint or_bytes (v : Z) (i : nat) (l : bytes) : Z :=
  match l with
  | [] => v
  | b :: l' => or_bytes (Z.lor v (Z.shiftl b (8 * Z.of_nat i))) (S i) l'
  end.

Lemma or_bytes_value l v i :
  bytes_ok l -> 0 <= v < 256 ^ Z.of_nat i ->
  or_bytes v i l = v + 256 ^ Z.of_nat i * le_value l.
Proof.
  intros Hl. revert v i. induction Hl as [|b l Hb _ IH]; intros v i Hv; simpl; [lia|].
  unfold is_u8 in Hb. rewrite lor_shiftl_add; [|lia|by rewrite Z.pow_mul_r by lia].
  rewrite (Z.pow_mul_r 2 8) by lia. change (2 ^ 8) with 256.
  rewrite IH; rewrite pow256_S; [lia|]. pose proof (pow256_pos i). nia.
Qed.

Lemma or_bytes_0 l : bytes_ok l -> or_bytes 0 0 l = le_value l.
Proof. intros Hl. rewrite or_bytes_value by (done || (simpl; lia)). simpl; lia. Qed.
