(* ===== verification/Wire.v ===== *)
(** protocol_lib: the wire format. [Utils] is protocol_utils.cpp, [Packet] is
    packet.hpp/.cpp, [Frame] is frame.hpp/.cpp and [FrameParser] is
    frame_parser.hpp/.cpp. Pointers into the input are offsets, and a read past
    the end of the input is [Fault]. *)
From Stdlib Require Import ZArith Lia.
From stdpp Require Import base option list strings.
From S2P Require Import Prelude LittleEndian.
Local Open Scope Z_scope.

(** ** Memory reads *)

(** [*p] *)
Definition deref (mem : bytes) (p : nat) : res Z :=
  match mem !! p with Some b => Ok b | None => Fault end.

(** Reading [n] bytes at [p] ([memcpy], [memcmp], [assign]). *)
Definition mem_read (mem : bytes) (p n : nat) : res bytes :=
  if decide (p + n <= length mem)%nat then Ok (take n (drop p mem)) else Fault.

Module Utils.

Definition put_le32 (v : Z) (out : bytes) : bytes :=
  out ++ [u8 (Z.land v 255); u8 (Z.land (Z.shiftr v 8) 255);
          u8 (Z.land (Z.shiftr v 16) 255); u8 (Z.land (Z.shiftr v 24) 255)].

Definition put_le64 (v : Z) (out : bytes) : bytes :=
  foldl (fun o i => o ++ [u8 (Z.land (Z.shiftr v (8 * Z.of_nat i)) 255)]) out (seq 0 8).

Definition get_le32 (mem : bytes) (p : nat) : res Z :=
  p0 ← deref mem p;
  p1 ← deref mem (p + 1);
  p2 ← deref mem (p + 2);
  p3 ← deref mem (p + 3);
  Ok (Z.lor (Z.lor (Z.lor p0 (u32 (Z.shiftl p1 8))) (u32 (Z.shiftl p2 16)))
        (u32 (Z.shiftl p3 24))).

Fixpoint get_le64_loop (mem : bytes) (p : nat) (idx : list nat) (v : Z) : res Z :=
  match idx with
  | [] => Ok v
  | i :: idx' =>
      b ← deref mem (p + i);
      get_le64_loop mem p idx' (Z.lor v (u64 (Z.shiftl b (8 * Z.of_nat i))))
  end.

Definition get_le64 (mem : bytes) (p : nat) : res Z := get_le64_loop mem p (seq 0 8) 0.

End Utils.

Module Packet.

Record Header := mkHeader {
  reader_id : Z;
  door_id : Z;
  ts_unix_ms : Z;
  seqno : Z;
  key_version : Z;
  nonce : bytes;
}.

(** [Header{}] *)
Definition Header_default : Header := mkHeader 0 0 0 0 0 (replicate 24 0).

(** The values the C++ types can hold. *)
Record Header_ok (h : Header) : Prop := {
  reader_id_ok : is_u32 (reader_id h);
  door_id_ok : is_u32 (door_id h);
  ts_ok : is_u64 (ts_unix_ms h);
  seqno_ok : is_u64 (seqno h);
  key_version_ok : is_u32 (key_version h);
  nonce_ok : array_ok 24 (nonce h);
}.

Definition to_bytes (h : Header) : bytes :=
  let out := [] in
  let out := Utils.put_le32 (reader_id h) out in
  let out := Utils.put_le32 (door_id h) out in
  let out := Utils.put_le64 (ts_unix_ms h) out in
  let out := Utils.put_le64 (seqno h) out in
  let out := Utils.put_le32 (key_version h) out in
  out ++ nonce h.

#[global] Instance Header_eq_dec : EqDecision Header.
Proof. solve_decision. Defined.

#[global] Instance Header_ok_dec h : Decision (Header_ok h).
Proof.
  apply (iff_decision (P := is_u32 (reader_id h) /\ is_u32 (door_id h) /\ is_u64 (ts_unix_ms h) /\
    is_u64 (seqno h) /\ is_u32 (key_version h) /\ array_ok 24 (nonce h))).
  - split; [intros (?&?&?&?&?&?); by constructor | intros []; auto 10].
  - apply _.
Defined.

End Packet.

Module Frame.

Record Frame := mkFrame {
  header : Packet.Header;
  ct : bytes;
  tag : bytes;
}.

(** [Frame{}] *)
Definition Frame_default : Frame := mkFrame Packet.Header_default [] (replicate 16 0).

Record Frame_ok (f : Frame) : Prop := {
  header_ok : Packet.Header_ok (header f);
  ct_ok : bytes_ok (ct f);
  tag_ok : array_ok 16 (tag f);
}.

Definition kMagicSize : nat := 4.
Definition kMagic : bytes := bytes_of_string "AS01".
Definition kVersion : Z := 1.

Definition serialize (frame : Frame) : bytes :=
  let out := [] ++ kMagic in
  let out := out ++ [kVersion] in
  let out := Utils.put_le32 (Packet.reader_id (header frame)) out in
  let out := Utils.put_le32 (Packet.door_id (header frame)) out in
  let out := Utils.put_le64 (Packet.ts_unix_ms (header frame)) out in
  let out := Utils.put_le64 (Packet.seqno (header frame)) out in
  let out := Utils.put_le32 (Packet.key_version (header frame)) out in
  let out := out ++ Packet.nonce (header frame) in
  let out := Utils.put_le32 (u32 (Z.of_nat (length (ct frame)))) out in
  let out := out ++ ct frame in
  out ++ tag frame.

#[global] Instance Frame_eq_dec : EqDecision Frame.
Proof. solve_decision. Defined.

#[global] Instance Frame_ok_dec f : Decision (Frame_ok f).
Proof.
  apply (iff_decision (P := Packet.Header_ok (header f) /\ bytes_ok (ct f) /\ array_ok 16 (tag f))).
  - split; [intros (?&?&?); by constructor | intros []; auto].
  - apply _.
Defined.

End Frame.

Module FrameParser.
Import Frame.

(** ComputedValues *)
Definition kVersionSize : nat := 1.
Definition kU32 : nat := 4.
Definition kU64 : nat := 8.
Definition kHeaderFixedSize : nat := 3 * kU32 + 2 * kU64.
Definition kNonceSize : nat := 24.
Definition kTagSize : nat := 16.
Definition kCtLenSize : nat := kU32.
Definition kMinFrameSize : nat :=
  kMagicSize + kVersionSize + kHeaderFixedSize + kNonceSize + kCtLenSize + kTagSize.

(** [_end] is the length of [_bytes]. *)
Record FrameParser := mkParser {
  _bytes : bytes;
  _maxCtLen : Z;
  _ptr : nat;
  _frame : Frame;
}.

Definition FrameParser_new (bs : bytes) (maxCtLen : Z) : FrameParser :=
  mkParser bs maxCtLen 0 Frame_default.

Definition set_ptr (p : nat) (s : FrameParser) : FrameParser :=
  mkParser (_bytes s) (_maxCtLen s) p (_frame s).
Definition set_frame (f : Frame) (s : FrameParser) : FrameParser :=
  mkParser (_bytes s) (_maxCtLen s) (_ptr s) f.

(** [_ptr += n] *)
Definition advance (n : nat) : M FrameParser unit := modify (fun s => set_ptr (_ptr s + n) s).

(** [read_le<uint32_t>(_ptr)] and [read_le<uint64_t>(_ptr)] *)
Definition read_le32 : M FrameParser Z :=
  s ← get;
  v ← lift (Utils.get_le32 (_bytes s) (_ptr s));
  advance kU32 ;; mret v.
Definition read_le64 : M FrameParser Z :=
  s ← get;
  v ← lift (Utils.get_le64 (_bytes s) (_ptr s));
  advance kU64 ;; mret v.

(** Reading [n] bytes at [_ptr] and stepping over them. *)
Definition read_block (n : nat) : M FrameParser bytes :=
  s ← get;
  b ← lift (mem_read (_bytes s) (_ptr s) n);
  advance n ;; mret b.

Definition requireBytes (n : Z) (msg : string) : M FrameParser unit :=
  s ← get;
  if decide (u64 (Z.of_nat (length (_bytes s)) - Z.of_nat (_ptr s)) < n)
  then throw (runtime_error msg) else mret tt.

Definition validateMinSize : M FrameParser unit :=
  s ← get;
  if decide (length (_bytes s) < kMinFrameSize)%nat
  then throw (runtime_error "frame: too small") else mret tt.

Definition validateMagic : M FrameParser unit :=
  requireBytes (Z.of_nat kMagicSize) "frame: too small" ;;
  s ← get;
  m ← lift (mem_read (_bytes s) (_ptr s) kMagicSize);
  if decide (m = kMagic) then advance kMagicSize
  else throw (runtime_error "frame: bad magic").

Definition validateVersion : M FrameParser unit :=
  requireBytes (Z.of_nat kVersionSize) "frame: too small" ;;
  s ← get;
  ver ← lift (deref (_bytes s) (_ptr s));
  advance 1 ;;
  if decide (ver = kVersion) then mret tt
  else throw (runtime_error "frame: bad version").

Definition parseHeader : M FrameParser unit :=
  requireBytes (Z.of_nat (kHeaderFixedSize + kNonceSize + kCtLenSize)) "frame: too small" ;;
  rid ← read_le32;
  did ← read_le32;
  ts ← read_le64;
  sq ← read_le64;
  kv ← read_le32;
  n ← read_block kNonceSize;
  modify (fun s => set_frame
    (mkFrame (Packet.mkHeader rid did ts sq kv n) (ct (_frame s)) (tag (_frame s))) s).

Definition parseCiphertext : M FrameParser unit :=
  ctLen ← read_le32;
  s ← get;
  (if decide (_maxCtLen s < ctLen)
   then throw (runtime_error "frame: ctLen exceeds limit") else mret tt) ;;
  requireBytes (u64 (ctLen + Z.of_nat kTagSize)) "frame: length mismatch" ;;
  c ← read_block (Z.to_nat ctLen);
  modify (fun s => set_frame (mkFrame (header (_frame s)) c (tag (_frame s))) s).

Definition parseTag : M FrameParser unit :=
  t ← read_block kTagSize;
  modify (fun s => set_frame (mkFrame (header (_frame s)) (ct (_frame s)) t) s).

Definition validateNoTrailingBytes : M FrameParser unit :=
  s ← get;
  if decide (_ptr s = length (_bytes s)) then mret tt
  else throw (runtime_error "frame: trailing bytes").

Definition parse : M FrameParser Frame :=
  validateMinSize ;;
  validateMagic ;;
  validateVersion ;;
  parseHeader ;;
  parseCiphertext ;;
  parseTag ;;
  validateNoTrailingBytes ;;
  s ← get;
  mret (_frame s).

Definition parseFrame (bs : bytes) (maxCtLen : Z) : res Frame :=
  (parse (FrameParser_new bs maxCtLen)).2.

End FrameParser.

(** ** Examples (protocol_lib/tests/frame_test.cpp) *)

Definition test_frame : Frame.Frame :=
  Frame.mkFrame (Packet.mkHeader 1 2 1234 42 1 (replicate 24 171)) [1; 2; 3; 4; 5] (replicate 16 205).

Example frame_roundtrip_test :
  FrameParser.parseFrame (Frame.serialize test_frame) 4096 = Ok test_frame.
Proof. vm_compute. reflexivity. Qed.

Example frame_truncated_test :
  FrameParser.parseFrame (take 67 (Frame.serialize Frame.Frame_default)) 4096
  = Throw (runtime_error "frame: too small").
Proof. vm_compute. reflexivity. Qed.

(** ** Lemmas on the byte helpers *)

Lemma put_le32_le v out : Utils.put_le32 v out = out ++ le_bytes 4 v.
Proof. rewrite <- map_byte_at. unfold Utils.put_le32, byte_at. simpl. by rewrite Z.shiftr_0_r. Qed.

Lemma put_le64_le v out : Utils.put_le64 v out = out ++ le_bytes 8 v.
Proof.
  rewrite <- map_byte_at. unfold Utils.put_le64, byte_at.
  cbn [seq foldl map]. by rewrite <- !app_assoc.
Qed.

(** The bytes of [mem] at [off]. *)
Definition slice (mem : bytes) (off n : nat) : bytes := take n (drop off mem).

Lemma length_slice mem off n : (off + n <= length mem)%nat -> length (slice mem off n) = n.
Proof. intros H. unfold slice. rewrite length_take, length_drop. lia. Qed.

Lemma slice_ok mem off n : bytes_ok mem -> bytes_ok (slice mem off n).
Proof. unfold slice. auto with widths. Qed.

Lemma slice_S mem off n b :
  mem !! off = Some b -> slice mem off (S n) = b :: slice mem (S off) n.
Proof. intros H. unfold slice. by rewrite (drop_S mem b off H). Qed.

Lemma slice_here l r n : n = length l -> slice (l ++ r) 0 n = l.
Proof. intros ->. unfold slice. by rewrite drop_0, take_app_length. Qed.

Lemma slice_skip l r off n :
  (length l <= off)%nat -> slice (l ++ r) off n = slice r (off - length l) n.
Proof. intros H. unfold slice. by rewrite drop_app_ge. Qed.

Lemma slice_split mem off n : drop off mem = slice mem off n ++ drop (off + n) mem.
Proof. unfold slice. by rewrite <- (take_drop n (drop off mem)) at 1; rewrite drop_drop. Qed.

Lemma mem_read_slice mem p n :
  (p + n <= length mem)%nat -> mem_read mem p n = Ok (slice mem p n).
Proof. intros H. unfold mem_read, slice. by rewrite decide_True. Qed.

Lemma get_le32_slice mem p :
  bytes_ok mem -> (p + 4 <= length mem)%nat ->
  Utils.get_le32 mem p = Ok (le_value (slice mem p 4)).
Proof.
  intros Hok Hp.
  destruct (lookup_lt_is_Some_2 mem p) as [b0 H0]; [lia|].
  destruct (lookup_lt_is_Some_2 mem (p + 1)) as [b1 H1]; [lia|].
  destruct (lookup_lt_is_Some_2 mem (p + 2)) as [b2 H2]; [lia|].
  destruct (lookup_lt_is_Some_2 mem (p + 3)) as [b3 H3]; [lia|].
  pose proof (bytes_ok_lookup _ _ _ Hok H0) as O0. pose proof (bytes_ok_lookup _ _ _ Hok H1) as O1.
  pose proof (bytes_ok_lookup _ _ _ Hok H2) as O2. pose proof (bytes_ok_lookup _ _ _ Hok H3) as O3.
  unfold Utils.get_le32, deref. rewrite H0, H1, H2, H3. cbn [mbind res_bind].
  rewrite !Nat.add_succ_r, Nat.add_0_r in *.
  rewrite (slice_S _ _ _ _ H0), (slice_S _ _ _ _ H1), (slice_S _ _ _ _ H2), (slice_S _ _ _ _ H3).
  change (slice mem (S (S (S (S p)))) 0) with (@nil Z).
  rewrite <- or_bytes_0 by (repeat apply Forall_cons_2; done || apply Forall_nil_2).
  unfold is_u8 in *. simpl or_bytes.
  rewrite !(u32_id (Z.shiftl _ _)) by (unfold is_u32; rewrite Z.shiftl_mul_pow2; lia).
  by rewrite Z.shiftl_0_r.
Qed.

Lemma get_le64_loop_slice mem p n k v :
  bytes_ok mem -> (p + k + n <= length mem)%nat -> (k + n <= 8)%nat ->
  Utils.get_le64_loop mem p (seq k n) v = Ok (or_bytes v k (slice mem (p + k) n)).
Proof.
  intros Hok. revert k v. induction n as [|n IH]; intros k v Hp Hk; simpl; [done|].
  destruct (lookup_lt_is_Some_2 mem (p + k)) as [b Hb]; [lia|].
  pose proof (bytes_ok_lookup _ _ _ Hok Hb) as Ob.
  unfold deref. rewrite Hb. cbn [mbind res_bind]. rewrite IH by lia.
  rewrite (slice_S _ _ _ _ Hb). simpl. rewrite Nat.add_succ_r.
  rewrite u64_id; [done|]. unfold is_u64, is_u8 in *.
  rewrite Z.shiftl_mul_pow2 by lia. split; [lia|].
  apply Z.lt_le_trans with (2 ^ 8 * 2 ^ (8 * Z.of_nat k)); [nia|].
  rewrite <- Z.pow_add_r by lia. apply Z.pow_le_mono_r; lia.
Qed.

Lemma get_le64_slice mem p :
  bytes_ok mem -> (p + 8 <= length mem)%nat ->
  Utils.get_le64 mem p = Ok (le_value (slice mem p 8)).
Proof.
  intros Hok Hp. unfold Utils.get_le64. rewrite get_le64_loop_slice by lia || done.
  rewrite Nat.add_0_r, or_bytes_0 by (by apply slice_ok). done.
Qed.

Lemma to_bytes_le h :
  Packet.to_bytes h =
    le_bytes 4 (Packet.reader_id h) ++ le_bytes 4 (Packet.door_id h) ++
    le_bytes 8 (Packet.ts_unix_ms h) ++ le_bytes 8 (Packet.seqno h) ++
    le_bytes 4 (Packet.key_version h) ++ Packet.nonce h.
Proof.
  unfold Packet.to_bytes. rewrite !put_le32_le, !put_le64_le.
  by rewrite app_nil_l, <- !app_assoc.
Qed.

Lemma length_to_bytes h :
  Packet.Header_ok h -> length (Packet.to_bytes h) = 52%nat.
Proof.
  intros [_ _ _ _ _ [Hn _]]. rewrite to_bytes_le, !length_app, !length_le_bytes, Hn. done.
Qed.

Lemma to_bytes_ok h : Packet.Header_ok h -> bytes_ok (Packet.to_bytes h).
Proof.
  intros [_ _ _ _ _ [_ Hn]]. rewrite to_bytes_le.
  rewrite !bytes_ok_app. by repeat split; try apply le_bytes_ok.
Qed.

Lemma serialize_header frame :
  Frame.serialize frame =
    Frame.kMagic ++ [Frame.kVersion] ++ Packet.to_bytes (Frame.header frame) ++
    le_bytes 4 (u32 (Z.of_nat (length (Frame.ct frame)))) ++ Frame.ct frame ++ Frame.tag frame.
Proof.
  unfold Frame.serialize. rewrite to_bytes_le.
  rewrite !put_le32_le, !put_le64_le. by rewrite app_nil_l, <- !app_assoc.
Qed.

(** ** The parser, step by step *)

Module ParserFacts.
Import Frame FrameParser.

(** Linear arithmetic over the parser's size constants. *)
Ltac size_lia :=
  unfold kMinFrameSize, kHeaderFixedSize, kCtLenSize, kNonceSize, kTagSize, kU32, kU64,
    kVersionSize, kMagicSize in *; lia.

(** A span is a sequence of bytes whose length is a [size_t]. *)
Definition span_ok (bs : bytes) : Prop := bytes_ok bs /\ is_u64 (Z.of_nat (length bs)).
#[global] Instance span_ok_dec bs : Decision (span_ok bs).
Proof. unfold span_ok. apply _. Defined.

Section Steps.
Context (b : bytes) (m : Z) (Hb : span_ok b).
Implicit Types (p n : nat) (f : Frame).

Local Abbreviation st := (mkParser b m).

Lemma requireBytes_run n msg p f :
  (p <= length b)%nat ->
  requireBytes (Z.of_nat n) msg (st p f) =
    (st p f, if decide (p + n <= length b)%nat then Ok tt else Throw (runtime_error msg)).
Proof.
  intros Hp. destruct Hb as [_ Hl]. unfold requireBytes, get, throw.
  cbv [mbind M_bind mret M_ret]. cbn [_bytes _ptr].
  rewrite u64_id by (unfold is_u64 in *; lia).
  repeat case_decide; try done; lia.
Qed.

Lemma read_block_run n p f :
  (p + n <= length b)%nat ->
  read_block n (st p f) = (st (p + n) f, Ok (slice b p n)).
Proof.
  intros Hp. unfold read_block, get, lift, advance, modify.
  cbv [mbind M_bind mret M_ret]. cbn [_bytes _ptr]. by rewrite mem_read_slice.
Qed.

Lemma read_le32_run p f :
  (p + 4 <= length b)%nat ->
  read_le32 (st p f) = (st (p + 4) f, Ok (le_value (slice b p 4))).
Proof.
  intros Hp. destruct Hb as [Hok _]. unfold read_le32, get, lift, advance, modify.
  cbv [mbind M_bind mret M_ret]. cbn [_bytes _ptr]. by rewrite get_le32_slice.
Qed.

Lemma read_le64_run p f :
  (p + 8 <= length b)%nat ->
  read_le64 (st p f) = (st (p + 8) f, Ok (le_value (slice b p 8))).
Proof.
  intros Hp. destruct Hb as [Hok _]. unfold read_le64, get, lift, advance, modify.
  cbv [mbind M_bind mret M_ret]. cbn [_bytes _ptr]. by rewrite get_le64_slice.
Qed.

Lemma validateMagic_run f :
  (4 <= length b)%nat ->
  validateMagic (st 0 f) =
    (if decide (slice b 0 4 = kMagic) then (st 4 f, Ok tt)
     else (st 0 f, Throw (runtime_error "frame: bad magic"))).
Proof.
  intros Hl. unfold validateMagic.
  rewrite (M_bind_ok _ _ _ (st 0 f) tt).
  2:{ rewrite (requireBytes_run 4), decide_True; [done|lia..]. }
  unfold get, lift. cbv [mbind M_bind]. cbn [_bytes _ptr].
  rewrite mem_read_slice by done. change kMagicSize with 4%nat. by case_decide.
Qed.

Lemma validateVersion_run p f :
  (p + 1 <= length b)%nat ->
  validateVersion (st p f) =
    (st (p + 1) f, if decide (slice b p 1 = [kVersion]) then Ok tt
                   else Throw (runtime_error "frame: bad version")).
Proof.
  intros Hl. unfold validateVersion.
  rewrite (M_bind_ok _ _ _ (st p f) tt).
  2:{ rewrite (requireBytes_run 1), decide_True; [done|lia..]. }
  destruct (lookup_lt_is_Some_2 b p) as [v Hv]; [lia|].
  unfold get, lift, advance, modify, deref. cbv [mbind M_bind]. cbn [_bytes _ptr].
  rewrite Hv, (slice_S _ _ _ _ Hv). unfold set_ptr; cbn.
  destruct (decide (v = kVersion)) as [->|Hne]; [by rewrite decide_True|].
  rewrite decide_False by congruence. done.
Qed.

Definition header_at p : Packet.Header :=
  Packet.mkHeader (le_value (slice b p 4)) (le_value (slice b (p + 4) 4))
    (le_value (slice b (p + 8) 8)) (le_value (slice b (p + 16) 8))
    (le_value (slice b (p + 24) 4)) (slice b (p + 28) 24).

(** Evaluate the reads at the head of a parsing method. *)
Ltac run_reads :=
  repeat match goal with
  | |- context [(read_le32 ≫= ?k) (mkParser _ _ ?p ?f)] =>
      rewrite (M_bind_ok _ k _ _ _ (read_le32_run p f ltac:(lia))); cbn beta
  | |- context [(read_le64 ≫= ?k) (mkParser _ _ ?p ?f)] =>
      rewrite (M_bind_ok _ k _ _ _ (read_le64_run p f ltac:(lia))); cbn beta
  | |- context [(read_block ?n ≫= ?k) (mkParser _ _ ?p ?f)] =>
      rewrite (M_bind_ok _ k _ _ _ (read_block_run n p f ltac:(size_lia))); cbn beta
  end.

Lemma parseHeader_run p f :
  (p + 56 <= length b)%nat ->
  parseHeader (st p f) =
    (st (p + 52) (mkFrame (header_at p) (ct f) (tag f)), Ok tt).
Proof.
  intros Hl. unfold parseHeader.
  rewrite (M_bind_ok _ _ _ (st p f) tt).
  2:{ rewrite (requireBytes_run 56), decide_True; [done|lia..]. }
  run_reads. unfold modify, set_frame, header_at; cbn [_bytes _maxCtLen _ptr _frame].
  change kNonceSize with 24%nat. rewrite <- !Nat.add_assoc. done.
Qed.

(** The value of the 4-byte length field at offset 57. *)
Definition ctLen_at : Z := le_value (slice b 57 4).

Lemma ctLen_bound : 0 <= ctLen_at < 2 ^ 32.
Proof.
  destruct Hb as [Hok _]. unfold ctLen_at.
  pose proof (le_value_bound _ (slice_ok b 57 4 Hok)) as H.
  assert (length (slice b 57 4) <= 4)%nat by (unfold slice; rewrite length_take; lia).
  assert (256 ^ Z.of_nat (length (slice b 57 4)) <= 256 ^ 4) by (apply Z.pow_le_mono_r; lia).
  lia.
Qed.

Lemma parseCiphertext_run f :
  (61 <= length b)%nat ->
  (parseCiphertext (st 57 f)).2 =
    (if decide (m < ctLen_at) then Throw (runtime_error "frame: ctLen exceeds limit")
     else if decide (61 + Z.to_nat ctLen_at + 16 <= length b)%nat then Ok tt
     else Throw (runtime_error "frame: length mismatch")) /\
  (m >= ctLen_at -> (61 + Z.to_nat ctLen_at + 16 <= length b)%nat ->
   (parseCiphertext (st 57 f)).1 =
     st (61 + Z.to_nat ctLen_at) (mkFrame (header f) (slice b 61 (Z.to_nat ctLen_at)) (tag f))).
Proof.
  intros Hl. pose proof ctLen_bound as HL. unfold parseCiphertext. run_reads.
  change (le_value (slice b 57 4)) with ctLen_at. change (57 + 4)%nat with 61%nat.
  unfold get, throw. cbv [mbind M_bind mret M_ret]. cbn [_maxCtLen].
  case_decide; [split; [done|lia]|].
  replace (u64 (ctLen_at + Z.of_nat kTagSize)) with (Z.of_nat (Z.to_nat ctLen_at + 16))
    by (rewrite u64_id; [|unfold is_u64]; size_lia).
  rewrite requireBytes_run, Nat.add_assoc by done.
  case_decide; [|split; [done|lia]].
  rewrite read_block_run by lia. unfold modify, set_frame; cbn. done.
Qed.

End Steps.
End ParserFacts.

(** ** The format as a decision table

    [parse_spec] says what a byte sequence parses to without any cursor: the
    first check that fails names the error. *)

Module WireSpec.
Import Frame FrameParser ParserFacts.

(** The frame whose fields sit at the fixed offsets of [bs]. *)
Definition frame_at (bs : bytes) : Frame :=
  mkFrame (header_at bs 5) (slice bs 61 (Z.to_nat (ctLen_at bs)))
    (slice bs (61 + Z.to_nat (ctLen_at bs)) 16).

Definition parse_spec (bs : bytes) (maxCtLen : Z) : res Frame :=
  let total := (61 + Z.to_nat (ctLen_at bs) + 16)%nat in
  if decide (length bs < 77)%nat then Throw (runtime_error "frame: too small")
  else if decide (slice bs 0 4 <> kMagic) then Throw (runtime_error "frame: bad magic")
  else if decide (slice bs 4 1 <> [kVersion]) then Throw (runtime_error "frame: bad version")
  else if decide (maxCtLen < ctLen_at bs) then Throw (runtime_error "frame: ctLen exceeds limit")
  else if decide (length bs < total)%nat then Throw (runtime_error "frame: length mismatch")
  else if decide (total < length bs)%nat then Throw (runtime_error "frame: trailing bytes")
  else Ok (frame_at bs).

Lemma parseFrame_spec bs maxCtLen :
  span_ok bs -> parseFrame bs maxCtLen = parse_spec bs maxCtLen.
Proof.
  intros Hbs. unfold parseFrame, parse, parse_spec, FrameParser_new.
  unfold validateMinSize at 1. change kMinFrameSize with 77%nat.
  unfold get, throw. cbv [mbind M_bind mret M_ret]. cbn [_bytes].
  case_decide as Hmin; [done|].
  rewrite validateMagic_run by (done || lia).
  destruct (decide (slice bs 0 4 = kMagic)) as [Hm|Hm];
    [rewrite decide_False by auto | by rewrite decide_True].
  rewrite validateVersion_run by (done || lia).
  destruct (decide (slice bs 4 1 = [kVersion])) as [Hv|Hv];
    [rewrite decide_False by auto | by rewrite decide_True].
  rewrite parseHeader_run by (done || lia).
  change (4 + 1 + 52)%nat with 57%nat. change (4 + 1)%nat with 5%nat.
  destruct (parseCiphertext_run bs maxCtLen Hbs
    (mkFrame (header_at bs 5) (ct Frame_default) (tag Frame_default))) as [Hr Hs]; [lia|].
  destruct (parseCiphertext _) as [s r] eqn:E. cbn [fst snd] in Hr, Hs. subst r. clear E.
  case_decide; [done|].
  destruct (decide (61 + Z.to_nat (ctLen_at bs) + 16 <= length bs)%nat) as [Hle|Hle];
    [rewrite decide_False by lia | by rewrite decide_True by lia].
  rewrite Hs by lia. unfold parseTag.
  rewrite (M_bind_ok _ _ _ _ _ (read_block_run _ _ 16 _ _ Hle)).
  unfold modify, set_frame, validateNoTrailingBytes, get, throw.
  cbv [mbind M_bind mret M_ret]. cbn [_bytes _ptr _frame].
  repeat case_decide; try done; lia.
Qed.

(** The fields of a serialized frame, in order. *)
Definition fields (f : Frame) : list bytes :=
  [kMagic; [kVersion]; le_bytes 4 (Packet.reader_id (header f)); le_bytes 4 (Packet.door_id (header f));
   le_bytes 8 (Packet.ts_unix_ms (header f)); le_bytes 8 (Packet.seqno (header f));
   le_bytes 4 (Packet.key_version (header f)); Packet.nonce (header f);
   le_bytes 4 (Z.of_nat (length (ct f))); ct f; tag f].

Lemma serialize_fields f :
  is_u32 (Z.of_nat (length (ct f))) -> serialize f = concat (fields f).
Proof.
  intros Hl. rewrite serialize_header, to_bytes_le, u32_id by done.
  unfold fields. cbn [concat]. by rewrite app_nil_r, <- !app_assoc.
Qed.

(** Cutting a field out of a concatenation. *)
Lemma slice_concat (ls : list bytes) i l off n :
  ls !! i = Some l -> off = length (concat (take i ls)) -> n = length l ->
  slice (concat ls) off n = l.
Proof.
  intros Hi -> ->. rewrite <- (take_drop_middle ls i l Hi) at 1.
  rewrite concat_app. cbn [concat]. rewrite slice_skip, Nat.sub_diag by done.
  by apply slice_here.
Qed.

Section Serialized.
Context (f : Frame) (Hf : Frame_ok f) (Hlen : is_u32 (Z.of_nat (length (ct f)))).

Lemma nonce_length : length (Packet.nonce (header f)) = 24%nat.
Proof. apply Hf. Qed.
Lemma tag_length : length (tag f) = 16%nat.
Proof. apply Hf. Qed.

(** Cut field [i] of [serialize f]. *)
Ltac cut i :=
  rewrite ?serialize_fields by done;
  rewrite (slice_concat (fields f) i _ _ _ eq_refl)
    by (unfold fields; cbn [take concat];
        rewrite ?length_app, ?length_le_bytes, ?nonce_length, ?tag_length; simpl; lia);
  rewrite ?le_value_bytes, ?Z.mod_small by (done || apply Hf).

Lemma serialize_length : length (serialize f) = (61 + length (ct f) + 16)%nat.
Proof.
  rewrite serialize_fields by done. unfold fields. cbn [concat].
  rewrite !length_app, !length_le_bytes, nonce_length, tag_length. simpl. lia.
Qed.

Lemma serialize_ctLen : ctLen_at (serialize f) = Z.of_nat (length (ct f)).
Proof. unfold ctLen_at. by cut 8%nat. Qed.

Lemma serialize_prefix :
  slice (serialize f) 0 4 = kMagic /\ slice (serialize f) 4 1 = [kVersion].
Proof. split; [by cut 0%nat | by cut 1%nat]. Qed.

Lemma serialize_header_at : header_at (serialize f) 5 = header f.
Proof.
  unfold header_at. cbn [Nat.add].
  cut 2%nat. cut 3%nat. cut 4%nat. cut 5%nat. cut 6%nat. cut 7%nat. by destruct (header f).
Qed.

Lemma serialize_frame_at : frame_at (serialize f) = f.
Proof.
  unfold frame_at. rewrite serialize_header_at, serialize_ctLen, Nat2Z.id.
  cut 9%nat. cut 10%nat. by destruct f.
Qed.

Lemma serialize_span_ok : span_ok (serialize f).
Proof.
  destruct Hf as [Hh Hc [_ Ht]]. split.
  - rewrite serialize_header, !bytes_ok_app.
    repeat split; auto using to_bytes_ok, le_bytes_ok.
    + apply bytes_of_string_ok.
    + by repeat constructor.
  - rewrite serialize_length. unfold is_u32, is_u64 in *. lia.
Qed.

Lemma parse_serialize maxCtLen :
  Z.of_nat (length (ct f)) <= maxCtLen -> parseFrame (serialize f) maxCtLen = Ok f.
Proof.
  intros Hm. rewrite parseFrame_spec by apply serialize_span_ok. unfold parse_spec.
  destruct serialize_prefix as [Hp1 Hp2].
  rewrite Hp1, Hp2, serialize_ctLen, serialize_length, serialize_frame_at, Nat2Z.id.
  repeat (rewrite decide_False by (lia || tauto)). done.
Qed.
End Serialized.

(** What a successful parse implies. *)
Lemma parse_inv bs maxCtLen f :
  span_ok bs -> parseFrame bs maxCtLen = Ok f ->
  length bs = (61 + Z.to_nat (ctLen_at bs) + 16)%nat /\ slice bs 0 4 = kMagic /\
  slice bs 4 1 = [kVersion] /\ ctLen_at bs <= maxCtLen /\ f = frame_at bs.
Proof.
  intros Hbs H. rewrite parseFrame_spec in H by done. unfold parse_spec in H.
  repeat (case_decide; [discriminate|]). injection H as <-.
  split_and!; try lia; try done; by apply dec_stable.
Qed.

Lemma frame_at_ok bs :
  bytes_ok bs -> length bs = (61 + Z.to_nat (ctLen_at bs) + 16)%nat -> Frame_ok (frame_at bs).
Proof.
  intros Hb Hl.
  assert (forall off n, (off + n <= length bs)%nat ->
    0 <= le_value (slice bs off n) < 256 ^ Z.of_nat n) as Hv.
  { intros off n H. pose proof (le_value_bound _ (slice_ok bs off n Hb)) as Hv.
    by rewrite length_slice in Hv. }
  split; [split|..]; cbn [frame_at header_at header ct tag Packet.reader_id Packet.door_id
    Packet.ts_unix_ms Packet.seqno Packet.key_version Packet.nonce];
    try (apply (Hv _ 4%nat) || apply (Hv _ 8%nat); lia);
    try (by apply slice_ok); (split; [apply length_slice; lia | by apply slice_ok]).
Qed.

(** A parsed frame re-serializes to the bytes it came from. *)
Lemma serialize_parse bs maxCtLen f :
  span_ok bs -> parseFrame bs maxCtLen = Ok f -> serialize f = bs.
Proof.
  intros Hbs H. destruct (parse_inv _ _ _ Hbs H) as (Hl & Hm & Hv & _ & ->).
  pose proof (ctLen_bound bs Hbs) as HL. destruct Hbs as [Hb _].
  assert (length (ct (frame_at bs)) = Z.to_nat (ctLen_at bs)) as Hct
    by (apply length_slice; lia).
  rewrite serialize_fields by (rewrite Hct; unfold is_u32; lia).
  assert (forall off n, (off + n <= length bs)%nat ->
    le_bytes n (le_value (slice bs off n)) = slice bs off n) as Hc.
  { intros off n Ho. pose proof (le_bytes_value _ (slice_ok bs off n Hb)) as Hw.
    by rewrite length_slice in Hw. }
  unfold fields. rewrite Hct, Z2Nat.id by lia. unfold frame_at, header_at.
  cbn [header ct tag Packet.reader_id Packet.door_id Packet.ts_unix_ms Packet.seqno
    Packet.key_version Packet.nonce Nat.add concat].
  assert (le_bytes 4 (ctLen_at bs) = slice bs 57 4) as -> by (apply Hc; lia).
  rewrite !Hc by lia. rewrite <- Hm, <- Hv. symmetry. transitivity (drop 0 bs); [done|].
  do 11 (etransitivity; [apply slice_split|]; apply (f_equal2 app); [reflexivity|]).
  apply drop_ge. lia.
Qed.
End WireSpec.

(** ** Properties of protocol_lib *)

Module WireProps.
Import Frame FrameParser ParserFacts WireSpec.

(** C33: parsing is the decision table [parse_spec] on every input: the parser
    reads only inside the buffer (no [Fault]), returns a frame or throws one of
    the six format errors, and the error thrown is that of the first failing
    check, whatever bytes arrive from the network. *)
Theorem parseFrame_decision_table (bs : bytes) (maxCtLen : Z) :
  span_ok bs ->
  parseFrame bs maxCtLen = parse_spec bs maxCtLen /\ parseFrame bs maxCtLen <> Fault.
Proof.
  intros Hbs. split; [by apply parseFrame_spec|]. rewrite parseFrame_spec by done.
  unfold parse_spec. by repeat case_decide.
Qed.

Lemma parseFrame_decision_table_witness :
  span_ok (serialize test_frame) /\
  parseFrame (serialize test_frame) 4 = Throw (runtime_error "frame: ctLen exceeds limit").
Proof.
  assert (span_ok (serialize test_frame)) as H by by_decision.
  split; [exact H|]. rewrite (proj1 (parseFrame_decision_table _ 4 H)). vm_compute. reflexivity.
Defined.

(** C31: what [serialize] writes, [parseFrame] reads back: every frame whose
    fields fit their C++ types and whose ciphertext is within the limit. *)
Theorem serialize_parse_roundtrip (f : Frame) (maxCtLen : Z) :
  Frame_ok f -> is_u32 maxCtLen -> Z.of_nat (length (ct f)) <= maxCtLen ->
  parseFrame (serialize f) maxCtLen = Ok f.
Proof.
  intros Hf Hm Hl. apply parse_serialize; [done| |done]. unfold is_u32 in *. lia.
Qed.

Lemma test_frame_ok : Frame_ok test_frame.
Proof. by_decision. Qed.

Lemma serialize_parse_roundtrip_witness :
  parseFrame (serialize test_frame) 4096 = Ok test_frame.
Proof.
  apply serialize_parse_roundtrip; by_decision.
Defined.

(** C32: the wire format is canonical: an accepted byte sequence is exactly the
    serialization of the frame it parses to, and that frame is well-formed and
    within the limit. Two different byte sequences never parse to one frame, so
    the replay window and the AEAD see everything that was on the wire. *)
Theorem parse_canonical (bs : bytes) (maxCtLen : Z) (f : Frame) :
  span_ok bs -> parseFrame bs maxCtLen = Ok f ->
  serialize f = bs /\ Frame_ok f /\ Z.of_nat (length (ct f)) <= maxCtLen.
Proof.
  intros Hbs H. split; [by eapply serialize_parse|].
  destruct (parse_inv _ _ _ Hbs H) as (Hl & _ & _ & Hm & ->).
  pose proof (ctLen_bound bs Hbs). split; [apply frame_at_ok; [apply Hbs|done]|].
  unfold frame_at; cbn [ct]. rewrite length_slice by lia. lia.
Qed.

Lemma parse_canonical_witness :
  serialize test_frame = serialize test_frame /\ Frame_ok test_frame /\
  Z.of_nat (length (ct test_frame)) <= 4096.
Proof.
  apply (parse_canonical (serialize test_frame) 4096 test_frame);
    [by_decision | vm_compute; reflexivity].
Defined.

End WireProps.
