(* ===== verification/Replay.v ===== *)
(** protocol_lib/replay_window: the sliding window that rejects replayed
    sequence numbers, its invariant, and its refinement of a specification
    over the history of accepted numbers. *)
From Stdlib Require Import ZArith Lia Sorted.
From stdpp Require Import base option list gmap sorting.
From S2P Require Import Prelude.
Local Open Scope Z_scope.

Module ReplayWindow.

Record ReplayWindow := mkReplayWindow {
  _window : Z;
  _maxSeen : Z;
  _seen : gset Z;
  _order : list Z;
}.

(** [ReplayWindow(window)] *)
Definition ReplayWindow_new (window : Z) : ReplayWindow := mkReplayWindow window 0 ∅ [].

Definition isTooOld (w : ReplayWindow) (seq : Z) : bool :=
  if decide (_maxSeen w = 0) then false
  else if decide (_maxSeen w < _window w) then false
  else bool_decide (seq <= u64 (_maxSeen w - _window w)).

Definition isAlreadySeen (w : ReplayWindow) (seq : Z) : bool := bool_decide (seq ∈ _seen w).

Definition contains (w : ReplayWindow) (seq : Z) : bool :=
  isTooOld w seq || bool_decide (seq ∈ _seen w).

Definition evictOldestIfFull (w : ReplayWindow) : ReplayWindow :=
  if decide (_window w < Z.of_nat (length (_order w))) then
    match _order w with
    | front :: rest => mkReplayWindow (_window w) (_maxSeen w) (_seen w ∖ {[front]}) rest
    | [] => w
    end
  else w.

Definition remember (w : ReplayWindow) (seq : Z) : ReplayWindow :=
  if contains w seq then w
  else
    let maxSeen := if decide (_maxSeen w < seq) then seq else _maxSeen w in
    evictOldestIfFull
      (mkReplayWindow (_window w) maxSeen ({[seq]} ∪ _seen w) (_order w ++ [seq])).

Definition accept (w : ReplayWindow) (seq : Z) : ReplayWindow * bool :=
  if contains w seq then (w, false) else (remember w seq, true).

(** Feeding a sequence of numbers: the verdicts, and the final window. *)
Fixpoint accept_all (w : ReplayWindow) (ss : list Z) : ReplayWindow * list bool :=
  match ss with
  | [] => (w, [])
  | s :: ss' =>
      let '(w1, b) := accept w s in
      let '(w2, bs) := accept_all w1 ss' in
      (w2, b :: bs)
  end.

End ReplayWindow.

(** ** Specification over the history of accepted numbers *)

Module ReplaySpec.
Import ReplayWindow.

(** The newest [n] entries of a history (oldest first). *)
Definition newest (n : Z) (h : list Z) : list Z := drop (length h - Z.to_nat n) h.

Definition highest (h : list Z) : Z := foldr Z.max 0 h.

(** Too far below the highest accepted number, or among the [W] numbers
    accepted last. *)
Definition spec_contains (W : Z) (h : list Z) (s : Z) : bool :=
  bool_decide (highest h <> 0 /\ W <= highest h /\ s <= highest h - W) ||
  bool_decide (s ∈ newest W h).

Fixpoint spec_accept_all (W : Z) (h : list Z) (ss : list Z) : list Z * list bool :=
  match ss with
  | [] => (h, [])
  | s :: ss' =>
      let b := negb (spec_contains W h s) in
      let '(h', bs) := spec_accept_all W (if b then h ++ [s] else h) ss' in
      (h', b :: bs)
  end.

(** The window [w] represents the history [h]. *)
Record represents (w : ReplayWindow) (h : list Z) : Prop := {
  rep_window : is_u64 (_window w);
  rep_max : _maxSeen w = highest h;
  rep_order : _order w = newest (_window w) h;
  rep_seen : _seen w = list_to_set (_order w);
  rep_nodup : NoDup (_order w);
  rep_range : Forall is_u64 h;
}.

(** The invariant of the data structure alone: the set and the queue hold the
    same numbers, without repetition, at most [_window] of them, none above
    [_maxSeen]. *)
Record window_ok (w : ReplayWindow) : Prop := {
  ok_window : is_u64 (_window w);
  ok_seen : _seen w = list_to_set (_order w);
  ok_nodup : NoDup (_order w);
  ok_length : Z.of_nat (length (_order w)) <= _window w;
  ok_max : Forall (fun s => s <= _maxSeen w) (_order w);
  ok_max_range : is_u64 (_maxSeen w);
}.

(** What a window made with the size [B] keeps in memory. *)
Record compact (B : Z) (w : ReplayWindow) : Prop := {
  cp_window : _window w = B;
  cp_seen : _seen w = list_to_set (_order w);
  cp_nodup : NoDup (_order w);
  cp_length : Z.of_nat (length (_order w)) <= Z.max 0 B;
}.

(** An in-order sender under replay: each number submitted is either above all
    the earlier ones or a repetition of one of them. *)
Fixpoint in_order (before ss : list Z) : Prop :=
  match ss with
  | [] => True
  | s :: ss' => (s ∈ before \/ Forall (fun t => t < s) before) /\ in_order (before ++ [s]) ss'
  end.

(** Exactly the first occurrences are accepted. *)
Fixpoint first_occurrences (before ss : list Z) : list bool :=
  match ss with
  | [] => []
  | s :: ss' => bool_decide (s ∉ before) :: first_occurrences (before ++ [s]) ss'
  end.

End ReplaySpec.

(** ** Lemmas *)

Module ReplayFacts.
Import ReplayWindow ReplaySpec.

Lemma highest_nonneg h : 0 <= highest h.
Proof. induction h; simpl; lia. Qed.

Lemma highest_snoc h s : highest (h ++ [s]) = Z.max (highest h) s.
Proof. induction h as [|a h IH]; simpl; [lia|]. unfold highest in *. rewrite IH. lia. Qed.

Lemma highest_range h : Forall is_u64 h -> is_u64 (highest h).
Proof. unfold is_u64. induction 1; simpl; lia. Qed.

Lemma highest_ge h s : s ∈ h -> s <= highest h.
Proof. induction 1; simpl; lia. Qed.

Lemma newest_subseteq n h : newest n h ⊆ h.
Proof. intros s. unfold newest. apply subseteq_drop. Qed.

Lemma length_newest n h : 0 <= n -> Z.of_nat (length (newest n h)) = Z.min n (Z.of_nat (length h)).
Proof. intros Hn. unfold newest. rewrite length_drop. lia. Qed.

(** Appending one entry: nothing leaves while there is room, then the oldest. *)
Lemma newest_snoc n h s :
  0 <= n ->
  newest n (h ++ [s]) =
    if decide (n < Z.of_nat (length (newest n h ++ [s])))
    then tail (newest n h ++ [s]) else newest n h ++ [s].
Proof.
  intros Hn. pose proof (length_newest n h Hn) as Hl.
  rewrite length_app. cbn [length]. unfold newest in *. rewrite length_app. cbn [length].
  case_decide as Hc.
  - rewrite <- drop_app_le by lia. change (@tail Z) with (@drop Z 1) || idtac.
    replace (length h + 1 - Z.to_nat n)%nat with ((length h - Z.to_nat n) + 1)%nat by lia.
    rewrite <- drop_drop. by destruct (drop _ (h ++ [s])).
  - rewrite drop_app_le by lia.
    by replace (length h + 1 - Z.to_nat n)%nat with (length h - Z.to_nat n)%nat by lia.
Qed.

Lemma represents_new W : is_u64 W -> represents (ReplayWindow_new W) [].
Proof. intros HW. by split; [..|apply NoDup_nil_2|apply Forall_nil_2]. Qed.

Lemma isTooOld_spec w h s :
  represents w h ->
  isTooOld w s =
    bool_decide (highest h <> 0 /\ _window w <= highest h /\ s <= highest h - _window w).
Proof.
  intros []. unfold isTooOld. rewrite rep_max0. pose proof (highest_range h rep_range0).
  unfold is_u64 in *.
  case_decide; [by rewrite bool_decide_false by lia|].
  case_decide; [by rewrite bool_decide_false by lia|].
  rewrite u64_id by (unfold is_u64; lia). apply bool_decide_ext. lia.
Qed.

Lemma contains_spec w h s : represents w h -> contains w s = spec_contains (_window w) h s.
Proof.
  intros Hr. unfold contains, spec_contains. rewrite (isTooOld_spec w h s Hr). f_equal.
  destruct Hr. apply bool_decide_ext. rewrite rep_seen0, rep_order0. apply elem_of_list_to_set.
Qed.

Lemma seen_snoc (o : list Z) (s : Z) :
  {[s]} ∪ list_to_set o = list_to_set (o ++ [s]) :> gset Z.
Proof. set_solver. Qed.

Lemma seen_tail (o : list Z) (a : Z) :
  a ∉ o -> (list_to_set (a :: o) : gset Z) ∖ {[a]} = list_to_set o.
Proof. set_solver. Qed.

(** Recording a number the window does not contain appends it to the history. *)
Lemma remember_fresh w h s :
  represents w h -> is_u64 s -> contains w s = false -> represents (remember w s) (h ++ [s]).
Proof.
  intros Hr Hs Hc. unfold remember. rewrite Hc.
  unfold contains in Hc. apply orb_false_iff in Hc as [_ Hc]. apply bool_decide_eq_false in Hc.
  destruct Hr. rewrite rep_seen0 in Hc. rewrite elem_of_list_to_set in Hc.
  assert (NoDup (_order w ++ [s])) as Hnd.
  { apply NoDup_app. split_and!; [done|by intros x Hx ->%list_elem_of_singleton|apply NoDup_singleton]. }
  assert ((if decide (_maxSeen w < s) then s else _maxSeen w) = highest (h ++ [s])) as ->.
  { rewrite highest_snoc, rep_max0. case_decide; lia. }
  assert (Forall is_u64 (h ++ [s])) by (by apply Forall_app_2; [|apply Forall_singleton]).
  unfold evictOldestIfFull. cbn [_window _order _maxSeen _seen].
  pose proof (newest_snoc (_window w) h s) as Hn. rewrite <- rep_order0 in Hn.
  unfold is_u64 in rep_window0.
  case_decide as Hf.
  - destruct (_order w ++ [s]) as [|a o] eqn:Eo; [by destruct (_order w)|].
    apply NoDup_cons in Hnd as [Ha Hnd].
    split; cbn [_window _order _maxSeen _seen]; try done.
    + symmetry. apply Hn; lia.
    + rewrite rep_seen0, seen_snoc, Eo. by apply seen_tail.
  - split; cbn [_window _order _maxSeen _seen]; try done.
    + symmetry. apply Hn; lia.
    + rewrite rep_seen0. apply seen_snoc.
Qed.

(** The memory of a window is bounded, whatever numbers it is given. *)
Lemma compact_new B : compact B (ReplayWindow_new B).
Proof. split; [done..|apply NoDup_nil_2|cbn; lia]. Qed.

Lemma compact_remember B w s : compact B w -> compact B (remember w s).
Proof.
  intros [Hw Hse Hnd Hl]. unfold remember. destruct (contains w s) eqn:Hc; [done|].
  apply orb_false_iff in Hc as [_ Hc%bool_decide_eq_false].
  rewrite Hse, elem_of_list_to_set in Hc.
  assert (NoDup (_order w ++ [s])) as Hnd'.
  { apply NoDup_app. split_and!; [done|by intros x Hx ->%list_elem_of_singleton|apply NoDup_singleton]. }
  assert (length (_order w ++ [s]) = S (length (_order w))) as Hl' by (rewrite length_app; cbn; lia).
  unfold evictOldestIfFull. cbn [_window _order _maxSeen _seen]. rewrite Hse, seen_snoc.
  case_decide; [|by split; cbn; [..|lia]].
  destruct (_order w ++ [s]) as [|a o] eqn:Eo; [done|]. apply NoDup_cons in Hnd' as [Ha Hnd'].
  split; cbn [_window _order _maxSeen _seen] in *; [done|by apply seen_tail|done|cbn in Hl'; lia].
Qed.

Lemma remember_window w s : _window (remember w s) = _window w.
Proof.
  unfold remember, evictOldestIfFull. repeat (case_match; simpl; try done).
Qed.

Lemma accept_spec w h s :
  represents w h -> is_u64 s ->
  (accept w s).2 = negb (spec_contains (_window w) h s) /\
  represents (accept w s).1
    (if negb (spec_contains (_window w) h s) then h ++ [s] else h).
Proof.
  intros Hr Hs. unfold accept. rewrite <- (contains_spec w h s Hr).
  destruct (contains w s) eqn:E; simpl; [done|]. split; [done|]. by apply remember_fresh.
Qed.

Lemma accept_window w s : _window (accept w s).1 = _window w.
Proof. unfold accept. case_match; [done|apply remember_window]. Qed.

Lemma accept_all_spec ss w h :
  represents w h -> Forall is_u64 ss ->
  let spec := spec_accept_all (_window w) h ss in
  represents (accept_all w ss).1 spec.1 /\ (accept_all w ss).2 = spec.2.
Proof.
  intros Hr Hss. revert w h Hr. induction Hss as [|s ss Hs _ IH]; intros w h Hr; simpl; [done|].
  destruct (accept_spec w h s Hr Hs) as [Hb Hr1]. pose proof (accept_window w s) as Hw.
  destruct (accept w s) as [w1 b]. cbn [fst snd] in *. subst b.
  specialize (IH _ _ Hr1). rewrite Hw in IH.
  destruct (accept_all w1 ss) as [w2 bs], (spec_accept_all _ _ ss) as [h2 cs].
  cbn [fst snd] in *. destruct IH as [H1 ->]. done.
Qed.

(** What [represents] says of the data structure alone. *)
Lemma represents_ok w h : represents w h -> window_ok w.
Proof.
  intros []. pose proof (highest_range h rep_range0). split; try done.
  - rewrite rep_order0, length_newest by apply rep_window0. lia.
  - rewrite rep_order0, rep_max0. apply Forall_forall. intros s Hs.
    by eapply highest_ge, newest_subseteq.
  - by rewrite rep_max0.
Qed.

Lemma newest_all n h : Z.of_nat (length h) <= n -> newest n h = h.
Proof. intros H. unfold newest. by replace (length h - Z.to_nat n)%nat with 0%nat by lia. Qed.

Lemma newest_last n h s : 1 <= n -> s ∈ newest n (h ++ [s]).
Proof.
  intros Hn. rewrite newest_snoc by lia.
  case_decide as H; [|set_solver]. destruct (newest n h) eqn:E; [simpl in H; lia|].
  simpl. set_solver.
Qed.

(** A number just recorded is contained, when the window has room for one. *)
Lemma remember_contains w h s :
  represents w h -> is_u64 s -> 1 <= _window w -> contains (remember w s) s = true.
Proof.
  intros Hr Hs HW. destruct (contains w s) eqn:E.
  - unfold remember. by rewrite E.
  - rewrite (contains_spec _ (h ++ [s])) by (by apply remember_fresh).
    rewrite remember_window. unfold spec_contains.
    rewrite (bool_decide_true (s ∈ _)) by (by apply newest_last). apply orb_true_r.
Qed.

Lemma StronglySorted_lookup (h : list Z) i j u t :
  StronglySorted Z.lt h -> h !! i = Some u -> h !! j = Some t -> (i < j)%nat -> u < t.
Proof.
  intros Hs. revert i j. induction Hs as [|a h _ IH Hall]; intros i j Hi Hj Hij; [done|].
  destruct j as [|j]; [lia|]. destruct i as [|i]; simpl in *.
  - injection Hi as ->. by eapply Forall_lookup_1.
  - eapply IH; done || lia.
Qed.

(** In a strictly increasing history, whatever left the newest [W] is too old. *)
Lemma sorted_left_behind W h s :
  1 <= W -> Forall is_u64 h -> StronglySorted Z.lt h -> s ∈ h -> spec_contains W h s = true.
Proof.
  intros HW Hr Hs Hin. unfold spec_contains. apply orb_true_iff. rewrite !bool_decide_eq_true.
  apply list_elem_of_lookup in Hin as [i Hi].
  destruct (decide (length h - Z.to_nat W <= i)%nat) as [Hge|Hlt].
  - right. apply list_elem_of_lookup. exists (i - (length h - Z.to_nat W))%nat.
    unfold newest. rewrite lookup_drop. by replace (_ + _)%nat with i by lia.
  - left. assert (forall j t, h !! (i + j)%nat = Some t -> s + Z.of_nat j <= t) as Hj.
    { clear Hlt. intros j. induction j as [|j IH]; intros t Ht.
      - rewrite Nat.add_0_r, Hi in Ht. injection Ht as ->. lia.
      - destruct (lookup_lt_is_Some_2 h (i + j)) as [u Hu];
          [apply lookup_lt_Some in Ht; lia|].
        specialize (IH u Hu).
        assert (u < t) by (eapply (StronglySorted_lookup h (i + j) (i + S j)); done || lia).
        lia. }
    pose proof (lookup_lt_Some _ _ _ Hi).
    destruct (lookup_lt_is_Some_2 h (i + (length h - 1 - i))) as [t Ht]; [lia|].
    specialize (Hj _ _ Ht). pose proof (highest_ge h t (list_elem_of_lookup_2 _ _ _ Ht)).
    assert (is_u64 s) as [? _] by (by eapply Forall_lookup_1).
    lia.
Qed.

(** A number above the whole history is not contained. *)
Lemma above_not_contained W h s :
  0 <= W -> 0 <= s -> Forall (fun t => t < s) h -> spec_contains W h s = false.
Proof.
  intros HW Hs Hall. unfold spec_contains. apply orb_false_iff. rewrite !bool_decide_eq_false.
  rewrite Forall_forall in Hall. split.
  - assert (highest h = 0 \/ highest h < s); [|lia].
    clear -Hall. induction h as [|t h IH]; simpl; [by left|].
    pose proof (Hall t ltac:(set_solver)). destruct IH; [set_solver| |]; lia.
  - intros Hin%newest_subseteq%Hall. lia.
Qed.

Lemma in_order_run W ss before h :
  1 <= W -> StronglySorted Z.lt h -> (forall x, x ∈ h <-> x ∈ before) ->
  Forall is_u64 h -> Forall is_u64 ss -> in_order before ss ->
  (spec_accept_all W h ss).2 = first_occurrences before ss.
Proof.
  intros HW. revert before h. induction ss as [|s ss IH]; intros before h Hs Hiff Hh Hss Ho;
    simpl; [done|].
  destruct Ho as [Hcase Ho]. apply Forall_cons in Hss as [Hs64 Hss].
  destruct (decide (s ∈ before)) as [Hin|Hnin].
  - rewrite (sorted_left_behind W h s) by (done || by apply Hiff).
    rewrite bool_decide_false by (intros Hn; done). cbn [negb].
    specialize (IH (before ++ [s]) h). destruct (spec_accept_all W h ss) as [h' bs].
    cbn [snd] in *. rewrite IH; try done.
    intros x. rewrite Hiff, elem_of_app, list_elem_of_singleton.
    split; [auto|intros [?| ->]; done].
  - destruct Hcase as [?|Hall]; [done|].
    assert (Forall (fun t => t < s) h) as Hall'.
    { rewrite Forall_forall in *. intros x Hx. by apply Hall, Hiff. }
    rewrite above_not_contained by (done || unfold is_u64 in Hs64; lia || done).
    rewrite bool_decide_true by done. cbn [negb].
    specialize (IH (before ++ [s]) (h ++ [s])).
    destruct (spec_accept_all W (h ++ [s]) ss) as [h' bs]. cbn [snd] in *. rewrite IH; try done.
    + apply StronglySorted_app_2; [|done|by repeat constructor].
      intros x y Hx ->%list_elem_of_singleton. rewrite Forall_forall in Hall'. by apply Hall'.
    + intros x. by rewrite !elem_of_app, Hiff.
    + by apply Forall_app_2; [|apply Forall_singleton].
Qed.

(** A number above the lower end of the window, not among the newest, is accepted. *)
Lemma spec_fresh W h s : highest h - W < s -> s ∉ newest W h -> spec_contains W h s = false.
Proof. intros Hs Hn. unfold spec_contains. by rewrite !bool_decide_false by (done || lia). Qed.

Lemma highest_first m l : 0 <= m -> Forall (fun s => s < m) l -> highest (m :: l) = m.
Proof. intros Hm Hl. cbn. induction Hl; cbn in *; lia. Qed.

(** After [m], different numbers of the window below it are accepted in any order. *)
Lemma late_accepted W m late before rest :
  0 <= m -> NoDup (before ++ late) -> Forall (fun s => m - W < s < m) (before ++ late) ->
  Z.of_nat (length (before ++ late)) <= W - 1 ->
  (spec_accept_all W (m :: before) (late ++ rest)).2
    = replicate (length late) true ++ (spec_accept_all W (m :: before ++ late) rest).2.
Proof.
  intros Hm. revert before. induction late as [|s late IH]; intros before Hnd Hl Hlen; [by rewrite app_nil_r|].
  assert (spec_contains W (m :: before) s = false) as Hs.
  { apply Forall_app in Hl as [Hb [Hs _]%Forall_cons]. apply NoDup_app in Hnd as (_ & Hd & _).
    apply spec_fresh.
    - rewrite highest_first; [lia|done|]. eapply Forall_impl; [exact Hb|]. cbn. lia.
    - intros [->|Hin]%newest_subseteq%elem_of_cons; [lia|]. apply (Hd s Hin). left. }
  cbn [app spec_accept_all length replicate]. rewrite Hs. cbn [negb app].
  specialize (IH (before ++ [s])). rewrite <- (assoc_L (++)) in IH. cbn [app] in IH.
  specialize (IH Hnd Hl Hlen). destruct (spec_accept_all W (m :: before ++ [s]) (late ++ rest)).
  cbn [snd] in *. by rewrite IH.
Qed.

End ReplayFacts.

(** ** Properties of the replay window *)

Module ReplayProps.
Import ReplayWindow ReplaySpec ReplayFacts.

(** C28: refinement. Over any sequence of submitted numbers and any window size
    the verdicts of the implementation (a hash set, a FIFO queue and a running
    maximum) are those of the specification: a number is refused exactly when
    it is at least [window] below the highest accepted number or among the
    [window] numbers accepted last. *)
Theorem replay_window_refines_history (W : Z) (ss : list Z) :
  is_u64 W -> Forall is_u64 ss ->
  (accept_all (ReplayWindow_new W) ss).2 = (spec_accept_all W [] ss).2 /\
  represents (accept_all (ReplayWindow_new W) ss).1 (spec_accept_all W [] ss).1.
Proof.
  intros HW Hss.
  by destruct (accept_all_spec ss (ReplayWindow_new W) [] (represents_new W HW) Hss).
Qed.

Lemma replay_window_refines_history_witness :
  (accept_all (ReplayWindow_new 4) [1; 2; 3; 1; 2; 4; 5; 1]).2
  = [true; true; true; false; false; true; true; false].
Proof.
  rewrite (proj1 (replay_window_refines_history 4 [1; 2; 3; 1; 2; 4; 5; 1]
    ltac:(by_decision) ltac:(by_decision))).
  vm_compute. reflexivity.
Defined.

(** Exactly once for an in-order sender. If each submitted number is either
    higher than everything before it or a repetition (an attacker may replay
    anything, any number of times, at any point), then with any positive window
    the accepted submissions are exactly the first occurrences. *)
Theorem in_order_accepted_once (W : Z) (ss : list Z) :
  is_u64 W -> 1 <= W -> Forall is_u64 ss -> in_order [] ss ->
  (accept_all (ReplayWindow_new W) ss).2 = first_occurrences [] ss.
Proof.
  intros HW HW1 Hss Ho.
  rewrite (proj2 (accept_all_spec ss _ [] (represents_new W HW) Hss)).
  by apply in_order_run; [..|constructor| |apply Forall_nil_2| |].
Qed.

Lemma in_order_accepted_once_witness :
  (accept_all (ReplayWindow_new 2) [7; 7; 9; 7; 20; 9; 20]).2
  = [true; false; true; false; true; false; false].
Proof.
  rewrite (in_order_accepted_once 2 [7; 7; 9; 7; 20; 9; 20]);
    [reflexivity | by_decision | lia | by_decision | simpl; split_and!; try done;
     try (left; set_solver); right; repeat constructor; lia].
Defined.

(** Every operation keeps the data-structure invariant, and a number stays
    refused at least until [window] others have been accepted after it: right
    after [accept] it is contained. *)
Theorem accept_preserves_window (w : ReplayWindow) (h : list Z) (s : Z) :
  represents w h -> is_u64 s -> 1 <= _window w ->
  window_ok (accept w s).1 /\ contains (accept w s).1 s = true /\
  _maxSeen w <= _maxSeen (accept w s).1.
Proof.
  intros Hr Hs HW. destruct (accept_spec w h s Hr Hs) as [_ Hr1].
  split; [by eapply represents_ok|]. split.
  - unfold accept. destruct (contains w s) eqn:E; [done|]. by eapply remember_contains.
  - rewrite (rep_max _ _ Hr1), (rep_max _ _ Hr). case_match; [|lia]. rewrite highest_snoc. lia.
Qed.

Lemma accept_preserves_window_witness :
  contains (accept (ReplayWindow_new 3) 8).1 8 = true.
Proof.
  apply (accept_preserves_window (ReplayWindow_new 3) [] 8);
    [apply represents_new; by_decision | by_decision | simpl; lia].
Defined.

(** C38: with out-of-order arrivals a replay gets through, in every window of two or
    more numbers. Let a number [m] arrive first, then, in any order, as many different
    numbers as the window still covers below it, then [m + 1]; all of them are
    genuine and accepted. Now [m] has been evicted, because it was recorded first,
    although it is the second highest number seen: submitted again, it is accepted
    again. *)
Theorem out_of_order_replay_accepted (window m : Z) (late : list Z) :
  2 <= window -> window <= m -> m + 1 < 2 ^ 64 ->
  NoDup late -> Forall (fun s => m - window < s < m) late -> Z.of_nat (length late) = window - 1 ->
  (accept_all (ReplayWindow_new window) (m :: late ++ [m + 1; m])).2
    = true :: replicate (length late) true ++ [true; true].
Proof.
  intros HW Hm Hr Hnd Hl Hlen.
  assert (Forall is_u64 (m :: late ++ [m + 1; m])) as Hall.
  { apply Forall_cons. split; [unfold is_u64; lia|]. apply Forall_app. split.
    - eapply Forall_impl; [exact Hl|]. unfold is_u64. cbn. lia.
    - repeat (apply Forall_cons; split; [unfold is_u64; lia|]). apply Forall_nil_2. }
  destruct (accept_all_spec _ (ReplayWindow_new window) [] (represents_new window ltac:(unfold is_u64; lia)) Hall)
    as [_ ->]. cbn [_window ReplayWindow_new spec_accept_all app].
  rewrite (spec_fresh window [] m) by (cbn; lia || (unfold newest; rewrite drop_nil; by apply not_elem_of_nil)).
  cbn [negb app]. pose proof (late_accepted window m late [] [m + 1; m]) as Hlate. cbn [app] in Hlate.
  specialize (Hlate ltac:(lia) Hnd Hl ltac:(lia)).
  destruct (spec_accept_all window [m] (late ++ [m + 1; m])) as [h bs]. cbn [snd] in *. rewrite Hlate.
  clear Hlate h bs. assert (Forall (fun s => s < m) late) as Hlt by (eapply Forall_impl; [exact Hl|]; cbn; lia).
  cbn [spec_accept_all]. rewrite (spec_fresh window (m :: late) (m + 1)); cycle 1.
  - rewrite highest_first by (done || lia). lia.
  - intros [E|Hin]%newest_subseteq%elem_of_cons; [lia|]. rewrite Forall_forall in Hlt. specialize (Hlt _ Hin). lia.
  - cbn [negb]. rewrite (spec_fresh window ((m :: late) ++ [m + 1]) m); [done|..].
    + rewrite highest_snoc, highest_first by (done || lia). lia.
    + rewrite newest_snoc by lia. rewrite newest_all by (cbn; lia).
      rewrite decide_True by (rewrite length_app; cbn [length]; lia). cbn [app tail].
      rewrite Forall_forall in Hlt. intros [Hin|E%list_elem_of_singleton]%elem_of_app; [|lia].
      specialize (Hlt _ Hin). lia.
Qed.

(** 300, then 45 .. 299, then 301, then 300 again, at the default size of 256. *)
Lemma out_of_order_replay_accepted_witness :
  let late := Z.of_nat <$> seq 45 255 in
  (accept_all (ReplayWindow_new 256) (300 :: late ++ [301; 300])).2
    = true :: replicate (length late) true ++ [true; true].
Proof. refine (out_of_order_replay_accepted 256 300 _ _ _ _ _ _ _); by_decision. Defined.

End ReplayProps.
