(* ===== verification/Crypto.v ===== *)
(** crypto_lib: the libsodium interface it is written against ([Sodium], with
    the documented behaviour in [SodiumLaws]), crypto_utils, HKDF-SHA256
    ([Hkdf]), the AEAD wrapper ([SecureAead]) and the nonce generators
    ([Nonce]). *)
From Stdlib Require Import ZArith Lia.
From stdpp Require Import base option list strings.
From S2P Require Import Prelude LittleEndian.
Local Open Scope Z_scope.

(** ** libsodium

    The functions of <sodium.h> the program calls. They are parameters: the
    cryptography is not modelled. An encryption returns the return code, the
    ciphertext, the tag and the tag length it stores; a decryption the return
    code and the plaintext. Nonces are passed as the bytes the callee reads. *)

Class Sodium := {
  hmac_state : Type;
  crypto_auth_hmacsha256_init : bytes -> hmac_state;
  crypto_auth_hmacsha256_update : hmac_state -> bytes -> hmac_state;
  crypto_auth_hmacsha256_final : hmac_state -> bytes;
  (** message, key *)
  crypto_auth_hmacsha256 : bytes -> bytes -> bytes;
  (** plaintext, additional data, nonce, key *)
  crypto_aead_xchacha20poly1305_ietf_encrypt_detached :
    bytes -> bytes -> bytes -> bytes -> Z * bytes * bytes * Z;
  crypto_aead_chacha20poly1305_ietf_encrypt_detached :
    bytes -> bytes -> bytes -> bytes -> Z * bytes * bytes * Z;
  (** ciphertext, tag, additional data, nonce, key *)
  crypto_aead_xchacha20poly1305_ietf_decrypt_detached :
    bytes -> bytes -> bytes -> bytes -> bytes -> Z * bytes;
  crypto_aead_chacha20poly1305_ietf_decrypt_detached :
    bytes -> bytes -> bytes -> bytes -> bytes -> Z * bytes;
  (** two buffers of the same length *)
  sodium_memcmp : bytes -> bytes -> Z;
}.

(** What the libsodium documentation says of them. *)
Class SodiumLaws `{Sodium} := {
  (** HMAC-SHA256, key first; the two APIs compute it, in any split. *)
  HMAC : bytes -> bytes -> bytes;
  HMAC_array k m : array_ok 32 (HMAC k m);
  hmac_multipart k ms :
    crypto_auth_hmacsha256_final
      (foldl crypto_auth_hmacsha256_update (crypto_auth_hmacsha256_init k) ms)
    = HMAC k (concat ms);
  hmac_oneshot k m : length k = 32%nat -> crypto_auth_hmacsha256 m k = HMAC k m;
  xchacha_open_seal pt aad n k :
    bytes_ok pt -> length n = 24%nat -> length k = 32%nat ->
    exists c t,
      crypto_aead_xchacha20poly1305_ietf_encrypt_detached pt aad n k = (0, c, t, 16) /\
      length c = length pt /\ bytes_ok c /\ array_ok 16 t /\
      crypto_aead_xchacha20poly1305_ietf_decrypt_detached c t aad n k = (0, pt);
  chacha_open_seal pt aad n k :
    bytes_ok pt -> length n = 12%nat -> length k = 32%nat ->
    exists c t,
      crypto_aead_chacha20poly1305_ietf_encrypt_detached pt aad n k = (0, c, t, 16) /\
      length c = length pt /\ bytes_ok c /\ array_ok 16 t /\
      crypto_aead_chacha20poly1305_ietf_decrypt_detached c t aad n k = (0, pt);
  memcmp_eq a b : length a = length b -> sodium_memcmp a b = 0 <-> a = b;
}.

(** ** crypto_utils *)

Module CryptoUtils.
Section CryptoUtils.
Context `{Sodium}.

Definition hmac_sha256 (key data : bytes) : bytes :=
  let st := crypto_auth_hmacsha256_init key in
  let st := crypto_auth_hmacsha256_update st data in
  crypto_auth_hmacsha256_final st.

Definition le64 (x : Z) : bytes :=
  map (fun i => u8 (Z.land (Z.shiftr x (8 * Z.of_nat i)) 255)) (seq 0 8).

End CryptoUtils.
End CryptoUtils.

(** ** HKDF-SHA256 *)

Module Hkdf.
Section Hkdf.
Context `{Sodium}.

(** [PTRDIFF_MAX], the [max_size()] of a vector of bytes. *)
Definition vector_max_size : Z := 2 ^ 63 - 1.

Definition _hashLen : Z := 32.

Record Hkdf := mkHkdf {
  _ikm : bytes;
  _salt : bytes;
  _info : string;
  _outputLen : Z;
  _prk : bytes;
  _okm : bytes;
  _prevBlock : bytes;
}.

Definition extract (ikm salt : bytes) : bytes :=
  match salt with
  | [] => CryptoUtils.hmac_sha256 (replicate 32 0) ikm
  | _ => CryptoUtils.hmac_sha256 salt ikm
  end.

(** The constructor: [_okm.reserve(outputLen)] throws above [max_size()]. *)
Definition Hkdf_new (ikm salt : bytes) (info : string) (outputLen : Z) : res Hkdf :=
  if decide (vector_max_size < outputLen) then Throw (length_error "vector::reserve")
  else Ok (mkHkdf ikm salt info outputLen (extract ikm salt) [] []).

Definition computeBlockCount (h : Hkdf) : Z :=
  u64 (u64 (_outputLen h + _hashLen) - 1) / _hashLen.

Definition initHmacState (h : Hkdf) : hmac_state := crypto_auth_hmacsha256_init (_prk h).

Definition updateWithPrevBlock (h : Hkdf) (state : hmac_state) : hmac_state :=
  match _prevBlock h with
  | [] => state
  | _ => crypto_auth_hmacsha256_update state (_prevBlock h)
  end.

Definition updateWithInfo (h : Hkdf) (state : hmac_state) : hmac_state :=
  match _info h with
  | EmptyString => state
  | _ => crypto_auth_hmacsha256_update state (bytes_of_string (_info h))
  end.

Definition updateWithBlockIndex (state : hmac_state) (blockIndex : nat) : hmac_state :=
  let counter := u8 (Z.of_nat blockIndex) in
  crypto_auth_hmacsha256_update state [counter].

Definition finalizeAndAppend (h : Hkdf) (state : hmac_state) : Hkdf :=
  let block := crypto_auth_hmacsha256_final state in
  let toCopy := Z.min _hashLen (u64 (_outputLen h - Z.of_nat (length (_okm h)))) in
  mkHkdf (_ikm h) (_salt h) (_info h) (_outputLen h) (_prk h)
    (_okm h ++ take (Z.to_nat toCopy) block) block.

Definition expandBlock (h : Hkdf) (blockIndex : nat) : Hkdf :=
  let state := initHmacState h in
  let state := updateWithPrevBlock h state in
  let state := updateWithInfo h state in
  let state := updateWithBlockIndex state blockIndex in
  finalizeAndAppend h state.

Definition derive (h : Hkdf) : Hkdf * res bytes :=
  let blockCount := computeBlockCount h in
  if decide (255 < blockCount) then (h, Throw (invalid_argument "Hkdf: outputLen too large"))
  else
    let h' := foldl expandBlock h (seq 1 (Z.to_nat blockCount)) in
    (h', Ok (_okm h')).

(** [Hkdf hkdf(ikm, salt, info, len); hkdf.derive()] *)
Definition hkdf (ikm salt : bytes) (info : string) (outputLen : Z) : res bytes :=
  h ← Hkdf_new ikm salt info outputLen;
  (derive h).2.

End Hkdf.
End Hkdf.

(** ** AEAD *)

Module SecureAead.
Section SecureAead.
Context `{Sodium}.

Inductive CipherMode := XChaCha20Poly1305 | ChaCha20Poly1305.

#[global] Instance CipherMode_eq_dec : EqDecision CipherMode.
Proof. solve_decision. Defined.

Record SecureAead := mkSecureAead {
  _key : bytes;
  _cipherMode : CipherMode;
  _noncePrefix : bytes;
}.

(** The constructor; [rnd] is what [randombytes_buf] wrote, 16 bytes. *)
Definition SecureAead_new (key : bytes) (mode : CipherMode) (rnd : bytes) : SecureAead :=
  mkSecureAead key mode rnd.

Record Ciphertext := mkCiphertext { c_ct : bytes; c_tag : bytes; c_nonce : bytes }.

Definition deriveNonce (a : SecureAead) (seq : Z) : bytes :=
  match _cipherMode a with
  | XChaCha20Poly1305 => take 16 (_noncePrefix a) ++ CryptoUtils.le64 seq
  | ChaCha20Poly1305 => take 4 (_noncePrefix a) ++ CryptoUtils.le64 seq ++ replicate 12 0
  end.

Definition encryptDetached (a : SecureAead) (plaintext aad nonce : bytes) : res Ciphertext :=
  let '(rc, ct, tag, maclen) :=
    match _cipherMode a with
    | XChaCha20Poly1305 =>
        crypto_aead_xchacha20poly1305_ietf_encrypt_detached plaintext aad (take 24 nonce) (_key a)
    | ChaCha20Poly1305 =>
        crypto_aead_chacha20poly1305_ietf_encrypt_detached plaintext aad (take 12 nonce) (_key a)
    end in
  if decide (rc <> 0) then Throw (runtime_error "AEAD encrypt failed")
  else if decide (maclen <> 16) then Throw (runtime_error "AEAD tag size mismatch")
  else Ok (mkCiphertext ct tag nonce).

Definition decryptDetached (a : SecureAead) (ct tag aad nonce : bytes) : res bytes :=
  let '(rc, out) :=
    match _cipherMode a with
    | XChaCha20Poly1305 =>
        crypto_aead_xchacha20poly1305_ietf_decrypt_detached ct tag aad (take 24 nonce) (_key a)
    | ChaCha20Poly1305 =>
        crypto_aead_chacha20poly1305_ietf_decrypt_detached ct tag aad (take 12 nonce) (_key a)
    end in
  if decide (rc <> 0) then Throw (runtime_error "AEAD auth failed") else Ok out.

Definition sealWithSeq (a : SecureAead) (plaintext aad : bytes) (seq : Z) : res Ciphertext :=
  encryptDetached a plaintext aad (deriveNonce a seq).

Definition sealWithNonce (a : SecureAead) (plaintext aad nonce : bytes) : res Ciphertext :=
  encryptDetached a plaintext aad nonce.

Definition openWithNonce (a : SecureAead) (ct tag aad nonce : bytes) : res bytes :=
  decryptDetached a ct tag aad nonce.

End SecureAead.
End SecureAead.

(** ** Nonce generators *)

Module Nonce.
Import SecureAead.
Section Nonce.
Context `{Sodium}.

Definition nonceLenFor (mode : CipherMode) : nat :=
  if decide (mode = XChaCha20Poly1305) then 24 else 12.

(** A 24-byte array whose first [n] bytes are copied from [src]. *)
Definition nonce_array (src : bytes) (n : nat) : bytes := take n src ++ replicate (24 - n) 0.

(** The two generators behind [INonceGenerator]; [generate]'s [rnd] is what
    [randombytes_buf] would write. *)
Inductive NonceGenerator :=
| RandomNonceGenerator (cipherMode : CipherMode)
| HmacNonceGenerator (nonceKey : bytes) (cipherMode : CipherMode).

Definition generate (g : NonceGenerator) (context : bytes) (seq : Z) (rnd : bytes) : bytes :=
  match g with
  | RandomNonceGenerator mode => nonce_array rnd (nonceLenFor mode)
  | HmacNonceGenerator key mode =>
      nonce_array (crypto_auth_hmacsha256 context key) (nonceLenFor mode)
  end.

End Nonce.
End Nonce.

(** ** A concrete instance

    Not cryptography: a small computable instance of the interface that meets
    the documented laws, on which the properties are evaluated. *)

Module ToySodium.

Definition digest (l : bytes) : Z :=
  foldl (fun h b => (h * 257 + b + 1) mod (2 ^ 61 - 1)) 7 l.

Definition toy_hmac (k m : bytes) : bytes :=
  le_bytes 32 (digest (k ++ m) * digest (m ++ k ++ k) * digest (k ++ m ++ k)).

Definition toy_encrypt (pt aad n k : bytes) : Z * bytes * bytes * Z :=
  let c := (fun b => (b + 1) mod 256) <$> pt in
  (0, c, le_bytes 16 (digest (k ++ n ++ aad ++ c)), 16).

Definition toy_decrypt (c t aad n k : bytes) : Z * bytes :=
  if decide (t = le_bytes 16 (digest (k ++ n ++ aad ++ c)))
  then (0, (fun b => (b - 1) mod 256) <$> c) else (-1, replicate (length c) 0).

#[export] Instance sodium : Sodium := {|
  hmac_state := bytes * bytes;
  crypto_auth_hmacsha256_init k := (k, []);
  crypto_auth_hmacsha256_update st d := (st.1, st.2 ++ d);
  crypto_auth_hmacsha256_final st := toy_hmac st.1 st.2;
  crypto_auth_hmacsha256 m k := toy_hmac k m;
  crypto_aead_xchacha20poly1305_ietf_encrypt_detached := toy_encrypt;
  crypto_aead_chacha20poly1305_ietf_encrypt_detached := toy_encrypt;
  crypto_aead_xchacha20poly1305_ietf_decrypt_detached := toy_decrypt;
  crypto_aead_chacha20poly1305_ietf_decrypt_detached := toy_decrypt;
  sodium_memcmp a b := if decide (a = b) then 0 else -1;
|}.

Lemma toy_multipart ms k acc :
  foldl crypto_auth_hmacsha256_update (k, acc) ms = (k, acc ++ concat ms).
Proof.
  revert acc. induction ms as [|m ms IH]; intros acc; simpl; [by rewrite app_nil_r|].
  by rewrite IH, <- app_assoc.
Qed.

Lemma toy_roundtrip pt aad n k :
  bytes_ok pt -> exists c t, toy_encrypt pt aad n k = (0, c, t, 16) /\
    length c = length pt /\ bytes_ok c /\ array_ok 16 t /\ toy_decrypt c t aad n k = (0, pt).
Proof.
  intros Hpt. eexists _, _. split; [done|]. split_and!.
  - apply length_fmap.
  - apply Forall_fmap, Forall_forall. intros b _. unfold compose, is_u8.
    pose proof (Z.mod_pos_bound (b + 1) 256). lia.
  - split; [by rewrite length_le_bytes | apply le_bytes_ok].
  - unfold toy_decrypt. rewrite decide_True by done. f_equal.
    rewrite <- list_fmap_compose. rewrite <- (list_fmap_id pt) at 2.
    apply list_fmap_ext. intros i b Hb%(bytes_ok_lookup pt i b Hpt). unfold compose, is_u8 in *.
    rewrite Zminus_mod_idemp_l. replace (b + 1 - 1) with b by lia. by apply Z.mod_small.
Qed.

#[export] Instance laws : SodiumLaws.
Proof.
  refine {| HMAC := toy_hmac |}.
  - intros k m. split; [apply length_le_bytes | apply le_bytes_ok].
  - intros k ms. cbn [crypto_auth_hmacsha256_init sodium]. by rewrite toy_multipart.
  - done.
  - intros pt aad n k Hpt _ _. by apply toy_roundtrip.
  - intros pt aad n k Hpt _ _. by apply toy_roundtrip.
  - intros a b _. cbn. by case_decide.
Defined.

End ToySodium.

(** ** Lemmas *)

Module CryptoFacts.
Import SecureAead Nonce.
Section CryptoFacts.
Context `{SodiumLaws}.

Lemma hmac_sha256_HMAC k m : CryptoUtils.hmac_sha256 k m = HMAC k m.
Proof.
  unfold CryptoUtils.hmac_sha256. pose proof (hmac_multipart k [m]) as E.
  cbn in E. by rewrite app_nil_r in E.
Qed.

Lemma le64_le x : CryptoUtils.le64 x = le_bytes 8 x.
Proof. apply map_byte_at. Qed.

Lemma length_HMAC k m : length (HMAC k m) = 32%nat.
Proof. apply HMAC_array. Qed.

(** RFC 5869: T(0) is empty, T(i) = HMAC(PRK, T(i-1) | info | i). *)
Fixpoint rfc5869_T (prk info : bytes) (i : nat) : bytes :=
  match i with
  | O => []
  | S i' => HMAC prk (rfc5869_T prk info i' ++ info ++ [Z.of_nat i])
  end.

(** OKM = the first L bytes of T(1) | T(2) | ... | T(N), N = ceil(L / 32). *)
Definition rfc5869 (ikm salt info : bytes) (L : nat) : bytes :=
  let prk := HMAC (if decide (salt = []) then replicate 32 0 else salt) ikm in
  take L (concat (rfc5869_T prk info <$> seq 1 ((L + 31) / 32))).

(** The expansion state after [i] blocks. *)
Definition expanded (ikm salt : bytes) (info : string) (L i : nat) : Hkdf.Hkdf :=
  let prk := Hkdf.extract ikm salt in
  let T := rfc5869_T prk (bytes_of_string info) in
  Hkdf.mkHkdf ikm salt info (Z.of_nat L) prk (take L (concat (T <$> seq 1 i))) (T i).

Lemma extract_HMAC ikm salt :
  Hkdf.extract ikm salt = HMAC (if decide (salt = []) then replicate 32 0 else salt) ikm.
Proof. destruct salt; apply hmac_sha256_HMAC. Qed.

Lemma length_T_concat prk info i :
  length (concat (rfc5869_T prk info <$> seq 1 i)) = (32 * i)%nat.
Proof.
  induction i as [|i IH]; [done|]. rewrite seq_S, fmap_app, concat_app, length_app, IH.
  cbn. rewrite app_nil_r, length_HMAC. lia.
Qed.

Lemma block_hmac h (i : nat) :
  (i < 256)%nat ->
  crypto_auth_hmacsha256_final
    (Hkdf.updateWithBlockIndex
      (Hkdf.updateWithInfo h (Hkdf.updateWithPrevBlock h (Hkdf.initHmacState h))) i)
  = HMAC (Hkdf._prk h) (Hkdf._prevBlock h ++ bytes_of_string (Hkdf._info h) ++ [Z.of_nat i]).
Proof.
  intros Hi. unfold Hkdf.updateWithBlockIndex, Hkdf.updateWithInfo, Hkdf.updateWithPrevBlock,
    Hkdf.initHmacState.
  rewrite u8_id by (unfold is_u8; lia).
  destruct (Hkdf._prevBlock h) as [|b p] eqn:Ep; destruct (Hkdf._info h) as [|a s] eqn:Es.
  - apply (hmac_multipart _ [[Z.of_nat i]]).
  - pose proof (hmac_multipart (Hkdf._prk h) [bytes_of_string (String a s); [Z.of_nat i]]) as E.
    cbn [concat] in E. by rewrite app_nil_r in E.
  - pose proof (hmac_multipart (Hkdf._prk h) [b :: p; [Z.of_nat i]]) as E.
    cbn [concat] in E. by rewrite app_nil_r in E.
  - pose proof (hmac_multipart (Hkdf._prk h)
      [b :: p; bytes_of_string (String a s); [Z.of_nat i]]) as E.
    cbn [concat] in E. by rewrite app_nil_r in E.
Qed.

Lemma expandBlock_step ikm salt info (L i : nat) :
  (i < 255)%nat -> is_u64 (Z.of_nat L) ->
  Hkdf.expandBlock (expanded ikm salt info L i) (S i) = expanded ikm salt info L (S i).
Proof.
  intros Hi HL. unfold Hkdf.expandBlock, Hkdf.finalizeAndAppend.
  rewrite block_hmac by lia. unfold expanded.
  cbn [Hkdf._ikm Hkdf._salt Hkdf._info Hkdf._outputLen Hkdf._prk Hkdf._okm Hkdf._prevBlock].
  set (T := rfc5869_T _ _).
  change (HMAC _ (T i ++ _)) with (T (S i)).
  f_equal. rewrite seq_S, fmap_app, concat_app. cbn [fmap list_fmap concat Nat.add].
  rewrite app_nil_r, take_app. f_equal. subst T.
  rewrite length_T_concat, length_take, length_T_concat. unfold Hkdf._hashLen.
  rewrite u64_id by (unfold is_u64 in *; lia).
  destruct (decide (32 <= L - 32 * i)%nat).
  - rewrite !take_ge; [done|cbn [rfc5869_T]; rewrite length_HMAC; lia..].
  - f_equal. lia.
Qed.

Lemma expand_loop ikm salt info (L n : nat) :
  (n <= 255)%nat -> is_u64 (Z.of_nat L) ->
  foldl Hkdf.expandBlock (expanded ikm salt info L 0) (seq 1 n) = expanded ikm salt info L n.
Proof.
  intros Hn HL. induction n as [|n IH]; [done|].
  rewrite seq_S, foldl_app, IH by lia. apply expandBlock_step; [lia|done].
Qed.

Lemma blockCount_value h :
  0 <= Hkdf._outputLen h <= Hkdf.vector_max_size ->
  Hkdf.computeBlockCount h = (Hkdf._outputLen h + 31) / 32.
Proof.
  unfold Hkdf.vector_max_size, Hkdf.computeBlockCount, Hkdf._hashLen. intros Hl.
  rewrite !u64_id by (unfold is_u64; rewrite ?u64_id by (unfold is_u64; lia); lia).
  f_equal. lia.
Qed.

Lemma div_32_nat (L : nat) : Z.to_nat ((Z.of_nat L + 31) / 32) = ((L + 31) / 32)%nat.
Proof.
  replace ((Z.of_nat L + 31) / 32) with (Z.of_nat ((L + 31) / 32)); [apply Nat2Z.id|].
  rewrite Nat2Z.inj_div, Nat2Z.inj_add. done.
Qed.

(** Deriving up to 8160 bytes is RFC 5869; the state after it. *)
Lemma derive_run ikm salt info (L : nat) :
  Z.of_nat L <= 8160 ->
  Hkdf.derive (expanded ikm salt info L 0)
  = (expanded ikm salt info L ((L + 31) / 32), Ok (rfc5869 ikm salt (bytes_of_string info) L)).
Proof.
  intros HL. unfold Hkdf.derive.
  rewrite blockCount_value by (unfold Hkdf.vector_max_size; cbn; lia).
  change (Hkdf._outputLen (expanded ikm salt info L 0)) with (Z.of_nat L). rewrite div_32_nat.
  assert ((L + 31) / 32 <= 255)%nat as Hn
    by (apply Nat.lt_succ_r, Nat.Div0.div_lt_upper_bound; lia).
  rewrite decide_False
    by (assert ((Z.of_nat L + 31) / 32 < 256) by (apply Z.div_lt_upper_bound; lia); lia).
  rewrite expand_loop by (done || unfold is_u64; lia). f_equal. f_equal.
  unfold expanded, rfc5869; cbn [Hkdf._okm]. by rewrite extract_HMAC.
Qed.

Lemma hkdf_run ikm salt info (L : nat) :
  Z.of_nat L <= 8160 ->
  Hkdf.hkdf ikm salt info (Z.of_nat L) = Ok (rfc5869 ikm salt (bytes_of_string info) L).
Proof.
  intros HL. unfold Hkdf.hkdf, Hkdf.Hkdf_new.
  rewrite decide_False by (unfold Hkdf.vector_max_size; lia). cbn [mbind res_bind].
  pose proof (derive_run ikm salt info L HL) as E. unfold expanded in E at 1.
  cbn [seq fmap list_fmap concat take rfc5869_T] in E. rewrite take_nil in E. by rewrite E.
Qed.

Lemma length_rfc5869 ikm salt info L : length (rfc5869 ikm salt info L) = L.
Proof.
  unfold rfc5869. rewrite length_take, length_T_concat.
  pose proof (Nat.div_mod_eq (L + 31) 32). pose proof (Nat.mod_upper_bound (L + 31) 32). lia.
Qed.

Lemma T_ok prk info i : bytes_ok (rfc5869_T prk info i).
Proof. destruct i; [constructor|]. apply HMAC_array. Qed.

Lemma rfc5869_ok ikm salt info L : bytes_ok (rfc5869 ikm salt info L).
Proof.
  unfold rfc5869. apply bytes_ok_take, Forall_concat, Forall_fmap, Forall_forall.
  intros i _. apply T_ok.
Qed.

(** Once the output is complete, further blocks leave it alone. *)
Lemma expandBlock_full h i :
  0 <= Hkdf._outputLen h -> Z.of_nat (length (Hkdf._okm h)) = Hkdf._outputLen h ->
  Hkdf._okm (Hkdf.expandBlock h i) = Hkdf._okm h /\
  Hkdf._outputLen (Hkdf.expandBlock h i) = Hkdf._outputLen h.
Proof.
  intros Hn Hl. unfold Hkdf.expandBlock, Hkdf.finalizeAndAppend; cbn.
  rewrite Hl, Z.sub_diag, u64_id by by_decision. cbn. by rewrite take_0, app_nil_r.
Qed.

Lemma expand_full idx h :
  0 <= Hkdf._outputLen h -> Z.of_nat (length (Hkdf._okm h)) = Hkdf._outputLen h ->
  Hkdf._okm (foldl Hkdf.expandBlock h idx) = Hkdf._okm h.
Proof.
  revert h. induction idx as [|i idx IH]; intros h Hp Hl; [done|]. cbn [foldl].
  destruct (expandBlock_full h i Hp Hl) as [Ho Hn].
  rewrite IH; [done|by rewrite Hn|by rewrite Ho, Hn].
Qed.

(** A sealed message opens to itself, in either mode. *)
Lemma open_seal a pt aad nonce :
  bytes_ok pt -> length (_key a) = 32%nat -> length nonce = 24%nat ->
  exists c, sealWithNonce a pt aad nonce = Ok c /\ c_nonce c = nonce /\
    length (c_ct c) = length pt /\ bytes_ok (c_ct c) /\ array_ok 16 (c_tag c) /\
    openWithNonce a (c_ct c) (c_tag c) aad nonce = Ok pt.
Proof.
  intros Hpt Hk Hn. unfold sealWithNonce, openWithNonce, encryptDetached, decryptDetached.
  destruct (_cipherMode a).
  - destruct (xchacha_open_seal pt aad (take 24 nonce) (_key a)) as (c & t & E & Hc & Ho & Ht & D);
      [done|rewrite length_take; lia|done|].
    rewrite E. exists (mkCiphertext c t nonce). cbn. by rewrite D.
  - destruct (chacha_open_seal pt aad (take 12 nonce) (_key a)) as (c & t & E & Hc & Ho & Ht & D);
      [done|rewrite length_take; lia|done|].
    rewrite E. exists (mkCiphertext c t nonce). cbn. by rewrite D.
Qed.

Lemma length_nonce_array src n : (n <= 24)%nat -> (n <= length src)%nat -> length (nonce_array src n) = 24%nat.
Proof. intros. unfold nonce_array. rewrite length_app, length_take, length_replicate. lia. Qed.

Lemma nonceLenFor_bound m : (nonceLenFor m <= 24)%nat.
Proof. unfold nonceLenFor. case_decide; lia. Qed.

Lemma generate_array_ok g context seq rnd :
  length rnd = 24%nat -> bytes_ok rnd ->
  (forall k m, g = HmacNonceGenerator k m -> length k = 32%nat) ->
  array_ok 24 (generate g context seq rnd).
Proof.
  intros Hl Hr Hk. destruct g as [m|k m]; simpl; pose proof (nonceLenFor_bound m).
  - split; [apply length_nonce_array; lia|].
    unfold nonce_array. apply bytes_ok_app; auto with widths.
  - rewrite hmac_oneshot by eauto. split; [apply length_nonce_array; rewrite ?length_HMAC; lia|].
    unfold nonce_array. apply bytes_ok_app. split; [apply bytes_ok_take, HMAC_array|auto with widths].
Qed.

End CryptoFacts.
End CryptoFacts.

(** ** Properties of crypto_lib *)

Module CryptoProps.
Import SecureAead Nonce CryptoFacts ToySodium.

(** C37: the extract-and-expand loop computes HKDF-SHA256 as RFC 5869 defines it
    for every output length the RFC allows (up to 255 blocks), with exactly
    that many bytes, and a second [derive] on the same object returns the same
    key although the object is stateful. *)
Theorem hkdf_is_rfc5869 `{SodiumLaws} (ikm salt : bytes) (info : string) (L : nat) :
  Z.of_nat L <= 8160 ->
  exists h h1 h2, Hkdf.Hkdf_new ikm salt info (Z.of_nat L) = Ok h /\
    let key := rfc5869 ikm salt (bytes_of_string info) L in
    Hkdf.derive h = (h1, Ok key) /\ Hkdf.derive h1 = (h2, Ok key) /\ length key = L.
Proof.
  intros HL. exists (expanded ikm salt info L 0), (expanded ikm salt info L ((L + 31) / 32)).
  assert (Hkdf.Hkdf_new ikm salt info (Z.of_nat L) = Ok (expanded ikm salt info L 0)) as E.
  { unfold Hkdf.Hkdf_new, expanded. rewrite decide_False by (unfold Hkdf.vector_max_size; lia).
    cbn [seq fmap list_fmap concat]. by rewrite take_nil. }
  assert (Hkdf._okm (expanded ikm salt info L ((L + 31) / 32))
          = rfc5869 ikm salt (bytes_of_string info) L) as Eo.
  { unfold expanded, rfc5869; cbn [Hkdf._okm]. by rewrite extract_HMAC. }
  eexists. split; [exact E|]. cbv zeta. rewrite derive_run by done.
  split; [done|]. split; [|apply length_rfc5869].
  unfold Hkdf.derive. rewrite blockCount_value by (unfold Hkdf.vector_max_size; cbn; lia).
  change (Hkdf._outputLen (expanded _ _ _ L _)) with (Z.of_nat L).
  rewrite decide_False
    by (assert ((Z.of_nat L + 31) / 32 < 256) by (apply Z.div_lt_upper_bound; lia); lia).
  rewrite expand_full; [by rewrite Eo|cbn; lia|]. rewrite Eo, length_rfc5869. done.
Qed.

Lemma hkdf_is_rfc5869_witness :
  exists h h1 h2, Hkdf.Hkdf_new [1; 2; 3] [] "access-aead-v1" 42 = Ok h /\
    let key := rfc5869 [1; 2; 3] [] (bytes_of_string "access-aead-v1") 42 in
    Hkdf.derive h = (h1, Ok key) /\ Hkdf.derive h1 = (h2, Ok key) /\ length key = 42%nat.
Proof. apply (hkdf_is_rfc5869 [1; 2; 3] [] "access-aead-v1" 42). lia. Defined.

(** What [sealWithNonce] produces under a key, a 24-byte nonce and some
    additional data, [openWithNonce] opens to the plaintext, for both ciphers;
    the ciphertext keeps the length of the plaintext. *)
Theorem open_inverts_seal `{SodiumLaws} (a : SecureAead) (plaintext aad nonce : bytes) :
  bytes_ok plaintext -> array_ok 32 (_key a) -> array_ok 24 nonce ->
  exists c, sealWithNonce a plaintext aad nonce = Ok c /\ c_nonce c = nonce /\
    length (c_ct c) = length plaintext /\
    openWithNonce a (c_ct c) (c_tag c) aad (c_nonce c) = Ok plaintext.
Proof.
  intros Hp [Hk _] [Hn _].
  destruct (open_seal a plaintext aad nonce Hp Hk Hn) as (c & E & <- & Hl & _ & _ & D). eauto.
Qed.

Lemma open_inverts_seal_witness :
  exists c,
    sealWithNonce (mkSecureAead (replicate 32 1) ChaCha20Poly1305 []) [104; 105] [9] (replicate 24 2)
      = Ok c /\ c_nonce c = replicate 24 2 /\ length (c_ct c) = 2%nat /\
    openWithNonce (mkSecureAead (replicate 32 1) ChaCha20Poly1305 [])
      (c_ct c) (c_tag c) [9] (c_nonce c) = Ok [104; 105].
Proof. apply open_inverts_seal; by_decision. Defined.

(** Nonces derived by one [SecureAead] object never repeat: two
    different 64-bit sequence numbers give nonces that differ, also in the 12 bytes that
    ChaCha20-Poly1305 reads. *)
Theorem deriveNonce_unique `{Sodium} (a : SecureAead) (s1 s2 : Z) :
  array_ok 16 (_noncePrefix a) -> is_u64 s1 -> is_u64 s2 ->
  s1 <> s2 ->
  take (nonceLenFor (_cipherMode a)) (deriveNonce a s1)
  <> take (nonceLenFor (_cipherMode a)) (deriveNonce a s2).
Proof.
  intros [Hp _] H1 H2 Hne E. apply Hne. revert E. unfold deriveNonce, nonceLenFor. rewrite !le64_le.
  destruct (_cipherMode a); simpl decide.
  - rewrite decide_True by done. rewrite !(take_ge _ 24) by (rewrite length_app, length_take, length_le_bytes; lia).
    intros E%app_inv_head. by apply (le_bytes_inj 8) in E.
  - rewrite decide_False by done. rewrite !app_assoc.
    rewrite !(take_app_le _ (replicate 12 0) 12) by (rewrite length_app, length_take, length_le_bytes; lia).
    rewrite !(take_ge _ 12) by (rewrite length_app, length_take, length_le_bytes; lia).
    intros E%app_inv_head. by apply (le_bytes_inj 8) in E.
Qed.

Lemma deriveNonce_unique_witness :
  let a := mkSecureAead (replicate 32 1) ChaCha20Poly1305 (replicate 16 3) in
  take 12 (deriveNonce a 7) <> take 12 (deriveNonce a 8).
Proof.
  exact (deriveNonce_unique (mkSecureAead (replicate 32 1) ChaCha20Poly1305 (replicate 16 3)) 7 8
    ltac:(by_decision) ltac:(by_decision) ltac:(by_decision) ltac:(by_decision)).
Defined.

End CryptoProps.
