(* ===== verification/Keys.v ===== *)
(** key_manager: hexadecimal key files ([Hex], hex_utils) and the derivation of
    every key of the system from the master key ([KeyManager]). *)
From Stdlib Require Import ZArith Lia Ascii.
From stdpp Require Import base option list strings.
From S2P Require Import Prelude LittleEndian Crypto.
Local Open Scope Z_scope.

(** ** hex_utils *)

Module Hex.

(** The code of a character. *)
Definition code (c : ascii) : Z := Z.of_N (N_of_ascii c).

(** [std::isspace] in the "C" locale: space, and \t \n \v \f \r. *)
Definition isspace (c : ascii) : bool :=
  bool_decide (code c = 32 \/ 9 <= code c <= 13).

(** hexNibble *)
Definition hexNibble (c : ascii) : res Z :=
  if decide (48 <= code c <= 57) then Ok (u8 (code c - 48))
  else if decide (97 <= code c <= 102) then Ok (u8 (10 + (code c - 97)))
  else if decide (65 <= code c <= 70) then Ok (u8 (10 + (code c - 65)))
  else Throw (invalid_argument "hex_utils: invalid hex character").

Definition kMasterKeySize : nat := 32.
Definition kMasterKeyHexChars : nat := kMasterKeySize * 2.

(** The loop filling [out], from byte [i] on; [hex] has the digits that remain. *)
Fixpoint parseHex_loop (n : nat) (hex : list ascii) : res bytes :=
  match n with
  | O => Ok []
  | S n' =>
      match hex with
      | c1 :: c2 :: hex' =>
          hi ← hexNibble c1;
          lo ← hexNibble c2;
          rest ← parseHex_loop n' hex';
          Ok (u8 (Z.lor (Z.shiftl hi 4) lo) :: rest)
      | _ => Fault
      end
  end.

(** parseHex<kMasterKeySize> *)
Definition parseHex (s : string) : res bytes :=
  let hex := filter (fun ch => isspace ch = false) (String.list_ascii_of_string s) in
  if decide (length hex <> kMasterKeyHexChars) then
    Throw (invalid_argument
      ("hex_utils: expected " +:+ to_string (Z.of_nat kMasterKeyHexChars) +:+
       " hex chars, got " +:+ to_string (Z.of_nat (length hex))))
  else parseHex_loop kMasterKeySize hex.

End Hex.

(** ** KeyManager *)

Module KeyManager.
Section KeyManager.
Context `{Sodium}.

Definition kAeadKeyInfo : string := "access-aead-v1".
Definition kCardPepperInfo : string := "card-pepper-v1".
Definition kNonceKeyInfo : string := "nonce-derivation-v1".
Definition kAuditHmacSalt : string := "audit-chain-salt-v1".
Definition kAuditHmacInfo : string := "audit-hmac-v1".

Definition kAeadKeySize : Z := 32.
Definition kCardPepperSize : Z := 32.
Definition kAuditHmacKeySize : Z := 32.

Record KeyManagerConfig := mkKeyManagerConfig {
  currentKeyVersion : Z;
  allowPreviousKeyVersion : bool;
}.

Record KeyManager := mkKeyManager {
  _masterKey : bytes;
  _cfg : KeyManagerConfig;
}.

(** The constructor. *)
Definition KeyManager_new (masterKey : bytes) (cfg : KeyManagerConfig) : res KeyManager :=
  if decide (currentKeyVersion cfg = 0)
  then Throw (invalid_argument "KeyManager: currentKeyVersion must be > 0")
  else Ok (mkKeyManager masterKey cfg).

Definition putLe32 (v : Z) : bytes :=
  [u8 (Z.land v 255); u8 (Z.land (Z.shiftr v 8) 255);
   u8 (Z.land (Z.shiftr v 16) 255); u8 (Z.land (Z.shiftr v 24) 255)].

(** [content] is what the stream reads, [None] if the file does not open. *)
Definition loadMasterKeyHexFile (path : string) (content : option string) : res bytes :=
  match content with
  | None => Throw (runtime_error ("loadMasterKeyHexFile: failed to open file: " +:+ path))
  | Some c => Hex.parseHex c
  end.

Definition isAcceptedKeyVersion (km : KeyManager) (keyVersion : Z) : bool :=
  if decide (keyVersion = 0) then false
  else if decide (keyVersion = currentKeyVersion (_cfg km)) then true
  else if decide (allowPreviousKeyVersion (_cfg km) = true /\ 1 < currentKeyVersion (_cfg km) /\
                  u32 (keyVersion + 1) = currentKeyVersion (_cfg km)) then true
  else false.

Definition deriveAeadKey (km : KeyManager) (readerId keyVersion : Z) : res bytes :=
  let salt := putLe32 readerId ++ putLe32 keyVersion in
  okm ← Hkdf.hkdf (_masterKey km) salt kAeadKeyInfo kAeadKeySize;
  if decide (Z.of_nat (length okm) <> kAeadKeySize)
  then Throw (runtime_error "KeyManager: HKDF returned wrong length") else Ok okm.

Definition deriveCardPepper (km : KeyManager) (keyVersion : Z) : res bytes :=
  if decide (keyVersion = 0)
  then Throw (invalid_argument "KeyManager: keyVersion must be > 0")
  else
    let salt := putLe32 keyVersion in
    okm ← Hkdf.hkdf (_masterKey km) salt kCardPepperInfo kCardPepperSize;
    if decide (Z.of_nat (length okm) <> kCardPepperSize)
    then Throw (runtime_error "KeyManager: HKDF wrong length") else Ok okm.

Definition masterAsAeadKey (km : KeyManager) : bytes := _masterKey km.

Definition deriveNonceKey (km : KeyManager) (readerId keyVersion : Z) : res bytes :=
  let salt := putLe32 readerId ++ putLe32 keyVersion in
  okm ← Hkdf.hkdf (_masterKey km) salt kNonceKeyInfo kAeadKeySize;
  if decide (Z.of_nat (length okm) <> kAeadKeySize)
  then Throw (runtime_error "KeyManager: HKDF returned wrong length (nonce key)") else Ok okm.

Definition deriveAuditHmacKey (km : KeyManager) : res bytes :=
  let salt := bytes_of_string kAuditHmacSalt in
  okm ← Hkdf.hkdf (_masterKey km) salt kAuditHmacInfo kAuditHmacKeySize;
  if decide (Z.of_nat (length okm) <> kAuditHmacKeySize)
  then Throw (runtime_error "KeyManager: HKDF returned wrong length (audit key)") else Ok okm.

End KeyManager.
End KeyManager.

(** ** What a derived key depends on *)

Module KeySpec.

(** The uses the program derives keys for. *)
Inductive purpose :=
| ForAead (readerId keyVersion : Z)
| ForNonce (readerId keyVersion : Z)
| ForPepper (keyVersion : Z)
| ForAudit.

Definition purpose_ok (p : purpose) : Prop :=
  match p with
  | ForAead r kv | ForNonce r kv => is_u32 r /\ is_u32 kv
  | ForPepper kv => is_u32 kv /\ kv <> 0
  | ForAudit => True
  end.

(** Salt and info of the HKDF call. *)
Definition hkdf_inputs (p : purpose) : bytes * string :=
  match p with
  | ForAead r kv => (le_bytes 4 r ++ le_bytes 4 kv, "access-aead-v1")
  | ForNonce r kv => (le_bytes 4 r ++ le_bytes 4 kv, "nonce-derivation-v1")
  | ForPepper kv => (le_bytes 4 kv, "card-pepper-v1")
  | ForAudit => (bytes_of_string "audit-chain-salt-v1", "audit-hmac-v1")
  end.

Definition derive_for `{Sodium} (km : KeyManager.KeyManager) (p : purpose) : res bytes :=
  match p with
  | ForAead r kv => KeyManager.deriveAeadKey km r kv
  | ForNonce r kv => KeyManager.deriveNonceKey km r kv
  | ForPepper kv => KeyManager.deriveCardPepper km kv
  | ForAudit => KeyManager.deriveAuditHmacKey km
  end.

(** The 32-byte key the specification assigns to a purpose. *)
Definition key_for `{SodiumLaws} (km : KeyManager.KeyManager) (p : purpose) : bytes :=
  let '(salt, info) := hkdf_inputs p in
  CryptoFacts.rfc5869 (KeyManager._masterKey km) salt (bytes_of_string info) 32.

End KeySpec.

(** ** Lemmas *)

Module KeyFacts.
Import KeyManager KeySpec CryptoFacts.

Lemma putLe32_le v : putLe32 v = le_bytes 4 v.
Proof. rewrite <- map_byte_at. unfold putLe32, byte_at. simpl. by rewrite Z.shiftr_0_r. Qed.

Lemma hkdf_inputs_inj p q :
  purpose_ok p -> purpose_ok q -> hkdf_inputs p = hkdf_inputs q -> p = q.
Proof.
  assert (forall r kv r' kv', is_u32 r -> is_u32 kv -> is_u32 r' -> is_u32 kv' ->
    le_bytes 4 r ++ le_bytes 4 kv = le_bytes 4 r' ++ le_bytes 4 kv' -> r = r' /\ kv = kv') as Hs.
  { intros r kv r' kv' ???? [E1 E2]%app_inj_length; [|by rewrite !length_le_bytes].
    split; by apply (le_bytes_inj 4). }
  destruct p as [r kv|r kv|kv|], q as [r' kv'|r' kv'|kv'|]; intros Hp Hq E;
    pose proof (f_equal fst E) as E1; pose proof (f_equal snd E) as E2; clear E;
    cbn [hkdf_inputs fst snd] in E1, E2; try discriminate; try done; simpl in Hp, Hq.
  - by destruct (Hs r kv r' kv') as [-> ->]; try tauto.
  - by destruct (Hs r kv r' kv') as [-> ->]; try tauto.
  - f_equal. exact (le_bytes_inj 4 kv kv' (proj1 Hp) (proj1 Hq) E1).
Qed.

Section Derive.
Context `{SodiumLaws}.

Lemma hkdf_32 master salt info :
  Hkdf.hkdf master salt info 32 = Ok (rfc5869 master salt (bytes_of_string info) 32).
Proof. by apply (hkdf_run master salt info 32). Qed.

Lemma derive_for_spec km p : purpose_ok p -> derive_for km p = Ok (key_for km p).
Proof.
  unfold key_for. destruct p as [r kv|r kv|kv|]; simpl derive_for; simpl hkdf_inputs;
    unfold deriveAeadKey, deriveNonceKey, deriveCardPepper, deriveAuditHmacKey,
      kAeadKeySize, kCardPepperSize, kAuditHmacKeySize; intros Hp;
    rewrite ?putLe32_le; [| |rewrite decide_False by apply Hp|];
    rewrite hkdf_32; cbn [mbind res_bind]; by rewrite length_rfc5869.
Qed.

Lemma key_for_array km p : array_ok 32 (key_for km p).
Proof.
  unfold key_for. destruct (hkdf_inputs p). split; [apply length_rfc5869|apply rfc5869_ok].
Qed.

End Derive.
End KeyFacts.

(** ** Properties of key_manager *)

Module KeyProps.
Import KeyManager KeySpec KeyFacts ToySodium.

Definition test_km : KeyManager := mkKeyManager (map Z.of_nat (seq 0 32)) (mkKeyManagerConfig 2 true).

(** C36: domain separation. For every use (an AEAD key or a nonce key of one
    reader and key version, a card pepper of one version, the audit key) the
    derivation returns a 32-byte key, namely HKDF of the master key under the
    salt and info of that use, and no two different uses share salt and info:
    two readers, two versions or two purposes get the same key only if HKDF
    itself collides. *)
Theorem key_derivation_separated `{SodiumLaws} (km : KeyManager) (p q : purpose) :
  purpose_ok p -> purpose_ok q -> p <> q ->
  derive_for km p = Ok (key_for km p) /\ array_ok 32 (key_for km p) /\
  hkdf_inputs p <> hkdf_inputs q.
Proof.
  intros Hp Hq Hne. split; [by apply derive_for_spec|]. split; [apply key_for_array|].
  intros E. apply Hne. by apply hkdf_inputs_inj.
Qed.

Lemma key_derivation_separated_witness :
  derive_for test_km (ForAead 1 2) = Ok (key_for test_km (ForAead 1 2)) /\
  array_ok 32 (key_for test_km (ForAead 1 2)) /\
  hkdf_inputs (ForAead 1 2) <> hkdf_inputs (ForAead 2 1).
Proof.
  apply (key_derivation_separated test_km); [by split; by_decision..|done].
Defined.

End KeyProps.
