(* ===== verification/Events.v ===== *)
(** runtime_events: the bounded event buffer the web interface polls. *)
From Stdlib Require Import ZArith Lia.
From stdpp Require Import base option list strings.
From S2P Require Import Prelude.
Local Open Scope Z_scope.

Module EventBus.

Record Event := mkEvent {
  id : Z;
  ts_unix_ms : Z;
  kind : string;
  message : string;
  reader_id : Z;
  door_id : Z;
  seqno : Z;
  allow : bool;
  reason : string;
}.

Record EventBus := mkEventBus {
  _max : Z;
  _events : list Event;      (* oldest first *)
  _lastId : Z;
}.

Definition EventBus_new (maxEvents : Z) : EventBus := mkEventBus maxEvents [] 0.

Definition with_id (i : Z) (e : Event) : Event :=
  mkEvent i (ts_unix_ms e) (kind e) (message e) (reader_id e) (door_id e) (seqno e) (allow e) (reason e).

(** [pop_front()] of an empty deque is undefined. *)
Definition push (e : Event) : M EventBus Z := fun b =>
  let lastId := u64 (_lastId b + 1) in
  let e := with_id lastId e in
  if decide (_max b <= Z.of_nat (length (_events b))) then
    match _events b with
    | [] => (mkEventBus (_max b) [] lastId, Fault)
    | _ :: rest => (mkEventBus (_max b) (rest ++ [e]) lastId, Ok lastId)
    end
  else (mkEventBus (_max b) (_events b ++ [e]) lastId, Ok lastId).

(** The loop of [getAfter]: the limit is tested after each insertion. *)
Fixpoint getAfter_loop (afterId limit : Z) (evs out : list Event) : list Event :=
  match evs with
  | [] => out
  | e :: evs' =>
      if decide (afterId < id e) then
        let out := out ++ [e] in
        if decide (limit <= Z.of_nat (length out)) then out
        else getAfter_loop afterId limit evs' out
      else getAfter_loop afterId limit evs' out
  end.

(** [max_size] is the [max_size()] of [std::vector<Event>], above which
    [reserve] throws. *)
Definition getAfter (max_size : Z) (b : EventBus) (afterId limit : Z) : res (list Event) :=
  if decide (max_size < limit) then Throw (length_error "vector::reserve")
  else Ok (getAfter_loop afterId limit (_events b) []).

Definition lastId (b : EventBus) : Z := _lastId b.

(** The identifiers of the buffered events are consecutive and end at
    [_lastId]; there are at most [_max] of them. *)
Record bus_ok (b : EventBus) : Prop := {
  bus_max : 1 <= _max b;
  bus_length : Z.of_nat (length (_events b)) <= _max b;
  bus_ids : forall i e, _events b !! i = Some e ->
    id e = _lastId b - Z.of_nat (length (_events b)) + 1 + Z.of_nat i;
  bus_last : Z.of_nat (length (_events b)) <= _lastId b;
}.

(** What the buffer keeps in memory, a capacity of 0 and the fault it leads to
    included. *)
Record bounded (n : Z) (b : EventBus) : Prop := {
  bd_max : _max b = n;
  bd_length : Z.of_nat (length (_events b)) <= Z.max 0 n;
}.

End EventBus.

Module EventFacts.
Import EventBus.

Lemma bounded_new n : bounded n (EventBus_new n).
Proof. split; cbn; lia. Qed.

Lemma push_bounded n e b : bounded n b -> bounded n (push e b).1.
Proof.
  intros [Em Hl]. unfold push. case_decide; [destruct (_events b) eqn:Ee|]; split; cbn in *; try done;
    rewrite ?length_app; cbn; lia.
Qed.

Lemma bus_new_ok n : 1 <= n -> bus_ok (EventBus_new n).
Proof. intros Hn. split; simpl; try lia. by intros i e. Qed.

Lemma push_ok b e :
  bus_ok b -> _lastId b < 2 ^ 64 - 1 ->
  exists b', push e b = (b', Ok (_lastId b + 1)) /\ bus_ok b' /\
    _lastId b' = _lastId b + 1 /\ last (_events b') = Some (with_id (_lastId b + 1) e) /\
    _max b' = _max b.
Proof.
  intros [Hm Hl Hi Hla] Hb. unfold push. rewrite u64_id by (unfold is_u64; lia).
  destruct (decide (_max b <= Z.of_nat (length (_events b)))) as [Hfull|Hroom].
  - destruct (_events b) as [|x rest] eqn:Ee; [simpl in Hfull; lia|].
    eexists. split; [done|]. split_and!; try done; [|by cbn [_events]; rewrite last_snoc].
    cbn [length] in *.
    split; cbn [_max _events _lastId]; try rewrite length_app; cbn [length]; try lia.
    intros i e' Hlk. apply lookup_app_Some in Hlk as [Hlk|[Hge Hlk]].
    + rewrite (Hi (S i) e') by done. lia.
    + apply list_lookup_singleton_Some in Hlk as [Hz <-]. cbn [with_id id]. lia.
  - eexists. split; [done|]. split_and!; try done; [|by cbn [_events]; rewrite last_snoc].
    split; cbn [_max _events _lastId]; try rewrite length_app; cbn [length]; try lia.
    intros i e' Hlk. apply lookup_app_Some in Hlk as [Hlk|[Hge Hlk]].
    + rewrite (Hi i e') by done. lia.
    + apply list_lookup_singleton_Some in Hlk as [Hz <-]. cbn [with_id id]. lia.
Qed.

(** The loop is "the first [limit] matching events", at least one if any. *)
Lemma getAfter_loop_spec afterId limit evs out :
  Z.of_nat (length out) < Z.max 1 limit ->
  getAfter_loop afterId limit evs out
  = take (Z.to_nat (Z.max 1 limit)) (out ++ filter (fun e => afterId < id e) evs).
Proof.
  revert out. induction evs as [|e evs IH]; intros out Hout; simpl.
  - rewrite app_nil_r, take_ge; [done|lia].
  - rewrite filter_cons. case_decide as Hid.
    + case_decide as Hlim; rewrite length_app in Hlim; cbn [length] in Hlim.
      * rewrite (cons_middle e out (filter _ evs)), app_assoc, take_app_le, take_ge; [done|..];
          rewrite length_app; cbn [length]; lia.
      * rewrite IH by (rewrite length_app; cbn [length]; lia). by rewrite <- app_assoc.
    + by apply IH.
Qed.

(** Of consecutive identifiers, those above a bound are a suffix. *)
Lemma filter_consecutive (evs : list Event) (first after : Z) :
  (forall i e, evs !! i = Some e -> id e = first + Z.of_nat i) ->
  filter (fun e => after < id e) evs = drop (Z.to_nat (after + 1 - first)) evs.
Proof.
  revert first. induction evs as [|e evs IH]; intros first Hids; [by rewrite drop_nil|].
  assert (forall i e', evs !! i = Some e' -> id e' = first + 1 + Z.of_nat i) as Hids'.
  { intros i e' He. rewrite (Hids (S i) e' He). lia. }
  specialize (IH _ Hids'). rewrite filter_cons, IH.
  pose proof (Hids 0%nat e eq_refl) as He.
  case_decide.
  - replace (Z.to_nat (after + 1 - first)) with 0%nat by lia.
    by replace (Z.to_nat (after + 1 - (first + 1))) with 0%nat by lia.
  - by replace (Z.to_nat (after + 1 - first)) with (S (Z.to_nat (after + 1 - (first + 1)))) by lia.
Qed.

Lemma getAfter_spec max_size b after limit :
  bus_ok b -> limit <= max_size ->
  getAfter max_size b after limit =
    Ok (take (Z.to_nat (Z.max 1 limit))
          (drop (Z.to_nat (after - (_lastId b - Z.of_nat (length (_events b))))) (_events b))).
Proof.
  intros [Hm Hl Hi Hla] Hlim. unfold getAfter. rewrite decide_False by lia.
  rewrite getAfter_loop_spec by (simpl; lia). rewrite app_nil_l. f_equal. f_equal.
  rewrite (filter_consecutive _ (_lastId b - Z.of_nat (length (_events b)) + 1)).
  - f_equal. lia.
  - intros i e He. rewrite (Hi i e He). lia.
Qed.

End EventFacts.

(** ** Properties of the event bus *)

Module EventProps.
Import EventBus EventFacts.

(** Pushing a sequence of events. *)
Fixpoint push_all (es : list Event) : M EventBus unit :=
  match es with
  | [] => mret tt
  | e :: es' => push e ;; push_all es'
  end.

Lemma push_all_ok es b :
  bus_ok b -> _lastId b + Z.of_nat (length es) < 2 ^ 64 ->
  exists b', push_all es b = (b', Ok tt) /\ bus_ok b' /\
    _lastId b' = _lastId b + Z.of_nat (length es).
Proof.
  revert b. induction es as [|e es IH]; intros b Hb Hn; cbn [push_all length].
  - exists b. split; [done|]. split; [done|lia].
  - cbn [length] in Hn. destruct (push_ok b e Hb) as (b1 & E & Hb1 & Hl & _); [lia|].
    rewrite (M_bind_ok _ _ _ _ _ E). destruct (IH b1 Hb1) as (b2 & E2 & Hb2 & Hl2); [lia|].
    exists b2. rewrite E2. split; [done|]. split; [done|lia].
Qed.

(** With a capacity of at least one, any sequence of events can be pushed
    without a fault; identifiers never repeat and stay consecutive, the newest
    event has [lastId], and the buffer never exceeds its capacity. *)
Theorem event_bus_invariant (n : Z) (es : list Event) :
  1 <= n -> Z.of_nat (length es) < 2 ^ 64 ->
  exists b, push_all es (EventBus_new n) = (b, Ok tt) /\ bus_ok b /\
    lastId b = Z.of_nat (length es).
Proof.
  intros Hn Hl. by destruct (push_all_ok es _ (bus_new_ok n Hn) Hl) as (b & E & Hb & H); eauto.
Qed.

Definition test_event : Event := mkEvent 0 5 "frame" "" 0 0 0 false "".

Lemma event_bus_invariant_witness :
  exists b, push_all (replicate 5 test_event) (EventBus_new 2) = (b, Ok tt) /\ bus_ok b /\
    lastId b = 5.
Proof. apply (event_bus_invariant 2 (replicate 5 test_event)); [lia|by vm_compute]. Defined.

(** What polling sees. [getAfter] returns the buffered events after
    [afterId] in order, cut to the limit (to one event if the limit is 0):
    a client that fell behind by no more than the buffer misses nothing. *)
Theorem getAfter_no_gap (max_size : Z) (b : EventBus) (after limit : Z) :
  bus_ok b -> 1 <= limit <= max_size ->
  _lastId b - Z.of_nat (length (_events b)) <= after <= _lastId b ->
  exists out, getAfter max_size b after limit = Ok out /\
    (forall i e, out !! i = Some e -> id e = after + 1 + Z.of_nat i) /\
    Z.of_nat (length out) = Z.min limit (_lastId b - after).
Proof.
  intros Hb Hlim Hafter. eexists. split; [apply getAfter_spec; [done|lia]|].
  destruct Hb as [Hm Hl Hi Hla]. split.
  - intros i e He. rewrite lookup_take in He. case_decide; [|done].
    rewrite lookup_drop in He. rewrite (Hi _ _ He). lia.
  - rewrite length_take, length_drop. lia.
Qed.

Definition test_bus : EventBus := (push_all (replicate 5 test_event) (EventBus_new 3)).1.

Lemma test_bus_ok : bus_ok test_bus.
Proof.
  split; try (vm_compute; congruence). intros i e H.
  do 3 (destruct i as [|i]; [injection H as <-; reflexivity|]). done.
Qed.

Lemma getAfter_no_gap_witness :
  exists out, getAfter 1000 test_bus 3 200 = Ok out /\
    (forall i e, out !! i = Some e -> id e = 3 + 1 + Z.of_nat i) /\ Z.of_nat (length out) = 2.
Proof.
  apply (getAfter_no_gap 1000 test_bus 3 200 test_bus_ok); vm_compute; split; congruence.
Defined.

(** A configured capacity of 0 (nothing rejects it) makes the first push
    undefined behaviour, and a limit of 0 still returns an event. *)
Theorem event_bus_zero (e : Event) (max_size : Z) (b : EventBus) (after : Z) :
  (push e (EventBus_new 0)).2 = Fault /\
  (0 <= max_size -> filter (fun e => after < id e) (_events b) <> [] ->
   exists e0, getAfter max_size b after 0 = Ok [e0]).
Proof.
  split; [done|]. intros Hm Hf. unfold getAfter. rewrite decide_False by lia.
  rewrite getAfter_loop_spec by (simpl; lia). rewrite app_nil_l.
  destruct (filter _ _) as [|e0 rest]; [done|]. by exists e0.
Qed.

Lemma event_bus_zero_witness :
  exists e0, getAfter 1000 test_bus 0 0 = Ok [e0].
Proof. apply (event_bus_zero test_event 1000 test_bus 0); [lia|by vm_compute]. Defined.

End EventProps.
