(* ===== verification/Detector.v ===== *)
(** access_core/protocol_anomaly_detector: the R2 runtime monitor. One state
    per reader, a quarantine that only an administrator lifts. *)
From Stdlib Require Import ZArith Lia.
From stdpp Require Import base option list gmap strings.
From S2P Require Import Prelude Crypto.
Local Open Scope Z_scope.

Module Detector.

Inductive AnomalyType := seq_reuse | seq_rollback | nonce_mismatch | tag_fail_streak.

#[global] Instance AnomalyType_eq_dec : EqDecision AnomalyType.
Proof. solve_decision. Defined.

Definition anomalyTypeToString (t : AnomalyType) : string :=
  match t with
  | seq_reuse => "seq_reuse"
  | seq_rollback => "seq_rollback"
  | nonce_mismatch => "nonce_mismatch"
  | tag_fail_streak => "tag_fail_streak"
  end.

Record DetectorConfig := mkDetectorConfig {
  enabled : bool;
  rollbackThreshold : Z;
  tagFailStreakLimit : Z;
}.

(** [DetectorConfig{}] *)
Definition DetectorConfig_default : DetectorConfig := mkDetectorConfig false 100 5.

Record QuarantineInfo := mkQuarantineInfo {
  q_ts_unix_ms : Z;
  q_reason : AnomalyType;
  q_detail : string;
}.

Record ReaderState := mkReaderState {
  maxSeenSeq : Z;
  consecutiveTagFails : Z;
  quarantine : option QuarantineInfo;
}.

Definition ReaderState_default : ReaderState := mkReaderState 0 0 None.

Record ProtocolAnomalyDetector := mkDetector {
  _config : DetectorConfig;
  _readers : gmap Z ReaderState;
}.

Definition Detector_new (config : DetectorConfig) : ProtocolAnomalyDetector := mkDetector config ∅.

(** [_readers[readerId]]: the reader's state, default-created. *)
Definition getState (d : ProtocolAnomalyDetector) (readerId : Z) : ReaderState :=
  default ReaderState_default (_readers d !! readerId).

(** Writing through the reference [getState] returned. *)
Definition setState (d : ProtocolAnomalyDetector) (readerId : Z) (s : ReaderState) :
    ProtocolAnomalyDetector :=
  mkDetector (_config d) (<[readerId := s]> (_readers d)).

Definition doQuarantine (s : ReaderState) (reason : AnomalyType) (tsMs : Z) (detail : string) :
    ReaderState :=
  mkReaderState (maxSeenSeq s) (consecutiveTagFails s) (Some (mkQuarantineInfo tsMs reason detail)).

Definition isQuarantined (d : ProtocolAnomalyDetector) (readerId : Z) : bool :=
  match _readers d !! readerId with
  | None => false
  | Some s => bool_decide (is_Some (quarantine s))
  end.

Definition quarantineInfo (d : ProtocolAnomalyDetector) (readerId : Z) : option QuarantineInfo :=
  match _readers d !! readerId with
  | None => None
  | Some s => quarantine s
  end.

Definition reportReplay (readerId seq tsMs : Z) (d : ProtocolAnomalyDetector) :
    ProtocolAnomalyDetector * AnomalyType :=
  let s := getState d readerId in
  (setState d readerId (doQuarantine s seq_reuse tsMs ("seq=" +:+ to_string seq)), seq_reuse).

Definition reportSeq (readerId seq tsMs : Z) (d : ProtocolAnomalyDetector) :
    ProtocolAnomalyDetector * option AnomalyType :=
  let s := getState d readerId in
  if decide (0 < maxSeenSeq s /\ u64 (seq + rollbackThreshold (_config d)) < maxSeenSeq s) then
    (setState d readerId
       (doQuarantine s seq_rollback tsMs
          ("seq=" +:+ to_string seq +:+ " maxSeen=" +:+ to_string (maxSeenSeq s))),
     Some seq_rollback)
  else if decide (maxSeenSeq s < seq) then
    (setState d readerId (mkReaderState seq (consecutiveTagFails s) (quarantine s)), None)
  else (setState d readerId s, None).

Definition reportNonceMismatch (readerId tsMs : Z) (d : ProtocolAnomalyDetector) :
    ProtocolAnomalyDetector * AnomalyType :=
  let s := getState d readerId in
  (setState d readerId (doQuarantine s nonce_mismatch tsMs ""), nonce_mismatch).

Definition reportTagFailure (readerId tsMs : Z) (d : ProtocolAnomalyDetector) :
    ProtocolAnomalyDetector * option AnomalyType :=
  let s := getState d readerId in
  let s := mkReaderState (maxSeenSeq s) (u32 (consecutiveTagFails s + 1)) (quarantine s) in
  if decide (tagFailStreakLimit (_config d) <= consecutiveTagFails s) then
    (setState d readerId
       (doQuarantine s tag_fail_streak tsMs ("streak=" +:+ to_string (consecutiveTagFails s))),
     Some tag_fail_streak)
  else (setState d readerId s, None).

Definition reportSuccess (readerId seq : Z) (d : ProtocolAnomalyDetector) : ProtocolAnomalyDetector :=
  let s := getState d readerId in
  let maxSeen := if decide (maxSeenSeq s < seq) then seq else maxSeenSeq s in
  setState d readerId (mkReaderState maxSeen 0 (quarantine s)).

Definition unquarantine (readerId : Z) (d : ProtocolAnomalyDetector) :
    ProtocolAnomalyDetector * bool :=
  match _readers d !! readerId with
  | None => (d, false)
  | Some s =>
      match quarantine s with
      | None => (d, false)
      | Some _ => (setState d readerId (mkReaderState (maxSeenSeq s) 0 None), true)
      end
  end.

(** [sodium_memcmp] over the first [len] bytes. *)
Definition nonceEqual `{Sodium} (received expected : bytes) (len : nat) : bool :=
  bool_decide (sodium_memcmp (take len received) (take len expected) = 0).

(** ** The detector as a state machine *)

Inductive call :=
| CallReplay (readerId seq tsMs : Z)
| CallSeq (readerId seq tsMs : Z)
| CallNonceMismatch (readerId tsMs : Z)
| CallTagFailure (readerId tsMs : Z)
| CallSuccess (readerId seq : Z)
| CallUnquarantine (readerId : Z).

#[global] Instance call_eq_dec : EqDecision call.
Proof. solve_decision. Defined.

Definition call_reader (c : call) : Z :=
  match c with
  | CallReplay r _ _ | CallSeq r _ _ | CallNonceMismatch r _ | CallTagFailure r _
  | CallSuccess r _ | CallUnquarantine r => r
  end.

Definition run_call (c : call) (d : ProtocolAnomalyDetector) : ProtocolAnomalyDetector :=
  match c with
  | CallReplay r s t => (reportReplay r s t d).1
  | CallSeq r s t => (reportSeq r s t d).1
  | CallNonceMismatch r t => (reportNonceMismatch r t d).1
  | CallTagFailure r t => (reportTagFailure r t d).1
  | CallSuccess r s => reportSuccess r s d
  | CallUnquarantine r => (unquarantine r d).1
  end.

(** One transition, and the states reachable by any interleaving of calls (each
    public method holds the mutex for its whole body). *)
Inductive step : ProtocolAnomalyDetector -> call -> ProtocolAnomalyDetector -> Prop :=
| step_call d c : step d c (run_call c d).

Inductive steps : ProtocolAnomalyDetector -> list call -> ProtocolAnomalyDetector -> Prop :=
| steps_nil d : steps d [] d
| steps_cons d c d' cs d'' : step d c d' -> steps d' cs d'' -> steps d (c :: cs) d''.

Definition run_calls (cs : list call) (d : ProtocolAnomalyDetector) : ProtocolAnomalyDetector :=
  foldl (fun d c => run_call c d) d cs.

End Detector.

Module DetectorFacts.
Import Detector.

Lemma steps_run cs d : steps d cs (run_calls cs d).
Proof. revert d. induction cs as [|c cs IH]; intros d; [constructor|]. econstructor; [constructor|apply IH]. Qed.

Lemma steps_run_inv d cs d' : steps d cs d' -> d' = run_calls cs d.
Proof. induction 1 as [|d c d' cs d'' Hs _ IH]; [done|]. by inversion Hs; subst. Qed.

(** Case analysis over one method. *)
Ltac method_cases :=
  unfold reportReplay, reportSeq, reportNonceMismatch, reportTagFailure, reportSuccess, unquarantine;
  repeat (case_decide || case_match); simpl in *; simplify_eq; try done.

Lemma run_call_config c d : _config (run_call c d) = _config d.
Proof. destruct c; unfold run_call; method_cases. Qed.

(** A call touches its own reader only. *)
Lemma run_call_frame c d r :
  r <> call_reader c -> _readers (run_call c d) !! r = _readers d !! r.
Proof.
  intros Hr. destruct c; unfold run_call; simpl call_reader in Hr; method_cases;
    by rewrite lookup_insert_ne.
Qed.

Lemma isQuarantined_getState d r : isQuarantined d r = bool_decide (is_Some (quarantine (getState d r))).
Proof. unfold isQuarantined, getState. by destruct (_readers d !! r). Qed.

Lemma getState_set d r s : getState (setState d r s) r = s.
Proof. unfold getState, setState; simpl. by rewrite lookup_insert_eq. Qed.

Lemma getState_frame c d r : r <> call_reader c -> getState (run_call c d) r = getState d r.
Proof. intros H. unfold getState. by rewrite run_call_frame. Qed.

(** A reader's state after a call about it. *)
Lemma run_call_quarantined c d r :
  c <> CallUnquarantine r -> is_Some (quarantine (getState d r)) ->
  is_Some (quarantine (getState (run_call c d) r)).
Proof.
  intros Hc Hq. destruct (decide (r = call_reader c)) as [->|Hne]; [|by rewrite getState_frame].
  destruct c; unfold run_call; simpl call_reader in *;
    unfold reportReplay, reportSeq, reportNonceMismatch, reportTagFailure, reportSuccess;
    repeat case_decide; cbn [fst]; rewrite ?getState_set; cbn [doQuarantine quarantine]; done || by eauto.
Qed.

Lemma run_calls_quarantined cs d r :
  CallUnquarantine r ∉ cs -> is_Some (quarantine (getState d r)) ->
  is_Some (quarantine (getState (run_calls cs d) r)).
Proof.
  revert d. induction cs as [|c cs IH]; intros d Hn Hq; [done|]. simpl.
  apply IH; [set_solver|]. apply run_call_quarantined; [set_solver|done].
Qed.

Lemma run_calls_frame cs d r :
  Forall (fun c => call_reader c <> r) cs -> getState (run_calls cs d) r = getState d r.
Proof.
  intros H. revert d. induction H as [|c cs Hc _ IH]; intros d; [done|]. simpl.
  rewrite IH. by apply getState_frame.
Qed.

(** [maxSeenSeq] never goes down. *)
Lemma run_call_maxSeen c d r : maxSeenSeq (getState d r) <= maxSeenSeq (getState (run_call c d) r).
Proof.
  destruct (decide (r = call_reader c)) as [->|Hne]; [|by rewrite getState_frame].
  destruct c as [x ? ?|x ? ?|x ?|x ?|x ?|x]; unfold run_call; simpl call_reader;
    unfold reportReplay, reportSeq, reportNonceMismatch, reportTagFailure, reportSuccess;
    try (repeat case_decide; cbn [fst]; rewrite ?getState_set; cbn [doQuarantine maxSeenSeq]; lia).
  unfold unquarantine. unfold getState at 1.
  destruct (_readers d !! x) as [s|] eqn:E; [|unfold getState; simpl; rewrite E; simpl; lia].
  destruct (quarantine s); cbn [fst default].
  - rewrite getState_set. simpl. lia.
  - unfold getState. rewrite E. simpl. lia.
Qed.

Lemma run_calls_config cs d : _config (run_calls cs d) = _config d.
Proof.
  revert d. induction cs as [|c cs IH]; intros d; [done|]. simpl. rewrite IH. apply run_call_config.
Qed.

(** Tag failures of [r], and calls about other readers. *)
Definition only_tag_failures (r : Z) (c : call) : Prop :=
  call_reader c <> r \/ exists t, c = CallTagFailure r t.

Definition is_tag_failure (r : Z) (c : call) : bool :=
  match c with CallTagFailure r' _ => bool_decide (r' = r) | _ => false end.

Definition tag_failures (r : Z) (cs : list call) : Z :=
  Z.of_nat (length (filter (fun c => is_tag_failure r c = true) cs)).

Lemma tag_failures_snoc r cs c :
  tag_failures r (cs ++ [c]) = tag_failures r cs + (if is_tag_failure r c then 1 else 0).
Proof.
  unfold tag_failures. rewrite filter_app, length_app, filter_cons, filter_nil.
  destruct (is_tag_failure r c); simpl; lia.
Qed.

Lemma streak_count cs d r :
  Forall (only_tag_failures r) cs -> consecutiveTagFails (getState d r) = 0 ->
  quarantine (getState d r) = None -> tag_failures r cs < 2 ^ 32 ->
  1 <= tagFailStreakLimit (_config d) ->
  let s := getState (run_calls cs d) r in
  consecutiveTagFails s = tag_failures r cs /\
  (is_Some (quarantine s) <-> tagFailStreakLimit (_config d) <= tag_failures r cs).
Proof.
  intros Hcs H0 Hq. revert Hcs. induction cs as [|c cs IH] using rev_ind; intros Hcs Hlt Hlim.
  - cbn. unfold tag_failures; simpl. rewrite H0, Hq. split; [done|].
    split; [by intros []|lia].
  - apply Forall_app in Hcs as [Hcs Hc]. apply Forall_inv in Hc.
    rewrite tag_failures_snoc in *. unfold run_calls. rewrite foldl_app. cbn [foldl].
    fold (run_calls cs d). destruct IH as [Hn Hiff]; [done|destruct (is_tag_failure r c); lia|done|].
    destruct Hc as [Hne|[t ->]].
    + rewrite getState_frame by done.
      replace (is_tag_failure r c) with false
        by (destruct c; simpl in *; try done; by rewrite bool_decide_false).
      by rewrite Z.add_0_r.
    + simpl is_tag_failure in *. rewrite bool_decide_true in * by done.
      unfold run_call, reportTagFailure. cbn [consecutiveTagFails]. rewrite run_calls_config, Hn.
      rewrite u32_id by (unfold is_u32, tag_failures in *; lia).
      case_decide; cbn [fst]; rewrite getState_set; cbn [doQuarantine quarantine consecutiveTagFails].
      * split; [done|]. split; [lia|by eauto].
      * split; [done|]. rewrite Hiff. split; lia.
Qed.

End DetectorFacts.

(** ** Properties of the detector *)

Module DetectorProps.
Import Detector DetectorFacts.

Definition test_detector : ProtocolAnomalyDetector := Detector_new (mkDetectorConfig true 100 5).

(** Quarantine is sticky. Once a reader is quarantined, no interleaving of
    reports, about it or about any other reader, releases it; only
    [unquarantine] of that very reader does. *)
Theorem quarantine_until_admin (d d' : ProtocolAnomalyDetector) (cs : list call) (r : Z) :
  isQuarantined d r = true -> steps d cs d' -> CallUnquarantine r ∉ cs ->
  isQuarantined d' r = true.
Proof.
  intros Hq Hs Hn. apply steps_run_inv in Hs as ->. rewrite isQuarantined_getState in *.
  apply bool_decide_eq_true in Hq. apply bool_decide_eq_true. by apply run_calls_quarantined.
Qed.

Lemma quarantine_until_admin_witness :
  isQuarantined
    (run_calls [CallSuccess 1 9; CallUnquarantine 2; CallTagFailure 1 7]
       (run_call (CallReplay 1 5 6) test_detector)) 1 = true.
Proof.
  apply (quarantine_until_admin (run_call (CallReplay 1 5 6) test_detector) _
    [CallSuccess 1 9; CallUnquarantine 2; CallTagFailure 1 7] 1); [reflexivity|apply steps_run|].
  by_decision.
Defined.

(** Reports are per reader. A sequence of calls about other readers leaves
    a reader's state (highest number, failure streak, quarantine) as it was. *)
Theorem readers_isolated (d d' : ProtocolAnomalyDetector) (cs : list call) (r : Z) :
  steps d cs d' -> Forall (fun c => call_reader c <> r) cs ->
  getState d' r = getState d r /\ isQuarantined d' r = isQuarantined d r.
Proof.
  intros Hs Hall. apply steps_run_inv in Hs as ->.
  rewrite !isQuarantined_getState, run_calls_frame by done. done.
Qed.

Lemma readers_isolated_witness :
  getState (run_calls [CallReplay 2 5 6; CallTagFailure 3 1] test_detector) 1
  = getState test_detector 1 /\
  isQuarantined (run_calls [CallReplay 2 5 6; CallTagFailure 3 1] test_detector) 1 = false.
Proof.
  apply (readers_isolated test_detector _ [CallReplay 2 5 6; CallTagFailure 3 1] 1);
    [apply steps_run|by_decision].
Defined.

(** The failure streak counts exactly. From a clean reader, after any
    sequence in which the reader only fails authentication (and other readers
    do anything), it is quarantined if and only if it failed at least
    [tagFailStreakLimit] times. *)
Theorem tag_failures_quarantine (d d' : ProtocolAnomalyDetector) (cs : list call) (r : Z) :
  steps d cs d' -> Forall (only_tag_failures r) cs ->
  consecutiveTagFails (getState d r) = 0 -> quarantine (getState d r) = None ->
  1 <= tagFailStreakLimit (_config d) -> tag_failures r cs < 2 ^ 32 ->
  isQuarantined d' r = bool_decide (tagFailStreakLimit (_config d) <= tag_failures r cs).
Proof.
  intros Hs Hcs H0 Hq Hlim Hlt. apply steps_run_inv in Hs as ->.
  rewrite isQuarantined_getState. apply bool_decide_ext. by apply streak_count.
Qed.

Lemma tag_failures_quarantine_witness :
  isQuarantined (run_calls [CallTagFailure 1 7; CallSuccess 2 9; CallTagFailure 1 8;
    CallTagFailure 1 9; CallTagFailure 1 10] test_detector) 1 = false.
Proof.
  rewrite (tag_failures_quarantine test_detector _ [CallTagFailure 1 7; CallSuccess 2 9;
    CallTagFailure 1 8; CallTagFailure 1 9; CallTagFailure 1 10] 1 (steps_run _ _));
    [by vm_compute| |reflexivity|reflexivity|by vm_compute|by vm_compute].
  repeat (apply Forall_cons_2; [(right; eexists; reflexivity) || (by left)|]). apply Forall_nil_2.
Defined.

(** [reportSeq] without wrap-around. While [seq + rollbackThreshold] fits
    64 bits the reader is quarantined exactly when its number is more than the
    threshold below the highest seen, and otherwise the maximum is updated. *)
Theorem reportSeq_rollback (d : ProtocolAnomalyDetector) (r seq ts : Z) :
  0 <= seq -> 0 <= rollbackThreshold (_config d) -> seq + rollbackThreshold (_config d) < 2 ^ 64 ->
  0 <= maxSeenSeq (getState d r) ->
  let '(d', a) := reportSeq r seq ts d in
  (a = Some seq_rollback <-> seq + rollbackThreshold (_config d) < maxSeenSeq (getState d r)) /\
  (a <> None -> isQuarantined d' r = true) /\
  maxSeenSeq (getState d' r) =
    (if decide (a = None) then Z.max (maxSeenSeq (getState d r)) seq else maxSeenSeq (getState d r)).
Proof.
  intros Hs Ht Hlt Hm. unfold reportSeq. rewrite u64_id by (unfold is_u64; lia).
  repeat case_decide; try done; rewrite getState_set, isQuarantined_getState, getState_set;
    cbn [doQuarantine quarantine maxSeenSeq]; split_and!; try done; try (split; intros; first [done | lia | exfalso; lia]); lia.
Qed.

Lemma reportSeq_rollback_witness :
  let d := run_call (CallSuccess 1 500) test_detector in
  ((reportSeq 1 399 7 d).2 = Some seq_rollback <-> 499 < 500) /\
  ((reportSeq 1 399 7 d).2 <> None -> isQuarantined (reportSeq 1 399 7 d).1 1 = true) /\
  maxSeenSeq (getState (reportSeq 1 399 7 d).1 1) = 500.
Proof.
  exact (reportSeq_rollback (run_call (CallSuccess 1 500) test_detector) 1 399 7
    ltac:(lia) ltac:(by vm_compute) ltac:(by vm_compute) ltac:(by vm_compute)).
Defined.

(** At the top of the 64-bit range the sum [seq + rollbackThreshold] wraps
    around: a number above everything seen is reported as a rollback and the
    reader is quarantined. *)
Theorem reportSeq_overflow (d : ProtocolAnomalyDetector) (r seq ts : Z) :
  is_u64 seq -> is_u64 (rollbackThreshold (_config d)) ->
  2 ^ 64 <= seq + rollbackThreshold (_config d) ->
  seq + rollbackThreshold (_config d) - 2 ^ 64 < maxSeenSeq (getState d r) < seq ->
  (reportSeq r seq ts d).2 = Some seq_rollback /\ isQuarantined (reportSeq r seq ts d).1 r = true.
Proof.
  intros Hs Ht Hge Hm. unfold is_u64 in *.
  assert (u64 (seq + rollbackThreshold (_config d)) = seq + rollbackThreshold (_config d) - 2 ^ 64) as E.
  { unfold u64, wrap.
    replace (seq + rollbackThreshold (_config d))
      with ((seq + rollbackThreshold (_config d) - 2 ^ 64) + 1 * 2 ^ 64) by lia.
    rewrite Z.mod_add, Z.mod_small; lia. }
  unfold reportSeq. rewrite E, decide_True by lia. split; [done|]. cbn [fst].
  by rewrite isQuarantined_getState, getState_set.
Qed.

Lemma reportSeq_overflow_witness :
  (reportSeq 1 (2 ^ 64 - 1) 7 (run_call (CallSuccess 1 200) test_detector)).2 = Some seq_rollback /\
  isQuarantined (reportSeq 1 (2 ^ 64 - 1) 7 (run_call (CallSuccess 1 200) test_detector)).1 1 = true.
Proof.
  apply reportSeq_overflow; [by_decision|by_decision|by vm_compute|vm_compute; split; reflexivity].
Defined.

End DetectorProps.
