(* ===== verification/Access.v ===== *)
(** access_decision, the parts around the engine: the store interface
    ([IAccessStore], with what it promises in [AccessStoreSpec]), the in-memory
    policy ([AccessPolicy]), the audit interface ([IAuditLog]), card-identifier
    hashing ([CardIdHasher]) and the request payload ([Payload]). *)
From Stdlib Require Import ZArith Lia Ascii.
From stdpp Require Import base option list gmap strings.
From S2P Require Import Prelude LittleEndian Crypto Keys.
Local Open Scope Z_scope.

(** ** IAccessStore

    [W] is the state the store lives in (a database connection, say). Queries
    are methods that may throw, and the state is threaded through them too. *)

Class IAccessStore (W : Type) := {
  roleForCardHmac : string -> M W (option string);
  isAllowed : Z -> string -> M W bool;
  currentKeyVersionForReader : Z -> M W Z;
  upsertReader : Z -> Z -> M W unit;
  isReaderAllowedDoor : Z -> Z -> M W bool;
  allowDoorForReader : Z -> Z -> M W unit;
}.

(** The policy a store holds, as functions. *)
Record PolicyView := mkPolicyView {
  view_role : string -> option string;
  view_allowed : Z -> string -> bool;
  view_key_version : Z -> Z;
  view_bound : Z -> Z -> bool;
}.

(** What a store promises: a query that returns gives the answer of the policy
    and leaves the policy as it was. Arguments fit their C++ types, and texts
    have no embedded NUL; roles have none either. *)
Class AccessStoreSpec (W : Type) `{IAccessStore W} := {
  policy_of : W -> PolicyView;
  role_spec c w w' r : cstr c = c ->
    roleForCardHmac c w = (w', Ok r) -> r = view_role (policy_of w) c /\ policy_of w' = policy_of w;
  role_text c w r : view_role (policy_of w) c = Some r -> cstr r = r;
  allowed_spec d r w w' b : is_u32 d -> cstr r = r ->
    isAllowed d r w = (w', Ok b) -> b = view_allowed (policy_of w) d r /\ policy_of w' = policy_of w;
  key_version_spec r w w' v : is_u32 r ->
    currentKeyVersionForReader r w = (w', Ok v) ->
    v = view_key_version (policy_of w) r /\ policy_of w' = policy_of w;
  key_version_range w r : is_u32 (view_key_version (policy_of w) r);
  bound_spec r d w w' b : is_u32 r -> is_u32 d ->
    isReaderAllowedDoor r d w = (w', Ok b) ->
    b = view_bound (policy_of w) r d /\ policy_of w' = policy_of w;
}.

(** A store none of whose queries throws. *)
Class StoreReturns (W : Type) `{IAccessStore W} : Prop := {
  role_returns c w : exists w' r, roleForCardHmac c w = (w', Ok r);
  allowed_returns d r w : exists w' b, isAllowed d r w = (w', Ok b);
  key_version_returns r w : exists w' v, currentKeyVersionForReader r w = (w', Ok v);
  bound_returns r d w : exists w' b, isReaderAllowedDoor r d w = (w', Ok b);
}.

(** ** AuditEvent and IAuditLog *)

Module Audit.

Record AuditEvent := mkAuditEvent {
  ts_unix_ms : Z;
  reader_id : Z;
  door_id : Z;
  seqno : Z;
  allow : bool;
  reason : string;
  card_id : string;
  action : string;
}.

#[global] Instance AuditEvent_eq_dec : EqDecision AuditEvent.
Proof. solve_decision. Defined.

End Audit.

Class IAuditLog (W : Type) := { append : Audit.AuditEvent -> M W unit }.

(** The numbers fit their C++ types and no text has an embedded NUL. *)
Record event_ok (e : Audit.AuditEvent) : Prop := {
  event_ts : is_u64 (Audit.ts_unix_ms e);
  event_reader : is_u32 (Audit.reader_id e);
  event_door : is_u32 (Audit.door_id e);
  event_seq : is_u64 (Audit.seqno e);
  event_reason : cstr (Audit.reason e) = Audit.reason e;
  event_card : cstr (Audit.card_id e) = Audit.card_id e;
  event_action : cstr (Audit.action e) = Audit.action e;
}.

(** What an audit log promises: an append that returns has added the event at
    the end of the trail. [audit_ready] tells when an append can be expected to
    return. *)
Class AuditLogSpec (W : Type) `{IAuditLog W} := {
  trail_of : W -> list Audit.AuditEvent;
  audit_ready : W -> Prop;
  append_spec e w w' :
    event_ok e -> append e w = (w', Ok tt) -> trail_of w' = trail_of w ++ [e];
}.

(** A log none of whose appends throws when it is ready. *)
Class AuditReturns (W : Type) `{AuditLogSpec W} : Prop := {
  append_returns e w : event_ok e -> audit_ready w -> exists w', append e w = (w', Ok tt);
}.

(** A store and a log in one state: queries keep the trail and the readiness of
    the log, appends keep the policy. *)
Class StoreAuditSpec (W : Type) `{AccessStoreSpec W, AuditLogSpec W} := {
  append_policy e w w' : event_ok e -> append e w = (w', Ok tt) -> policy_of w' = policy_of w;
  role_trail c w : cstr c = c -> trail_of (roleForCardHmac c w).1 = trail_of w;
  allowed_trail d r w : cstr r = r -> trail_of (isAllowed d r w).1 = trail_of w;
  key_version_trail r w : trail_of (currentKeyVersionForReader r w).1 = trail_of w;
  bound_trail r d w : trail_of (isReaderAllowedDoor r d w).1 = trail_of w;
  role_ready c w : cstr c = c -> audit_ready w -> audit_ready (roleForCardHmac c w).1;
  allowed_ready d r w : cstr r = r -> audit_ready w -> audit_ready (isAllowed d r w).1;
  key_version_ready r w : audit_ready w -> audit_ready (currentKeyVersionForReader r w).1;
  bound_ready r d w : audit_ready w -> audit_ready (isReaderAllowedDoor r d w).1;
}.

(** ** AccessPolicy *)

Module AccessPolicy.

Record AccessPolicy := mkAccessPolicy {
  _cardToRole : gmap string string;
  _doorAllowedRoles : gmap Z (gset string);
}.

Definition AccessPolicy_new : AccessPolicy := mkAccessPolicy ∅ ∅.

(** [emplace] does nothing when the key is present. *)
Definition addCard (cardId role : string) (p : AccessPolicy) : AccessPolicy :=
  match _cardToRole p !! cardId with
  | Some _ => p
  | None => mkAccessPolicy (<[cardId := role]> (_cardToRole p)) (_doorAllowedRoles p)
  end.

Definition allowRole (doorId : Z) (role : string) (p : AccessPolicy) : AccessPolicy :=
  let roles := default ∅ (_doorAllowedRoles p !! doorId) in
  mkAccessPolicy (_cardToRole p) (<[doorId := {[role]} ∪ roles]> (_doorAllowedRoles p)).

Definition roleForCard (p : AccessPolicy) (cardId : string) : string :=
  match _cardToRole p !! cardId with
  | None => ""
  | Some role => role
  end.

Definition isAllowed (p : AccessPolicy) (doorId : Z) (role : string) : bool :=
  match _doorAllowedRoles p !! doorId with
  | None => false
  | Some roles => bool_decide (role ∈ roles)
  end.

End AccessPolicy.

(** ** InMemoryAuditLog *)

Module InMemoryAuditLog.

Record InMemoryAuditLog := mkInMemoryAuditLog { _events : list Audit.AuditEvent }.

Definition append (e : Audit.AuditEvent) : M InMemoryAuditLog unit :=
  modify (fun l => mkInMemoryAuditLog (_events l ++ [e])).

Definition events (l : InMemoryAuditLog) : list Audit.AuditEvent := _events l.

End InMemoryAuditLog.

(** ** CardIdHasher *)

Module CardIdHasher.
Section CardIdHasher.
Context `{Sodium}.

Definition kHexChars : string := "0123456789abcdef".

Definition hex_char (n : Z) : ascii :=
  match String.get (Z.to_nat n) kHexChars with Some c => c | None => zero end.

Fixpoint toHex (data : bytes) : string :=
  match data with
  | [] => EmptyString
  | b :: rest =>
      String (hex_char (Z.land (Z.shiftr b 4) 15)) (String (hex_char (Z.land (Z.shiftr b 0) 15))
        (toHex rest))
  end.

(** [pepper] is the hasher's key. *)
Definition hmacHex (pepper : bytes) (cardId : string) : res string :=
  match cardId with
  | EmptyString => Throw (runtime_error "cardId empty")
  | _ => Ok (toHex (CryptoUtils.hmac_sha256 pepper (bytes_of_string cardId)))
  end.

End CardIdHasher.
End CardIdHasher.

(** ** JSON (nlohmann::json)

    [parse] returns the document or the text of the exception; [at_] is
    [operator[]] on a key the object contains. [json_object] is the object that
    assigning each string value in turn builds, and [dump] may throw (on text
    that is not UTF-8, [text_ok] being the documented requirement). *)

Class Json := {
  json : Type;
  json_parse : string -> string + json;
  is_object : json -> bool;
  json_contains : json -> string -> bool;
  at_ : json -> string -> json;
  is_string : json -> bool;
  get_string : json -> string;
  json_object : list (string * string) -> json;
  dump : json -> res string;
}.

Class JsonLaws `{Json} := {
  text_ok : string -> Prop;
  dump_parse kvs :
    Forall (fun kv => text_ok kv.1 /\ text_ok kv.2) kvs -> NoDup kvs.*1 ->
    exists s j, dump (json_object kvs) = Ok s /\ json_parse s = inr j /\ is_object j = true /\
      forall k v, (k, v) ∈ kvs ->
        json_contains j k = true /\ is_string (at_ j k) = true /\ get_string (at_ j k) = v;
}.

Module Payload.
Section Payload.
Context `{Json}.

Record AccessRequest := mkAccessRequest { cardId : string; action : string }.

Definition parseAccessRequestJson (jsonText : string) : res AccessRequest :=
  match json_parse jsonText with
  | inl what => Throw (runtime_error ("payload: invalid json: " +:+ what))
  | inr j =>
      if negb (is_object j) then Throw (runtime_error "payload: json must be object")
      else if negb (json_contains j "card_id") || negb (is_string (at_ j "card_id"))
      then Throw (runtime_error "payload: missing/invalid card_id")
      else if negb (json_contains j "action") || negb (is_string (at_ j "action"))
      then Throw (runtime_error "payload: missing/invalid action")
      else
        let request := mkAccessRequest (get_string (at_ j "card_id")) (get_string (at_ j "action")) in
        if decide (cardId request = EmptyString)
        then Throw (runtime_error "payload: card_id empty")
        else if decide (action request = EmptyString)
        then Throw (runtime_error "payload: action empty")
        else Ok request
  end.

End Payload.
End Payload.

(** ** A concrete JSON instance

    Objects of string values only, written as NUL-terminated keys and values:
    enough to evaluate the payload code on. *)

Module ToyJson.

Inductive toy := TStr (s : string) | TObj (kvs : list (string * string)) | TNull.

Definition no_nul (s : string) : Prop := cstr s = s.

Fixpoint until_nul (s : string) : option (string * string) :=
  match s with
  | EmptyString => None
  | String a s' =>
      if decide (a = zero) then Some (EmptyString, s')
      else match until_nul s' with
           | Some (p, r) => Some (String a p, r)
           | None => None
           end
  end.

Fixpoint encode (kvs : list (string * string)) : string :=
  match kvs with
  | [] => EmptyString
  | (k, v) :: kvs' => k +:+ String zero (v +:+ String zero (encode kvs'))
  end.

(** One round of fuel per pair; the length of the text is enough. *)
Fixpoint decode (fuel : nat) (s : string) : option (list (string * string)) :=
  match s with
  | EmptyString => Some []
  | _ =>
      match fuel with
      | O => None
      | S fuel' =>
          '(k, s1) ← until_nul s;
          '(v, s2) ← until_nul s1;
          kvs ← decode fuel' s2;
          Some ((k, v) :: kvs)
      end
  end.

Fixpoint assoc (k : string) (kvs : list (string * string)) : option string :=
  match kvs with
  | [] => None
  | (k', v) :: kvs' => if decide (k = k') then Some v else assoc k kvs'
  end.

Definition toy_parse (s : string) : string + toy :=
  match decode (String.length s) s with
  | Some kvs => inr (TObj kvs)
  | None => inl "syntax error"
  end.

Definition toy_at (j : toy) (k : string) : toy :=
  match j with TObj kvs => from_option TStr TNull (assoc k kvs) | _ => TNull end.

#[export] Instance json : Json := {|
  Access.json := toy;
  json_parse := toy_parse;
  is_object j := match j with TObj _ => true | _ => false end;
  json_contains j k := match j with TObj kvs => bool_decide (is_Some (assoc k kvs)) | _ => false end;
  at_ := toy_at;
  is_string j := match j with TStr _ => true | _ => false end;
  get_string j := match j with TStr s => s | _ => EmptyString end;
  json_object kvs := TObj kvs;
  dump j := match j with
            | TObj kvs => Ok (encode kvs)
            | _ => Throw (std_exception "unsupported")
            end;
|}.

Lemma until_nul_spec s r : no_nul s -> until_nul (s +:+ String zero r) = Some (s, r).
Proof.
  unfold no_nul. induction s as [|a s IH]; intros Hs; simpl.
  - done.
  - simpl in Hs. destruct (decide (a = zero)); [done|]. injection Hs as Hs. by rewrite IH.
Qed.

Lemma decode_encode kvs fuel :
  Forall (fun kv => no_nul kv.1 /\ no_nul kv.2) kvs -> (length kvs <= fuel)%nat ->
  decode fuel (encode kvs) = Some kvs.
Proof.
  intros Hkvs. revert fuel. induction Hkvs as [|[k v] kvs [Hk Hv] _ IH]; intros fuel Hf;
    [by destruct fuel|].
  destruct fuel as [|fuel]; simpl in Hf; [lia|]. cbn [fst snd] in Hk, Hv.
  pose proof (until_nul_spec k (v +:+ String zero (encode kvs)) Hk) as E1.
  pose proof (until_nul_spec v (encode kvs) Hv) as E2.
  cbn [encode]. destruct (k +:+ _) as [|a t] eqn:Es; [by destruct k|].
  cbn [decode]. rewrite E1. cbn [mbind option_bind]. rewrite E2. cbn [mbind option_bind].
  rewrite IH by lia. done.
Qed.

Lemma length_append s t : String.length (s +:+ t) = (String.length s + String.length t)%nat.
Proof. induction s; simpl; auto. Qed.

Lemma length_encode kvs : (length kvs <= String.length (encode kvs))%nat.
Proof.
  induction kvs as [|[k v] kvs IH]; simpl; [lia|].
  rewrite length_append. simpl. rewrite length_append. simpl. lia.
Qed.

Lemma assoc_lookup k v kvs : NoDup kvs.*1 -> (k, v) ∈ kvs -> assoc k kvs = Some v.
Proof.
  induction kvs as [|[k' v'] kvs IH]; intros Hnd Hin; [by apply not_elem_of_nil in Hin|].
  cbn [fmap list_fmap fst] in Hnd. apply NoDup_cons in Hnd as [Hk Hnd]. cbn [assoc].
  apply elem_of_cons in Hin as [[= -> ->]|Hin]; [by rewrite decide_True|].
  rewrite decide_False; [by apply IH|]. intros ->. apply Hk.
  apply list_elem_of_fmap. by exists (k', v).
Qed.

#[export] Instance laws : JsonLaws.
Proof.
  refine {| text_ok := no_nul |}. intros kvs Hkvs Hnd.
  exists (encode kvs), (TObj kvs). split; [done|]. split.
  { cbn. unfold toy_parse. rewrite decode_encode; [done|done|apply length_encode]. }
  split; [done|]. intros k v Hin. cbn. unfold toy_at.
  rewrite (assoc_lookup k v) by done. done.
Defined.

End ToyJson.

(** ** A concrete store and log

    Tables in memory and the in-memory log, on which the handler and the engine
    are evaluated. *)

Module ToyStore.

Record world := mkWorld { tables : PolicyView; log : InMemoryAuditLog.InMemoryAuditLog }.

Definition ask {A} (f : PolicyView -> A) : M world A := fun w => (w, Ok (f (tables w))).
Definition no_change : M world unit := mret tt.

#[export] Instance store : IAccessStore world := {|
  roleForCardHmac c := ask (fun v => cstr <$> view_role v c);
  isAllowed d r := ask (fun v => view_allowed v d r);
  currentKeyVersionForReader r := ask (fun v => u32 (view_key_version v r));
  upsertReader _ _ := no_change;
  isReaderAllowedDoor r d := ask (fun v => view_bound v r d);
  allowDoorForReader _ _ := no_change;
|}.

#[export] Instance store_spec : AccessStoreSpec world.
Proof.
  refine {| policy_of w := let v := tables w in
    mkPolicyView (fun c => cstr <$> view_role v c) (view_allowed v) (fun r => u32 (view_key_version v r)) (view_bound v) |};
    intros; try apply u32_range; cbn in *; unfold ask in *; try by simplify_eq/=.
  destruct (view_role (tables w) c); simplify_eq/=. apply cstr_cstr.
Defined.

#[export] Instance store_returns : StoreReturns world.
Proof. split; intros; by eexists _, _. Defined.

#[export] Instance audit : IAuditLog world := {|
  append e := zoom log (fun l w => mkWorld (tables w) l) (InMemoryAuditLog.append e);
|}.

#[export] Instance audit_spec : AuditLogSpec world.
Proof.
  refine {| trail_of w := InMemoryAuditLog.events (log w); audit_ready _ := True |}.
  intros e w w' _ E. cbn in E. injection E as <-. done.
Defined.

#[export] Instance audit_returns : AuditReturns world.
Proof. split. intros e w _ _. by eexists. Defined.

#[export] Instance store_audit_spec : StoreAuditSpec world.
Proof. split; intros; [|done..]. cbn in *. by simplify_eq. Defined.

End ToyStore.

(** ** Lemmas on hexadecimal card hashes *)

Module CardFacts.
Import CardIdHasher.

Lemma nibble_cases n : 0 <= n < 16 -> In n (map Z.of_nat (seq 0 16)).
Proof. intros Hn. rewrite <- (Z2Nat.id n) by lia. apply in_map, in_seq. lia. Qed.

(** The sixteen digits: each is the digit [hexNibble] reads back, none is a
    space or NUL. *)
Lemma hex_char_ok n :
  0 <= n < 16 ->
  Hex.hexNibble (hex_char n) = Ok n /\ Hex.isspace (hex_char n) = false /\ hex_char n <> zero.
Proof.
  intros Hn%nibble_cases. revert n Hn. apply List.Forall_forall.
  cbv [seq map]. repeat apply Forall_cons_2; try apply Forall_nil_2;
    (split; [vm_compute; reflexivity|split; [vm_compute; reflexivity|discriminate]]).
Qed.

Lemma nibbles b :
  is_u8 b ->
  0 <= Z.land (Z.shiftr b 4) 15 < 16 /\ 0 <= Z.land (Z.shiftr b 0) 15 < 16 /\
  u8 (Z.lor (Z.shiftl (Z.land (Z.shiftr b 4) 15) 4) (Z.land (Z.shiftr b 0) 15)) = b.
Proof.
  unfold is_u8. intros Hb. rewrite Z.shiftr_0_r, !(Z.land_ones _ 4) by lia.
  rewrite Z.shiftr_div_pow2 by lia. change (2 ^ 4) with 16.
  assert (0 <= b / 16 < 16) by (split; [apply Z.div_pos|apply Z.div_lt_upper_bound]; lia).
  rewrite (Z.mod_small (b / 16)) by lia. pose proof (Z.mod_pos_bound b 16).
  pose proof (Z.div_mod b 16 ltac:(lia)). change (2 ^ 4) with 16 in *.
  split; [lia|]. split; [lia|].
  rewrite Z.lor_comm, lor_shiftl_add by lia. rewrite u8_id by (unfold is_u8; lia). lia.
Qed.

Lemma parseHex_loop_toHex k :
  bytes_ok k -> Hex.parseHex_loop (length k) (String.list_ascii_of_string (toHex k)) = Ok k.
Proof.
  induction 1 as [|b k Hb _ IH]; [done|].
  destruct (nibbles b Hb) as (H1 & H2 & H3).
  destruct (hex_char_ok _ H1) as [E1 _], (hex_char_ok _ H2) as [E2 _].
  cbn [length toHex String.list_ascii_of_string Hex.parseHex_loop].
  rewrite E1. cbn [mbind res_bind]. rewrite E2. cbn [mbind res_bind]. rewrite IH.
  cbn [mbind res_bind]. by rewrite H3.
Qed.

Lemma toHex_length k : length (String.list_ascii_of_string (toHex k)) = (2 * length k)%nat.
Proof. induction k as [|b k IH]; [done|]. cbn [toHex String.list_ascii_of_string length]. lia. Qed.

Lemma toHex_no_nul k : bytes_ok k -> cstr (toHex k) = toHex k.
Proof.
  induction 1 as [|b k Hb _ IH]; [done|].
  destruct (nibbles b Hb) as (H1 & H2 & _).
  destruct (hex_char_ok _ H1) as (_ & _ & E1), (hex_char_ok _ H2) as (_ & _ & E2).
  cbn [toHex cstr]. by rewrite !decide_False, IH by done.
Qed.

Lemma toHex_inj k1 k2 : bytes_ok k1 -> bytes_ok k2 -> toHex k1 = toHex k2 -> k1 = k2.
Proof.
  intros H1 H2 E. pose proof (parseHex_loop_toHex k1 H1) as P1.
  pose proof (parseHex_loop_toHex k2 H2) as P2.
  pose proof (toHex_length k1) as L1. pose proof (toHex_length k2) as L2. rewrite E in *.
  assert (length k1 = length k2) as El by lia. rewrite El in P1. congruence.
Qed.

Lemma hmacHex_run `{SodiumLaws} pepper c :
  c <> EmptyString -> hmacHex pepper c = Ok (toHex (HMAC pepper (bytes_of_string c))).
Proof.
  intros Hc. destruct c; [done|]. unfold hmacHex. by rewrite CryptoFacts.hmac_sha256_HMAC.
Qed.

End CardFacts.

(** ** Lemmas on the payload *)

Module PayloadFacts.
Import Payload.

Lemma parse_card `{Json} s req : parseAccessRequestJson s = Ok req -> cardId req <> EmptyString.
Proof.
  unfold parseAccessRequestJson. destruct (json_parse s); [done|].
  repeat (case_match || case_decide); intros; by simplify_eq.
Qed.

Lemma parse_no_fault `{Json} s : parseAccessRequestJson s <> Fault.
Proof.
  unfold parseAccessRequestJson. destruct (json_parse s); [done|].
  by repeat (case_match || case_decide).
Qed.

End PayloadFacts.

(** ** Properties *)

Module AccessProps.
Import CardIdHasher CardFacts AccessPolicy ToySodium.

(** A master-key file reads back. Whatever white space surrounds or splits
    the digits, a file holding the hexadecimal text of a 32-byte key loads as
    that key; and whatever loads is 32 bytes. *)
Theorem key_file_roundtrip (path : string) (content : string) (key : bytes) :
  array_ok 32 key ->
  filter (fun ch => Hex.isspace ch = false) (String.list_ascii_of_string content)
  = String.list_ascii_of_string (toHex key) ->
  KeyManager.loadMasterKeyHexFile path (Some content) = Ok key.
Proof.
  intros [Hl Hk] Hc. cbn. unfold Hex.parseHex. rewrite Hc.
  rewrite decide_False by (rewrite toHex_length, Hl; auto).
  change Hex.kMasterKeySize with 32%nat. rewrite <- Hl. by apply parseHex_loop_toHex.
Qed.

Lemma key_file_roundtrip_witness :
  KeyManager.loadMasterKeyHexFile "secrets/master_key.hex"
    (Some (toHex (map Z.of_nat (seq 100 32)) +:+ String (ascii_of_nat 10) EmptyString))
  = Ok (map Z.of_nat (seq 100 32)).
Proof. apply key_file_roundtrip; [by_decision | vm_compute; reflexivity]. Defined.

(** Card hashing. The stored identifier of a non-empty card is 64
    lower-case hexadecimal digits, free of NUL, and two different cards (or two
    different peppers) get the same stored identifier only if HMAC-SHA256
    itself maps them to the same output. *)
Theorem card_hash_separates `{SodiumLaws} (p1 p2 : bytes) (c1 c2 h1 h2 : string) :
  hmacHex p1 c1 = Ok h1 -> hmacHex p2 c2 = Ok h2 ->
  String.length h1 = 64%nat /\ cstr h1 = h1 /\
  (h1 = h2 -> HMAC p1 (bytes_of_string c1) = HMAC p2 (bytes_of_string c2)).
Proof.
  intros E1 E2.
  assert (c1 <> EmptyString /\ c2 <> EmptyString) as [N1 N2] by (split; by intros ->).
  rewrite hmacHex_run in E1, E2 by done. injection E1 as <-. injection E2 as <-.
  pose proof (HMAC_array p1 (bytes_of_string c1)) as [L1 O1].
  pose proof (HMAC_array p2 (bytes_of_string c2)) as [L2 O2].
  split; [|split; [by apply toHex_no_nul|by apply toHex_inj]].
  pose proof (toHex_length (HMAC p1 (bytes_of_string c1))) as Hl. rewrite L1 in Hl.
  change 64%nat with (2 * 32)%nat. rewrite <- Hl. clear. induction (toHex _); simpl; auto.
Qed.

Lemma card_hash_separates_witness :
  String.length (toHex (HMAC [1] (bytes_of_string "04A1"))) = 64%nat.
Proof.
  exact (proj1 (card_hash_separates [1] [1] "04A1" "04A2" _ _ eq_refl eq_refl)).
Defined.

(** The in-memory policy: granting a role opens exactly that door to
    exactly that role; a card keeps the first role it was given. *)
Theorem policy_allows_granted (p : AccessPolicy) (d d' : Z) (r r' c role : string) :
  isAllowed (allowRole d r p) d' r' = bool_decide (d' = d /\ r' = r) || isAllowed p d' r' /\
  roleForCard (addCard c role (addCard c r p)) c = roleForCard (addCard c r p) c /\
  (_cardToRole p !! c = None -> roleForCard (addCard c r p) c = r).
Proof.
  split; [|split].
  - unfold isAllowed, allowRole; cbn [_doorAllowedRoles].
    destruct (decide (d = d')) as [->|Hne].
    + rewrite lookup_insert_eq. destruct (_doorAllowedRoles p !! d') as [roles|]; cbn [default].
      * rewrite <- bool_decide_or. apply bool_decide_ext. set_solver.
      * rewrite orb_false_r. apply bool_decide_ext. set_solver.
    + rewrite lookup_insert_ne by done. rewrite bool_decide_false by naive_solver. done.
  - unfold addCard at 1. destruct (_cardToRole (addCard c r p) !! c) eqn:E; [done|].
    exfalso. revert E. unfold addCard. destruct (_cardToRole p !! c) eqn:E'; [by rewrite E'|].
    cbn. by rewrite lookup_insert_eq.
  - intros E. unfold addCard, roleForCard. rewrite E. cbn. by rewrite lookup_insert_eq.
Qed.

Lemma policy_allows_granted_witness :
  roleForCard (addCard "c1" "staff" AccessPolicy_new) "c1" = "staff".
Proof.
  apply (policy_allows_granted AccessPolicy_new 1 1 "staff" "staff" "c1" "guest"). reflexivity.
Defined.

End AccessProps.
