(* ===== verification/FrameHandling.v ===== *)
(** access_core: [FrameDecryptor] (frame_decryptor.cpp) and [FrameHandler]
    (handle_frame.cpp): parse, reader and door checks, key version, replay
    check, decryption; the sequence number is recorded only at the end. *)
From Stdlib Require Import ZArith Lia.
From stdpp Require Import base option list gmap strings.
From S2P Require Import Prelude LittleEndian Wire Replay Crypto Keys Access.
Local Open Scope Z_scope.

(** ** The environment

    The [n]-th read of the system clock and of the random generator. *)
Class Env := { clock : nat -> Z; entropy : nat -> bytes }.

(** What a handler call can change: the replay windows, the state behind the
    store (and the audit log), and how often clock and generator were read. *)
Record HState (W : Type) := mkHState {
  h_windows : gmap Z ReplayWindow.ReplayWindow;
  h_ext : W;
  h_ticks : nat;
}.
Arguments mkHState {W} _ _ _.
Arguments h_windows {W} _.
Arguments h_ext {W} _.
Arguments h_ticks {W} _.

Module Clock.

(** [nowUnixMs()] *)
Definition nowUnixMs `{Env} {W : Type} : M (HState W) Z := fun s =>
  (mkHState (h_windows s) (h_ext s) (S (h_ticks s)), Ok (u64 (clock (h_ticks s)))).

End Clock.
Export Clock.

Section Effects.
Context `{Env} {W : Type}.

(** [randombytes_buf] *)
Definition randombytes (n : nat) : M (HState W) bytes := fun s =>
  (mkHState (h_windows s) (h_ext s) (S (h_ticks s)), Ok (take n (entropy (h_ticks s)))).

(** A call on the store. *)
Definition on_ext {A} (m : M W A) : M (HState W) A :=
  zoom h_ext (fun w s => mkHState (h_windows s) w (h_ticks s)) m.

Definition modify_windows
    (f : gmap Z ReplayWindow.ReplayWindow -> gmap Z ReplayWindow.ReplayWindow) : M (HState W) unit :=
  modify (fun s => mkHState (f (h_windows s)) (h_ext s) (h_ticks s)).

End Effects.

(** ** FrameDecryptor *)

Module FrameDecryptor.

Record DecryptorConfig := mkDecryptorConfig { maxSkewMs : Z; aadMode : string }.

Record DecryptResult := mkDecryptResult {
  success : bool;
  error : string;
  plaintext : bytes;
}.

Section FrameDecryptor.
Context `{Sodium, Env} {W : Type}.

Record FrameDecryptor := mkFrameDecryptor {
  _aead : SecureAead.SecureAead;
  _config : DecryptorConfig;
}.

(** Performs AEAD decryption with the header as additional data. *)
Definition decryptFrame (d : FrameDecryptor) (frame : Frame.Frame) : res bytes :=
  let aad := if decide (aadMode (_config d) <> "none"%string)
             then Packet.to_bytes (Frame.header frame) else [] in
  SecureAead.openWithNonce (_aead d) (Frame.ct frame) (Frame.tag frame) aad
    (Packet.nonce (Frame.header frame)).

Definition checkTimestamp (d : FrameDecryptor) (frameTimestamp : Z) :
    M (HState W) (option string) :=
  if decide (maxSkewMs (_config d) = 0) then mret None
  else
    now ← nowUnixMs;
    let diff := if decide (frameTimestamp <= now)
                then u64 (now - frameTimestamp) else u64 (frameTimestamp - now) in
    if decide (maxSkewMs (_config d) < diff) then
      mret (Some (if decide (frameTimestamp <= now) then "too_old" else "too_future"))
    else mret None.

Definition decrypt (d : FrameDecryptor) (frame : Frame.Frame) : M (HState W) DecryptResult :=
  match decryptFrame d frame with
  | Fault => fault
  | Throw _ => mret (mkDecryptResult false "decrypt_failed" [])
  | Ok pt =>
      err ← checkTimestamp d (Packet.ts_unix_ms (Frame.header frame));
      match err with
      | Some e => mret (mkDecryptResult false e pt)
      | None => mret (mkDecryptResult true "" pt)
      end
  end.

End FrameDecryptor.
End FrameDecryptor.

(** ** FrameHandler *)

Module FrameHandler.

Record FrameHandlerConfig := mkFrameHandlerConfig {
  antiReplayEnabled : bool;
  replayWindowSize : Z;
  maxCtLen : Z;
  maxSkewMs : Z;
  allowPreviousKeyVersion : bool;
  enforceReaderDoorBinding : bool;
  keyDerivationMode : string;
  aadMode : string;
  pepperMode : string;
  cipherMode : string;
  nonceMode : string;
}.

(** [FrameHandlerConfig{}] *)
Definition FrameHandlerConfig_default : FrameHandlerConfig :=
  mkFrameHandlerConfig true 256 4096 0 true true
    "hkdf" "full" "versioned" "xchacha20" "deterministic".

Record HandleResult := mkHandleResult {
  allow : bool;
  reason : string;
  plaintext : bytes;
  hdr : Packet.Header;
}.

(** Maps protocol_lib exception messages to error codes. *)
Definition parseErrorToCode (what : string) : string :=
  if find_in "too small" what then "frame_too_small"
  else if find_in "bad magic" what then "bad_magic"
  else if find_in "bad version" what then "bad_protocol_version"
  else if find_in "ctLen exceeds" what then "ciphertext_too_large"
  else if find_in "length mismatch" what then "frame_truncated"
  else if find_in "trailing bytes" what then "frame_trailing_bytes"
  else "parse_error".

Definition cipher_of (mode : string) : SecureAead.CipherMode :=
  if decide (mode = "chacha20"%string) then SecureAead.ChaCha20Poly1305
  else SecureAead.XChaCha20Poly1305.

(** [what()] of a standard exception, [None] for what only [catch (...)] sees. *)
Definition what_of (e : exn) : option string :=
  match e with
  | runtime_error w | invalid_argument w | length_error w | std_exception w => Some w
  | unknown_exception => None
  end.

(** Maps decryption exceptions to error codes. *)
Definition decryptExceptionToCode (what : string) : string :=
  if find_in "mac" what || find_in "tag" what || find_in "auth" what
  then "mac_verification_failed" else "decrypt_failed".

Definition makeError (reason : string) (header : Packet.Header) : HandleResult :=
  mkHandleResult false reason [] header.

Section FrameHandler.
Context `{Sodium, Env} {W : Type} `{IAccessStore W}.

(** [_has_store] is [_store != nullptr]; the windows are in the state. *)
Record FrameHandler := mkFrameHandler {
  _keyManager : KeyManager.KeyManager;
  _has_store : bool;
  _config : FrameHandlerConfig;
}.

Definition parseFrame (h : FrameHandler) (frameBytes : bytes) :
    M (HState W) (Frame.Frame + HandleResult) :=
  match FrameParser.parseFrame frameBytes (maxCtLen (_config h)) with
  | Ok f => mret (inl f)
  | Throw (runtime_error what) =>
      mret (inr (makeError (parseErrorToCode what) Packet.Header_default))
  | Throw _ => mret (inr (makeError "parse_error" Packet.Header_default))
  | Fault => fault
  end.

(** The error, if any, and [outKeyVersion]. *)
Definition validateReader (h : FrameHandler) (frame : Frame.Frame) :
    M (HState W) (option HandleResult * Z) :=
  let header := Frame.header frame in
  if negb (_has_store h) then mret (Some (makeError "no_store" header), 0)
  else
    kv ← on_ext (currentKeyVersionForReader (Packet.reader_id header));
    if decide (kv = 0) then mret (Some (makeError "unknown_reader" header), kv)
    else if enforceReaderDoorBinding (_config h) then
      ok ← on_ext (isReaderAllowedDoor (Packet.reader_id header) (Packet.door_id header));
      if negb ok then mret (Some (makeError "reader_door_forbidden" header), kv)
      else mret (None, kv)
    else mret (None, kv).

(** [keyOk] of validateKeyVersion. *)
Definition key_version_ok (acceptPrev : bool) (kv currentKv : Z) : bool :=
  bool_decide (kv = currentKv) ||
  (acceptPrev && bool_decide (1 < currentKv) && bool_decide (u32 (kv + 1) = currentKv)).

Definition validateKeyVersion (h : FrameHandler) (frame : Frame.Frame) (currentKv : Z) :
    option HandleResult :=
  let kv := Packet.key_version (Frame.header frame) in
  if key_version_ok (allowPreviousKeyVersion (_config h)) kv currentKv then None
  else Some (makeError "bad_key_version" (Frame.header frame)).

(** [try_emplace]: an existing window is kept. *)
Definition getOrCreateWindow (h : FrameHandler) (readerId : Z) :
    M (HState W) ReplayWindow.ReplayWindow :=
  let windowSize := if decide (replayWindowSize (_config h) = 0) then 1
                    else replayWindowSize (_config h) in
  s ← get;
  match h_windows s !! readerId with
  | Some w => mret w
  | None =>
      let w := ReplayWindow.ReplayWindow_new windowSize in
      modify_windows <[readerId := w]> ;; mret w
  end.

(** [window] is the pointer's target. *)
Definition isReplay (window : option ReplayWindow.ReplayWindow) (seq : Z) : bool :=
  match window with
  | Some w => ReplayWindow.contains w seq
  | None => false
  end.

(** The error, if any, and the pointer [outWindow]: the reader whose entry of
    the map it points to, or [None] for [nullptr]. *)
Definition checkReplay (h : FrameHandler) (frame : Frame.Frame) :
    M (HState W) (option HandleResult * option Z) :=
  let header := Frame.header frame in
  if negb (antiReplayEnabled (_config h)) then mret (None, None)
  else
    w ← getOrCreateWindow h (Packet.reader_id header);
    if isReplay (Some w) (Packet.seqno header)
    then mret (Some (makeError "replay" header), Some (Packet.reader_id header))
    else mret (None, Some (Packet.reader_id header)).

(** deriveKey *)
Definition deriveKey (h : FrameHandler) (frame : Frame.Frame) : res (bytes + HandleResult) :=
  let header := Frame.header frame in
  let key :=
    if decide (keyDerivationMode (_config h) = "direct"%string)
    then Ok (KeyManager.masterAsAeadKey (_keyManager h))
    else KeyManager.deriveAeadKey (_keyManager h) (Packet.reader_id header)
           (Packet.key_version header) in
  match key with
  | Ok k => Ok (inl k)
  | Throw _ => Ok (inr (makeError "key_derivation_failed" header))
  | Fault => Fault
  end.

(** [window->remember(seq)] through the pointer. *)
Definition remember_at (window : option Z) (seq : Z) : M (HState W) unit :=
  match window with
  | Some r => modify_windows (alter (fun w => ReplayWindow.remember w seq) r)
  | None => mret tt
  end.

Definition tryDecrypt (h : FrameHandler) (frame : Frame.Frame) (window : option Z) :
    M (HState W) HandleResult :=
  let header := Frame.header frame in
  keyResult ← lift (deriveKey h frame);
  match keyResult with
  | inr err => mret err
  | inl aeadKey =>
      try_catch
        (rnd ← randombytes 16;
         let aead := SecureAead.SecureAead_new aeadKey (cipher_of (cipherMode (_config h))) rnd in
         let decryptor := FrameDecryptor.mkFrameDecryptor aead
           (FrameDecryptor.mkDecryptorConfig (maxSkewMs (_config h)) (aadMode (_config h))) in
         dec ← FrameDecryptor.decrypt decryptor frame;
         if negb (FrameDecryptor.success dec)
         then mret (makeError (FrameDecryptor.error dec) header)
         else
           (if antiReplayEnabled (_config h)
            then remember_at window (Packet.seqno header) else mret tt) ;;
           mret (mkHandleResult true "ok" (FrameDecryptor.plaintext dec) header))
        (fun e =>
           match what_of e with
           | Some what => mret (makeError (decryptExceptionToCode what) header)
           | None => mret (makeError "decrypt_failed" header)
           end)
  end.

Definition handle (h : FrameHandler) (frameBytes : bytes) : M (HState W) HandleResult :=
  parseResult ← parseFrame h frameBytes;
  match parseResult with
  | inr err => mret err
  | inl frame =>
      '(err, currentKeyVersion) ← validateReader h frame;
      match err with
      | Some e => mret e
      | None =>
          match validateKeyVersion h frame currentKeyVersion with
          | Some e => mret e
          | None =>
              '(err, window) ← checkReplay h frame;
              match err with
              | Some e => mret e
              | None => tryDecrypt h frame window
              end
          end
      end
  end.

End FrameHandler.
End FrameHandler.

(** ** What the handler promises: a decision table *)

Module HandlerSpec.
Import FrameHandler.

(** The first check that fails, if any. *)
Fixpoint first_error (checks : list (bool * string)) : option string :=
  match checks with
  | [] => None
  | (fails, code) :: rest => if fails then Some code else first_error rest
  end.

Section HandlerSpec.
Context `{SodiumLaws, Env} {W : Type} `{IAccessStore W}.

(** The key version in use, or the one before it. *)
Definition version_accepted (allowPrev : bool) (kv current : Z) : bool :=
  bool_decide (kv = current \/ allowPrev = true /\ 1 < current /\ kv = current - 1).

(** What authenticated decryption under the reader's key gives. *)
Definition opened (h : FrameHandler) (f : Frame.Frame) : option bytes :=
  let hd := Frame.header f in
  let key :=
    if decide (keyDerivationMode (_config h) = "direct"%string)
    then KeyManager._masterKey (_keyManager h)
    else KeySpec.key_for (_keyManager h)
           (KeySpec.ForAead (Packet.reader_id hd) (Packet.key_version hd)) in
  let aad := if decide (aadMode (_config h) = "none"%string) then [] else Packet.to_bytes hd in
  match SecureAead.openWithNonce (SecureAead.mkSecureAead key (cipher_of (cipherMode (_config h))) [])
          (Frame.ct f) (Frame.tag f) aad (Packet.nonce hd) with
  | Ok pt => Some pt
  | _ => None
  end.

(** The checks in order, for a policy [v], a window per reader and a clock. *)
Definition checks (h : FrameHandler) (v : PolicyView) (w : Z -> ReplayWindow.ReplayWindow)
    (now : Z) (f : Frame.Frame) : list (bool * string) :=
  let c := _config h in
  let hd := Frame.header f in
  let current := view_key_version v (Packet.reader_id hd) in
  [ (negb (_has_store h), "no_store");
    (bool_decide (current = 0), "unknown_reader");
    (enforceReaderDoorBinding c && negb (view_bound v (Packet.reader_id hd) (Packet.door_id hd)),
      "reader_door_forbidden");
    (negb (version_accepted (allowPreviousKeyVersion c) (Packet.key_version hd) current),
      "bad_key_version");
    (antiReplayEnabled c && ReplayWindow.contains (w (Packet.reader_id hd)) (Packet.seqno hd), "replay");
    (bool_decide (opened h f = None), "decrypt_failed");
    (bool_decide (maxSkewMs c <> 0 /\ maxSkewMs c < Z.abs (now - Packet.ts_unix_ms hd)),
      if decide (Packet.ts_unix_ms hd <= now) then "too_old" else "too_future") ]%string.

Definition verdict (h : FrameHandler) (v : PolicyView) (w : Z -> ReplayWindow.ReplayWindow)
    (now : Z) (b : bytes) : HandleResult :=
  match WireSpec.parse_spec b (maxCtLen (_config h)) with
  | Ok f =>
      match first_error (checks h v w now f) with
      | Some code => makeError code (Frame.header f)
      | None => mkHandleResult true "ok" (default [] (opened h f)) (Frame.header f)
      end
  | Throw (runtime_error what) => makeError (parseErrorToCode what) Packet.Header_default
  | _ => makeError "parse_error" Packet.Header_default
  end.

(** The window a reader's frames are checked against: an empty one for a
    reader not seen yet. *)
Definition window_of (h : FrameHandler) (s : HState W) (r : Z) : ReplayWindow.ReplayWindow :=
  default (ReplayWindow.ReplayWindow_new (Z.max 1 (replayWindowSize (_config h)))) (h_windows s !! r).

(** What a call does to the windows: an accepted number is recorded for its
    reader, and nothing else changes. *)
Definition windows_after (h : FrameHandler) (s s' : HState W) (r : HandleResult) : Prop :=
  forall q, window_of h s' q =
    if allow r && antiReplayEnabled (_config h) && bool_decide (q = Packet.reader_id (hdr r))
    then ReplayWindow.remember (window_of h s q) (Packet.seqno (hdr r)) else window_of h s q.

End HandlerSpec.
End HandlerSpec.

(** ** Lemmas *)

Module HandlerFacts.
Import FrameHandler HandlerSpec.

Record config_ok (c : FrameHandlerConfig) : Prop := {
  config_window : is_u64 (replayWindowSize c);
  config_ctLen : is_u32 (maxCtLen c);
  config_skew : is_u64 (maxSkewMs c);
}.

Lemma first_error_split n l :
  first_error l =
    match first_error (take n l) with Some c => Some c | None => first_error (drop n l) end.
Proof.
  revert n. induction l as [|[b c] l IH]; intros [|n]; try done.
  cbn [take drop first_error]. destruct b; [done|]. apply IH.
Qed.

Lemma first_error_None l : first_error l = None <-> Forall (fun x => x.1 = false) l.
Proof.
  induction l as [|[[] c] l IH]; cbn [first_error]; rewrite ?Forall_cons, ?IH; cbn [fst];
    [by split|naive_solver..].
Qed.

Lemma first_error_in l c : first_error l = Some c -> c ∈ l.*2.
Proof.
  induction l as [|[[] c'] l IH]; cbn [first_error fmap list_fmap snd]; intros E; simplify_eq;
    [left|right; auto].
Qed.

(** The previous-version test, with its [uint32_t] addition, is the one of
    [KeyManager.isAcceptedKeyVersion] and of the specification. *)
Lemma key_version_ok_spec b kv current :
  is_u32 kv -> is_u32 current -> key_version_ok b kv current = version_accepted b kv current.
Proof.
  unfold is_u32. intros Hkv Hc. unfold key_version_ok, version_accepted.
  destruct b; cbn [andb].
  - rewrite <- bool_decide_and, <- bool_decide_or. apply bool_decide_ext.
    destruct (decide (kv = 2 ^ 32 - 1)) as [->|Hne].
    + change (u32 (2 ^ 32 - 1 + 1)) with 0. split; intros; destruct_or?; [tauto|lia|tauto|lia].
    + rewrite u32_id by (unfold is_u32; lia). split; intros; destruct_or?; lia.
  - rewrite orb_false_r. apply bool_decide_ext. split; [tauto|intros [?|[[=] _]]]. done.
Qed.

Section HandlerFacts.
Context `{SodiumLaws, Env} {W : Type} `{AccessStoreSpec W}.

Lemma frame_of_parse b maxCtLen f :
  ParserFacts.span_ok b -> FrameParser.parseFrame b maxCtLen = Ok f -> Frame.Frame_ok f.
Proof.
  intros Hb Hp. destruct (WireSpec.parse_inv _ _ _ Hb Hp) as (Hl & _ & _ & _ & ->).
  by apply WireSpec.frame_at_ok; [apply Hb|].
Qed.

(** Same windows, same clock position, same policy. *)
Definition quiet (s s' : HState W) : Prop :=
  h_windows s' = h_windows s /\ h_ticks s' = h_ticks s /\
  policy_of (h_ext s') = policy_of (h_ext s).

Lemma on_ext_ok {A} (m : M W A) (s s' : HState W) (r : res A) :
  on_ext m s = (s', r) ->
  m (h_ext s) = (h_ext s', r) /\ h_windows s' = h_windows s /\ h_ticks s' = h_ticks s.
Proof.
  unfold on_ext, zoom. destruct (m (h_ext s)) as [w r']. intros [= <- ->]. done.
Qed.

(** A state that agrees on windows and policy gives the same checks. *)
Lemma window_of_quiet h s s' q : quiet s s' -> window_of h s' q = window_of h s q.
Proof. intros (E & _). unfold window_of. by rewrite E. Qed.

Lemma current_ok r (s s' : HState W) v :
  is_u32 r -> on_ext (currentKeyVersionForReader r) s = (s', Ok v) ->
  v = view_key_version (policy_of (h_ext s)) r /\ quiet s s'.
Proof.
  intros Hr E. apply on_ext_ok in E as (E & Ew & Et). by apply key_version_spec in E as [-> Ep].
Qed.

Lemma bound_ok r d (s s' : HState W) b :
  is_u32 r -> is_u32 d -> on_ext (isReaderAllowedDoor r d) s = (s', Ok b) ->
  b = view_bound (policy_of (h_ext s)) r d /\ quiet s s'.
Proof.
  intros Hr Hd E. apply on_ext_ok in E as (E & Ew & Et). by apply bound_spec in E as [-> Ep].
Qed.

Lemma quiet_trans s1 s2 s3 : quiet s1 s2 -> quiet s2 s3 -> quiet s1 s3.
Proof. intros (E1 & E2 & E3) (F1 & F2 & F3). unfold quiet. by rewrite F1, F2, F3. Qed.

Lemma quiet_refl s : quiet s s.
Proof. done. Qed.

(** The reader checks are the first three of the table. *)
Lemma validateReader_inv h f s s' e kv w now :
  Frame.Frame_ok f -> validateReader h f s = (s', Ok (e, kv)) ->
  let v := policy_of (h_ext s) in
  quiet s s' /\
  e = (fun code => makeError code (Frame.header f)) <$> first_error (take 3 (checks h v w now f)) /\
  (e = None -> _has_store h = true /\ kv = view_key_version v (Packet.reader_id (Frame.header f))).
Proof.
  intros [Hh _ _]. unfold validateReader. cbn [take checks first_error].
  destruct (_has_store h); cbn [negb]; intros E; [|by inv_ok].
  inv_ok. apply current_ok in E0 as [-> Q]; [|apply Hh].
  destruct (decide (view_key_version _ _ = 0)) as [E0|E0];
    [rewrite bool_decide_true by done; by inv_ok|].
  rewrite bool_decide_false by done. destruct (enforceReaderDoorBinding _); cbn [andb]; [|by inv_ok].
  inv_ok. apply bound_ok in E1 as [-> Q']; [|apply Hh..]. rewrite (proj2 (proj2 Q)) in *.
  pose proof (quiet_trans _ _ _ Q Q'). destruct (view_bound _ _ _); cbn [negb] in *; inv_ok; by split_and!.
Qed.

(** The replay check is the fifth; it may add an empty window, which no reader
    can tell from none. *)
Lemma checkReplay_run (h : FrameHandler) (f : Frame.Frame) (s : HState W) :
  config_ok (_config h) ->
  let hd := Frame.header f in
  let replayed := antiReplayEnabled (_config h) &&
    ReplayWindow.contains (window_of h s (Packet.reader_id hd)) (Packet.seqno hd) in
  exists s' : HState W,
  checkReplay h f s =
    (s', Ok (if replayed then Some (makeError "replay" hd) else None,
             if antiReplayEnabled (_config h) then Some (Packet.reader_id hd) else None)) /\
  h_ext s' = h_ext s /\ h_ticks s' = h_ticks s /\
  (forall q, window_of h s' q = window_of h s q) /\
  (antiReplayEnabled (_config h) = true -> is_Some (h_windows s' !! Packet.reader_id hd)).
Proof.
  intros Hc hd replayed. unfold checkReplay.
  destruct (antiReplayEnabled _); cbn [negb andb] in *; [|by exists s].
  assert ((if decide (replayWindowSize (_config h) = 0) then 1 else replayWindowSize (_config h))
    = Z.max 1 (replayWindowSize (_config h))) as Hsz.
  { pose proof (config_window _ Hc). unfold is_u64 in *. case_decide; lia. }
  unfold getOrCreateWindow, get, modify_windows, modify. rewrite Hsz.
  cbv [mbind M_bind mret M_ret]. fold hd. subst replayed. unfold isReplay, window_of.
  destruct (h_windows s !! Packet.reader_id hd) as [w|] eqn:Ew; cbn [default].
  - exists s. rewrite Ew. destruct (ReplayWindow.contains _ _); split_and!; naive_solver.
  - eexists. split; [by destruct (ReplayWindow.contains _ _)|].
    split_and!; try done; cbn [h_windows]; [|by rewrite lookup_insert_eq].
    intros q. destruct (decide (q = Packet.reader_id hd)) as [->|Hne];
      [by rewrite lookup_insert_eq, Ew|by rewrite lookup_insert_ne].
Qed.

Lemma checkTimestamp_run (d : FrameDecryptor.FrameDecryptor) ts (s : HState W) :
  is_u64 ts ->
  let now := u64 (clock (h_ticks s)) in
  let skew := FrameDecryptor.maxSkewMs (FrameDecryptor._config d) in
  exists s' : HState W,
  FrameDecryptor.checkTimestamp d ts s =
    (s', Ok (if decide (skew <> 0 /\ skew < Z.abs (now - ts))
             then Some (if decide (ts <= now) then "too_old" else "too_future")%string else None)) /\
  h_ext s' = h_ext s /\ h_windows s' = h_windows s.
Proof.
  intros Hts now skew. unfold FrameDecryptor.checkTimestamp. fold skew.
  case_decide as Hz; [rewrite decide_False by tauto; by exists s|].
  pose proof (u64_range (clock (h_ticks s))) as Hnow. fold now in Hnow.
  unfold nowUnixMs. cbv [mbind M_bind]. fold now.
  assert ((if decide (ts <= now) then u64 (now - ts) else u64 (ts - now)) = Z.abs (now - ts)) as ->.
  { unfold is_u64 in *. case_decide; rewrite u64_id by (unfold is_u64; lia); lia. }
  destruct (decide (skew < Z.abs (now - ts))).
  - rewrite (decide_True (P := _ /\ _)) by done. by eexists.
  - rewrite (decide_False (P := _ /\ _)) by tauto. by eexists.
Qed.

Lemma decryptFrame_opened (h : FrameHandler) (f : Frame.Frame) key rnd :
  key = (if decide (keyDerivationMode (_config h) = "direct"%string)
         then KeyManager._masterKey (_keyManager h)
         else KeySpec.key_for (_keyManager h)
                (KeySpec.ForAead (Packet.reader_id (Frame.header f))
                   (Packet.key_version (Frame.header f)))) ->
  let d := FrameDecryptor.mkFrameDecryptor
    (SecureAead.SecureAead_new key (cipher_of (cipherMode (_config h))) rnd)
    (FrameDecryptor.mkDecryptorConfig (maxSkewMs (_config h)) (aadMode (_config h))) in
  match opened h f with
  | Some pt => FrameDecryptor.decryptFrame d f = Ok pt
  | None => exists e, FrameDecryptor.decryptFrame d f = Throw e
  end.
Proof.
  intros -> d. unfold opened, FrameDecryptor.decryptFrame, d.
  cbn [FrameDecryptor._config FrameDecryptor._aead FrameDecryptor.aadMode].
  assert ((if decide (aadMode (_config h) <> "none"%string)
           then Packet.to_bytes (Frame.header f) else [])
    = if decide (aadMode (_config h) = "none"%string) then [] else Packet.to_bytes (Frame.header f)) as ->
    by (repeat case_decide; congruence).
  unfold SecureAead.openWithNonce, SecureAead.decryptDetached, SecureAead.SecureAead_new.
  cbn [SecureAead._cipherMode SecureAead._key].
  destruct (match cipher_of _ with SecureAead.XChaCha20Poly1305 => _ | _ => _ end) as [rc out].
  case_decide; [by eexists|done].
Qed.

(** Decryption and clock skew are the last two checks; the call returns
    whatever happens. *)
Lemma tryDecrypt_run (h : FrameHandler) (f : Frame.Frame) (win : option Z) (s : HState W) v w :
  config_ok (_config h) -> Frame.Frame_ok f ->
  let hd := Frame.header f in
  let now := u64 (clock (S (h_ticks s))) in
  let e := first_error (drop 5 (checks h v w now f)) in
  exists s' : HState W,
  tryDecrypt h f win s =
    (s', Ok (match e with
             | Some code => makeError code hd
             | None => mkHandleResult true "ok" (default [] (opened h f)) hd
             end)) /\
  h_ext s' = h_ext s /\
  h_windows s' =
    match e, win with
    | None, Some r =>
        if antiReplayEnabled (_config h)
        then alter (fun w => ReplayWindow.remember w (Packet.seqno hd)) r (h_windows s)
        else h_windows s
    | _, _ => h_windows s
    end.
Proof.
  intros Hc [Hh _ _] hd now e. unfold tryDecrypt. fold hd.
  assert (deriveKey h f = Ok (inl (
    if decide (keyDerivationMode (_config h) = "direct"%string)
    then KeyManager._masterKey (_keyManager h)
    else KeySpec.key_for (_keyManager h)
           (KeySpec.ForAead (Packet.reader_id hd) (Packet.key_version hd))))) as Hk.
  { unfold deriveKey. fold hd. case_decide; [done|].
    pose proof (KeyFacts.derive_for_spec (_keyManager h)
      (KeySpec.ForAead (Packet.reader_id hd) (Packet.key_version hd))) as E.
    cbn in E. rewrite E; [done|]. split; apply Hh. }
  rewrite Hk. unfold lift. cbv [mbind M_bind]. unfold try_catch.
  unfold randombytes. cbv [mbind M_bind].
  set (key := if decide _ then _ else _) in *.
  pose proof (decryptFrame_opened h f key (take 16 (entropy (h_ticks s))) eq_refl) as Hd.
  cbv beta zeta in Hd. subst e. cbn [drop checks first_error].
  unfold FrameDecryptor.decrypt.
  destruct (opened h f) as [pt|].
  - rewrite Hd. rewrite bool_decide_false by done.
    match goal with |- context [FrameDecryptor.checkTimestamp ?d ?ts] =>
      destruct (checkTimestamp_run d ts (mkHState (h_windows s) (h_ext s) (S (h_ticks s))))
        as (s1 & E1 & Hx & Hw); [apply Hh|] end.
    unfold mbind, M_bind. rewrite E1.
    cbn [FrameDecryptor._config FrameDecryptor.maxSkewMs h_ticks]. fold hd now.
    destruct (decide (_ /\ _)) as [Hsk|Hsk];
      [rewrite bool_decide_true by done | rewrite bool_decide_false by done].
    + by exists s1.
    + unfold remember_at, modify_windows, modify. cbn.
      destruct win as [r|], (antiReplayEnabled _);
        (eexists; split; [reflexivity|]; cbn [h_ext h_windows]; by rewrite ?Hx, ?Hw).
  - destruct Hd as [e ->]. rewrite bool_decide_true by done. by eexists.
Qed.

Lemma window_of_alter (h : FrameHandler) (s s' : HState W) f r q :
  h_windows s' = alter f r (h_windows s) -> is_Some (h_windows s !! r) ->
  window_of h s' q = if true && bool_decide (q = r) then f (window_of h s q) else window_of h s q.
Proof.
  intros E [w Hw]. unfold window_of. rewrite E. cbn [andb].
  case_bool_decide as Hq; [subst q; by rewrite lookup_alter_eq, Hw | by rewrite lookup_alter_ne].
Qed.

(** One call, when it returns: the verdict of the table, and its windows. *)
Lemma handle_inv (h : FrameHandler) (b : bytes) (s s' : HState W) (r : HandleResult) :
  config_ok (_config h) -> ParserFacts.span_ok b -> handle h b s = (s', Ok r) ->
  r = verdict h (policy_of (h_ext s)) (window_of h s) (u64 (clock (S (h_ticks s)))) b /\
  windows_after h s s' r /\ policy_of (h_ext s') = policy_of (h_ext s).
Proof.
  intros Hc Hb. unfold handle, parseFrame, verdict.
  pose proof (WireSpec.parseFrame_spec b (maxCtLen (_config h)) Hb) as Hps. rewrite <- Hps.
  destruct (FrameParser.parseFrame b _) as [f|[]|] eqn:Hp; intros E;
    try (injection E as <- <-; by split_and!); try discriminate.
  pose proof (frame_of_parse b _ f Hb Hp) as Hf.
  cbv [mbind M_bind mret M_ret] in E.
  destruct (validateReader h f s) as [s1 [[e kv]|?|]] eqn:E1; try discriminate.
  pose proof (validateReader_inv h f s s1 e kv (window_of h s) (u64 (clock (S (h_ticks s)))) Hf E1)
    as ((Q1 & Q2 & Q3) & He & Hkv). clear E1.
  assert (windows_after h s s1 (makeError "" (Frame.header f))) as Hq
    by (intros q; unfold window_of; by rewrite Q1).
  set (cs := checks h _ _ _ f) in *. rewrite (first_error_split 3 cs).
  destruct (first_error (take 3 cs)) as [c|]; cbn in He; subst e;
    [injection E as <- <-; by split_and!|].
  destruct (Hkv eq_refl) as [_ ->]. clear Hkv.
  unfold validateKeyVersion in E. cbv zeta in E.
  rewrite key_version_ok_spec in E by (apply Hf || apply key_version_range).
  subst cs. cbn [drop checks first_error].
  destruct (version_accepted _ _ _); cbn [negb]; [|injection E as <- <-; by split_and!].
  destruct (checkReplay_run h f s1 Hc) as (s2 & E2 & R1 & R2 & R3 & R4).
  rewrite E2 in E. clear E2.
  assert (forall q, window_of h s1 q = window_of h s q) as Hw
    by (intros q; unfold window_of; by rewrite Q1).
  rewrite Hw in E. destruct (antiReplayEnabled _ && _) eqn:Har;
    [injection E as <- <-; split_and!; try done; [intros q; by rewrite R3, Hw | by rewrite R1]|].
  match type of E with tryDecrypt _ _ ?win _ = _ =>
    destruct (tryDecrypt_run h f win s2 (policy_of (h_ext s)) (window_of h s) Hc Hf)
      as (s3 & E3 & X1 & X2) end.
  rewrite R2, Q2 in E3, X2. cbn [drop checks first_error] in E3, X2. rewrite E3 in E.
  injection E as <- <-. split; [done|]. split; [|by rewrite X1, R1].
  intros q. rewrite <- (Hw q), <- R3.
  match type of X2 with _ = match ?e with _ => _ end => destruct e end;
    [unfold window_of; by rewrite X2|].
  cbn [allow hdr andb]. destruct (antiReplayEnabled _); [|unfold window_of; by rewrite X2].
  exact (window_of_alter _ _ _ _ _ q X2 (R4 eq_refl)).
Qed.

(** With a store whose queries return, so do the reader checks and the handler. *)
Lemma validateReader_returns `{!StoreReturns W} (h : FrameHandler) f (s : HState W) :
  exists s' e kv, validateReader h f s = (s', Ok (e, kv)).
Proof.
  unfold validateReader, on_ext, zoom. destruct (_has_store h); cbn [negb]; [|by eexists _, _, _].
  cbv [mbind M_bind mret M_ret].
  destruct (key_version_returns (Packet.reader_id (Frame.header f)) (h_ext s)) as (w1 & v & ->).
  case_decide; [by eexists _, _, _|]. case_match; [|by eexists _, _, _]. cbn [h_ext].
  destruct (bound_returns (Packet.reader_id (Frame.header f)) (Packet.door_id (Frame.header f)) w1)
    as (w2 & [] & ->); by eexists _, _, _.
Qed.

Lemma handle_returns `{!StoreReturns W} (h : FrameHandler) (b : bytes) (s : HState W) :
  config_ok (_config h) -> ParserFacts.span_ok b -> exists s' r, handle h b s = (s', Ok r).
Proof.
  intros Hc Hb. unfold handle, parseFrame.
  pose proof (WireSpec.parseFrame_spec b (maxCtLen (_config h)) Hb) as Hps.
  destruct (FrameParser.parseFrame b _) as [f|[]|] eqn:Hp; try by eexists _, _.
  2:{ exfalso. revert Hps. unfold WireSpec.parse_spec. by repeat case_decide. }
  pose proof (frame_of_parse b _ f Hb Hp) as Hf. cbv [mbind M_bind mret M_ret].
  destruct (validateReader_returns h f s) as (s1 & e & kv & ->).
  destruct e; [by eexists _, _|]. destruct (validateKeyVersion _ _ _); [by eexists _, _|].
  destruct (checkReplay_run h f s1 Hc) as (s2 & -> & _). destruct (antiReplayEnabled _ && _);
    [by eexists _, _|].
  match goal with |- context [tryDecrypt h f ?win _] =>
    destruct (tryDecrypt_run h f win s2 (policy_of (h_ext s)) (window_of h s) Hc Hf)
      as (s3 & -> & _) end.
  by eexists _, _.
Qed.

(** Every check of the table passes. *)
Record accepted (h : FrameHandler) (v : PolicyView) (w : Z -> ReplayWindow.ReplayWindow)
    (now : Z) (f : Frame.Frame) (pt : bytes) : Prop := {
  acc_store : _has_store h = true;
  acc_known : view_key_version v (Packet.reader_id (Frame.header f)) <> 0;
  acc_bound : enforceReaderDoorBinding (_config h) = true ->
    view_bound v (Packet.reader_id (Frame.header f)) (Packet.door_id (Frame.header f)) = true;
  acc_version : version_accepted (allowPreviousKeyVersion (_config h))
    (Packet.key_version (Frame.header f))
    (view_key_version v (Packet.reader_id (Frame.header f))) = true;
  acc_fresh : antiReplayEnabled (_config h) = true ->
    ReplayWindow.contains (w (Packet.reader_id (Frame.header f))) (Packet.seqno (Frame.header f)) = false;
  acc_opened : opened h f = Some pt;
  acc_time : maxSkewMs (_config h) <> 0 ->
    Z.abs (now - Packet.ts_unix_ms (Frame.header f)) <= maxSkewMs (_config h);
}.

Lemma checks_accepted h v w now f :
  first_error (checks h v w now f) = None <-> exists pt, accepted h v w now f pt.
Proof.
  rewrite first_error_None. unfold checks. rewrite !Forall_cons, Forall_nil. cbn [fst].
  rewrite !negb_false_iff, !andb_false_iff, !bool_decide_eq_false, negb_false_iff. split.
  - intros (? & ? & ? & ? & ? & Ho & ? & _). destruct (opened h f) as [pt|] eqn:E; [|done].
    exists pt. split; try done; intros; destruct_or?; try congruence; try lia.
  - intros [pt [? ? Hb ? Hr Ho ?]]. rewrite Ho.
    destruct (enforceReaderDoorBinding _), (antiReplayEnabled _); split_and!; try done; try lia; auto.
Qed.

(** Acceptance, in terms of the bytes received. *)
Lemma verdict_allow h v w now b :
  allow (verdict h v w now b) = true <->
  exists f pt, WireSpec.parse_spec b (maxCtLen (_config h)) = Ok f /\ accepted h v w now f pt /\
    verdict h v w now b = mkHandleResult true "ok" pt (Frame.header f).
Proof.
  unfold verdict. destruct (WireSpec.parse_spec _ _) as [f|[]|];
    try (split; [done|by intros (? & ? & [=] & _)]).
  destruct (first_error _) eqn:E; cbn [allow makeError].
  - split; [done|]. intros (f' & pt & [= <-] & Ha & _).
    assert (first_error (checks h v w now f) = None) by (apply checks_accepted; eauto). congruence.
  - apply checks_accepted in E as [pt Ha]. split; [intros _|done].
    exists f, pt. by rewrite (acc_opened _ _ _ _ _ _ Ha).
Qed.

(** Every reader's window represents a history of accepted numbers. *)
Definition windows_ok (h : FrameHandler) (s : HState W) : Prop :=
  forall q, 1 <= ReplayWindow._window (window_of h s q) /\
    exists hist, ReplaySpec.represents (window_of h s q) hist.

Lemma windows_ok_new (h : FrameHandler) w n :
  config_ok (_config h) -> windows_ok h (mkHState ∅ w n).
Proof.
  intros Hc q. unfold window_of. cbn [h_windows]. rewrite lookup_empty. cbn [default].
  split; [cbn; lia|]. exists []. apply ReplayFacts.represents_new.
  pose proof (config_window _ Hc). unfold is_u64 in *. lia.
Qed.

Lemma remember_represents w hist q :
  ReplaySpec.represents w hist -> is_u64 q ->
  exists hist', ReplaySpec.represents (ReplayWindow.remember w q) hist'.
Proof.
  intros Hr Hq. destruct (ReplayWindow.contains w q) eqn:E.
  - exists hist. unfold ReplayWindow.remember. by rewrite E.
  - exists (hist ++ [q]). by apply ReplayFacts.remember_fresh.
Qed.

Lemma verdict_header h v w now b :
  ParserFacts.span_ok b -> Packet.Header_ok (hdr (verdict h v w now b)).
Proof.
  intros Hb. assert (Packet.Header_ok Packet.Header_default) as Hd by by_decision.
  unfold verdict. rewrite <- WireSpec.parseFrame_spec by done.
  destruct (FrameParser.parseFrame _ _) as [f|[]|] eqn:E; try apply Hd.
  apply frame_of_parse in E as [Hh _ _]; [|done]. by destruct (first_error _).
Qed.

(** Windows that are updated stay histories. *)
Lemma windows_after_ok h b v w now (s s' : HState W) :
  ParserFacts.span_ok b -> windows_ok h s -> windows_after h s s' (verdict h v w now b) ->
  windows_ok h s'.
Proof.
  intros Hb Hw Ha q. specialize (Ha q). rewrite Ha. clear Ha. destruct (Hw q) as [Hsz [hist Hr]].
  destruct (_ && _); [|eauto]. rewrite ReplayFacts.remember_window. split; [done|].
  eapply remember_represents; [done|]. by apply verdict_header.
Qed.

Lemma handle_windows_ok h b (s s' : HState W) r :
  config_ok (_config h) -> ParserFacts.span_ok b -> windows_ok h s -> handle h b s = (s', Ok r) ->
  windows_ok h s'.
Proof.
  intros Hc Hb Hw E. destruct (handle_inv h b s s' r Hc Hb E) as (-> & Ha & _).
  by eapply windows_after_ok.
Qed.

(** An accepted number is in its window. *)
Lemma verdict_remembered h b v w now (s s' : HState W) :
  ParserFacts.span_ok b -> antiReplayEnabled (_config h) = true -> windows_ok h s ->
  let r := verdict h v w now b in
  windows_after h s s' r -> allow r = true ->
  ReplayWindow.contains (window_of h s' (Packet.reader_id (hdr r))) (Packet.seqno (hdr r)) = true.
Proof.
  intros Hb Har Hw r Ha Hal. destruct (Hw (Packet.reader_id (hdr r))) as [Hsz [hist Hr]].
  rewrite (Ha _), Hal, Har. cbn [andb]. rewrite bool_decide_true by done.
  eapply ReplayFacts.remember_contains; [done| |done]. by apply verdict_header.
Qed.

(** After an accepted frame the same bytes fail the replay check. *)
Lemma verdict_replay h b v now now' (s s1 : HState W) :
  ParserFacts.span_ok b -> antiReplayEnabled (_config h) = true -> windows_ok h s ->
  let r := verdict h v (window_of h s) now b in
  windows_after h s s1 r -> allow r = true ->
  verdict h v (window_of h s1) now' b = makeError "replay" (hdr r).
Proof.
  intros Hb Har Hw r Hafter Ha. unfold r in *.
  pose proof (verdict_remembered h b v _ now s s1 Hb Har Hw Hafter Ha) as Hc.
  apply verdict_allow in Ha as (f & pt & Hp & [A1 A2 A3 A4 A5 _ _] & Hv). rewrite Hv in *.
  cbn [hdr] in *. unfold verdict. rewrite Hp. unfold checks. cbn [first_error]. rewrite A1, A4, Hc, Har, bool_decide_false by done.
  cbn [negb andb]. destruct (enforceReaderDoorBinding _); [rewrite A3 by done|]; done.
Qed.

Lemma verdict_codes h v w now b r :
  r = verdict h v w now b -> allow r = false ->
  reason r ∈ ["frame_too_small"; "bad_magic"; "bad_protocol_version"; "ciphertext_too_large";
    "frame_truncated"; "frame_trailing_bytes"; "no_store"; "unknown_reader";
    "reader_door_forbidden"; "bad_key_version"; "replay"; "decrypt_failed"; "too_old";
    "too_future"]%string /\ plaintext r = [].
Proof.
  intros -> Ha. unfold verdict in *. destruct (WireSpec.parse_spec _ _) as [f|e|] eqn:Ep.
  - destruct (first_error _) as [c|] eqn:E; [|done]. split; [|done].
    apply first_error_in in E. revert E. unfold checks. cbn [fmap list_fmap snd makeError reason].
    clear. case_decide; set_solver.
  - revert Ep. unfold WireSpec.parse_spec.
    repeat case_decide; intros [= <-]; (split; [by_decision|done]).
  - revert Ep. unfold WireSpec.parse_spec. by repeat case_decide.
Qed.

End HandlerFacts.
End HandlerFacts.

(** ** The handler and the audit trail

    The handler only asks the store, so the trail stays, and a ready log stays
    ready. *)

Module HandlerTrail.
Import FrameHandler.
Section HandlerTrail.
Context `{Sodium, Env} {W : Type} `{StoreAuditSpec W}.

Definition same_log (s s' : HState W) : Prop :=
  trail_of (h_ext s') = trail_of (h_ext s) /\ (audit_ready (h_ext s) -> audit_ready (h_ext s')).

#[global] Instance same_log_preorder : PreOrder same_log.
Proof. split; [by intros s|intros s1 s2 s3 [E1 R1] [E2 R2]; split; [by rewrite E2|auto]]. Qed.

Abbreviation unlogged m := (always (fun _ : HState W => True) same_log m).

Lemma unlogged_now : unlogged nowUnixMs.
Proof. by intros s _. Qed.

Lemma unlogged_random n : unlogged (randombytes n).
Proof. by intros s _. Qed.

Lemma unlogged_windows f : unlogged (modify_windows f).
Proof. by intros s _. Qed.

Lemma unlogged_bound r d : unlogged (on_ext (isReaderAllowedDoor r d)).
Proof.
  intros s _. pose proof (bound_trail r d (h_ext s)). pose proof (bound_ready r d (h_ext s)).
  unfold on_ext, zoom. by destruct (isReaderAllowedDoor r d (h_ext s)).
Qed.

Lemma unlogged_version r : unlogged (on_ext (currentKeyVersionForReader r)).
Proof.
  intros s _. pose proof (key_version_trail r (h_ext s)). pose proof (key_version_ready r (h_ext s)).
  unfold on_ext, zoom. by destruct (currentKeyVersionForReader r (h_ext s)).
Qed.

End HandlerTrail.

Ltac unlogged := keeps_by ltac:(first
  [ apply unlogged_now | apply unlogged_random | apply unlogged_windows
  | apply unlogged_bound | apply unlogged_version ]).

Lemma handle_keeps `{Sodium, Env} {W : Type} `{StoreAuditSpec W} (h : FrameHandler) (b : bytes) :
  always (fun _ : HState W => True) same_log (handle h b).
Proof.
  unfold handle, parseFrame, validateReader, checkReplay, getOrCreateWindow, tryDecrypt,
    FrameDecryptor.decrypt, FrameDecryptor.checkTimestamp, remember_at. unlogged.
Qed.

End HandlerTrail.

(** ** Properties of the frame handler *)

Module HandlerProps.
Import FrameHandler HandlerSpec HandlerFacts ToySodium ToyStore.

#[export] Instance test_env : Env := {| clock n := 1700000000000 + Z.of_nat n; entropy n := replicate 32 (Z.of_nat n mod 256) |}.

(** Reader 1 on door 2 with key version 2; the key of [KeyProps.test_km]. *)
Definition test_tables : PolicyView :=
  mkPolicyView (fun _ => Some "staff") (fun d r => bool_decide (d = 2 /\ r = "staff"))
    (fun r => if decide (r = 1) then 2 else 0) (fun r d => bool_decide (r = 1 /\ d = 2)).

Definition test_handler : FrameHandler :=
  mkFrameHandler KeyProps.test_km true FrameHandlerConfig_default.

Definition test_state : HState world :=
  mkHState ∅ (mkWorld test_tables (InMemoryAuditLog.mkInMemoryAuditLog [])) 0.

Definition sealed_frame (hd : Packet.Header) (plaintext : bytes) : Frame.Frame :=
  let key := KeySpec.key_for KeyProps.test_km
    (KeySpec.ForAead (Packet.reader_id hd) (Packet.key_version hd)) in
  match SecureAead.sealWithNonce (SecureAead.mkSecureAead key SecureAead.XChaCha20Poly1305 [])
          plaintext (Packet.to_bytes hd) (Packet.nonce hd) with
  | Ok c => Frame.mkFrame hd (SecureAead.c_ct c) (SecureAead.c_tag c)
  | _ => Frame.Frame_default
  end.

Definition test_bytes : bytes :=
  Frame.serialize (sealed_frame (Packet.mkHeader 1 2 1234 42 1 (replicate 24 171)) [104; 105]).

Example test_accepted :
  (handle test_handler test_bytes test_state).2
  = Ok (mkHandleResult true "ok" [104; 105] (Packet.mkHeader 1 2 1234 42 1 (replicate 24 171))).
Proof. vm_compute. reflexivity. Qed.

(** C12: the frame handler is its decision table. On every input, with a store
    whose queries return, [handle] returns; the result is the first failing
    check of [checks] (format, reader, door, key version, replay, decryption,
    clock) with its reason code, or acceptance; the replay windows are those
    before the call, except that an accepted number is recorded for its own
    reader (a frame that is rejected, for whatever reason, poisons no window);
    and the policy is not touched. *)
Theorem handle_refines_table `{SodiumLaws, Env} `{AccessStoreSpec W, !StoreReturns W}
    (h : FrameHandler) (b : bytes) (s : HState W) :
  config_ok (_config h) -> ParserFacts.span_ok b ->
  exists s' r, handle h b s = (s', Ok r) /\
    r = verdict h (policy_of (h_ext s)) (window_of h s) (u64 (clock (S (h_ticks s)))) b /\
    windows_after h s s' r /\ policy_of (h_ext s') = policy_of (h_ext s).
Proof.
  intros Hc Hb. destruct (handle_returns h b s Hc Hb) as (s' & r & E).
  exists s', r. split; [done|]. by apply (handle_inv h b s s' r).
Qed.

Lemma test_config_ok : config_ok (_config test_handler).
Proof. split; by_decision. Qed.

Lemma handle_refines_table_witness :
  exists s' r, handle test_handler test_bytes test_state = (s', Ok r) /\
    r = verdict test_handler (policy_of (h_ext test_state)) (window_of test_handler test_state)
          (u64 (clock 1)) test_bytes /\
    windows_after test_handler test_state s' r /\
    policy_of (h_ext s') = policy_of (h_ext test_state).
Proof.
  apply (handle_refines_table test_handler test_bytes test_state); [exact test_config_ok | by_decision].
Defined.

(** Complete mediation. A frame is accepted exactly when it parses, its
    reader is known and bound to the door it names, its key version is current
    (or the previous one, where that is allowed), its sequence number is new to
    the reader's window, its ciphertext opens under the key derived for that
    reader and version with the whole header authenticated, and its time stamp
    is within the skew; the plaintext handed on is the one that was opened. *)
Theorem handle_accepts_iff `{SodiumLaws, Env} `{AccessStoreSpec W}
    (h : FrameHandler) (b : bytes) (s s' : HState W) (r : HandleResult) :
  config_ok (_config h) -> ParserFacts.span_ok b -> handle h b s = (s', Ok r) ->
  allow r = true <->
  exists f pt, FrameParser.parseFrame b (maxCtLen (_config h)) = Ok f /\
    accepted h (policy_of (h_ext s)) (window_of h s) (u64 (clock (S (h_ticks s)))) f pt /\
    r = mkHandleResult true "ok" pt (Frame.header f).
Proof.
  intros Hc Hb E. destruct (handle_inv h b s s' r Hc Hb E) as [-> _].
  rewrite verdict_allow, WireSpec.parseFrame_spec by done. done.
Qed.

Lemma handle_accepts_iff_witness :
  exists f pt, FrameParser.parseFrame test_bytes 4096 = Ok f /\
    accepted test_handler (policy_of (h_ext test_state)) (window_of test_handler test_state)
      (u64 (clock 1)) f pt /\
    mkHandleResult true "ok" [104; 105] (Packet.mkHeader 1 2 1234 42 1 (replicate 24 171))
    = mkHandleResult true "ok" pt (Frame.header f).
Proof.
  eapply (proj1 (handle_accepts_iff test_handler test_bytes test_state
    (handle test_handler test_bytes test_state).1
    (mkHandleResult true "ok" [104; 105] (Packet.mkHeader 1 2 1234 42 1 (replicate 24 171)))
    test_config_ok ltac:(by_decision) ltac:(vm_compute; reflexivity))).
  reflexivity.
Defined.

(** No replay. Once a frame has been accepted, submitting the same bytes
    again is refused with [replay], and every window keeps representing a
    history of accepted numbers. *)
Theorem handle_rejects_resubmission `{SodiumLaws, Env} `{AccessStoreSpec W}
    (h : FrameHandler) (b : bytes) (s s1 s2 : HState W) (r1 r2 : HandleResult) :
  config_ok (_config h) -> ParserFacts.span_ok b -> antiReplayEnabled (_config h) = true ->
  windows_ok h s ->
  handle h b s = (s1, Ok r1) -> allow r1 = true -> handle h b s1 = (s2, Ok r2) ->
  allow r2 = false /\ reason r2 = "replay"%string /\ windows_ok h s1 /\ windows_ok h s2.
Proof.
  intros Hc Hb Har Hw E1 Ha E2.
  pose proof (handle_windows_ok h b s s1 r1 Hc Hb Hw E1) as Hw1.
  pose proof (handle_windows_ok h b s1 s2 r2 Hc Hb Hw1 E2) as Hw2.
  destruct (handle_inv h b s s1 r1 Hc Hb E1) as (-> & Hw' & Hp).
  destruct (handle_inv h b s1 s2 r2 Hc Hb E2) as (-> & _ & _).
  by rewrite Hp, (verdict_replay h b _ _ _ s s1 Hb Har Hw Hw' Ha).
Qed.

Definition test_accept : HandleResult :=
  mkHandleResult true "ok" [104; 105] (Packet.mkHeader 1 2 1234 42 1 (replicate 24 171)).
Definition test_replay : HandleResult := makeError "replay" (hdr test_accept).
Definition after_first : HState world := (handle test_handler test_bytes test_state).1.

Lemma handle_rejects_resubmission_witness :
  allow test_replay = false /\ reason test_replay = "replay"%string /\
  windows_ok test_handler after_first /\ windows_ok test_handler (handle test_handler test_bytes after_first).1.
Proof.
  apply (handle_rejects_resubmission test_handler test_bytes test_state _ _ test_accept);
    [exact test_config_ok | by_decision | reflexivity | apply windows_ok_new; exact test_config_ok
    | vm_compute; reflexivity | reflexivity | vm_compute; reflexivity].
Defined.

(** The reason codes. A rejection carries one of fourteen codes, and none
    of them is [mac_verification_failed]: the decryptor turns every failure of
    the AEAD into [decrypt_failed] before the handler could see it. *)
Theorem handle_reason_codes `{SodiumLaws, Env} `{AccessStoreSpec W}
    (h : FrameHandler) (b : bytes) (s s' : HState W) (r : HandleResult) :
  config_ok (_config h) -> ParserFacts.span_ok b -> handle h b s = (s', Ok r) -> allow r = false ->
  reason r ∈ ["frame_too_small"; "bad_magic"; "bad_protocol_version"; "ciphertext_too_large";
    "frame_truncated"; "frame_trailing_bytes"; "no_store"; "unknown_reader";
    "reader_door_forbidden"; "bad_key_version"; "replay"; "decrypt_failed"; "too_old";
    "too_future"]%string /\ reason r <> "mac_verification_failed"%string /\ plaintext r = [].
Proof.
  intros Hc Hb E Ha. destruct (handle_inv h b s s' r Hc Hb E) as [Hr _].
  destruct (verdict_codes h _ _ _ b r Hr Ha) as [Hin Hpt].
  split; [done|]. split; [|done]. intros Em. rewrite Em in Hin. revert Hin. by_decision.
Qed.

Lemma handle_reason_codes_witness :
  reason test_replay <> "mac_verification_failed"%string.
Proof.
  apply (handle_reason_codes test_handler test_bytes after_first
    (handle test_handler test_bytes after_first).1 test_replay);
    [exact test_config_ok | by_decision | vm_compute; reflexivity | reflexivity].
Defined.

End HandlerProps.
