(* ===== verification/Engine.v ===== *)
(** access_decision/engine: [DecisionEngine], which runs the frame handler, the
    anomaly detector, the payload parser and the policy, and writes the audit
    log and the event bus. *)
From Stdlib Require Import ZArith Lia.
From stdpp Require Import base option list gmap strings.
From S2P Require Import Prelude LittleEndian Wire Replay Crypto Keys Events Detector Access FrameHandling.
Local Open Scope Z_scope.

Module Engine.

(** What a decision can change. [None] is a null [_detector] or [_events]. *)
Record EState (W : Type) := mkEState {
  e_h : HState W;
  e_detector : option Detector.ProtocolAnomalyDetector;
  e_events : option EventBus.EventBus;
}.
Arguments mkEState {W} _ _ _.
Arguments e_h {W} _.
Arguments e_detector {W} _.
Arguments e_events {W} _.

Record DecisionResult := mkDecisionResult { allow : bool; reason : string }.

Section Engine.
Context `{Sodium, Env, Json} {W : Type} `{IAccessStore W, !IAuditLog W}.

(** [_store] and [_audit] are the tests of the two pointers. *)
Record DecisionEngine := mkDecisionEngine {
  _store : bool;
  _audit : bool;
  _keyManager : KeyManager.KeyManager;
  _frameHandlerCfg : FrameHandler.FrameHandlerConfig;
}.

Definition on_h {A} (m : M (HState W) A) : M (EState W) A :=
  zoom e_h (fun h s => mkEState h (e_detector s) (e_events s)) m.

(** A call through the non-null [_detector]. *)
Definition on_detector {A}
    (f : Detector.ProtocolAnomalyDetector -> Detector.ProtocolAnomalyDetector * A) : M (EState W) A :=
  fun s => match e_detector s with
           | None => (s, Fault)
           | Some d => let (d', a) := f d in (mkEState (e_h s) (Some d') (e_events s), Ok a)
           end.

(** [_events->push(ev)], through the non-null [_events]. *)
Definition push_event (ev : EventBus.Event) : M (EState W) unit :=
  fun s => match e_events s with
           | None => (s, Fault)
           | Some b =>
               match EventBus.push ev b with
               | (b', Ok _) => (mkEState (e_h s) (e_detector s) (Some b'), Ok tt)
               | (b', Throw e) => (mkEState (e_h s) (e_detector s) (Some b'), Throw e)
               | (b', Fault) => (mkEState (e_h s) (e_detector s) (Some b'), Fault)
               end
           end.

(** [if (!_events) return;], else the event stamped with the current time. *)
Definition publish (ev : Z -> EventBus.Event) : M (EState W) unit :=
  s ← get;
  match e_events s with
  | None => mret tt
  | Some _ => now ← on_h nowUnixMs; push_event (ev now)
  end.

Definition verdict_word (allow : bool) : string := if allow then "ALLOW " else "DENY ".

Definition audit_event (header : Packet.Header) (allow : bool) (reason cardId action : string) :
    Audit.AuditEvent :=
  Audit.mkAuditEvent (Packet.ts_unix_ms header) (Packet.reader_id header) (Packet.door_id header)
    (Packet.seqno header) allow reason cardId action.

Definition logAuditEvent (e : DecisionEngine) (header : Packet.Header) (allow : bool)
    (reason cardId action : string) : M (EState W) unit :=
  if negb (_audit e) then mret tt
  else
    on_h (on_ext (append (audit_event header allow reason cardId action))) ;;
    publish (fun now => EventBus.mkEvent 0 now "audit"
      ("audit append: " +:+ verdict_word allow +:+ reason)
      (Packet.reader_id header) (Packet.door_id header) (Packet.seqno header) allow reason).

Definition createDeniedResult (reason : string) : DecisionResult := mkDecisionResult false reason.

Definition publishFrameEvent (frameSize : nat) : M (EState W) unit :=
  publish (fun now => EventBus.mkEvent 0 now "frame"
    ("frame received, bytes=" +:+ to_string (Z.of_nat frameSize)) 0 0 0 false "").

Definition publishDecisionEvent (frameResult : FrameHandler.HandleResult) : M (EState W) unit :=
  let header := FrameHandler.hdr frameResult in
  publish (fun now => EventBus.mkEvent 0 now "decision"
    ("frame handler: " +:+ verdict_word (FrameHandler.allow frameResult) +:+
     FrameHandler.reason frameResult)
    (Packet.reader_id header) (Packet.door_id header) (Packet.seqno header)
    (FrameHandler.allow frameResult) (FrameHandler.reason frameResult)).

Definition publishAnomalyEvent (readerId : Z) (type : Detector.AnomalyType) (detail : string) :
    M (EState W) unit :=
  publish (fun now => EventBus.mkEvent 0 now "anomaly"
    (if decide (detail = EmptyString) then "anomaly: " +:+ Detector.anomalyTypeToString type
     else "anomaly: " +:+ Detector.anomalyTypeToString type +:+ " " +:+ detail)
    readerId 0 0 false (Detector.anomalyTypeToString type)).

(** The card hash, and [roleOut]. *)
Definition resolveCardHmac (e : DecisionEngine) (cardId : string) (currentKv : Z) :
    M (EState W) (string * option string) :=
  let km := _keyManager e in
  if decide (FrameHandler.pepperMode (_frameHandlerCfg e) = "static"%string) then
    pepper ← lift (KeyManager.deriveCardPepper km 1);
    cardHmac ← lift (CardIdHasher.hmacHex pepper cardId);
    role ← on_h (on_ext (roleForCardHmac cardHmac));
    mret (cardHmac, role)
  else
    pepperCur ← lift (KeyManager.deriveCardPepper km currentKv);
    cardHmac ← lift (CardIdHasher.hmacHex pepperCur cardId);
    role ← on_h (on_ext (roleForCardHmac cardHmac));
    if decide (role = None /\ FrameHandler.allowPreviousKeyVersion (_frameHandlerCfg e) = true /\
               1 < currentKv)
    then
      pepperPrev ← lift (KeyManager.deriveCardPepper km (u32 (currentKv - 1)));
      cardHmacPrev ← lift (CardIdHasher.hmacHex pepperPrev cardId);
      role ← on_h (on_ext (roleForCardHmac cardHmacPrev));
      mret (if decide (role = None) then cardHmac else cardHmacPrev, role)
    else mret (cardHmac, role).

Definition checkRoleAccess (doorId : Z) (role : string) : M (EState W) DecisionResult :=
  ok ← on_h (on_ext (isAllowed doorId role));
  mret (if negb ok then mkDecisionResult false "forbidden" else mkDecisionResult true "ok").

(** [logAuditEvent(header, false, res.reason); return res;] *)
Definition deny (e : DecisionEngine) (header : Packet.Header) (why : string) :
    M (EState W) DecisionResult :=
  logAuditEvent e header false why "" "" ;; mret (createDeniedResult why).

Definition checkAccessPolicy (e : DecisionEngine) (frameResult : FrameHandler.HandleResult)
    (request : Payload.AccessRequest) : M (EState W) DecisionResult :=
  let header := FrameHandler.hdr frameResult in
  if decide (Payload.action request <> "open"%string) then deny e header "bad_action"
  else if negb (_store e) then deny e header "no_store"
  else
    currentKv ← on_h (on_ext (currentKeyVersionForReader (Packet.reader_id header)));
    if decide (currentKv = 0) then deny e header "unknown_reader"
    else
      '(cardHmac, roleOpt) ← resolveCardHmac e (Payload.cardId request) currentKv;
      match roleOpt with
      | None =>
          logAuditEvent e header false "unknown_card" cardHmac (Payload.action request) ;;
          mret (createDeniedResult "unknown_card")
      | Some role =>
          result ← checkRoleAccess (Packet.door_id header) role;
          logAuditEvent e header (allow result) (reason result) cardHmac (Payload.action request) ;;
          mret result
      end.

(** Audit, decision event, and the "quarantined" denial. *)
Definition deny_quarantined (e : DecisionEngine) (frameResult : FrameHandler.HandleResult) :
    M (EState W) DecisionResult :=
  logAuditEvent e (FrameHandler.hdr frameResult) false "quarantined" "" "" ;;
  publishDecisionEvent frameResult ;;
  mret (createDeniedResult "quarantined").

(** [ctxHeader]: the header with the nonce zeroed. *)
Definition nonce_context (h : Packet.Header) : bytes :=
  Packet.to_bytes (Packet.mkHeader (Packet.reader_id h) (Packet.door_id h) (Packet.ts_unix_ms h)
    (Packet.seqno h) (Packet.key_version h) (replicate 24 0)).

(** The deterministic nonce of a header. *)
Definition expectedNonce (e : DecisionEngine) (header : Packet.Header) : res bytes :=
  nonceKey ← KeyManager.deriveNonceKey (_keyManager e) (Packet.reader_id header)
    (Packet.key_version header);
  let cm := FrameHandler.cipher_of (FrameHandler.cipherMode (_frameHandlerCfg e)) in
  Ok (Nonce.generate (Nonce.HmacNonceGenerator nonceKey cm) (nonce_context header)
        (Packet.seqno header) []).

(** Lines 200 to 213 done, the sequence rollback check: [true] when the frame
    is denied for it. *)
Definition checkRollback (e : DecisionEngine) (detectorActive : bool) (header : Packet.Header) :
    M (EState W) bool :=
  if decide (detectorActive = true /\ 0 < Packet.seqno header) then
    now ← on_h nowUnixMs;
    anomaly ← on_detector (Detector.reportSeq (Packet.reader_id header) (Packet.seqno header) now);
    match anomaly with
    | Some a => publishAnomalyEvent (Packet.reader_id header) a "" ;; mret true
    | None => mret false
    end
  else mret false.

(** The nonce check: [true] when the frame is denied for it. *)
Definition checkNonce (e : DecisionEngine) (detectorActive : bool) (header : Packet.Header) :
    M (EState W) bool :=
  if decide (detectorActive = true /\
             FrameHandler.nonceMode (_frameHandlerCfg e) = "deterministic"%string) then
    expected ← lift (expectedNonce e header);
    let cm := FrameHandler.cipher_of (FrameHandler.cipherMode (_frameHandlerCfg e)) in
    if negb (Detector.nonceEqual (Packet.nonce header) expected (Nonce.nonceLenFor cm)) then
      now ← on_h nowUnixMs;
      on_detector (Detector.reportNonceMismatch (Packet.reader_id header) now) ;;
      publishAnomalyEvent (Packet.reader_id header) Detector.nonce_mismatch "" ;;
      mret true
    else mret false
  else mret false.

(** What the detector is told of a frame the handler rejected. *)
Definition reportRejection (detectorActive : bool) (frameResult : FrameHandler.HandleResult) :
    M (EState W) unit :=
  let header := FrameHandler.hdr frameResult in
  let readerId := Packet.reader_id header in
  let why := FrameHandler.reason frameResult in
  if negb detectorActive then mret tt
  else if decide (why = "replay"%string) then
    now ← on_h nowUnixMs;
    anomaly ← on_detector (Detector.reportReplay readerId (Packet.seqno header) now);
    publishAnomalyEvent readerId anomaly ""
  else if decide (why = "mac_verification_failed"%string \/ why = "decrypt_failed"%string) then
    now ← on_h nowUnixMs;
    anomaly ← on_detector (Detector.reportTagFailure readerId now);
    match anomaly with
    | Some a => publishAnomalyEvent readerId a ""
    | None => mret tt
    end
  else mret tt.

(** [_detector && _detector->config().enabled] *)
Definition detector_active (s : EState W) : bool :=
  match e_detector s with
  | None => false
  | Some d => Detector.enabled (Detector._config d)
  end.

Definition handler_of (e : DecisionEngine) : FrameHandler.FrameHandler :=
  FrameHandler.mkFrameHandler (_keyManager e) (_store e) (_frameHandlerCfg e).

(** Lines 254 to 288: a frame the detector lets through. *)
Definition concludeFrame (e : DecisionEngine) (detectorActive : bool)
    (frameResult : FrameHandler.HandleResult) : M (EState W) DecisionResult :=
  let header := FrameHandler.hdr frameResult in
  if negb (FrameHandler.allow frameResult) then
    reportRejection detectorActive frameResult ;;
    deny e header (FrameHandler.reason frameResult)
  else
    (if detectorActive
     then on_detector (fun d =>
            (Detector.reportSuccess (Packet.reader_id header) (Packet.seqno header) d, tt))
     else mret tt) ;;
    match Payload.parseAccessRequestJson
            (string_of_bytes (FrameHandler.plaintext frameResult)) with
    | Ok request => checkAccessPolicy e frameResult request
    | Throw _ => deny e header "bad_payload"
    | Fault => fault
    end.

(** Lines 203 to 252, then the rest. *)
Definition decideFrame (e : DecisionEngine) (frameSize : nat)
    (frameResult : FrameHandler.HandleResult) : M (EState W) DecisionResult :=
  let header := FrameHandler.hdr frameResult in
  s ← get;
  let detectorActive := detector_active s in
  publishFrameEvent frameSize ;;
  quarantined ← (if detectorActive
                 then on_detector (fun d => (d, Detector.isQuarantined d (Packet.reader_id header)))
                 else mret false);
  if (quarantined : bool) then deny_quarantined e frameResult
  else
    rolledBack ← checkRollback e detectorActive header;
    if (rolledBack : bool) then deny_quarantined e frameResult
    else
      badNonce ← checkNonce e detectorActive header;
      if (badNonce : bool) then deny_quarantined e frameResult
      else publishDecisionEvent frameResult ;; concludeFrame e detectorActive frameResult.

Definition handleFrameBytes (e : DecisionEngine) (frameBytes : bytes) : M (EState W) DecisionResult :=
  frameResult ← on_h (FrameHandler.handle (handler_of e) frameBytes);
  decideFrame e (length frameBytes) frameResult.

End Engine.
End Engine.

(** ** What the engine promises *)

Module EngineSpec.
Import Engine.

Section EngineSpec.
Context `{SodiumLaws, Env, Json}.

(** The stored identifier of a card under the pepper of one key version. *)
Definition card_hash (km : KeyManager.KeyManager) (kv : Z) (card : string) : string :=
  CardIdHasher.toHex (HMAC (KeySpec.key_for km (KeySpec.ForPepper kv)) (bytes_of_string card)).

(** The key versions a card is looked up under, in order. *)
Definition pepper_versions (cfg : FrameHandler.FrameHandlerConfig) (current : Z) : list Z :=
  if decide (FrameHandler.pepperMode cfg = "static"%string) then [1]
  else if decide (FrameHandler.allowPreviousKeyVersion cfg = true /\ 1 < current)
  then [current; current - 1] else [current].

(** The first version under which the card has a role. *)
Fixpoint find_role (roles : string -> option string) (hashes : list string) :
    option (string * string) :=
  match hashes with
  | [] => None
  | c :: hashes' =>
      match roles c with
      | Some role => Some (c, role)
      | None => find_role roles hashes'
      end
  end.

(** A decision, and the card hash and action it is audited with. *)
Record outcome := mkOutcome { o_result : DecisionResult; o_card : string; o_action : string }.

Definition denied (why : string) : outcome := mkOutcome (createDeniedResult why) "" "".

Definition card_hashes (e : DecisionEngine) (current : Z) (card : string) : list string :=
  (fun kv => card_hash (_keyManager e) kv card) <$> pepper_versions (_frameHandlerCfg e) current.

Definition policy_verdict (e : DecisionEngine) (v : PolicyView) (hd : Packet.Header)
    (req : Payload.AccessRequest) : outcome :=
  if decide (Payload.action req <> "open"%string) then denied "bad_action"
  else if negb (_store e) then denied "no_store"
  else
    let current := view_key_version v (Packet.reader_id hd) in
    if decide (current = 0) then denied "unknown_reader"
    else
      let hashes := card_hashes e current (Payload.cardId req) in
      match find_role (view_role v) hashes with
      | None => mkOutcome (createDeniedResult "unknown_card") (default "" (head hashes)) "open"
      | Some (hash, role) =>
          mkOutcome (if view_allowed v (Packet.door_id hd) role then mkDecisionResult true "ok"
                     else mkDecisionResult false "forbidden") hash "open"
      end.

(** The nonce a reader must use for a header. *)
Definition nonce_expected (e : DecisionEngine) (hd : Packet.Header) : bool :=
  let key := KeySpec.key_for (_keyManager e)
    (KeySpec.ForNonce (Packet.reader_id hd) (Packet.key_version hd)) in
  let n := Nonce.nonceLenFor (FrameHandler.cipher_of (FrameHandler.cipherMode (_frameHandlerCfg e))) in
  bool_decide (take n (Packet.nonce hd) = take n (HMAC key (nonce_context hd))).

(** The three grounds on which an active detector refuses a frame. *)
Definition detector_refuses (e : DecisionEngine) (d : option Detector.ProtocolAnomalyDetector)
    (hd : Packet.Header) : bool :=
  match d with
  | None => false
  | Some d =>
      Detector.enabled (Detector._config d) &&
      (Detector.isQuarantined d (Packet.reader_id hd) ||
       bool_decide (0 < Packet.seqno hd /\
         is_Some (Detector.reportSeq (Packet.reader_id hd) (Packet.seqno hd) 0 d).2) ||
       (bool_decide (FrameHandler.nonceMode (_frameHandlerCfg e) = "deterministic"%string) &&
        negb (nonce_expected e hd)))
  end.

Definition engine_verdict (e : DecisionEngine) (v : PolicyView) (w : Z -> ReplayWindow.ReplayWindow)
    (d : option Detector.ProtocolAnomalyDetector) (now : Z) (b : bytes) : outcome :=
  let r := HandlerSpec.verdict (handler_of e) v w now b in
  let hd := FrameHandler.hdr r in
  if detector_refuses e d hd then denied "quarantined"
  else if negb (FrameHandler.allow r) then denied (FrameHandler.reason r)
  else
    match Payload.parseAccessRequestJson (string_of_bytes (FrameHandler.plaintext r)) with
    | Ok req => policy_verdict e v hd req
    | _ => denied "bad_payload"
    end.

(** The entries a decision adds to the audit trail. *)
Definition audited (e : DecisionEngine) (hd : Packet.Header) (o : outcome) : list Audit.AuditEvent :=
  if _audit e
  then [audit_event hd (allow (o_result o)) (reason (o_result o)) (o_card o) (o_action o)]
  else [].

(** From one detector to the next: a run of the detector's state machine made
    of calls about one reader, none of which lifts a quarantine. *)
Definition detector_evolves (reader : Z) (d d' : option Detector.ProtocolAnomalyDetector) : Prop :=
  match d, d' with
  | None, None => True
  | Some d, Some d' =>
      exists cs, Detector.steps d cs d' /\
        Forall (fun c => Detector.call_reader c = reader /\ c <> Detector.CallUnquarantine reader) cs
  | _, _ => False
  end.

End EngineSpec.
End EngineSpec.

(** ** Lemmas *)

Create HintDb live.

(** [solve_live]: a later state of a live state is live. *)
Ltac solve_live := intros ?Ht; eauto 6 with live.

Module EngineFacts.
Import Engine EngineSpec.

Lemma detector_evolves_refl r d : detector_evolves r d d.
Proof. destruct d; cbn; [|done]. exists []. split; [constructor|apply Forall_nil_2]. Qed.

Lemma steps_app d cs d' cs' d'' :
  Detector.steps d cs d' -> Detector.steps d' cs' d'' -> Detector.steps d (cs ++ cs') d''.
Proof. induction 1; [done|]. econstructor; eauto. Qed.

Lemma detector_evolves_trans r d1 d2 d3 :
  detector_evolves r d1 d2 -> detector_evolves r d2 d3 -> detector_evolves r d1 d3.
Proof.
  destruct d1, d2, d3; cbn; try done. intros (cs & H1 & F1) (cs' & H2 & F2).
  exists (cs ++ cs'). split; [by eapply steps_app|by apply Forall_app_2].
Qed.

Lemma detector_evolves_call r d c :
  Detector.call_reader c = r -> c <> Detector.CallUnquarantine r ->
  detector_evolves r (Some d) (Some (Detector.run_call c d)).
Proof.
  intros Hr Hc. cbn. exists [c]. split; [|by apply Forall_singleton].
  econstructor; [constructor|constructor].
Qed.

(** What such a run keeps. *)
Lemma detector_evolves_keeps r d d' :
  detector_evolves r (Some d) (Some d') ->
  Detector._config d' = Detector._config d /\
  (forall q, Detector.isQuarantined d q = true -> Detector.isQuarantined d' q = true) /\
  (forall q, q <> r -> Detector.getState d' q = Detector.getState d q).
Proof.
  intros (cs & ->%DetectorFacts.steps_run_inv & Hcs). split_and!.
  - apply DetectorFacts.run_calls_config.
  - intros q. rewrite !DetectorFacts.isQuarantined_getState, !bool_decide_eq_true.
    apply DetectorFacts.run_calls_quarantined. intros Hin.
    rewrite Forall_forall in Hcs. destruct (Hcs _ Hin) as [<- Hne]. by apply Hne.
  - intros q Hq. apply DetectorFacts.run_calls_frame.
    eapply Forall_impl; [exact Hcs|]. by intros c [-> _].
Qed.

Lemma find_role_text roles hashes c role :
  Forall (fun c => cstr c = c) hashes -> find_role roles hashes = Some (c, role) -> cstr c = c.
Proof.
  induction 1 as [|c' hashes Hc _ IH]; [done|]. cbn. destruct (roles c'); [|done].
  by intros [= <- _].
Qed.

Section EngineFacts.
Context `{SodiumLaws, Env, Json} {W : Type}.
Context `{AccessStoreSpec W, !IAuditLog W, !AuditLogSpec W, !StoreAuditSpec W}.

(** A step of a call about [reader] that adds [tr] to the audit trail. *)
Record evolves (reader : Z) (tr : list Audit.AuditEvent) (s s' : EState W) : Prop := {
  ev_windows : h_windows (e_h s') = h_windows (e_h s);
  ev_policy : policy_of (h_ext (e_h s')) = policy_of (h_ext (e_h s));
  ev_trail : trail_of (h_ext (e_h s')) = trail_of (h_ext (e_h s)) ++ tr;
  ev_detector : detector_evolves reader (e_detector s) (e_detector s');
  ev_bus : EventBus._max <$> e_events s' = EventBus._max <$> e_events s;
  ev_ready : tr = [] -> audit_ready (h_ext (e_h s)) -> audit_ready (h_ext (e_h s'));
}.

Lemma evolves_refl r s : evolves r [] s s.
Proof. split; try done; [by rewrite app_nil_r|apply detector_evolves_refl]. Qed.

Lemma evolves_trans r tr1 tr2 s1 s2 s3 :
  evolves r tr1 s1 s2 -> evolves r tr2 s2 s3 -> evolves r (tr1 ++ tr2) s1 s3.
Proof.
  intros [] []. split; try congruence; [|by eapply detector_evolves_trans|].
  - rewrite app_assoc. congruence.
  - intros [-> ->]%app_eq_nil. auto.
Qed.

Lemma evolves_trans_l r tr s1 s2 s3 : evolves r [] s1 s2 -> evolves r tr s2 s3 -> evolves r tr s1 s3.
Proof. intros E1 E2. exact (evolves_trans r [] tr _ _ _ E1 E2). Qed.

(** The bus, if any, can hold an event. *)
Definition bus_live (s : EState W) : Prop :=
  match e_events s with None => True | Some b => 1 <= EventBus._max b end.

Lemma evolves_bus_live r tr s s' : evolves r tr s s' -> bus_live s -> bus_live s'.
Proof.
  intros [_ _ _ _ E _]. unfold bus_live. destruct (e_events s), (e_events s'); try done.
  cbn in E. injection E as E. by rewrite E.
Qed.

(** A state in which a call can be expected to return. *)
Definition live (s : EState W) : Prop := bus_live s /\ audit_ready (h_ext (e_h s)).

Lemma live_bus s : live s -> bus_live s.
Proof. by intros []. Qed.

Lemma evolves_live r s s' : evolves r [] s s' -> live s -> live s'.
Proof. intros E [Hb Hr]. split; [by eapply evolves_bus_live|by eapply ev_ready]. Qed.

#[local] Hint Resolve evolves_bus_live live_bus evolves_live : live.

(** [T] stands for "store and log return". *)
Context (T : Prop) (T_store : T -> StoreReturns W) (T_audit : T -> AuditReturns W).

Lemma wp_now (s : EState W) (r : Z) (Q : Z -> EState W -> Prop) :
  (forall t s', evolves r [] s s' -> e_detector s' = e_detector s -> Q t s') -> wp T (on_h nowUnixMs) s Q.
Proof.
  intros HQ. apply HQ; [|done]. split; cbn; try done; [by rewrite app_nil_r|apply detector_evolves_refl].
Qed.

Lemma wp_push (s : EState W) (r : Z) ev (Q : unit -> EState W -> Prop) :
  is_Some (e_events s) -> (T -> bus_live s) ->
  (forall s', evolves r [] s s' -> e_detector s' = e_detector s -> Q tt s') ->
  wp T (push_event ev) s Q.
Proof.
  intros [b Eb] HT HQ. unfold wp, push_event, bus_live in *. rewrite Eb in *.
  assert (forall b', EventBus._max b' = EventBus._max b ->
    Q tt (mkEState (e_h s) (e_detector s) (Some b'))) as HQ'.
  { intros b' E5. apply HQ; [|done].
    split; cbn; rewrite ?Eb, ?app_nil_r; try done; [apply detector_evolves_refl|]. cbn. by rewrite E5. }
  unfold EventBus.push. case_decide as Hfull; [|by apply HQ'].
  destruct (EventBus._events b) as [|x rest]; cbn [length] in Hfull; [|by apply HQ'].
  intros Ht%HT. lia.
Qed.

Lemma wp_publish (s : EState W) (r : Z) ev (Q : unit -> EState W -> Prop) :
  (T -> bus_live s) ->
  (forall s', evolves r [] s s' -> e_detector s' = e_detector s -> Q tt s') -> wp T (publish ev) s Q.
Proof.
  intros HT HQ. unfold publish. apply wp_bind. unfold get, wp at 1.
  destruct (e_events s) as [b|] eqn:Eb; [|apply HQ; [apply evolves_refl|done]].
  apply wp_bind, (wp_now _ r). intros t s' Ev Ed.
  assert (is_Some (e_events s')) as Hs'.
  { destruct Ev as [_ _ _ _ E5]. rewrite Eb in E5. by destruct (e_events s'). }
  apply (wp_push s' r); [done|solve_live|].
  intros s2 E2 Ed2. apply HQ; [by eapply evolves_trans_l|congruence].
Qed.

(** A query of the store. *)
Lemma wp_query {A} (m : M W A) (s : EState W) (r : Z) (v : A) (Q : A -> EState W -> Prop) :
  let w := h_ext (e_h s) in
  (forall w' a, m w = (w', Ok a) -> a = v /\ policy_of w' = policy_of w) ->
  trail_of (m w).1 = trail_of w -> (audit_ready w -> audit_ready (m w).1) ->
  (T -> exists w' a, m w = (w', Ok a)) ->
  (forall s', evolves r [] s s' -> e_detector s' = e_detector s -> Q v s') ->
  wp T (on_h (on_ext m)) s Q.
Proof.
  intros w Hm Ht Hrd HT HQ. unfold on_h, on_ext. apply wp_zoom, wp_zoom.
  change (wp T m w (fun a t => Q a
    (mkEState (mkHState (h_windows (e_h s)) t (h_ticks (e_h s))) (e_detector s) (e_events s)))).
  apply wp_intro; [|done]. intros w' a Em. destruct (Hm w' a Em) as [-> Hp].
  rewrite Em in Ht, Hrd. apply HQ; [|done].
  split; cbn in *; try done; [by rewrite app_nil_r|apply detector_evolves_refl].
Qed.

Lemma wp_current (s : EState W) (r reader : Z) (Q : Z -> EState W -> Prop) :
  is_u32 reader ->
  (forall s', evolves r [] s s' -> e_detector s' = e_detector s ->
     Q (view_key_version (policy_of (h_ext (e_h s))) reader) s') ->
  wp T (on_h (on_ext (currentKeyVersionForReader reader))) s Q.
Proof.
  intros Hr HQ. eapply (wp_query _ s r); [|apply key_version_trail|apply key_version_ready| |by intros; apply HQ].
  - intros w' a Em. by apply key_version_spec in Em.
  - intros Ht%T_store. apply key_version_returns.
Qed.

Lemma wp_role (s : EState W) (r : Z) c (Q : option string -> EState W -> Prop) :
  cstr c = c ->
  (forall s', evolves r [] s s' -> Q (view_role (policy_of (h_ext (e_h s))) c) s') ->
  wp T (on_h (on_ext (roleForCardHmac c))) s Q.
Proof.
  intros Hc HQ. eapply (wp_query _ s r); [|by apply role_trail|by apply role_ready| |by intros; apply HQ].
  - intros w' a Em. by apply role_spec in Em.
  - intros Ht%T_store. apply role_returns.
Qed.

Lemma wp_isAllowed (s : EState W) (r d : Z) role (Q : bool -> EState W -> Prop) :
  is_u32 d -> cstr role = role ->
  (forall s', evolves r [] s s' -> Q (view_allowed (policy_of (h_ext (e_h s))) d role) s') ->
  wp T (on_h (on_ext (isAllowed d role))) s Q.
Proof.
  intros Hd Hc HQ. eapply (wp_query _ s r); [|by apply allowed_trail|by apply allowed_ready| |by intros; apply HQ].
  - intros w' a Em. by apply allowed_spec in Em.
  - intros Ht%T_store. apply allowed_returns.
Qed.

(** A call on the detector that is a transition of its state machine. *)
Lemma wp_on_detector {A} f (s : EState W) (d : Detector.ProtocolAnomalyDetector) c
    (Q : A -> EState W -> Prop) :
  e_detector s = Some d -> (f d).1 = Detector.run_call c d ->
  c <> Detector.CallUnquarantine (Detector.call_reader c) ->
  (forall s', evolves (Detector.call_reader c) [] s s' ->
     e_detector s' = Some (Detector.run_call c d) -> Q (f d).2 s') ->
  wp T (on_detector f) s Q.
Proof.
  intros Ed Ef Hc HQ. unfold wp, on_detector. rewrite Ed. destruct (f d) as [d' a].
  cbn in Ef. subst d'. apply HQ; [|done]. split; cbn; try done; [by rewrite app_nil_r|].
  rewrite Ed. by apply detector_evolves_call.
Qed.

(** Texts of an audit entry: no embedded NUL. *)
Definition texts_ok (why card act : string) : Prop :=
  cstr why = why /\ cstr card = card /\ cstr act = act.

Lemma wp_log (e : DecisionEngine) (s : EState W) (r : Z) hd a why card act
    (Q : unit -> EState W -> Prop) :
  Packet.Header_ok hd -> texts_ok why card act -> (T -> live s) ->
  (forall s', evolves r (audited e hd (mkOutcome (mkDecisionResult a why) card act)) s s' ->
     e_detector s' = e_detector s -> Q tt s') ->
  wp T (logAuditEvent e hd a why card act) s Q.
Proof.
  intros Hh (T1 & T2 & T3) Hb HQ. unfold logAuditEvent, audited in *.
  destruct (_audit e); cbn [negb o_result o_card o_action allow reason] in *;
    [|apply HQ; [apply evolves_refl|done]].
  apply wp_bind. unfold on_h, on_ext. apply wp_zoom, wp_zoom.
  set (ev := audit_event _ _ _ _ _) in *.
  assert (event_ok ev) as Hok by (split; try done; apply Hh).
  apply wp_intro; [|intros Ht; destruct (T_audit Ht) as [Hret];
    destruct (Hret ev (h_ext (e_h s)) Hok) as [w' Ea]; [by apply Hb|by eauto]].
  intros w [] Ea. pose proof (append_policy _ _ _ Hok Ea). apply append_spec in Ea as Ht; [|done].
  assert (forall h, h = mkEState (mkHState (h_windows (e_h s)) w (h_ticks (e_h s)))
      (e_detector s) (e_events s) -> evolves r [ev] s h) as Hev.
  { intros h ->. split; cbn; try done. apply detector_evolves_refl. }
  apply (wp_publish _ r); [solve_live|]. intros s' E2 Ed. apply HQ; [|done].
  exact (evolves_trans _ [ev] [] _ _ _ (Hev _ eq_refl) E2).
Qed.

Lemma pepper_run km kv :
  is_u32 kv -> kv <> 0 ->
  KeyManager.deriveCardPepper km kv = Ok (KeySpec.key_for km (KeySpec.ForPepper kv)).
Proof. intros Hk Hz. by apply (KeyFacts.derive_for_spec km (KeySpec.ForPepper kv)). Qed.

Lemma card_hash_run km kv card :
  card <> EmptyString ->
  CardIdHasher.hmacHex (KeySpec.key_for km (KeySpec.ForPepper kv)) card = Ok (card_hash km kv card).
Proof. intros Hc. by rewrite CardFacts.hmacHex_run. Qed.

Lemma card_hash_text km kv card : cstr (card_hash km kv card) = card_hash km kv card.
Proof. apply CardFacts.toHex_no_nul, HMAC_array. Qed.

(** One lookup of a card under one key version. *)
Lemma wp_lookup (e : DecisionEngine) (s : EState W) (r : Z) kv card {A}
    (k : string -> option string -> M (EState W) A) (Q : A -> EState W -> Prop) :
  is_u32 kv -> kv <> 0 -> card <> EmptyString ->
  (forall s', evolves r [] s s' ->
     let c := card_hash (_keyManager e) kv card in
     wp T (k c (view_role (policy_of (h_ext (e_h s))) c)) s' Q) ->
  wp T (pepper ← lift (KeyManager.deriveCardPepper (_keyManager e) kv);
        c ← lift (CardIdHasher.hmacHex pepper card);
        role ← on_h (on_ext (roleForCardHmac c));
        k c role) s Q.
Proof.
  intros Hk Hz Hc HQ. apply wp_bind. eapply wp_lift; [by apply pepper_run|].
  apply wp_bind. eapply wp_lift; [by apply card_hash_run|].
  apply wp_bind, (wp_role _ r); [apply card_hash_text|]. intros s' Ev. by apply HQ.
Qed.

Lemma find_role_clean w hashes c role :
  find_role (view_role (policy_of w)) hashes = Some (c, role) -> cstr role = role.
Proof.
  induction hashes as [|c' hashes IH]; [done|]. cbn.
  destruct (view_role _ c') eqn:E; [|done]. intros [= _ <-]. by eapply role_text.
Qed.

(** What [resolveCardHmac] returns. *)
Definition resolved (roles : string -> option string) (hashes : list string) :
    string * option string :=
  match find_role roles hashes with
  | Some (c, role) => (c, Some role)
  | None => (default ""%string (head hashes), None)
  end.

Lemma wp_resolve (e : DecisionEngine) (s : EState W) (r : Z) card current
    (Q : string * option string -> EState W -> Prop) :
  is_u32 current -> current <> 0 -> card <> EmptyString ->
  (forall s', evolves r [] s s' ->
     Q (resolved (view_role (policy_of (h_ext (e_h s)))) (card_hashes e current card)) s') ->
  wp T (resolveCardHmac e card current) s Q.
Proof.
  intros Hk Hz Hc HQ. unfold resolveCardHmac, card_hashes, pepper_versions, resolved in *.
  destruct (decide (FrameHandler.pepperMode _ = _)).
  - apply (wp_lookup e s r 1); try done. intros s1 E1 c. apply wp_ret. cbn in HQ.
    fold c in HQ. specialize (HQ s1 E1). by destruct (view_role _ c).
  - apply (wp_lookup e s r current); try done. intros s1 E1 c.
    destruct (view_role (policy_of (h_ext (e_h s))) c) as [role|] eqn:Ec.
    + rewrite decide_False by naive_solver. apply wp_ret. specialize (HQ s1 E1).
      destruct (decide (_ /\ _)); cbn in HQ; fold c in HQ; by rewrite Ec in HQ.
    + destruct (decide (FrameHandler.allowPreviousKeyVersion (_frameHandlerCfg e) = true /\ 1 < current))
        as [[Hp Hc1]|Hn]; cbn in HQ; fold c in HQ; rewrite Ec in HQ; cycle 1.
      { rewrite decide_False by tauto. apply wp_ret. exact (HQ s1 E1). }
      rewrite decide_True by done. unfold is_u32 in Hk. rewrite u32_id by (unfold is_u32; lia).
      apply (wp_lookup e s1 r (current - 1) card); [unfold is_u32; lia|lia|done|].
      intros s2 E2 c'. apply wp_ret. rewrite (ev_policy _ _ _ _ E1). fold c' in HQ.
      specialize (HQ s2 (evolves_trans_l _ _ _ _ _ E1 E2)). by destruct (view_role _ c').
Qed.

Lemma wp_deny (e : DecisionEngine) (s : EState W) (r : Z) hd why
    (Q : DecisionResult -> EState W -> Prop) :
  Packet.Header_ok hd -> cstr why = why -> (T -> live s) ->
  (forall s', evolves r (audited e hd (denied why)) s s' -> e_detector s' = e_detector s ->
     Q (createDeniedResult why) s') ->
  wp T (deny e hd why) s Q.
Proof.
  intros Hh Hw Hb HQ. unfold deny. apply wp_bind, (wp_log e s r); [done|done|done|].
  intros s' Ev Ed. by apply wp_ret, HQ.
Qed.

(** The policy stage of a call that started in [s0]. *)
Lemma wp_policy (e : DecisionEngine) (s : EState W) (r : Z) (fr : FrameHandler.HandleResult) req
    (Q : DecisionResult -> EState W -> Prop) :
  let hd := FrameHandler.hdr fr in
  let o := policy_verdict e (policy_of (h_ext (e_h s))) hd req in
  Packet.Header_ok hd -> Payload.cardId req <> EmptyString -> (T -> live s) ->
  (forall s', evolves r (audited e hd o) s s' -> Q (o_result o) s') ->
  wp T (checkAccessPolicy e fr req) s Q.
Proof.
  intros hd o Hh Hc Hb HQ. unfold checkAccessPolicy. fold hd.
  subst o. unfold policy_verdict in HQ.
  case_decide as Ha; [apply (wp_deny e s r); auto|].
  destruct (_store e); cbn [negb] in *; [|apply (wp_deny e s r); auto].
  apply wp_bind, (wp_current _ r); [apply Hh|]. intros s1 E1 _.
  assert (T -> live s1) as Hb1 by solve_live.
  pose proof (key_version_range (h_ext (e_h s)) (Packet.reader_id hd)) as Hkr.
  destruct (decide (view_key_version _ _ = 0)) as [Hz|Hz].
  { apply (wp_deny e s1 r); auto. intros s2 E2 _. apply HQ. by eapply evolves_trans_l. }
  apply wp_bind, (wp_resolve e s1 r); [done..|]. intros s2 E2. unfold resolved.
  rewrite (ev_policy _ _ _ _ E1). pose proof (evolves_trans_l _ _ _ _ _ E1 E2) as E12.
  assert (T -> live s2) as Hb2 by solve_live.
  assert (Forall (fun c => cstr c = c)
    (card_hashes e (view_key_version (policy_of (h_ext (e_h s))) (Packet.reader_id hd))
       (Payload.cardId req))) as Htext
    by (apply Forall_fmap, Forall_forall; intros kv _; apply card_hash_text).
  set (hashes := card_hashes _ _ _) in *. rewrite Ha.
  destruct (find_role _ hashes) as [[c role]|] eqn:Ef.
  - assert (cstr c = c) as Hct by exact (find_role_text _ _ _ _ Htext Ef).
    unfold checkRoleAccess. do 2 apply wp_bind.
    apply (wp_isAllowed _ r); [apply Hh|by eapply find_role_clean|]. intros s3 E3.
    rewrite (ev_policy _ _ _ _ E12). pose proof (evolves_trans_l _ _ _ _ _ E12 E3) as E13.
    apply wp_ret, wp_bind.
    assert (T -> live s3) as Hb3 by solve_live.
    destruct (view_allowed _ _ _); cbn [negb];
      (apply (wp_log e s3 r); [done|done|done|]); intros s4 E4 _; apply wp_ret, HQ;
      by eapply evolves_trans_l.
  - apply wp_bind, (wp_log e s2 r); [done| |done|].
    { split_and!; try done. destruct hashes; [done|]. by apply Forall_inv in Htext. }
    intros s3 E3 _. apply wp_ret, HQ. by eapply evolves_trans_l.
Qed.

(** The reader is in quarantine. *)
Definition in_quarantine (s : EState W) (reader : Z) : Prop :=
  match e_detector s with
  | Some d => Detector.isQuarantined d reader = true
  | None => False
  end.

Lemma evolves_quarantine r tr s s' q : evolves r tr s s' -> in_quarantine s q -> in_quarantine s' q.
Proof.
  intros [_ _ _ Hd _]. unfold in_quarantine.
  destruct (e_detector s) as [d|], (e_detector s') as [d'|]; try done.
  apply detector_evolves_keeps in Hd as (_ & Hq & _). exact (Hq q).
Qed.

(** Reports that end in quarantine. *)
Lemma reportSeq_quarantines r q t d a :
  (Detector.reportSeq r q t d).2 = Some a ->
  Detector.isQuarantined (Detector.run_call (Detector.CallSeq r q t) d) r = true.
Proof.
  rewrite DetectorFacts.isQuarantined_getState. cbn [Detector.run_call].
  unfold Detector.reportSeq. repeat case_decide; cbn [fst snd]; try done.
  intros _. by rewrite DetectorFacts.getState_set.
Qed.

Lemma reportSeq_time r q t t' d : (Detector.reportSeq r q t d).2 = (Detector.reportSeq r q t' d).2.
Proof. unfold Detector.reportSeq. by repeat case_decide. Qed.

Lemma reportNonceMismatch_quarantines r t d :
  Detector.isQuarantined (Detector.run_call (Detector.CallNonceMismatch r t) d) r = true.
Proof.
  rewrite DetectorFacts.isQuarantined_getState. cbn [Detector.run_call Detector.reportNonceMismatch fst].
  by rewrite DetectorFacts.getState_set.
Qed.

Lemma detector_active_inv (s : EState W) :
  detector_active s = true ->
  exists d, e_detector s = Some d /\ Detector.enabled (Detector._config d) = true.
Proof. unfold detector_active. destruct (e_detector s); [eauto|done]. Qed.

Definition rolled_back (d : option Detector.ProtocolAnomalyDetector) (hd : Packet.Header) : bool :=
  match d with
  | Some d => bool_decide (0 < Packet.seqno hd /\
      is_Some (Detector.reportSeq (Packet.reader_id hd) (Packet.seqno hd) 0 d).2)
  | None => false
  end.

Lemma wp_rollback (e : DecisionEngine) (s : EState W) active hd (Q : bool -> EState W -> Prop) :
  (active = true -> is_Some (e_detector s)) -> (T -> live s) ->
  let b := active && rolled_back (e_detector s) hd in
  (forall s', evolves (Packet.reader_id hd) [] s s' ->
     (b = true -> in_quarantine s' (Packet.reader_id hd)) -> Q b s') ->
  wp T (checkRollback e active hd) s Q.
Proof.
  intros Ha Hb b HQ. unfold checkRollback. subst b.
  destruct active; cbn [andb] in *; cycle 1.
  { rewrite decide_False by naive_solver. apply wp_ret, HQ; [apply evolves_refl|done]. }
  destruct (Ha eq_refl) as [d Ed]. unfold rolled_back in HQ. rewrite Ed in HQ.
  destruct (decide (true = true /\ 0 < Packet.seqno hd)) as [[_ Hs]|Hs];
    [|rewrite bool_decide_false in HQ by tauto; apply wp_ret, HQ; [apply evolves_refl|done]].
  apply wp_bind, (wp_now _ (Packet.reader_id hd)). intros t s1 E1 Ed1. rewrite Ed in Ed1.
  apply wp_bind, (wp_on_detector _ s1 d
    (Detector.CallSeq (Packet.reader_id hd) (Packet.seqno hd) t)); [done..|].
  cbn [Detector.call_reader]. intros s2 E2 Ed2.
  pose proof (evolves_trans_l _ _ _ _ _ E1 E2) as E12.
  assert (T -> live s2) as Hb2 by solve_live.
  destruct (Detector.reportSeq _ _ t d).2 as [a|] eqn:Er.
  - rewrite (reportSeq_time _ _ 0 t), Er, bool_decide_true in HQ by eauto.
    apply wp_bind, (wp_publish _ (Packet.reader_id hd)); [solve_live|]. intros s3 E3 Ed3.
    apply wp_ret, HQ; [by eapply evolves_trans_l|]. intros _.
    unfold in_quarantine. rewrite Ed3, Ed2. by eapply reportSeq_quarantines.
  - rewrite (reportSeq_time _ _ 0 t), Er, bool_decide_false in HQ by (intros [_ []]; done).
    by apply wp_ret, HQ.
Qed.

(** The nonce check compares with the nonce of the specification. *)
Lemma expectedNonce_run (e : DecisionEngine) hd :
  Packet.Header_ok hd ->
  exists expected, expectedNonce e hd = Ok expected /\
    Detector.nonceEqual (Packet.nonce hd) expected
      (Nonce.nonceLenFor (FrameHandler.cipher_of (FrameHandler.cipherMode (_frameHandlerCfg e))))
    = nonce_expected e hd.
Proof.
  intros Hh. unfold expectedNonce, nonce_expected.
  set (n := Nonce.nonceLenFor _).
  pose proof (KeyFacts.derive_for_spec (_keyManager e)
    (KeySpec.ForNonce (Packet.reader_id hd) (Packet.key_version hd))) as Hd.
  cbn [KeySpec.derive_for KeySpec.purpose_ok] in Hd. rewrite Hd by (split; apply Hh). clear Hd. eexists. split; [reflexivity|].
  set (key := KeySpec.key_for _ _). unfold Nonce.generate. fold n.
  rewrite hmac_oneshot by apply (proj1 (KeyFacts.key_for_array _ _)).
  pose proof (CryptoFacts.nonceLenFor_bound
    (FrameHandler.cipher_of (FrameHandler.cipherMode (_frameHandlerCfg e)))) as Hn. fold n in Hn.
  pose proof (CryptoFacts.length_HMAC key (nonce_context hd)) as Hl.
  unfold Detector.nonceEqual, Nonce.nonce_array. rewrite take_app_le by (rewrite length_take; lia).
  rewrite take_take, Nat.min_id. apply bool_decide_ext, memcmp_eq.
  rewrite !length_take, Hl. destruct (Packet.nonce_ok _ Hh) as [-> _]. lia.
Qed.

Lemma wp_nonce (e : DecisionEngine) (s : EState W) active hd (Q : bool -> EState W -> Prop) :
  (active = true -> is_Some (e_detector s)) -> (T -> live s) -> Packet.Header_ok hd ->
  let b := active &&
    (bool_decide (FrameHandler.nonceMode (_frameHandlerCfg e) = "deterministic"%string) &&
     negb (nonce_expected e hd)) in
  (forall s', evolves (Packet.reader_id hd) [] s s' ->
     (b = true -> in_quarantine s' (Packet.reader_id hd)) -> Q b s') ->
  wp T (checkNonce e active hd) s Q.
Proof.
  intros Ha Hb Hh b HQ. unfold checkNonce. subst b.
  destruct (decide (active = true /\ _)) as [[Hact Hm]|Hn]; cycle 1.
  { replace (active && _) with false in HQ
      by (destruct active; [|done]; rewrite bool_decide_false by tauto; done).
    apply wp_ret, HQ; [apply evolves_refl|done]. }
  destruct (Ha Hact) as [d Ed]. rewrite bool_decide_true, Hact in HQ by done. cbn [andb] in HQ.
  destruct (expectedNonce_run e hd Hh) as (ex & Ex & Heq).
  apply wp_bind. eapply wp_lift; [exact Ex|]. cbv zeta. rewrite Heq.
  destruct (negb (nonce_expected e hd)); [|apply wp_ret, HQ; [apply evolves_refl|done]].
  apply wp_bind, (wp_now _ (Packet.reader_id hd)). intros t s1 E1 Ed1. rewrite Ed in Ed1.
  apply wp_bind, (wp_on_detector _ s1 d (Detector.CallNonceMismatch (Packet.reader_id hd) t)); [done..|].
  cbn [Detector.call_reader]. intros s2 E2 Ed2. pose proof (evolves_trans_l _ _ _ _ _ E1 E2) as E12.
  assert (T -> live s2) as Hb2 by solve_live.
  apply wp_bind, (wp_publish _ (Packet.reader_id hd)); [solve_live|]. intros s3 E3 Ed3.
  apply wp_ret, HQ; [by eapply evolves_trans_l|]. intros _.
  unfold in_quarantine. rewrite Ed3, Ed2. apply reportNonceMismatch_quarantines.
Qed.

Lemma wp_deny_quarantined (e : DecisionEngine) (s : EState W) fr (Q : DecisionResult -> EState W -> Prop) :
  let hd := FrameHandler.hdr fr in
  Packet.Header_ok hd -> (T -> live s) ->
  (forall s', evolves (Packet.reader_id hd) (audited e hd (denied "quarantined")) s s' ->
     Q (createDeniedResult "quarantined") s') ->
  wp T (deny_quarantined e fr) s Q.
Proof.
  intros hd Hh Hb HQ. unfold deny_quarantined. fold hd.
  apply wp_bind, (wp_log e s (Packet.reader_id hd)); [done|done|done|]. intros s1 E1 _.
  apply wp_bind, (wp_publish _ (Packet.reader_id hd)); [solve_live|].
  intros s2 E2 _. apply wp_ret, HQ.
  rewrite <- (app_nil_r (audited _ _ _)). exact (evolves_trans _ _ _ _ _ _ E1 E2).
Qed.

Lemma wp_report (s : EState W) active fr (Q : unit -> EState W -> Prop) :
  let hd := FrameHandler.hdr fr in
  (active = true -> is_Some (e_detector s)) -> (T -> live s) ->
  (forall s', evolves (Packet.reader_id hd) [] s s' ->
     (active = true -> FrameHandler.reason fr = "replay"%string ->
      in_quarantine s' (Packet.reader_id hd)) -> Q tt s') ->
  wp T (reportRejection active fr) s Q.
Proof.
  intros hd Ha Hb HQ. unfold reportRejection. fold hd.
  destruct active; cbn [negb]; [|apply HQ; [apply evolves_refl|done]].
  destruct (Ha eq_refl) as [d Ed]. destruct (decide (FrameHandler.reason fr = _)) as [Hr|Hr];
    [|case_decide; [|apply HQ; [apply evolves_refl|done]]];
    apply wp_bind, (wp_now _ (Packet.reader_id hd)); intros t s1 E1 Ed1; rewrite Ed in Ed1.
  - apply wp_bind, (wp_on_detector _ s1 d
      (Detector.CallReplay (Packet.reader_id hd) (Packet.seqno hd) t)); [done..|].
    cbn [Detector.call_reader]. intros s2 E2 Ed2. pose proof (evolves_trans_l _ _ _ _ _ E1 E2) as E12.
    apply (wp_publish _ (Packet.reader_id hd)); [solve_live|].
    intros s3 E3 Ed3. apply HQ; [by eapply evolves_trans_l|]. intros _ _.
    unfold in_quarantine. rewrite Ed3, Ed2, DetectorFacts.isQuarantined_getState.
    cbn [Detector.run_call Detector.reportReplay fst]. by rewrite DetectorFacts.getState_set.
  - apply wp_bind, (wp_on_detector _ s1 d
      (Detector.CallTagFailure (Packet.reader_id hd) t)); [done..|].
    cbn [Detector.call_reader]. intros s2 E2 Ed2. pose proof (evolves_trans_l _ _ _ _ _ E1 E2) as E12.
    destruct (Detector.reportTagFailure _ _ d).2; [|by apply HQ].
    apply (wp_publish _ (Packet.reader_id hd)); [solve_live|].
    intros s3 E3 Ed3. apply HQ; [by eapply evolves_trans_l|done].
Qed.

(** The outcome for a frame the detector lets through. *)
Definition concluded (e : DecisionEngine) (v : PolicyView) (fr : FrameHandler.HandleResult) : outcome :=
  if negb (FrameHandler.allow fr) then denied (FrameHandler.reason fr)
  else
    match Payload.parseAccessRequestJson (string_of_bytes (FrameHandler.plaintext fr)) with
    | Ok req => policy_verdict e v (FrameHandler.hdr fr) req
    | _ => denied "bad_payload"
    end.

Lemma wp_conclude (e : DecisionEngine) (s : EState W) active fr
    (Q : DecisionResult -> EState W -> Prop) :
  let hd := FrameHandler.hdr fr in
  let o := concluded e (policy_of (h_ext (e_h s))) fr in
  (active = true -> is_Some (e_detector s)) -> (T -> live s) ->
  Packet.Header_ok hd -> cstr (FrameHandler.reason fr) = FrameHandler.reason fr ->
  (forall s', evolves (Packet.reader_id hd) (audited e hd o) s s' ->
     (active = true -> FrameHandler.allow fr = false -> FrameHandler.reason fr = "replay"%string ->
      in_quarantine s' (Packet.reader_id hd)) -> Q (o_result o) s') ->
  wp T (concludeFrame e active fr) s Q.
Proof.
  intros hd o Ha Hb Hh Hr HQ. subst o. unfold concludeFrame, concluded in *. fold hd in HQ |- *.
  destruct (FrameHandler.allow fr); cbn [negb] in *.
  - assert (forall s1, evolves (Packet.reader_id hd) [] s s1 ->
      wp T (match Payload.parseAccessRequestJson (string_of_bytes (FrameHandler.plaintext fr)) with
            | Ok request => checkAccessPolicy e fr request
            | Throw _ => deny e hd "bad_payload"
            | Fault => fault
            end) s1 Q) as Hrest.
    { intros s1 E1. assert (T -> live s1) as Hb1 by solve_live.
      destruct (Payload.parseAccessRequestJson _) as [req|ex|] eqn:Ep.
      - apply (wp_policy e s1 (Packet.reader_id hd)); [done|by eapply PayloadFacts.parse_card|done|].
        intros s2 E2. rewrite (ev_policy _ _ _ _ E1) in *. apply HQ; [|done].
        by eapply evolves_trans_l.
      - apply (wp_deny e s1 (Packet.reader_id hd)); [done..|]. intros s2 E2 _.
        apply HQ; [|done]. by eapply evolves_trans_l.
      - by apply PayloadFacts.parse_no_fault in Ep. }
    apply wp_bind. destruct active; [|apply wp_ret, Hrest, evolves_refl].
    destruct (Ha eq_refl) as [d Ed].
    apply (wp_on_detector _ s d (Detector.CallSuccess (Packet.reader_id hd) (Packet.seqno hd)));
      [done..|]. intros s1 E1 _. by apply Hrest.
  - apply wp_bind, wp_report; [done..|]. fold hd. intros s1 E1 Hq.
    assert (T -> live s1) as Hb1 by solve_live.
    apply (wp_deny e s1 (Packet.reader_id hd)); [done..|]. intros s2 E2 Ed.
    apply HQ; [by eapply evolves_trans_l|]. intros. eapply evolves_quarantine; eauto.
Qed.

(** The quarantine check reads the detector and changes nothing. *)
Definition quarantined_in (d : option Detector.ProtocolAnomalyDetector) (reader : Z) : bool :=
  match d with Some d => Detector.isQuarantined d reader | None => false end.

Lemma wp_quarantine (s : EState W) active reader (Q : bool -> EState W -> Prop) :
  (active = true -> is_Some (e_detector s)) ->
  Q (active && quarantined_in (e_detector s) reader) s ->
  wp T (if active then on_detector (fun d => (d, Detector.isQuarantined d reader)) else mret false)
    s Q.
Proof.
  intros Ha HQ. destruct active; [|done]. destruct (Ha eq_refl) as [d Ed].
  unfold wp, on_detector. rewrite Ed in *. cbn in HQ. destruct s; cbn in *. by subst.
Qed.

(** The three grounds of refusal, as the code tests them one by one. *)
Lemma detector_refuses_split (e : DecisionEngine) (s : EState W) hd :
  detector_refuses e (e_detector s) hd = detector_active s &&
    (quarantined_in (e_detector s) (Packet.reader_id hd) || rolled_back (e_detector s) hd ||
     (bool_decide (FrameHandler.nonceMode (_frameHandlerCfg e) = "deterministic"%string) &&
      negb (nonce_expected e hd))).
Proof.
  unfold detector_refuses, detector_active, rolled_back, quarantined_in. by destruct (e_detector s).
Qed.

Lemma evolves_detector r tr (s s' : EState W) :
  evolves r tr s s' -> is_Some (e_detector s) -> is_Some (e_detector s').
Proof.
  intros [_ _ _ Hd _] [d Ed]. rewrite Ed in Hd. destruct (e_detector s'); [by eexists|done].
Qed.

(** The detector and conclusion stages of a call. *)
Lemma wp_decide (e : DecisionEngine) (s : EState W) size fr (Q : DecisionResult -> EState W -> Prop) :
  let hd := FrameHandler.hdr fr in
  let refused := detector_refuses e (e_detector s) hd in
  let o := if refused then denied "quarantined"
           else concluded e (policy_of (h_ext (e_h s))) fr in
  (T -> live s) -> Packet.Header_ok hd -> cstr (FrameHandler.reason fr) = FrameHandler.reason fr ->
  (forall s', evolves (Packet.reader_id hd) (audited e hd o) s s' ->
     (refused = true \/
      detector_active s = true /\ FrameHandler.allow fr = false /\
      FrameHandler.reason fr = "replay"%string -> in_quarantine s' (Packet.reader_id hd)) ->
     Q (o_result o) s') ->
  wp T (decideFrame e size fr) s Q.
Proof.
  intros hd refused o Hb Hh Hr HQ. unfold decideFrame. fold hd. apply wp_bind.
  change (wp T get s) with (fun (P : EState W -> EState W -> Prop) => P s s). cbv beta.
  apply wp_bind, (wp_publish _ (Packet.reader_id hd)); [solve_live|]. intros s1 E1 Ed1.
  assert (T -> live s1) as Hb1 by solve_live.
  pose proof (detector_refuses_split e s hd) as Href. fold refused in Href.
  assert (detector_active s = true -> is_Some (e_detector s)) as Hact
    by (intros (d & -> & _)%detector_active_inv; eauto).
  (* a refusal, wherever it comes from *)
  assert (forall s2, evolves (Packet.reader_id hd) [] s s2 -> refused = true ->
    in_quarantine s2 (Packet.reader_id hd) -> wp T (deny_quarantined e fr) s2 Q) as Hrefuse.
  { intros s2 E2 Hrf Hin. apply wp_deny_quarantined; [done|solve_live|].
    intros s3 E3. subst o. rewrite Hrf in HQ. apply HQ; [by eapply evolves_trans_l|].
    intros _. by eapply evolves_quarantine. }
  apply wp_bind, wp_quarantine; [by rewrite Ed1|]. rewrite Ed1.
  destruct (detector_active s && quarantined_in _ _) eqn:Hq.
  { apply andb_prop in Hq as [Hq1 Hq2]. apply Hrefuse; [done|by rewrite Href, Hq1, Hq2|].
    unfold in_quarantine. rewrite Ed1. by destruct (e_detector s). }
  apply wp_bind, wp_rollback; [by rewrite Ed1|done|]. rewrite Ed1. intros s2 E2 Hin2.
  pose proof (evolves_trans_l _ _ _ _ _ E1 E2) as E12.
  assert (T -> live s2) as Hb2 by solve_live.
  destruct (detector_active s && rolled_back _ _) eqn:Hrb.
  { apply andb_prop in Hrb as [Hq1 Hq2].
    apply Hrefuse; [done|by rewrite Href, Hq1, Hq2, orb_true_r|by apply Hin2]. }
  apply wp_bind, wp_nonce; [by intros Ha; eapply evolves_detector; eauto|done..|].
  intros s3 E3 Hin3. pose proof (evolves_trans_l _ _ _ _ _ E12 E3) as E13.
  assert (T -> live s3) as Hb3 by solve_live.
  destruct (detector_active s && (bool_decide _ && _)) eqn:Hn.
  { apply andb_prop in Hn as [Hq1 Hq2].
    apply Hrefuse; [done|by rewrite Href, Hq1, Hq2, orb_true_r|by apply Hin3]. }
  assert (refused = false) as Hrf.
  { rewrite Href. destruct (detector_active s); [|done]. cbn [andb] in *. by rewrite Hq, Hrb, Hn. }
  subst o. rewrite Hrf in HQ.
  apply wp_bind, (wp_publish _ (Packet.reader_id hd)); [solve_live|]. intros s4 E4 Ed4.
  pose proof (evolves_trans_l _ _ _ _ _ E13 E4) as E14.
  apply wp_conclude;
    [by intros Ha; eapply evolves_detector; eauto|solve_live|done..|].
  fold hd. rewrite (ev_policy _ _ _ _ E14). intros s5 E5 Hin5.
  apply HQ; [by eapply evolves_trans_l|]. intros [?|(? & ? & ?)]; [done|by apply Hin5].
Qed.

(** What the frame handler says of the bytes, in the state [s]. *)
Definition frame_result (e : DecisionEngine) (s : EState W) (b : bytes) : FrameHandler.HandleResult :=
  HandlerSpec.verdict (handler_of e) (policy_of (h_ext (e_h s)))
    (HandlerSpec.window_of (handler_of e) (e_h s)) (u64 (clock (S (h_ticks (e_h s))))) b.

(** The decision the specification gives in the state [s]. *)
Definition decision (e : DecisionEngine) (s : EState W) (b : bytes) : outcome :=
  engine_verdict e (policy_of (h_ext (e_h s))) (HandlerSpec.window_of (handler_of e) (e_h s))
    (e_detector s) (u64 (clock (S (h_ticks (e_h s))))) b.

(** The state after a call. *)
Record after_call (e : DecisionEngine) (b : bytes) (s s' : EState W) : Prop := {
  ac_policy : policy_of (h_ext (e_h s')) = policy_of (h_ext (e_h s));
  ac_trail : trail_of (h_ext (e_h s')) =
    trail_of (h_ext (e_h s)) ++ audited e (FrameHandler.hdr (frame_result e s b)) (decision e s b);
  ac_windows : HandlerSpec.windows_after (handler_of e) (e_h s) (e_h s') (frame_result e s b);
  ac_detector : detector_evolves (Packet.reader_id (FrameHandler.hdr (frame_result e s b)))
    (e_detector s) (e_detector s');
  ac_quarantine :
    detector_refuses e (e_detector s) (FrameHandler.hdr (frame_result e s b)) = true \/
    detector_active s = true /\ FrameHandler.allow (frame_result e s b) = false /\
      FrameHandler.reason (frame_result e s b) = "replay"%string ->
    in_quarantine s' (Packet.reader_id (FrameHandler.hdr (frame_result e s b)));
}.

Lemma frame_reason_text (e : DecisionEngine) (s : EState W) b :
  cstr (FrameHandler.reason (frame_result e s b)) = FrameHandler.reason (frame_result e s b).
Proof.
  destruct (FrameHandler.allow (frame_result e s b)) eqn:Ha.
  - apply HandlerFacts.verdict_allow in Ha as (f & pt & _ & _ & E).
    unfold frame_result. by rewrite E.
  - destruct (HandlerFacts.verdict_codes _ _ _ _ _ _ eq_refl Ha) as [Hin _].
    fold (frame_result e s b) in Hin. revert Hin.
    generalize (FrameHandler.reason (frame_result e s b)). intros c Hin.
    refine (proj1 (Forall_forall (fun c => cstr c = c) _) _ c Hin). by_decision.
Qed.

Lemma wp_engine (e : DecisionEngine) (b : bytes) (s : EState W) :
  HandlerFacts.config_ok (_frameHandlerCfg e) -> ParserFacts.span_ok b -> (T -> live s) ->
  wp T (handleFrameBytes e b) s (fun r s' =>
    r = o_result (decision e s b) /\ after_call e b s s').
Proof.
  intros Hc Hb Hbus. unfold handleFrameBytes. apply wp_bind.
  unfold on_h. apply wp_zoom. set (h := handler_of e).
  apply wp_intro; [|intros Ht%T_store; by apply HandlerFacts.handle_returns].
  intros h1 fr Eh. pose proof (HandlerTrail.handle_keeps h b (e_h s) I) as (_ & [Htr Hrd] & _). rewrite Eh in Htr, Hrd.
  destruct (HandlerFacts.handle_inv h b (e_h s) h1 fr Hc Hb Eh) as (Hfr & Hw & Hp).
  change (fr = frame_result e s b) in Hfr. subst fr. clear Eh.
  apply wp_decide; [intros Ht; by destruct (Hbus Ht); split; [|apply Hrd]| |apply frame_reason_text|].
  { by apply HandlerFacts.verdict_header. }
  intros s' [E1 E2 E3 E4 E5 _] Hq. cbn in E1, E2, E3, E4, E5, Htr |- *.
  rewrite Hp, Htr in *. split; [done|]. split; try done.
  intros q. etransitivity; [|exact (Hw q)]. unfold HandlerSpec.window_of. by rewrite E1.
Qed.

End EngineFacts.
#[export] Hint Resolve evolves_bus_live live_bus evolves_live : live.
End EngineFacts.

(** ** Properties of the decision engine *)

Module EngineProps.
Import Engine EngineSpec EngineFacts ToySodium ToyJson ToyStore HandlerProps.

Section Consequences.
Context `{SodiumLaws, Env, Json} {W : Type}.
Context `{AccessStoreSpec W, !IAuditLog W, !AuditLogSpec W, !StoreAuditSpec W}.

(** A call that returned gave the decision of the specification. *)
Lemma engine_returned (e : DecisionEngine) (b : bytes) (s s' : EState W) (r : DecisionResult) :
  HandlerFacts.config_ok (_frameHandlerCfg e) -> ParserFacts.span_ok b ->
  handleFrameBytes e b s = (s', Ok r) ->
  r = o_result (decision e s b) /\ after_call e b s s'.
Proof.
  intros Hc Hb E.
  exact (wp_ok False _ s s' r _
    (wp_engine False (False_ind _) (False_ind _) e b s Hc Hb (False_ind _)) E).
Qed.

(** The stages a granted request went through. *)
Record granted (e : DecisionEngine) (s : EState W) (b : bytes) (f : Frame.Frame)
    (req : Payload.AccessRequest) : Prop := {
  gr_parsed : FrameParser.parseFrame b (FrameHandler.maxCtLen (_frameHandlerCfg e)) = Ok f;
  gr_accepted : exists pt,
    HandlerFacts.accepted (handler_of e) (policy_of (h_ext (e_h s)))
      (HandlerSpec.window_of (handler_of e) (e_h s)) (u64 (clock (S (h_ticks (e_h s))))) f pt /\
    Payload.parseAccessRequestJson (string_of_bytes pt) = Ok req;
  gr_action : Payload.action req = "open"%string;
  gr_role : exists kv role,
    kv ∈ pepper_versions (_frameHandlerCfg e)
      (view_key_version (policy_of (h_ext (e_h s))) (Packet.reader_id (Frame.header f))) /\
    view_role (policy_of (h_ext (e_h s))) (card_hash (_keyManager e) kv (Payload.cardId req)) = Some role /\
    view_allowed (policy_of (h_ext (e_h s))) (Packet.door_id (Frame.header f)) role = true;
  gr_detector : detector_refuses e (e_detector s) (Frame.header f) = false;
}.

(** The header of a result is the frame's. *)
Lemma frame_result_header (e : DecisionEngine) (s : EState W) (b : bytes) :
  ParserFacts.span_ok b ->
  FrameHandler.hdr (frame_result e s b) =
    match FrameParser.parseFrame b (FrameHandler.maxCtLen (_frameHandlerCfg e)) with
    | Ok f => Frame.header f
    | _ => Packet.Header_default
    end.
Proof.
  intros Hb. unfold frame_result, HandlerSpec.verdict.
  rewrite WireSpec.parseFrame_spec by done. cbn [handler_of FrameHandler._config].
  destruct (WireSpec.parse_spec _ _) as [f|[]|]; try done. by destruct (HandlerSpec.first_error _).
Qed.

Lemma find_role_Some roles hashes c role :
  find_role roles hashes = Some (c, role) -> c ∈ hashes /\ roles c = Some role.
Proof.
  induction hashes as [|c' hashes IH]; [done|]. cbn. destruct (roles c') eqn:E.
  - intros [= <- <-]. split; [left|done].
  - intros [? ?]%IH. split; [by right|done].
Qed.

Lemma policy_verdict_grants e v hd req :
  allow (o_result (policy_verdict e v hd req)) = true ->
  Payload.action req = "open"%string /\
  exists kv role, kv ∈ pepper_versions (_frameHandlerCfg e) (view_key_version v (Packet.reader_id hd)) /\
    view_role v (card_hash (_keyManager e) kv (Payload.cardId req)) = Some role /\
    view_allowed v (Packet.door_id hd) role = true.
Proof.
  unfold policy_verdict. case_decide as Ha; [done|]. destruct (_store e); [|done]. cbn [negb].
  case_decide; [done|]. destruct (find_role _ _) as [[c role]|] eqn:Ef; [|done].
  apply find_role_Some in Ef as [Hin Hr]. apply list_elem_of_fmap in Hin as (kv & -> & Hkv).
  destruct (view_allowed _ _ role) eqn:Hal; [|done]. intros _. split; [done|]. by exists kv, role.
Qed.

Lemma decision_grants (e : DecisionEngine) (s : EState W) (b : bytes) :
  ParserFacts.span_ok b -> allow (o_result (decision e s b)) = true ->
  exists f req, granted e s b f req.
Proof.
  intros Hb. unfold decision, engine_verdict. fold (frame_result e s b).
  destruct (detector_refuses _ _ _) eqn:Hd; [done|].
  destruct (FrameHandler.allow (frame_result e s b)) eqn:Ha; [|done]. cbn [negb].
  apply HandlerFacts.verdict_allow in Ha as (f & pt & Hp & Hacc & Hfr).
  change (frame_result e s b = FrameHandler.mkHandleResult true "ok" pt (Frame.header f)) in Hfr.
  rewrite Hfr in *. cbn [FrameHandler.plaintext FrameHandler.hdr] in *.
  destruct (Payload.parseAccessRequestJson _) as [req| |] eqn:Ep; [|done..].
  intros (Hact & Hrole)%policy_verdict_grants. exists f, req. split; try done.
  - by rewrite WireSpec.parseFrame_spec.
  - by exists pt.
Qed.

Lemma decision_allow (e : DecisionEngine) (s : EState W) (b : bytes) :
  allow (o_result (decision e s b)) = true ->
  detector_refuses e (e_detector s) (FrameHandler.hdr (frame_result e s b)) = false /\
  FrameHandler.allow (frame_result e s b) = true.
Proof.
  unfold decision, engine_verdict. fold (frame_result e s b).
  destruct (detector_refuses _ _ _); [done|]. by destruct (FrameHandler.allow (frame_result e s b)).
Qed.

Lemma detector_active_same (e : DecisionEngine) (b : bytes) (s s' : EState W) :
  after_call e b s s' -> detector_active s' = detector_active s.
Proof.
  intros A. pose proof (ac_detector _ _ _ _ A) as Hd. unfold detector_active.
  destruct (e_detector s) as [d|], (e_detector s') as [d'|]; try done.
  apply detector_evolves_keeps in Hd as (-> & _). done.
Qed.

(** What was granted is granted again in a state with the same policy, no
    memory of sequence numbers, and a detector with nothing against it, if time
    stamps are not checked. *)
Lemma decision_again (e : DecisionEngine) (s s2 : EState W) (b : bytes) :
  FrameHandler.maxSkewMs (_frameHandlerCfg e) = 0 ->
  policy_of (h_ext (e_h s2)) = policy_of (h_ext (e_h s)) ->
  (forall q n, ReplayWindow.contains (HandlerSpec.window_of (handler_of e) (e_h s2) q) n = false) ->
  (forall hd, detector_refuses e (e_detector s) hd = false ->
     detector_refuses e (e_detector s2) hd = false) ->
  allow (o_result (decision e s b)) = true -> decision e s2 b = decision e s b.
Proof.
  intros Hs Hp Hw Hd Ha. pose proof (decision_allow _ _ _ Ha) as [Hr Hf].
  apply HandlerFacts.verdict_allow in Hf as (f & pt & Epf & Hacc & Hfr).
  change (frame_result e s b = FrameHandler.mkHandleResult true "ok" pt (Frame.header f)) in Hfr.
  assert (frame_result e s2 b = frame_result e s b) as E.
  { rewrite Hfr. unfold frame_result, HandlerSpec.verdict. rewrite Epf.
    assert (HandlerFacts.accepted (handler_of e) (policy_of (h_ext (e_h s2)))
      (HandlerSpec.window_of (handler_of e) (e_h s2)) (u64 (clock (S (h_ticks (e_h s2))))) f pt) as Hacc2.
    { rewrite Hp. by destruct Hacc. }
    rewrite (proj2 (HandlerFacts.checks_accepted _ _ _ _ _)) by eauto.
    by rewrite (HandlerFacts.acc_opened _ _ _ _ _ _ Hacc). }
  unfold decision, engine_verdict. fold (frame_result e s b) (frame_result e s2 b).
  rewrite E, Hp, Hr. by rewrite Hd.
Qed.

(** A detector that has just been made has nothing against a frame but its
    nonce. *)
Lemma fresh_detector_refuses (e : DecisionEngine) d hd :
  detector_refuses e (Some d) hd = false ->
  detector_refuses e (Some (Detector.Detector_new (Detector._config d))) hd = false.
Proof.
  unfold detector_refuses. cbn [Detector.Detector_new Detector._config].
  destruct (Detector.enabled _); [|done]. cbn [andb]. rewrite orb_false_iff. intros [_ ->].
  rewrite orb_false_r, orb_false_iff. split; [done|].
  apply bool_decide_eq_false. intros [_ [a Ea]]. unfold Detector.reportSeq, Detector.getState in Ea.
  cbn [Detector._readers Detector.Detector_new] in Ea. rewrite lookup_empty in Ea.
  cbn [default Detector.maxSeenSeq Detector.ReaderState_default] in Ea.
  rewrite decide_False in Ea by lia. by case_decide.
Qed.

End Consequences.

(** Reader 1 asks to open door 2 with card 04A1, as its hardware would. *)
Definition test_header : Packet.Header :=
  let h := Packet.mkHeader 1 2 1234 42 2 (replicate 24 0) in
  Packet.mkHeader 1 2 1234 42 2
    (take 24 (HMAC (KeySpec.key_for KeyProps.test_km (KeySpec.ForNonce 1 2)) (Packet.to_bytes h))).

Definition test_request : bytes :=
  Frame.serialize (sealed_frame test_header
    (bytes_of_string (ToyJson.encode [("card_id", "04A1"); ("action", "open")]%string))).

Definition test_engine : DecisionEngine :=
  mkDecisionEngine true true KeyProps.test_km FrameHandler.FrameHandlerConfig_default.

Definition test_detector : Detector.ProtocolAnomalyDetector :=
  Detector.Detector_new (Detector.mkDetectorConfig true 100 5).

Definition test_world : EState world :=
  mkEState test_state (Some test_detector) (Some (EventBus.EventBus_new 4)).

Definition granted_result : DecisionResult := mkDecisionResult true "ok".

Example test_granted : (handleFrameBytes test_engine test_request test_world).2 = Ok granted_result.
Proof. vm_compute. reflexivity. Qed.

Definition world_after : EState world := (handleFrameBytes test_engine test_request test_world).1.

(** A call is its final state and its result. *)
Lemma run_of {S A} (m : M S A) s r : (m s).2 = r -> m s = ((m s).1, r).
Proof. intros <-. apply surjective_pairing. Qed.

Lemma test_run : handleFrameBytes test_engine test_request test_world = (world_after, Ok granted_result).
Proof. exact (run_of _ _ _ test_granted). Qed.

Lemma test_config : HandlerFacts.config_ok (_frameHandlerCfg test_engine).
Proof. exact test_config_ok. Qed.

(** C1: the engine implements its specification. With a store and a log that
    return (the log being ready for an entry) and an event bus that can hold an
    event, [handleFrameBytes] returns
    on every input, with the decision of [engine_verdict] (the detector's three
    grounds of refusal, then the frame handler's table, then the payload, then
    the policy); the policy is not touched, the trail gains the entry of that
    decision and no other, the windows are the frame handler's, the detector
    moves by transitions about this one reader none of which lifts a
    quarantine, and a reader refused by the detector, or caught replaying, is
    in quarantine afterwards. *)
Theorem engine_refines_decision `{SodiumLaws, Env, Json} {W : Type}
    `{AccessStoreSpec W, !IAuditLog W, !AuditLogSpec W, !StoreAuditSpec W, !StoreReturns W, !AuditReturns W}
    (e : DecisionEngine) (b : bytes) (s : EState W) :
  HandlerFacts.config_ok (_frameHandlerCfg e) -> ParserFacts.span_ok b -> live s ->
  exists s', handleFrameBytes e b s = (s', Ok (o_result (decision e s b))) /\ after_call e b s s'.
Proof.
  intros Hc Hb Hbus.
  destruct (wp_returns True _ s _
    (wp_engine True (fun _ => _) (fun _ => _) e b s Hc Hb (fun _ => Hbus)) I) as (s' & r & E & -> & Ha).
  by exists s'.
Qed.

Lemma engine_refines_decision_witness :
  exists s', handleFrameBytes test_engine test_request test_world
    = (s', Ok (o_result (decision test_engine test_world test_request))) /\
    after_call test_engine test_request test_world s'.
Proof.
  apply (engine_refines_decision test_engine test_request test_world);
    [exact test_config | by_decision | split; [cbn; lia | done]].
Defined.

(** C7: complete mediation. The engine grants only a request whose frame
    passed every check of the frame handler, whose decrypted payload is a
    well-formed request to open, whose card has a role under the current pepper
    (or the previous one, in rotation), whose role is allowed at the door named
    in the authenticated header, and to which an active detector had no
    objection: the reader not in quarantine, no rollback, the expected nonce. *)
Theorem grant_is_mediated `{SodiumLaws, Env, Json} {W : Type}
    `{AccessStoreSpec W, !IAuditLog W, !AuditLogSpec W, !StoreAuditSpec W}
    (e : DecisionEngine) (b : bytes) (s s' : EState W) (r : DecisionResult) :
  HandlerFacts.config_ok (_frameHandlerCfg e) -> ParserFacts.span_ok b ->
  handleFrameBytes e b s = (s', Ok r) -> allow r = true ->
  exists f req, granted e s b f req.
Proof.
  intros Hc Hb E Ha. destruct (engine_returned e b s s' r Hc Hb E) as [-> _].
  by apply decision_grants.
Qed.

Lemma grant_is_mediated_witness :
  exists f req, granted test_engine test_world test_request f req.
Proof.
  apply (grant_is_mediated test_engine test_request test_world world_after granted_result);
    [exact test_config | by_decision | exact test_run | reflexivity].
Defined.

(** C11: accountability. Every call that returns has added exactly one entry to
    the audit trail; its verdict and reason are those returned, its reader,
    door, time stamp and sequence number those of the frame (zero when the
    frame did not parse), and earlier entries are untouched. *)
Theorem one_audit_entry_per_decision `{SodiumLaws, Env, Json} {W : Type}
    `{AccessStoreSpec W, !IAuditLog W, !AuditLogSpec W, !StoreAuditSpec W}
    (e : DecisionEngine) (b : bytes) (s s' : EState W) (r : DecisionResult) :
  HandlerFacts.config_ok (_frameHandlerCfg e) -> ParserFacts.span_ok b -> _audit e = true ->
  handleFrameBytes e b s = (s', Ok r) ->
  exists card act,
    let hd := match FrameParser.parseFrame b (FrameHandler.maxCtLen (_frameHandlerCfg e)) with
              | Ok f => Frame.header f | _ => Packet.Header_default end in
    trail_of (h_ext (e_h s')) =
      trail_of (h_ext (e_h s)) ++ [audit_event hd (allow r) (reason r) card act].
Proof.
  intros Hc Hb Hau E. destruct (engine_returned e b s s' r Hc Hb E) as [-> Ha].
  exists (o_card (decision e s b)), (o_action (decision e s b)). cbv zeta.
  rewrite (ac_trail _ _ _ _ Ha). unfold audited. rewrite Hau.
  by rewrite <- (frame_result_header e s b Hb).
Qed.

Lemma one_audit_entry_per_decision_witness :
  exists card act,
    trail_of (h_ext (e_h world_after)) =
      trail_of (h_ext (e_h test_world)) ++ [audit_event test_header true "ok" card act].
Proof.
  exact (one_audit_entry_per_decision test_engine test_request test_world world_after granted_result
    test_config ltac:(by_decision) eq_refl test_run).
Defined.

(** A granted request is granted once. Submitting its bytes again, right
    after, is denied: with [replay], or by the detector with [quarantined]; and
    with an active detector the reader ends in quarantine either way. *)
Theorem grant_is_not_replayable `{SodiumLaws, Env, Json} {W : Type}
    `{AccessStoreSpec W, !IAuditLog W, !AuditLogSpec W, !StoreAuditSpec W}
    (e : DecisionEngine) (b : bytes) (s s1 s2 : EState W) (r1 r2 : DecisionResult) :
  HandlerFacts.config_ok (_frameHandlerCfg e) -> ParserFacts.span_ok b ->
  FrameHandler.antiReplayEnabled (_frameHandlerCfg e) = true ->
  HandlerFacts.windows_ok (handler_of e) (e_h s) ->
  handleFrameBytes e b s = (s1, Ok r1) -> allow r1 = true ->
  handleFrameBytes e b s1 = (s2, Ok r2) ->
  allow r2 = false /\ reason r2 ∈ ["replay"; "quarantined"]%string /\
  (detector_active s = true ->
   in_quarantine s2 (Packet.reader_id (FrameHandler.hdr (frame_result e s b)))).
Proof.
  intros Hc Hb Har Hw E1 Ha1 E2.
  destruct (engine_returned e b s s1 r1 Hc Hb E1) as [-> A1].
  destruct (engine_returned e b s1 s2 r2 Hc Hb E2) as [-> A2].
  apply decision_allow in Ha1 as [Hd1 Ha1].
  assert (frame_result e s1 b =
    FrameHandler.makeError "replay" (FrameHandler.hdr (frame_result e s b))) as Hrep.
  { unfold frame_result at 1. rewrite (ac_policy _ _ _ _ A1).
    apply (HandlerFacts.verdict_replay (handler_of e) b _ _ _ (e_h s) (e_h s1) Hb Har Hw); [|done].
    apply (ac_windows _ _ _ _ A1). }
  pose proof (ac_quarantine _ _ _ _ A2) as Hq.
  unfold decision, engine_verdict. fold (frame_result e s1 b). rewrite Hrep in Hq |- *.
  cbn [FrameHandler.allow FrameHandler.reason FrameHandler.hdr FrameHandler.makeError negb] in *.
  rewrite (detector_active_same _ _ _ _ A1) in Hq.
  destruct (detector_refuses e (e_detector s1) (FrameHandler.hdr (frame_result e s b)));
    (split; [done|]; split; [set_solver|]); intros Hact;
    apply Hq; [by left|by right].
Qed.

Definition replayed_result : DecisionResult := createDeniedResult "replay".

Lemma grant_is_not_replayable_witness : reason replayed_result ∈ ["replay"; "quarantined"]%string.
Proof.
  exact (proj1 (proj2 (grant_is_not_replayable test_engine test_request test_world world_after
    (handleFrameBytes test_engine test_request world_after).1 granted_result replayed_result
    test_config ltac:(by_decision) eq_refl
    (HandlerFacts.windows_ok_new test_handler _ _ test_config_ok)
    test_run eq_refl (run_of _ _ _ ltac:(vm_compute; reflexivity))))).
Defined.

(** Quarantine. Whatever bytes arrive with a quarantined reader's
    identifier, valid or not, the active detector's denial is returned,
    [quarantined]; the reader stays in quarantine, and the engine leaves every
    other reader's detector state as it was. *)
Theorem quarantined_reader_denied `{SodiumLaws, Env, Json} {W : Type}
    `{AccessStoreSpec W, !IAuditLog W, !AuditLogSpec W, !StoreAuditSpec W}
    (e : DecisionEngine) (b : bytes) (s s' : EState W) (r : DecisionResult)
    (d : Detector.ProtocolAnomalyDetector) :
  HandlerFacts.config_ok (_frameHandlerCfg e) -> ParserFacts.span_ok b ->
  e_detector s = Some d -> Detector.enabled (Detector._config d) = true ->
  let reader := Packet.reader_id (FrameHandler.hdr (frame_result e s b)) in
  Detector.isQuarantined d reader = true ->
  handleFrameBytes e b s = (s', Ok r) ->
  r = createDeniedResult "quarantined" /\
  exists d', e_detector s' = Some d' /\ Detector.isQuarantined d' reader = true /\
    forall q, q <> reader -> Detector.getState d' q = Detector.getState d q.
Proof.
  intros Hc Hb Ed Hen reader Hq E.
  destruct (engine_returned e b s s' r Hc Hb E) as [-> A].
  assert (detector_refuses e (e_detector s) (FrameHandler.hdr (frame_result e s b)) = true) as Hr
    by (rewrite Ed; unfold detector_refuses; fold reader; by rewrite Hen, Hq).
  split; [unfold decision, engine_verdict; fold (frame_result e s b); by rewrite Hr|].
  pose proof (ac_detector _ _ _ _ A) as Hd. rewrite Ed in Hd.
  destruct (e_detector s') as [d'|]; [|done].
  apply detector_evolves_keeps in Hd as (_ & Hk & Ho). exists d'. auto.
Qed.

Definition locked_world : EState world :=
  mkEState test_state (Some (Detector.run_call (Detector.CallNonceMismatch 1 5) test_detector)) None.

Lemma quarantined_reader_denied_witness :
  createDeniedResult "quarantined" = createDeniedResult "quarantined" /\
  exists d', e_detector (handleFrameBytes test_engine test_request locked_world).1 = Some d' /\
    Detector.isQuarantined d' 1 = true /\
    forall q, q <> 1 -> Detector.getState d' q
      = Detector.getState (Detector.run_call (Detector.CallNonceMismatch 1 5) test_detector) q.
Proof.
  exact (quarantined_reader_denied test_engine test_request locked_world
    (handleFrameBytes test_engine test_request locked_world).1 (createDeniedResult "quarantined")
    (Detector.run_call (Detector.CallNonceMismatch 1 5) test_detector)
    test_config ltac:(by_decision) eq_refl eq_refl ltac:(vm_compute; reflexivity)
    (run_of _ _ _ ltac:(vm_compute; reflexivity))).
Defined.

(** Junk bytes lock out reader 0. With an active detector and
    deterministic nonces, bytes that are not a frame at all are answered
    [quarantined], not with a parse error, and put reader 0 in quarantine: the
    default header is checked as if it had been received. (The hypothesis on
    the nonce fails only if the first bytes of an HMAC output are all zero.) *)
Theorem junk_quarantines_reader_zero `{SodiumLaws, Env, Json} {W : Type}
    `{AccessStoreSpec W, !IAuditLog W, !AuditLogSpec W, !StoreAuditSpec W}
    (e : DecisionEngine) (b : bytes) (s s' : EState W) (r : DecisionResult)
    (d : Detector.ProtocolAnomalyDetector) (err : exn) :
  HandlerFacts.config_ok (_frameHandlerCfg e) -> ParserFacts.span_ok b ->
  e_detector s = Some d -> Detector.enabled (Detector._config d) = true ->
  FrameHandler.nonceMode (_frameHandlerCfg e) = "deterministic"%string ->
  nonce_expected e Packet.Header_default = false ->
  FrameParser.parseFrame b (FrameHandler.maxCtLen (_frameHandlerCfg e)) = Throw err ->
  handleFrameBytes e b s = (s', Ok r) ->
  r = createDeniedResult "quarantined" /\ in_quarantine s' 0.
Proof.
  intros Hc Hb Ed Hen Hm Hn Hp E.
  destruct (engine_returned e b s s' r Hc Hb E) as [-> A].
  pose proof (frame_result_header e s b Hb) as Hh. rewrite Hp in Hh.
  assert (detector_refuses e (e_detector s) (FrameHandler.hdr (frame_result e s b)) = true) as Hr.
  { rewrite Ed, Hh. unfold detector_refuses.
    rewrite Hen, Hn, (bool_decide_true (FrameHandler.nonceMode _ = _)) by done.
    by rewrite orb_true_r. }
  split; [unfold decision, engine_verdict; fold (frame_result e s b); by rewrite Hr|].
  pose proof (ac_quarantine _ _ _ _ A (or_introl Hr)) as Hq. by rewrite Hh in Hq.
Qed.

Lemma junk_quarantines_reader_zero_witness :
  createDeniedResult "quarantined" = createDeniedResult "quarantined" /\
  in_quarantine (handleFrameBytes test_engine [1; 2; 3] test_world).1 0.
Proof.
  apply (junk_quarantines_reader_zero test_engine [1; 2; 3] test_world _
    (createDeniedResult "quarantined") test_detector (runtime_error "frame: too small"));
    first [exact test_config | by_decision | vm_compute; reflexivity].
Defined.

End EngineProps.
