(* ===== verification/Overlap.v ===== *)
(** Overlapping calls of the engine. The services call it under the mutex [m]
    (access_service.cpp, hw_service.cpp), the decision endpoint under
    [engineMutex] (main.cpp), on the same objects: two calls of one server exclude
    each other, two calls of different servers do not. What that means, at the
    granularity of the replay check, the decryption and the decision. *)
From Stdlib Require Import ZArith Lia.
From stdpp Require Import base option list gmap strings relations.
From S2P Require Import Prelude LittleEndian Wire Replay Crypto Keys Events Detector Access FrameHandling Engine.
Local Open Scope Z_scope.

Module Overlap.
Import FrameHandler.

Section Overlap.
Context `{Sodium, Env} {W : Type} `{IAccessStore W} (h : FrameHandler) (frameBytes : bytes).

(** [handle] up to the replay check: the frame and the window, or the error. *)
Definition begin_frame : M (HState W) (Frame.Frame * option Z + HandleResult) :=
  parseResult ← parseFrame h frameBytes;
  match parseResult with
  | inr err => mret (inr err)
  | inl frame =>
      '(err, currentKeyVersion) ← validateReader h frame;
      match err with
      | Some e => mret (inr e)
      | None =>
          match validateKeyVersion h frame currentKeyVersion with
          | Some e => mret (inr e)
          | None =>
              '(err, window) ← checkReplay h frame;
              match err with
              | Some e => mret (inr e)
              | None => mret (inl (frame, window))
              end
          end
      end
  end.

(** The rest of it. *)
Definition finish_frame (x : Frame.Frame * option Z + HandleResult) : M (HState W) HandleResult :=
  match x with
  | inl (frame, window) => tryDecrypt h frame window
  | inr err => mret err
  end.

End Overlap.

(** *** Two servers, two mutexes *)

Inductive server := Services | DecisionEndpoint.

(** How far the call of a thread has come. *)
Inductive progress :=
| Waiting
| Checked (x : Frame.Frame * option Z + HandleResult)
| Decrypted (r : HandleResult)
| Finished (r : res Engine.DecisionResult).

(** A thread: its server, the bytes it was sent, its progress. *)
Record thread := mkThread { origin : server; frameBytes : bytes; progress_of : progress }.

Definition set_progress (p : progress) (t : thread) : thread := mkThread (origin t) (frameBytes t) p.

(** In the call, with the mutex of its server. *)
Definition inside (t : thread) : bool :=
  match progress_of t with Checked _ | Decrypted _ => true | _ => false end.

Definition mutex_free (k : server) (ts : list thread) : Prop :=
  Forall (fun t => origin t = k -> inside t = false) ts.

Section Threads.
Context `{Sodium, Env, Json} {W : Type} `{IAccessStore W, !IAuditLog W} (e : Engine.DecisionEngine).
Import Engine.

(** The next part of a call. *)
Definition run_part (b : bytes) (p : progress) : M (EState W) progress :=
  match p with
  | Waiting => x ← on_h (begin_frame (handler_of e) b); mret (Checked x)
  | Checked x => r ← on_h (finish_frame (handler_of e) x); mret (Decrypted r)
  | Decrypted r => d ← decideFrame e (length b) r; mret (Finished (Ok d))
  | Finished r => mret (Finished r)
  end.

(** An exception ends the call. *)
Definition settle (r : res progress) : progress :=
  match r with Ok p => p | Throw ex => Finished (Throw ex) | Fault => Finished Fault end.

Definition config : Type := EState W * list thread.

Definition unfinished (t : thread) : Prop :=
  match progress_of t with Finished _ => False | _ => True end.

(** A thread goes on; to begin, the mutex of its server must be free. *)
Inductive step : config -> config -> Prop :=
| step_part i t s s' r ts :
    ts !! i = Some t -> unfinished t ->
    (progress_of t = Waiting -> mutex_free (origin t) ts) ->
    run_part (frameBytes t) (progress_of t) s = (s', r) ->
    step (s, ts) (s', <[i := set_progress (settle r) t]> ts).

(** Whole calls, one after the other. *)
Inductive call_step : config -> config -> Prop :=
| step_call i t s s' r ts :
    ts !! i = Some t -> progress_of t = Waiting ->
    handleFrameBytes e (frameBytes t) s = (s', r) ->
    call_step (s, ts) (s', <[i := set_progress (Finished r) t]> ts).

Definition granted (t : thread) : bool :=
  match progress_of t with Finished (Ok d) => allow d | _ => false end.

Definition grants (ts : list thread) : nat := length (filter (fun t => granted t = true) ts).

End Threads.
End Overlap.

(** ** What the calls of one server are meant to be *)

Module OverlapSpec.
Import Engine EngineSpec EngineFacts Overlap.

Section OverlapSpec.
Context `{SodiumLaws, Env, Json} {W : Type}.
Context `{AccessStoreSpec W, !IAuditLog W, !AuditLogSpec W, !StoreAuditSpec W} (e : DecisionEngine).

(** One thread after the other is given the verdict of the specification on its
    bytes, in the state the thread before left, with what that verdict does to
    policy, trail, windows and detector; or its call throws. *)
Inductive verdict_step : config -> config -> Prop :=
| verdict_given i t s s' ts :
    ts !! i = Some t -> progress_of t = Waiting -> after_call e (frameBytes t) s s' ->
    verdict_step (s, ts)
      (s', <[i := set_progress (Finished (Ok (o_result (decision e s (frameBytes t))))) t]> ts)
| verdict_failed i t s s' r ts :
    ts !! i = Some t -> progress_of t = Waiting -> (forall d, r <> Ok d) ->
    handleFrameBytes e (frameBytes t) s = (s', r) ->
    verdict_step (s, ts) (s', <[i := set_progress (Finished r) t]> ts).

End OverlapSpec.
End OverlapSpec.

(** ** Lemmas *)

Module OverlapFacts.
Import FrameHandler HandlerSpec HandlerFacts Overlap.

Section Parts.
Context `{SodiumLaws, Env} {W : Type} `{IAccessStore W}.
Context (h : FrameHandler) (b : bytes).

(** The two parts are the call. *)
Lemma handle_split (s : HState W) : handle h b s = (x ← begin_frame h b; finish_frame h x) s.
Proof.
  unfold handle, begin_frame. cbv [mbind M_bind mret M_ret].
  destruct (parseFrame h b s) as [s1 [[f|e]|e|]]; [|done..].
  destruct (validateReader h f s1) as [s2 [[[e|] kv]|e|]]; [done| |done..].
  destruct (validateKeyVersion h f kv); [done|].
  by destruct (checkReplay h f s2) as [s3 [[[e|] w]|e|]].
Qed.

(** The reader checks leave the windows alone, whatever the store does. *)
Definition kept_windows (s s' : HState W) : Prop := h_windows s' = h_windows s.

#[local] Instance kept_windows_preorder : PreOrder kept_windows.
Proof. split; [done|]. intros s1 s2 s3. unfold kept_windows. congruence. Qed.

Lemma reader_windows f :
  keeps (fun _ : HState W => True) kept_windows (validateReader h f)
    (fun x => forall err, x.1 = Some err -> allow err = false).
Proof.
  assert (forall A (m : M W A), always (fun _ : HState W => True) kept_windows (on_ext m)) as Hx
    by (intros A m s' _; unfold on_ext, zoom; by destruct (m _)).
  unfold validateReader. destruct (negb _); [apply keeps_ret; [apply _|]; by intros ? [= <-]|].
  apply always_bind; [apply _|apply Hx|]. intros kv.
  case_decide; [apply keeps_ret; [apply _|]; by intros ? [= <-]|].
  destruct (enforceReaderDoorBinding _); [|by apply keeps_ret; [apply _|]].
  apply always_bind; [apply _|apply Hx|]. intros ok.
  destruct (negb ok); apply keeps_ret; try apply _; [|done]. by intros ? [= <-].
Qed.

(** What a call does to the windows, whatever the store answers or throws: a
    number is added when the frame is accepted, and then the window did not have
    it. *)
Lemma handle_windows (s s' : HState W) r :
  config_ok (_config h) -> ParserFacts.span_ok b -> handle h b s = (s', r) ->
  match r with
  | Ok fr => windows_after h s s' fr /\ (allow fr = true -> exists f,
      WireSpec.parse_spec b (maxCtLen (_config h)) = Ok f /\ Frame.Frame_ok f /\ hdr fr = Frame.header f /\
      (antiReplayEnabled (_config h) = true ->
       ReplayWindow.contains (window_of h s (Packet.reader_id (Frame.header f)))
         (Packet.seqno (Frame.header f)) = false))
  | _ => forall q, window_of h s' q = window_of h s q
  end.
Proof.
  intros Hc Hb. unfold handle, parseFrame.
  pose proof (WireSpec.parseFrame_spec b (maxCtLen (_config h)) Hb) as Hps.
  destruct (FrameParser.parseFrame b _) as [f|[]|] eqn:Hp; try by intros [= <- <-].
  pose proof (frame_of_parse b _ f Hb Hp) as Hf. cbv [mbind M_bind mret M_ret].
  pose proof (reader_windows f s I) as (_ & Hw & He). destruct (validateReader h f s) as [s1 r1].
  cbn [fst snd] in *.
  assert (forall q, window_of h s1 q = window_of h s q) as Hs1
    by (intros q; unfold window_of; by rewrite Hw).
  assert (forall err, allow err = false -> windows_after h s s1 err) as Hno
    by (intros err E q; by rewrite E, Hs1).
  destruct r1 as [[[err|] kv]|ex|]; [| |by intros [= <- <-]..].
  { specialize (He _ eq_refl err eq_refl). intros [= <- <-]. split; [auto|congruence]. }
  destruct (validateKeyVersion h f kv) as [err|] eqn:Ek.
  { assert (allow err = false) as Ea
      by (revert Ek; unfold validateKeyVersion; destruct (key_version_ok _ _ _); by intros [= <-]).
    intros [= <- <-]. split; [auto|congruence]. }
  destruct (checkReplay_run h f s1 Hc) as (s2 & -> & _ & _ & Hs2 & Hin).
  destruct (antiReplayEnabled _ && _) eqn:Hr.
  { intros [= <- <-]. split; [|done]. intros q. by rewrite Hs2, Hs1. }
  match goal with |- context [tryDecrypt h f ?win _] =>
    destruct (tryDecrypt_run h f win s2 (mkPolicyView (fun _ => None) (fun _ _ => false) (fun _ => 0)
      (fun _ _ => false)) (window_of h s) Hc Hf) as (s3 & E3 & _ & Hs3) end.
  rewrite E3. clear E3. intros E. apply pair_eq in E as [<- <-].
  destruct (first_error _) as [code|].
  { split; [|done]. intros q. unfold window_of in *. by rewrite Hs3, Hs2, Hs1. }
  split.
  - intros q. rewrite <- Hs1, <- Hs2. cbn [allow hdr]. destruct (antiReplayEnabled _);
      [|unfold window_of; by rewrite Hs3]. exact (window_of_alter _ _ _ _ _ q Hs3 (Hin eq_refl)).
  - intros _. exists f. rewrite <- Hps. split_and!; try done. intros E. by rewrite E, Hs1 in Hr.
Qed.

End Parts.

Section OverlapFacts.
Context `{SodiumLaws, Env} {W : Type} `{AccessStoreSpec W, !StoreReturns W}.
Context (h : FrameHandler) (b : bytes).

(** *** Without it *)

(** A frame that would be accepted now, whatever the clock says. *)
Definition acceptable (s : HState W) (f : Frame.Frame) (pt : bytes) : Prop := forall now,
  accepted h (policy_of (h_ext s)) (window_of h s) now f pt.

(** The parts of a call leave another reader's view as it is. *)
Record like (s s' : HState W) : Prop := {
  lk_policy : policy_of (h_ext s') = policy_of (h_ext s);
  lk_windows q : window_of h s' q = window_of h s q;
}.

Lemma acceptable_like s s' f pt : like s s' -> acceptable s f pt -> acceptable s' f pt.
Proof.
  intros [Ep Ew] Ha now. destruct (Ha now) as [A1 A2 A3 A4 A5 A6 A7].
  split; rewrite ?Ep, ?Ew; done.
Qed.

Lemma begin_run (s : HState W) f pt :
  config_ok (_config h) -> ParserFacts.span_ok b -> antiReplayEnabled (_config h) = true ->
  WireSpec.parse_spec b (maxCtLen (_config h)) = Ok f -> acceptable s f pt ->
  exists s', begin_frame h b s = (s', Ok (inl (f, Some (Packet.reader_id (Frame.header f))))) /\
    like s s' /\ is_Some (h_windows s' !! Packet.reader_id (Frame.header f)).
Proof.
  intros Hc Hb Har Hp Ha. pose proof (WireSpec.parseFrame_spec b (maxCtLen (_config h)) Hb) as Hps.
  rewrite Hp in Hps. pose proof (frame_of_parse b _ f Hb Hps) as Hf. specialize (Ha 0).
  unfold begin_frame, parseFrame. rewrite Hps. cbv [mbind M_bind mret M_ret].
  destruct (validateReader_returns h f s) as (s1 & e & kv & E1). rewrite E1.
  destruct (validateReader_inv h f s s1 e kv (window_of h s) 0 Hf E1) as ((Q1 & Q2 & Q3) & He & Hkv).
  assert (first_error (checks h (policy_of (h_ext s)) (window_of h s) 0 f) = None) as Hn
    by (apply checks_accepted; eauto).
  rewrite (first_error_split 3) in Hn. destruct (first_error (take 3 _)) as [code|]; [done|].
  subst e. cbn [fmap option_fmap option_map]. destruct (Hkv eq_refl) as [_ ->].
  unfold validateKeyVersion. rewrite key_version_ok_spec by (apply Hf || apply key_version_range).
  rewrite (acc_version _ _ _ _ _ _ Ha). destruct (checkReplay_run h f s1 Hc) as (s2 & E2 & R1 & R2 & R3 & R4).
  rewrite E2, Har. cbn [andb].
  assert (forall q, window_of h s1 q = window_of h s q) as Hw by (intros q; unfold window_of; by rewrite Q1).
  rewrite Hw, (acc_fresh _ _ _ _ _ _ Ha Har). exists s2. split; [done|]. split; [|by apply R4].
  split; [by rewrite R1|]. intros q. by rewrite R3, Hw.
Qed.

(** The decryption of a frame that passed, whatever happened since to the
    windows. *)
Lemma finish_run (s t : HState W) f pt win :
  config_ok (_config h) -> ParserFacts.span_ok b ->
  WireSpec.parse_spec b (maxCtLen (_config h)) = Ok f -> acceptable s f pt ->
  exists t', finish_frame h (inl (f, win)) t = (t', Ok (mkHandleResult true "ok" pt (Frame.header f))) /\
    h_ext t' = h_ext t.
Proof.
  intros Hc Hb Hp Ha. pose proof (WireSpec.parseFrame_spec b (maxCtLen (_config h)) Hb) as Hps.
  rewrite Hp in Hps. pose proof (frame_of_parse b _ f Hb Hps) as Hf.
  set (now := u64 (clock (S (h_ticks t)))). specialize (Ha now).
  destruct (tryDecrypt_run h f win t (policy_of (h_ext s)) (window_of h s) Hc Hf) as (t' & E & Ex & _).
  fold now in E. assert (first_error (checks h (policy_of (h_ext s)) (window_of h s) now f) = None) as Hn
    by (apply checks_accepted; eauto).
  rewrite (first_error_split 5) in Hn. destruct (first_error (take 5 _)) as [code|]; [done|].
  rewrite Hn in E. exists t'. split; [|done]. cbn [finish_frame]. rewrite E.
  by rewrite (acc_opened _ _ _ _ _ _ Ha).
Qed.

End OverlapFacts.

Lemma begin_keeps `{Sodium, Env} {W : Type} `{StoreAuditSpec W} (h : FrameHandler) (b : bytes) :
  always (fun _ : HState W => True) HandlerTrail.same_log (begin_frame h b).
Proof. unfold begin_frame, parseFrame, validateReader, checkReplay, getOrCreateWindow. HandlerTrail.unlogged. Qed.

End OverlapFacts.

(** ** One server *)

Module SerialFacts.
Import Engine Overlap OverlapFacts.

Section Serial.
Context `{SodiumLaws, Env, Json} {W : Type} `{IAccessStore W, !IAuditLog W}.
Context (e : DecisionEngine).

(** The three parts are the call. *)
Lemma call_split b (s : EState W) :
  handleFrameBytes e b s =
    (x ← on_h (begin_frame (handler_of e) b);
     r ← on_h (finish_frame (handler_of e) x); decideFrame e (length b) r) s.
Proof.
  unfold handleFrameBytes, on_h, zoom. cbv [mbind M_bind]. rewrite handle_split. cbv [mbind M_bind].
  by destruct (begin_frame _ b (e_h s)) as [h1 [x|ex|]].
Qed.

(** How a call that began in [s0] can stand. *)
Inductive underway (b : bytes) (s0 : EState W) : progress -> EState W -> Prop :=
| underway_waiting : underway b s0 Waiting s0
| underway_checked x s :
    on_h (begin_frame (handler_of e) b) s0 = (s, Ok x) -> underway b s0 (Checked x) s
| underway_decrypted x r s1 s :
    on_h (begin_frame (handler_of e) b) s0 = (s1, Ok x) ->
    on_h (finish_frame (handler_of e) x) s1 = (s, Ok r) -> underway b s0 (Decrypted r) s.

(** Its next part brings it further, or ends it as the whole call would have. *)
Lemma part_run b s0 p s s' r :
  underway b s0 p s -> run_part e b p s = (s', r) ->
  (underway b s0 (settle r) s' /\ inside (mkThread Services b (settle r)) = true) \/
  exists v, settle r = Finished v /\ handleFrameBytes e b s0 = (s', v).
Proof.
  intros Hu. destruct Hu as [|x s E1|x hr s1 s E1 E2]; cbn [run_part]; rewrite call_split;
    cbv [mbind M_bind mret M_ret]; rewrite ?E1.
  - destruct (on_h (begin_frame _ b) s0) as [s1 [x|ex|]] eqn:E; intros [= <- <-]; cbn [settle]; eauto.
    left. split; [by constructor|done].
  - destruct (on_h (finish_frame _ x) s) as [s2 [y|ex|]] eqn:E; intros [= <- <-]; cbn [settle]; eauto.
    left. split; [by econstructor|done].
  - rewrite E2. destruct (decideFrame _ _ hr s) as [s3 [d|ex|]] eqn:E; intros [= <- <-];
      cbn [settle]; eauto.
Qed.

(** [c0], reached by whole calls, and the configuration at the moment: the same,
    or with one call under way. *)
Inductive serial (c0 : config) : config -> Prop :=
| serial_idle : serial c0 c0
| serial_busy i t p s :
    c0.2 !! i = Some t -> progress_of t = Waiting -> underway (frameBytes t) c0.1 p s ->
    inside (set_progress p t) = true -> serial c0 (s, <[i := set_progress p t]> c0.2).

Definition outside (ts : list thread) : Prop := Forall (fun t => inside t = false) ts.

Lemma set_progress_twice p q t : set_progress p (set_progress q t) = set_progress p t.
Proof. done. Qed.

Lemma serial_step k c0 c c' :
  Forall (fun t => origin t = k) c0.2 -> outside c0.2 -> serial c0 c -> step e c c' ->
  exists c1, rtc (call_step e) c0 c1 /\ serial c1 c' /\
    Forall (fun t => origin t = k) c1.2 /\ outside c1.2.
Proof.
  intros Hk Ho Hs Hstep. destruct Hstep as [i t s s' r ts Hi Hu Hf Er].
  (* in both cases the thread that goes on is the one under way, if any *)
  assert (exists t0, c0.2 !! i = Some t0 /\ progress_of t0 = Waiting /\
    frameBytes t = frameBytes t0 /\ (forall p, set_progress p t = set_progress p t0) /\
    underway (frameBytes t0) c0.1 (progress_of t) s /\
    forall p, <[i := set_progress p t]> ts = <[i := set_progress p t0]> c0.2) as
    (t0 & Hi0 & Hw0 & Eb & Et & Hun & Ets).
  { remember (s, ts) as c eqn:Ec. destruct Hs as [|j u q s1 Hj Hw Hq Hin].
    - subst c0. cbn in *. assert (progress_of t = Waiting) as Hw.
      { pose proof (Forall_lookup_1 _ _ _ _ Ho Hi) as Hin. unfold inside, unfinished in *.
        by destruct (progress_of t). }
      exists t. rewrite Hw. split_and!; try done. constructor.
    - injection Ec as <- <-. pose proof (lookup_lt_Some _ _ _ Hj) as Hlt.
      destruct (decide (i = j)) as [->|Hij].
      + rewrite list_lookup_insert_eq in Hi by done. injection Hi as <-. exists u.
        split_and!; try done. intros p. by rewrite list_insert_insert_eq.
      + rewrite list_lookup_insert_ne in Hi by done.
        pose proof (Forall_lookup_1 _ _ _ _ Ho Hi) as Hti.
        assert (progress_of t = Waiting) as Hwt.
        { unfold inside, unfinished in *. by destruct (progress_of t). }
        specialize (Hf Hwt). apply Forall_lookup_1 with (i := j) (x := set_progress q u) in Hf;
          [|by rewrite list_lookup_insert_eq].
        rewrite Hf in Hin; [done|]. cbn.
        by rewrite (Forall_lookup_1 _ _ _ _ Hk Hi), (Forall_lookup_1 _ _ _ _ Hk Hj). }
  rewrite Eb in Er. rewrite Ets. clear Ets Hs Hf Hu Hi ts.
  destruct (part_run _ _ _ _ _ _ Hun Er) as [[Hun' Hin]|(v & Ev & Ecall)].
  - exists c0. split; [done|]. split; [|done]. by apply serial_busy.
  - exists (s', <[i := set_progress (Finished v) t0]> c0.2). rewrite Ev. split; [|split; [constructor|]].
    + apply rtc_once. destruct c0. by apply step_call.
    + cbn [snd]. split; apply Forall_insert; try done. cbn. by apply (Forall_lookup_1 _ _ _ _ Hk Hi0).
Qed.

Lemma serial_steps k c0 c c' :
  Forall (fun t => origin t = k) c0.2 -> outside c0.2 -> serial c0 c -> rtc (step e) c c' ->
  exists c1, rtc (call_step e) c0 c1 /\ serial c1 c' /\ outside c1.2.
Proof.
  intros Hk Ho Hs Hrun. revert c0 Hk Ho Hs. induction Hrun as [c|c1 c2 c3 H12 _ IH]; intros c0 Hk Ho Hs;
    [by exists c0|].
  destruct (serial_step k c0 c1 c2 Hk Ho Hs H12) as (c & Hc & Hs' & Hk' & Ho').
  destruct (IH c Hk' Ho' Hs') as (c' & Hc' & Hs3 & Ho3). exists c'. split; [by etransitivity|done].
Qed.

(** A configuration with no call under way was reached by whole calls. *)
Lemma serial_outside c0 c : serial c0 c -> outside c.2 -> c = c0.
Proof.
  intros [|i t p s Hi _ _ Hin] Ho; [done|]. cbn in Ho.
  apply Forall_lookup_1 with (i := i) (x := set_progress p t) in Ho; [congruence|].
  by rewrite list_lookup_insert_eq by by eapply lookup_lt_Some.
Qed.

End Serial.

(** Whole calls give the verdicts of the specification. *)
Lemma calls_verdicts `{SodiumLaws, Env, Json} {W : Type}
    `{AccessStoreSpec W, !IAuditLog W, !AuditLogSpec W, !StoreAuditSpec W} e (c c' : config (W := W)) :
  HandlerFacts.config_ok (_frameHandlerCfg e) -> Forall (fun t => ParserFacts.span_ok (frameBytes t)) c.2 ->
  rtc (call_step e) c c' -> rtc (OverlapSpec.verdict_step e) c c'.
Proof.
  intros Hc Hb Hrun. induction Hrun as [c|c1 c2 c3 H12 _ IH]; [done|].
  destruct H12 as [i t s s' r ts Hi Hp E]. cbn in Hb, IH.
  pose proof (Forall_lookup_1 _ _ _ _ Hb Hi) as Ht. cbn in Ht.
  eapply rtc_l; [|by apply IH, Forall_insert]. destruct r as [d|ex|]; [|by eapply OverlapSpec.verdict_failed..].
  destruct (EngineProps.engine_returned e _ s s' d Hc Ht E) as [-> Ha]. by apply OverlapSpec.verdict_given.
Qed.

End SerialFacts.

(** ** The replay windows under whole calls *)

Module GrantFacts.
Import Engine EngineSpec EngineFacts EngineProps Overlap OverlapFacts.
Import HandlerSpec HandlerFacts.

Section Windows.
Context `{Sodium, Env, Json} {W : Type} `{IAccessStore W, !IAuditLog W}.

(** What the decision leaves alone, whatever comes of it. *)
Definition same_windows (s s' : EState W) : Prop := h_windows (e_h s') = h_windows (e_h s).

#[local] Instance same_windows_preorder : PreOrder same_windows.
Proof. split; [done|]. intros s1 s2 s3. unfold same_windows. congruence. Qed.

Abbreviation still m := (always (fun _ : EState W => True) same_windows m).

Lemma still_now : still (on_h nowUnixMs).
Proof. by intros s _. Qed.

Lemma still_ext {A} (m : M W A) : still (on_h (on_ext m)).
Proof. intros s _. unfold on_h, on_ext, zoom. cbn. by destruct (m _). Qed.

Lemma still_detector {A} (f : Detector.ProtocolAnomalyDetector -> Detector.ProtocolAnomalyDetector * A) :
  still (on_detector f).
Proof. intros s _. unfold on_detector. destruct (e_detector s); [|done]. by destruct (f _). Qed.

Lemma still_push ev : still (push_event ev).
Proof.
  intros s _. unfold push_event. destruct (e_events s); [|done]. by destruct (EventBus.push _ _) as [? []].
Qed.

Lemma still_decide e n r : still (decideFrame e n r).
Proof.
  unfold decideFrame, publishFrameEvent, deny_quarantined, checkRollback, checkNonce, concludeFrame,
    publishDecisionEvent, publishAnomalyEvent, reportRejection, checkAccessPolicy, resolveCardHmac,
    checkRoleAccess, deny, publishAnomalyEvent, logAuditEvent, publish.
  keeps_by ltac:(first [apply still_now|apply still_ext|apply still_detector|apply still_push]).
Qed.

(** A frame the handler refused is not granted, whatever the store answers. *)
Lemma refused_decide e n fr :
  FrameHandler.allow fr = false ->
  keeps (fun _ : EState W => True) same_windows (decideFrame e n fr) (fun r => allow r = false).
Proof.
  intros Hfr. unfold decideFrame, concludeFrame. rewrite Hfr. cbn [negb].
  unfold publishFrameEvent, deny_quarantined, checkRollback, checkNonce,
    publishDecisionEvent, publishAnomalyEvent, reportRejection, deny, publishAnomalyEvent, logAuditEvent, publish.
  keeps_by ltac:(first [apply still_now|apply still_ext|apply still_detector|apply still_push]).
Qed.

End Windows.

Section Grants.
Context `{SodiumLaws, Env, Json} {W : Type} `{IAccessStore W, !IAuditLog W}.
Context (e : DecisionEngine).
Abbreviation h := (handler_of e).

(** A number that is new to its window, and then in it. *)
Definition spends (b : bytes) (s s' : EState W) : Prop := exists f,
  WireSpec.parse_spec b (FrameHandler.maxCtLen (_frameHandlerCfg e)) = Ok f /\ Frame.Frame_ok f /\
  ReplayWindow.contains (window_of h (e_h s) (Packet.reader_id (Frame.header f)))
    (Packet.seqno (Frame.header f)) = false /\
  forall q, window_of h (e_h s') q =
    if bool_decide (q = Packet.reader_id (Frame.header f))
    then ReplayWindow.remember (window_of h (e_h s) q) (Packet.seqno (Frame.header f))
    else window_of h (e_h s) q.

(** What a call does to the windows, whatever the store answers or throws: it
    spends the number of its frame, or it grants nothing and leaves them. *)
Lemma call_windows b (s s' : EState W) r :
  config_ok (_frameHandlerCfg e) -> ParserFacts.span_ok b ->
  FrameHandler.antiReplayEnabled (_frameHandlerCfg e) = true ->
  handleFrameBytes e b s = (s', r) ->
  spends b s s' \/
  (forall q, window_of h (e_h s') q = window_of h (e_h s) q) /\ forall d, r = Ok d -> allow d = false.
Proof.
  intros Hc Hb Har. unfold handleFrameBytes. cbv [mbind M_bind]. unfold on_h at 1, zoom.
  destruct (FrameHandler.handle h b (e_h s)) as [h1 r1] eqn:E1.
  pose proof (handle_windows h b (e_h s) h1 r1 Hc Hb E1) as Hw.
  destruct r1 as [fr|ex|]; [|intros [= <- <-]; by right..]. destruct Hw as [Hw Hacc].
  set (t := mkEState h1 _ _). intros E.
  assert (forall q, window_of h (e_h s') q = window_of h h1 q) as Hsame.
  { destruct (still_decide e (length b) fr t I) as (_ & Hs & _). rewrite E in Hs.
    unfold same_windows in Hs. cbn in Hs. intros q. unfold window_of. by rewrite Hs. }
  destruct (FrameHandler.allow fr) eqn:Ha.
  - left. destruct (Hacc eq_refl) as (f & Hp & Hf & Hh & Hn). exists f. split_and!; auto.
    intros q. rewrite Hsame, (Hw q), Ha, Hh. cbn [handler_of FrameHandler._config]. by rewrite Har.
  - right. split; [intros q; by rewrite Hsame, (Hw q), Ha|].
    destruct (refused_decide e (length b) fr Ha t I) as (_ & _ & Hr). by rewrite E in Hr.
Qed.

Lemma grants_insert (ts : list thread) i t p :
  ts !! i = Some t -> progress_of t = Waiting ->
  grants (<[i := set_progress p t]> ts) = (grants ts + if granted (set_progress p t) then 1 else 0)%nat.
Proof.
  revert i. induction ts as [|u ts IH]; intros [|i] Hi Hp; try done; unfold grants in *.
  - injection Hi as ->. change (<[0%nat := set_progress p t]> (t :: ts)) with (set_progress p t :: ts).
    rewrite !filter_cons. rewrite (decide_False (P := granted t = true))
      by (unfold granted; by rewrite Hp).
    case_decide as Hg; [rewrite Hg; cbn; lia|]. destruct (granted (set_progress p t)); [done|]. lia.
  - change (<[S i := set_progress p t]> (u :: ts)) with (u :: <[i := set_progress p t]> ts).
    rewrite !filter_cons. specialize (IH i Hi Hp). case_decide; cbn [length]; lia.
Qed.

(** The bytes, if they are a frame, carry a number their window has. *)
Definition spent (b : bytes) (s : EState W) : Prop := forall f,
  WireSpec.parse_spec b (FrameHandler.maxCtLen (_frameHandlerCfg e)) = Ok f ->
  ReplayWindow.contains (window_of h (e_h s) (Packet.reader_id (Frame.header f)))
    (Packet.seqno (Frame.header f)) = true.

(** Calls with the same bytes: they are spent when they have been granted. *)
Record spending (b : bytes) (c : config (W := W)) : Prop := {
  sp_windows : windows_ok h (e_h c.1);
  sp_grants : grants c.2 = 0%nat \/ grants c.2 = 1%nat /\ spent b c.1;
  sp_bytes : Forall (fun t => frameBytes t = b) c.2;
}.

Lemma spends_windows b (s s' : EState W) : spends b s s' -> windows_ok h (e_h s) -> windows_ok h (e_h s').
Proof.
  intros (f & _ & [Hf _ _] & _ & Ha) Hw q. rewrite Ha. destruct (Hw q) as [Hsz [hist Hr]].
  case_bool_decide; [|eauto]. rewrite ReplayFacts.remember_window. split; [done|].
  eapply remember_represents; [done|apply Hf].
Qed.

Lemma spends_spent b (s s' : EState W) : spends b s s' -> windows_ok h (e_h s) -> spent b s'.
Proof.
  intros (f & Hp & [Hf _ _] & _ & Ha) Hw f' Hp'. assert (f' = f) as -> by congruence.
  rewrite Ha, bool_decide_true by done. destruct (Hw (Packet.reader_id (Frame.header f))) as [Hsz [hist Hr]].
  by eapply ReplayFacts.remember_contains; [|apply Hf|].
Qed.

Lemma spending_call b c c' :
  config_ok (_frameHandlerCfg e) -> ParserFacts.span_ok b ->
  FrameHandler.antiReplayEnabled (_frameHandlerCfg e) = true ->
  call_step e c c' -> spending b c -> spending b c'.
Proof.
  intros Hc Hb Har Hstep [Hw Hg Hbs]. destruct Hstep as [i t s s' r ts Hi Hp E]. cbn [fst snd] in *.
  pose proof (Forall_lookup_1 _ _ _ _ Hbs Hi) as Et. cbn in Et. rewrite Et in E.
  destruct (call_windows b s s' r Hc Hb Har E) as [Hs|[Hs Hd]]; split; cbn [fst snd];
    try (apply Forall_insert; [done|]; exact Et).
  - by eapply spends_windows.
  - rewrite grants_insert by done. pose proof (spends_spent _ _ _ Hs Hw).
    destruct Hg as [Hg|[Hg Hsp]]; [destruct (granted _); [right; split; [lia|done]|left; lia]|].
    destruct Hs as (f & Hpf & _ & Hn & _). by rewrite (Hsp f Hpf) in Hn.
  - intros q. rewrite Hs. apply Hw.
  - rewrite grants_insert by done. assert (granted (set_progress (Finished r) t) = false) as ->.
    { unfold granted. cbn. destruct r as [d|ex|]; [|done..]. by apply Hd. }
    destruct Hg as [Hg|[Hg Hsp]]; [left; lia|right]. split; [lia|]. intros f Hpf. rewrite Hs. by apply Hsp.
Qed.

End Grants.

(** *** Two servers *)

Section TwoServers.
Context `{SodiumLaws, Env, Json} {W : Type}.
Context `{AccessStoreSpec W, !StoreReturns W, !IAuditLog W, !AuditLogSpec W, !StoreAuditSpec W}.
Context (e : DecisionEngine).
Abbreviation h := (handler_of e).

(** A decision when the detector is off. *)
Lemma wp_decide_off (T : Prop) (HT : T -> AuditReturns W) n (s t : EState W) fr :
  detector_active t = false -> (T -> live t) ->
  policy_of (h_ext (e_h t)) = policy_of (h_ext (e_h s)) ->
  Packet.Header_ok (FrameHandler.hdr fr) -> cstr (FrameHandler.reason fr) = FrameHandler.reason fr ->
  wp T (decideFrame e n fr) t (fun r t' =>
    r = o_result (concluded e (policy_of (h_ext (e_h s))) fr) /\
    policy_of (h_ext (e_h t')) = policy_of (h_ext (e_h s)) /\ detector_active t' = false).
Proof.
  intros Hd Hl Hp Hh Hr.
  assert (forall hd, detector_refuses e (e_detector t) hd = false) as Hno.
  { intros hd. rewrite detector_refuses_split, Hd. done. }
  apply (wp_decide T (fun _ => _) HT); [done..|]. rewrite Hno.
  intros t' Hev _. rewrite Hp. split_and!; [done|by rewrite (ev_policy _ _ _ _ Hev)|].
  pose proof (ev_detector _ _ _ _ Hev) as Hdd. unfold detector_active in *.
  destruct (e_detector t) as [d|], (e_detector t') as [d'|]; try done.
  by apply detector_evolves_keeps in Hdd as [-> _].
Qed.

(** A thread goes on without an exception. *)
Lemma step_ok i t p s s' ts :
  ts !! i = Some t -> unfinished t -> (progress_of t = Waiting -> mutex_free (origin t) ts) ->
  run_part e (frameBytes t) (progress_of t) s = (s', Ok p) ->
  step e (s, ts) (s', <[i := set_progress p t]> ts).
Proof. intros Hi Hu Hf E. by apply (step_part e i t s s' (Ok p) ts). Qed.

Lemma run_begin b x (s s' : EState W) :
  on_h (begin_frame h b) s = (s', Ok x) -> run_part e b Waiting s = (s', Ok (Checked x)).
Proof. intros E. cbn [run_part]. by rewrite (M_bind_ok _ _ _ _ _ E). Qed.

Lemma run_finish b x r (s s' : EState W) :
  on_h (finish_frame h x) s = (s', Ok r) -> run_part e b (Checked x) s = (s', Ok (Decrypted r)).
Proof. intros E. cbn [run_part]. by rewrite (M_bind_ok _ _ _ _ _ E). Qed.

Lemma run_decide b r d (s s' : EState W) :
  decideFrame e (length b) r s = (s', Ok d) -> run_part e b (Decrypted r) s = (s', Ok (Finished (Ok d))).
Proof. intros E. cbn [run_part]. by rewrite (M_bind_ok _ _ _ _ _ E). Qed.

(** Two calls with the same bytes, part by part. *)
Lemma begin_both b (s : EState W) f pt :
  config_ok (_frameHandlerCfg e) -> ParserFacts.span_ok b ->
  FrameHandler.antiReplayEnabled (_frameHandlerCfg e) = true ->
  WireSpec.parse_spec b (FrameHandler.maxCtLen (_frameHandlerCfg e)) = Ok f ->
  acceptable h (e_h s) f pt ->
  exists s', on_h (begin_frame h b) s
      = (s', Ok (inl (f, Some (Packet.reader_id (Frame.header f))))) /\
    e_detector s' = e_detector s /\ e_events s' = e_events s /\
    policy_of (h_ext (e_h s')) = policy_of (h_ext (e_h s)) /\ acceptable h (e_h s') f pt /\
    (audit_ready (h_ext (e_h s)) -> audit_ready (h_ext (e_h s'))).
Proof.
  intros Hc Hb Har Hp Ha. destruct (begin_run h b (e_h s) f pt Hc Hb Har Hp Ha) as (h1 & E & L & _).
  pose proof (begin_keeps h b (e_h s) I) as (_ & [_ Hr] & _). rewrite E in Hr.
  exists (mkEState h1 (e_detector s) (e_events s)). unfold on_h, zoom. rewrite E.
  split_and!; try done; [apply L|by eapply acceptable_like].
Qed.

Lemma finish_both b (s t : EState W) f pt win :
  config_ok (_frameHandlerCfg e) -> ParserFacts.span_ok b ->
  WireSpec.parse_spec b (FrameHandler.maxCtLen (_frameHandlerCfg e)) = Ok f ->
  acceptable h (e_h s) f pt ->
  exists t', on_h (finish_frame h (inl (f, win))) t
      = (t', Ok (FrameHandler.mkHandleResult true "ok" pt (Frame.header f))) /\
    e_detector t' = e_detector t /\ e_events t' = e_events t /\ h_ext (e_h t') = h_ext (e_h t).
Proof.
  intros Hc Hb Hp Ha. destruct (finish_run h b (e_h s) (e_h t) f pt win Hc Hb Hp Ha) as (h1 & E & Ex).
  exists (mkEState h1 (e_detector t) (e_events t)). unfold on_h, zoom. by rewrite E.
Qed.

End TwoServers.
End GrantFacts.

(** ** Properties *)

Module OverlapProps.
Import Engine EngineSpec EngineFacts EngineProps HandlerSpec HandlerFacts.
Import Overlap OverlapFacts SerialFacts GrantFacts HandlerProps ToySodium ToyJson ToyStore.

(** C25: the calls of one server are serial, and each is decided by the policy.
    Threads of one server, each with bytes of its own, exclude each other with its
    mutex: whatever the order in which the parts of their calls run (replay check,
    decryption, decision), and whatever the store or the log throws in them, a
    configuration in which no call is under way is one that whole calls, one after
    the other, arrive at; and each of those calls either throws or is answered with
    the verdict of the specification (detector, checks of the frame, policy; a store
    that answers is taken to answer from its policy) in the
    state the call before left, with the one audit entry and the update of windows
    and detector that belong to it. *)
Theorem one_server_is_serial `{SodiumLaws, Env, Json} {W : Type}
    `{AccessStoreSpec W, !IAuditLog W, !AuditLogSpec W, !StoreAuditSpec W}
    (e : DecisionEngine) (k : server) (c c' : config (W := W)) :
  config_ok (_frameHandlerCfg e) ->
  Forall (fun t => origin t = k) c.2 -> Forall (fun t => ParserFacts.span_ok (frameBytes t)) c.2 ->
  outside c.2 -> rtc (step e) c c' -> outside c'.2 ->
  rtc (OverlapSpec.verdict_step e) c c'.
Proof.
  intros Hc Hk Hb Ho Hrun Ho'. apply calls_verdicts; [done..|].
  destruct (serial_steps e k c c c' Hk Ho (serial_idle _ _) Hrun) as (c1 & Hcalls & Hs & _).
  by rewrite (serial_outside _ _ _ Hs Ho').
Qed.

(** C8: one server grants a frame once. With the replay check enabled, and windows
    that are those of some history of accepted numbers, any number of calls of one
    server with the same bytes, in whatever order the parts of the calls run, are
    granted at most once. Nothing is assumed of the store and the log: they may
    answer anything, and throw at any call. *)
Theorem one_server_grants_once `{SodiumLaws, Env, Json} {W : Type} `{IAccessStore W, !IAuditLog W}
    (e : DecisionEngine) (k : server) (b : bytes) (n : nat) (s : EState W) (c' : config) :
  config_ok (_frameHandlerCfg e) -> ParserFacts.span_ok b ->
  FrameHandler.antiReplayEnabled (_frameHandlerCfg e) = true -> windows_ok (handler_of e) (e_h s) ->
  rtc (step e) (s, replicate n (mkThread k b Waiting)) c' -> (grants c'.2 <= 1)%nat.
Proof.
  intros Hc Hb Har Hw Hrun. set (c := (s, _)) in *.
  assert (forall P : thread -> Prop, P (mkThread k b Waiting) -> Forall P c.2) as Hall
    by (intros P HP; by apply Forall_replicate).
  destruct (serial_steps e k c c c') as (c1 & Hcalls & Hs & _); try done; [by apply Hall..|constructor|].
  assert (spending e b c1) as [_ Hg _].
  { assert (spending e b c) as Hsp.
    { split; [exact Hw| |by apply Hall]. left. unfold c, grants. cbn [snd]. clear. by induction n. }
    revert Hsp. clear Hs Hall Hrun. induction Hcalls as [|c2 c3 c4 H23 _ IH]; [done|].
    intros Hsp. by eapply IH, spending_call. }
  destruct Hs as [|i t p s1 Hi Hwt _ Hin]; [lia|]. cbn [snd]. rewrite (grants_insert _ _ _ _ Hi Hwt).
  assert (granted (set_progress p t) = false) as ->; [|lia].
  unfold granted, Overlap.inside in *. cbn in *. by destruct p.
Qed.

(** C26: two servers grant it twice. With the detector off and time stamps not
    checked (the defaults), a frame that is granted can be granted to one of two
    threads of different servers while the other has passed the replay check and
    the decryption with the same bytes; and what is then decided for the other is
    the same grant, unless its decision throws. *)
Theorem two_servers_grant_twice `{SodiumLaws, Env, Json} {W : Type}
    `{AccessStoreSpec W, !StoreReturns W, !IAuditLog W, !AuditLogSpec W, !StoreAuditSpec W, !AuditReturns W}
    (e : DecisionEngine) (b : bytes) (s s1 : EState W) (r : DecisionResult) :
  config_ok (_frameHandlerCfg e) -> ParserFacts.span_ok b ->
  FrameHandler.antiReplayEnabled (_frameHandlerCfg e) = true ->
  FrameHandler.maxSkewMs (_frameHandlerCfg e) = 0 -> detector_active s = false -> live s ->
  handleFrameBytes e b s = (s1, Ok r) -> allow r = true ->
  exists s2 fr, rtc (step e)
      (s, [mkThread Services b Waiting; mkThread DecisionEndpoint b Waiting])
      (s2, [mkThread Services b (Finished (Ok r)); mkThread DecisionEndpoint b (Decrypted fr)]) /\
    forall s3 v, decideFrame e (length b) fr s2 = (s3, Ok v) -> v = r.
Proof.
  intros Hc Hb Har Hsk Hd Hl E Hr.
  destruct (engine_returned e b s s1 r Hc Hb E) as [-> _].
  destruct (decision_allow e s b Hr) as [Hnr Hfr]. pose proof Hfr as Hv.
  apply verdict_allow in Hv as (f & pt & Hp & A & Hv). set (fr := FrameHandler.mkHandleResult _ _ _ _) in Hv.
  change (frame_result e s b = fr) in Hv.
  assert (o_result (decision e s b) = o_result (concluded e (policy_of (h_ext (e_h s))) fr)) as ->.
  { unfold decision, engine_verdict, concluded. fold (frame_result e s b). by rewrite Hnr, Hv. }
  assert (acceptable (handler_of e) (e_h s) f pt) as Ha by (intros now; destruct A; by split).
  destruct (begin_both e b s f pt Hc Hb Har Hp Ha) as (t1 & B1 & D1 & V1 & P1 & A1 & R1).
  destruct (begin_both e b t1 f pt Hc Hb Har Hp A1) as (t2 & B2 & D2 & V2 & P2 & A2 & R2).
  destruct (finish_both e b t2 t2 f pt (Some (Packet.reader_id (Frame.header f))) Hc Hb Hp A2)
    as (t3 & F1 & D3 & V3 & X3).
  destruct (finish_both e b t2 t3 f pt (Some (Packet.reader_id (Frame.header f))) Hc Hb Hp A2)
    as (t4 & F2 & D4 & V4 & X4).
  assert (Packet.Header_ok (FrameHandler.hdr fr)) as Hh.
  { rewrite <- Hv. by apply verdict_header. }
  destruct (wp_returns True (decideFrame e (length b) fr) t4 (fun v t' =>
      v = o_result (concluded e (policy_of (h_ext (e_h s))) fr) /\
      policy_of (h_ext (e_h t')) = policy_of (h_ext (e_h s)) /\ detector_active t' = false))
    as (t5 & v & E5 & -> & P5 & D5); [|done|].
  { apply wp_decide_off; [done| | |congruence|done|done].
    - unfold detector_active in *. by rewrite D4, D3, D2, D1.
    - intros _. destruct Hl as [Hbus Hready]. split; [|rewrite X4, X3; auto].
      unfold bus_live in *. by rewrite V4, V3, V2, V1. }
  exists t5, fr. split.
  - set (x := inl (f, Some (Packet.reader_id (Frame.header f)))) in *.
    set (T0 := mkThread Services b). set (T1 := mkThread DecisionEndpoint b).
    eapply rtc_l; [apply (step_ok e 0 (T0 Waiting)), run_begin, B1; [done..|by repeat constructor]|].
    eapply rtc_l; [apply (step_ok e 1 (T1 Waiting)), run_begin, B2; [done..|by repeat constructor]|].
    eapply rtc_l; [by apply (step_ok e 0 (T0 (Checked x))), run_finish, F1|].
    eapply rtc_l; [by apply (step_ok e 1 (T1 (Checked x))), run_finish, F2|].
    apply rtc_once. refine (step_ok e 0 (T0 (Decrypted fr)) _ t4 t5 [T0 (Decrypted fr); T1 (Decrypted fr)]
      eq_refl I _ (run_decide e b fr _ t4 t5 E5)). discriminate.
  - intros s3 v E3. pose proof (wp_decide_off e False (False_ind _) (length b) s t5 fr D5 (False_ind _) P5 Hh eq_refl) as Hw.
    by destruct (wp_ok False _ _ _ _ _ Hw E3) as [-> _].
Qed.

(** Two threads of the services with the same bytes: the second begins when the
    first is through. *)
Definition test_thread (p : progress) : thread := mkThread Services test_request p.

Definition go (c : EState world * progress) : EState world * progress :=
  let r := run_part test_engine test_request c.2 c.1 in (r.1, settle r.2).

Lemma go_first c t : unfinished (test_thread c.2) -> inside t = false ->
  step test_engine (c.1, [test_thread c.2; t]) ((go c).1, [test_thread (go c).2; t]).
Proof.
  intros Hu Ho. refine (step_part test_engine 0 (test_thread c.2) c.1 _ _ [test_thread c.2; t] eq_refl Hu _
    (surjective_pairing _)).
  intros E. repeat constructor; [|done]. intros _. unfold inside. by rewrite E.
Qed.

Lemma go_second c t : unfinished (test_thread c.2) -> inside t = false ->
  step test_engine (c.1, [t; test_thread c.2]) ((go c).1, [t; test_thread (go c).2]).
Proof.
  intros Hu Ho. refine (step_part test_engine 1 (test_thread c.2) c.1 _ _ [t; test_thread c.2] eq_refl Hu _
    (surjective_pairing _)).
  intros E. repeat constructor; [done|]. intros _. unfold inside. by rewrite E.
Qed.

(** A whole call, three parts. *)
Definition go_through (c : EState world * progress) : EState world * progress := go (go (go c)).

Definition three_parts (c : EState world * progress) : Prop :=
  unfinished (test_thread c.2) /\ unfinished (test_thread (go c).2) /\
  unfinished (test_thread (go (go c)).2).

Lemma first_through s p t (c := (s, p)) : three_parts c -> inside t = false ->
  rtc (step test_engine) (s, [test_thread p; t]) ((go_through c).1, [test_thread (go_through c).2; t]).
Proof.
  intros (H1 & H2 & H3) Ht. eapply rtc_l; [by apply (go_first c)|]. eapply rtc_l; [by apply go_first|].
  by apply rtc_once, go_first.
Qed.

Lemma second_through s p t (c := (s, p)) : three_parts c -> inside t = false ->
  rtc (step test_engine) (s, [t; test_thread p]) ((go_through c).1, [t; test_thread (go_through c).2]).
Proof.
  intros (H1 & H2 & H3) Ht. eapply rtc_l; [by apply (go_second c)|]. eapply rtc_l; [by apply go_second|].
  by apply rtc_once, go_second.
Qed.

Definition ended := go_through (test_world, Waiting).
Definition ended_again := go_through (ended.1, Waiting).

Example ended_granted : ended.2 = Finished (Ok granted_result).
Proof. vm_compute. reflexivity. Qed.

Example ended_again_denied : ended_again.2 = Finished (Ok (createDeniedResult "replay")).
Proof. vm_compute. reflexivity. Qed.

Lemma test_overlap : rtc (step test_engine) (test_world, replicate 2 (test_thread Waiting))
  (ended_again.1, [test_thread ended.2; test_thread ended_again.2]).
Proof.
  assert (inside (test_thread ended.2) = false) as Hin
    by (unfold inside, test_thread; cbn [progress_of]; by rewrite ended_granted).
  assert (three_parts (test_world, Waiting)) as H1
    by (refine (conj _ (conj _ _)); vm_compute; exact I).
  assert (three_parts (ended.1, Waiting)) as H2
    by (refine (conj _ (conj _ _)); vm_compute; exact I).
  transitivity (ended.1, [test_thread ended.2; test_thread Waiting]).
  - exact (first_through test_world Waiting (test_thread Waiting) H1 eq_refl).
  - exact (second_through ended.1 Waiting (test_thread ended.2) H2 Hin).
Qed.

Lemma one_server_is_serial_witness :
  rtc (OverlapSpec.verdict_step test_engine) (test_world, replicate 2 (test_thread Waiting))
    (ended_again.1, [test_thread (Finished (Ok granted_result));
                     test_thread (Finished (Ok (createDeniedResult "replay")))]).
Proof.
  refine (one_server_is_serial test_engine Services (test_world, replicate 2 (test_thread Waiting))
    (ended_again.1, _) test_config _ _ _ _ _); [by repeat constructor| |by repeat constructor| |by repeat constructor].
  - apply Forall_replicate. cbn [frameBytes test_thread]. by_decision.
  - rewrite <- ended_granted, <- ended_again_denied. exact test_overlap.
Defined.

(** The detector is off. *)
Definition quiet_world : EState world :=
  mkEState test_state (Some (Detector.Detector_new (Detector.mkDetectorConfig false 100 5)))
    (Some (EventBus.EventBus_new 4)).

Lemma two_servers_grant_twice_witness :
  exists s2 fr, rtc (step test_engine)
      (quiet_world, [mkThread Services test_request Waiting; mkThread DecisionEndpoint test_request Waiting])
      (s2, [mkThread Services test_request (Finished (Ok granted_result));
            mkThread DecisionEndpoint test_request (Decrypted fr)]) /\
    forall s3 v, decideFrame test_engine (length test_request) fr s2 = (s3, Ok v) -> v = granted_result.
Proof.
  refine (two_servers_grant_twice test_engine test_request quiet_world
    (handleFrameBytes test_engine test_request quiet_world).1 granted_result test_config
    _ eq_refl eq_refl eq_refl _ _ eq_refl).
  - by_decision.
  - by split.
  - vm_compute. reflexivity.
Defined.

Lemma one_server_grants_once_witness :
  grants [test_thread (Finished (Ok granted_result));
          test_thread (Finished (Ok (createDeniedResult "replay")))] = 1%nat /\
  (grants [test_thread (Finished (Ok granted_result));
           test_thread (Finished (Ok (createDeniedResult "replay")))] <= 1)%nat.
Proof.
  split; [reflexivity|].
  refine (one_server_grants_once test_engine Services test_request 2 test_world (ended_again.1, _)
    test_config _ eq_refl _ _).
  - by_decision.
  - apply HandlerFacts.windows_ok_new. exact test_config.
  - rewrite <- ended_granted, <- ended_again_denied. exact test_overlap.
Defined.

End OverlapProps.
