(* ===== verification/Sqlite.v ===== *)
(** SQLite as the storage layer uses it: the interface ([Sqlite]), the tables
    and the meaning of each SQL statement of the program ([Sql]), what the
    library promises ([SqliteLaws]), and access_storage/sqlite_helpers. *)
From Stdlib Require Import ZArith Lia.
From stdpp Require Import base option list gmap strings sorting.
From S2P Require Import Prelude.
Local Open Scope Z_scope.

(** ** The interface

    [D] is the state behind a connection. A statement is run with its bound
    parameters: the rows that [sqlite3_step] delivers, and the code it ends
    with. [sqlite_exec] gives [None] for [SQLITE_OK], else the error text, if
    the library supplies one. *)

Inductive value := VNull | VInt (z : Z) | VText (s : string) | VBlob (b : bytes).

#[global] Instance value_eq_dec : EqDecision value.
Proof. solve_decision. Defined.

Abbreviation row := (list value).

Definition SQLITE_ROW : Z := 100.
Definition SQLITE_DONE : Z := 101.

Class Sqlite (D : Type) := {
  sqlite_exec : string -> D -> D * option (option string);
  sqlite_prepare : string -> D -> bool;
  sqlite_run : string -> list value -> D -> D * (list row * Z);
  column_int : value -> Z;
  column_int64 : value -> Z;
  column_text : value -> option string;
  column_blob : value -> option bytes;
}.

(** ** sqlite_helpers *)

Module Helpers.
Section Helpers.
Context {D : Type} `{Sqlite D}.

Definition execOrThrow (sql : string) : M D unit := fun d =>
  match sqlite_exec sql d with
  | (d', None) => (d', Ok tt)
  | (d', Some err) => (d', Throw (runtime_error (default "sqlite error"%string err)))
  end.

(** [prepare_or msg]: [sqlite3_prepare_v2], or [std::runtime_error(msg)]. *)
Definition prepare_or (msg sql : string) : M D unit := fun d =>
  if sqlite_prepare sql d then (d, Ok tt) else (d, Throw (runtime_error msg)).

Definition prepareOrThrow (sql : string) : M D unit := prepare_or "sqlite prepare failed" sql.

(** The rows a statement delivers, and the code after the last one. *)
Definition run (sql : string) (params : list value) : M D (list row * Z) := fun d =>
  match sqlite_run sql params d with (d', r) => (d', Ok r) end.

(** The code of the first [sqlite3_step]. *)
Definition first_step (r : list row * Z) : Z :=
  match r.1 with [] => r.2 | _ => SQLITE_ROW end.

(** [if (sqlite3_step(st) != SQLITE_DONE) throw std::runtime_error(msg);] *)
Definition step_done (sql : string) (params : list value) (msg : string) : M D unit :=
  r ← run sql params;
  if decide (first_step r <> SQLITE_DONE) then throw (runtime_error msg) else mret tt.

(** The value in a column of a row. *)
Definition col (r : row) (i : nat) : value := default VNull (r !! i).

(** [sqlite3_bind_int] and [sqlite3_bind_int64] of a cast unsigned number;
    [sqlite3_bind_text] of [c_str()] with length -1. *)
Definition bind_int (z : Z) : value := VInt (i32 z).
Definition bind_int64 (z : Z) : value := VInt (i64 z).
Definition bind_cstr (s : string) : value := VText (cstr s).

(** [txt ? std::string(txt) : ""]. *)
Definition text_of (v : value) : string := from_option cstr ""%string (column_text v).

End Helpers.
End Helpers.

(** ** The database and its statements *)

Module Sql.

(** One row of audit_log, as it is stored. *)
Record audit_row := mkAuditRow {
  a_id : Z;
  a_ts : Z;
  a_reader : Z;
  a_door : Z;
  a_seq : Z;
  a_allow : Z;
  a_reason : string;
  a_card : option string;
  a_action : option string;
  a_prev : bytes;
  a_entry : bytes;
}.

#[global] Instance audit_row_eq_dec : EqDecision audit_row.
Proof. solve_decision. Defined.

(** The tables of the two schemas; audit_log in the order of its ids, with the
    largest id ever used (AUTOINCREMENT). *)
Record tables := mkTables {
  cards : gmap string string;
  door_roles : gset (Z * string);
  readers : gmap Z Z;
  reader_doors : gset (Z * Z);
  audit_log : list audit_row;
  audit_last_id : Z;
  audit_anchor : option (bytes * Z);
}.

Definition no_tables : tables := mkTables ∅ ∅ ∅ ∅ [] 0 None.

(** The tables as the connection sees them, what they were when the open
    transaction, if any, began, and whether foreign keys are enforced. *)
Record database := mkDatabase {
  current : tables;
  saved : option tables;
  foreign_keys : bool;
}.

Definition set_cards c t := mkTables c (door_roles t) (readers t) (reader_doors t) (audit_log t)
  (audit_last_id t) (audit_anchor t).
Definition set_door_roles r t := mkTables (cards t) r (readers t) (reader_doors t) (audit_log t)
  (audit_last_id t) (audit_anchor t).
Definition set_readers r rd t := mkTables (cards t) (door_roles t) r rd (audit_log t)
  (audit_last_id t) (audit_anchor t).
Definition set_audit l i t := mkTables (cards t) (door_roles t) (readers t) (reader_doors t) l i
  (audit_anchor t).
Definition set_anchor a t := mkTables (cards t) (door_roles t) (readers t) (reader_doors t)
  (audit_log t) (audit_last_id t) a.

(** The statements of sqlite_access_store.cpp, sqlite_audit_log.cpp,
    audit_verify.cpp and audit_service.cpp. *)
Inductive stmt :=
| JournalMode | BusyTimeout | ForeignKeysOn
| CreateCards | CreateDoorRoles | CreateReaders | CreateReaderDoors
| UpsertCard | AllowRole | RoleForCard | IsAllowed | UpsertReader | KeyVersion
| AllowDoor | IsReaderAllowedDoor
| ListReaders | ListReaderDoorsAll | ListReaderDoorsOne | ListDoorRolesAll | ListDoorRolesOne
| ListCards | DeleteReader | RevokeDoor | RevokeRole | DeleteCard
| CreateAuditLog | CreateAuditTsIndex | CreateAuditReaderIndex | CreateAnchor | InitAnchor
| LastEntryHash | InsertAudit | UpdateAnchor | Begin | Commit | Rollback
| SelectChain | SelectAnchor | ListAudit.

#[global] Instance stmt_eq_dec : EqDecision stmt.
Proof. solve_decision. Defined.

Definition text (s : stmt) : string :=
  match s with
  | JournalMode => "PRAGMA journal_mode=WAL;"
  | BusyTimeout => "PRAGMA busy_timeout=5000;"
  | ForeignKeysOn => "PRAGMA foreign_keys=ON;"
  | CreateCards =>
      "CREATE TABLE IF NOT EXISTS cards (  card_hmac TEXT PRIMARY KEY,  role TEXT NOT NULL);"
  | CreateDoorRoles =>
      "CREATE TABLE IF NOT EXISTS door_roles (  door_id INTEGER NOT NULL,  role TEXT NOT NULL,  PRIMARY KEY(door_id, role));"
  | CreateReaders =>
      "CREATE TABLE IF NOT EXISTS readers (  reader_id INTEGER PRIMARY KEY,  current_key_version INTEGER NOT NULL);"
  | CreateReaderDoors =>
      "CREATE TABLE IF NOT EXISTS reader_doors (  reader_id INTEGER NOT NULL,  door_id   INTEGER NOT NULL,  PRIMARY KEY(reader_id, door_id),  FOREIGN KEY(reader_id) REFERENCES readers(reader_id) ON DELETE CASCADE);"
  | UpsertCard =>
      "INSERT INTO cards(card_hmac, role) VALUES(?,?) ON CONFLICT(card_hmac) DO UPDATE SET role=excluded.role;"
  | AllowRole => "INSERT OR IGNORE INTO door_roles(door_id, role) VALUES(?,?);"
  | RoleForCard => "SELECT role FROM cards WHERE card_hmac = ? LIMIT 1;"
  | IsAllowed => "SELECT 1 FROM door_roles WHERE door_id = ? AND role = ? LIMIT 1;"
  | UpsertReader =>
      "INSERT INTO readers(reader_id, current_key_version) VALUES(?,?) ON CONFLICT(reader_id) DO UPDATE SET current_key_version=excluded.current_key_version;"
  | KeyVersion => "SELECT current_key_version FROM readers WHERE reader_id = ? LIMIT 1;"
  | AllowDoor => "INSERT OR IGNORE INTO reader_doors(reader_id, door_id) VALUES(?,?);"
  | IsReaderAllowedDoor => "SELECT 1 FROM reader_doors WHERE reader_id = ? AND door_id = ? LIMIT 1;"
  | ListReaders => "SELECT reader_id, current_key_version FROM readers ORDER BY reader_id;"
  | ListReaderDoorsAll => "SELECT reader_id, door_id FROM reader_doors ORDER BY reader_id, door_id;"
  | ListReaderDoorsOne =>
      "SELECT reader_id, door_id FROM reader_doors WHERE reader_id = ? ORDER BY door_id;"
  | ListDoorRolesAll => "SELECT door_id, role FROM door_roles ORDER BY door_id, role;"
  | ListDoorRolesOne => "SELECT door_id, role FROM door_roles WHERE door_id = ? ORDER BY role;"
  | ListCards => "SELECT card_hmac, role FROM cards ORDER BY card_hmac LIMIT ? OFFSET ?;"
  | DeleteReader => "DELETE FROM readers WHERE reader_id = ?;"
  | RevokeDoor => "DELETE FROM reader_doors WHERE reader_id = ? AND door_id = ?;"
  | RevokeRole => "DELETE FROM door_roles WHERE door_id = ? AND role = ?;"
  | DeleteCard => "DELETE FROM cards WHERE card_hmac = ?;"
  | CreateAuditLog =>
      "CREATE TABLE IF NOT EXISTS audit_log (  id INTEGER PRIMARY KEY AUTOINCREMENT,  ts_unix_ms INTEGER NOT NULL,  reader_id INTEGER NOT NULL,  door_id INTEGER NOT NULL,  seq INTEGER NOT NULL,  allow INTEGER NOT NULL,  reason TEXT NOT NULL,  card_hmac TEXT,  action TEXT,  prev_hash BLOB NOT NULL,  entry_hash BLOB NOT NULL);"
  | CreateAuditTsIndex => "CREATE INDEX IF NOT EXISTS idx_audit_ts ON audit_log(ts_unix_ms);"
  | CreateAuditReaderIndex => "CREATE INDEX IF NOT EXISTS idx_audit_reader ON audit_log(reader_id);"
  | CreateAnchor =>
      "CREATE TABLE IF NOT EXISTS audit_anchor (  id INTEGER PRIMARY KEY CHECK (id = 1),  last_hash BLOB NOT NULL,  updated_ts INTEGER NOT NULL);"
  | InitAnchor =>
      "INSERT OR IGNORE INTO audit_anchor(id, last_hash, updated_ts) VALUES(1, zeroblob(32), 0);"
  | LastEntryHash => "SELECT entry_hash FROM audit_log ORDER BY id DESC LIMIT 1;"
  | InsertAudit =>
      "INSERT INTO audit_log( ts_unix_ms, reader_id, door_id, seq, allow, reason, card_hmac, action, prev_hash, entry_hash) VALUES(?,?,?,?,?,?,?,?,?,?);"
  | UpdateAnchor => "UPDATE audit_anchor SET last_hash = ?, updated_ts = ? WHERE id = 1;"
  | Begin => "BEGIN IMMEDIATE;"
  | Commit => "COMMIT;"
  | Rollback => "ROLLBACK;"
  | SelectChain =>
      "SELECT id, ts_unix_ms, reader_id, door_id, seq, allow, reason,        COALESCE(card_hmac,''), COALESCE(action,''), prev_hash, entry_hash FROM audit_log ORDER BY id ASC;"
  | SelectAnchor => "SELECT last_hash FROM audit_anchor WHERE id = 1;"
  | ListAudit =>
      "SELECT id, ts_unix_ms, reader_id, door_id, seq, allow, reason, card_hmac, action FROM audit_log ORDER BY id DESC LIMIT ? OFFSET ?;"
  end.

Definition string_leb (a b : string) : bool := String.leb a b.
Definition pair_leb {A} (leb : A -> A -> bool) (x y : Z * A) : bool :=
  bool_decide (x.1 < y.1) || (bool_decide (x.1 = y.1) && leb x.2 y.2).

(** [ORDER BY]. *)
Definition order_by {A} (leb : A -> A -> bool) (l : list A) : list A :=
  merge_sort (fun x y => Is_true (leb x y)) l.

Definition text_or_null (v : value) : option (option string) :=
  match v with VText s => Some (Some s) | VNull => Some None | _ => None end.

Definition chain_row (r : audit_row) : row :=
  [VInt (a_id r); VInt (a_ts r); VInt (a_reader r); VInt (a_door r); VInt (a_seq r); VInt (a_allow r);
   VText (a_reason r); VText (default ""%string (a_card r)); VText (default ""%string (a_action r));
   VBlob (a_prev r); VBlob (a_entry r)].

Definition null_or_text (o : option string) : value :=
  match o with Some t => VText t | None => VNull end.

Definition audit_cells (r : audit_row) : row :=
  [VInt (a_id r); VInt (a_ts r); VInt (a_reader r); VInt (a_door r); VInt (a_seq r); VInt (a_allow r);
   VText (a_reason r); null_or_text (a_card r); null_or_text (a_action r)].

(** [LIMIT limit OFFSET offset]: a negative limit is none, a negative offset 0. *)
Definition page {A} (limit offset : Z) (l : list A) : list A :=
  let rest := drop (Z.to_nat offset) l in
  if decide (limit < 0) then rest else take (Z.to_nat limit) rest.

Definition max_rowid : Z := 2 ^ 63 - 1.

(** A change of the tables inside the database. *)
Definition change (db : database) (t : tables) : option (list row * database) :=
  Some ([], mkDatabase t (saved db) (foreign_keys db)).

(** The rows a query answers with. *)
Definition answer (db : database) (rows : list row) : option (list row * database) := Some (rows, db).

(** What a statement does, [None] if a constraint or the transaction state
    forbids it. *)
Definition meaning (s : stmt) (ps : list value) (db : database) : option (list row * database) :=
  let t := current db in
  match s, ps with
  | JournalMode, [] | BusyTimeout, []
  | CreateCards, [] | CreateDoorRoles, [] | CreateReaders, [] | CreateReaderDoors, []
  | CreateAuditLog, [] | CreateAuditTsIndex, [] | CreateAuditReaderIndex, [] | CreateAnchor, [] =>
      answer db []
  | ForeignKeysOn, [] => Some ([], mkDatabase t (saved db) (bool_decide (saved db = None) || foreign_keys db))
  | UpsertCard, [VText c; VText r] => change db (set_cards (<[c := r]> (cards t)) t)
  | AllowRole, [VInt d; VText r] => change db (set_door_roles ({[(d, r)]} ∪ door_roles t) t)
  | RoleForCard, [VText c] =>
      answer db (match cards t !! c with Some r => [[VText r]] | None => [] end)
  | IsAllowed, [VInt d; VText r] =>
      answer db (if decide ((d, r) ∈ door_roles t) then [[VInt 1]] else [])
  | UpsertReader, [VInt r; VInt v] => change db (set_readers (<[r := v]> (readers t)) (reader_doors t) t)
  | KeyVersion, [VInt r] =>
      answer db (match readers t !! r with Some v => [[VInt v]] | None => [] end)
  | AllowDoor, [VInt r; VInt d] =>
      if decide (foreign_keys db = true /\ ((r, d) ∉ reader_doors t) /\ readers t !! r = None) then None
      else change db (set_readers (readers t) ({[(r, d)]} ∪ reader_doors t) t)
  | IsReaderAllowedDoor, [VInt r; VInt d] =>
      answer db (if decide ((r, d) ∈ reader_doors t) then [[VInt 1]] else [])
  | ListReaders, [] =>
      answer db ((fun x : Z * Z => [VInt x.1; VInt x.2]) <$>
        order_by (pair_leb Z.leb) (map_to_list (readers t)))
  | ListReaderDoorsAll, [] =>
      answer db ((fun x : Z * Z => [VInt x.1; VInt x.2]) <$>
        order_by (pair_leb Z.leb) (elements (reader_doors t)))
  | ListReaderDoorsOne, [VInt r] =>
      answer db ((fun x : Z * Z => [VInt x.1; VInt x.2]) <$>
        order_by (pair_leb Z.leb) (filter (fun x => x.1 = r) (elements (reader_doors t))))
  | ListDoorRolesAll, [] =>
      answer db ((fun x : Z * string => [VInt x.1; VText x.2]) <$>
        order_by (pair_leb string_leb) (elements (door_roles t)))
  | ListDoorRolesOne, [VInt d] =>
      answer db ((fun x : Z * string => [VInt x.1; VText x.2]) <$>
        order_by (pair_leb string_leb) (filter (fun x => x.1 = d) (elements (door_roles t))))
  | ListCards, [VInt limit; VInt offset] =>
      let sorted := order_by (fun x y => string_leb x.1 y.1) (map_to_list (cards t)) in
      answer db ((fun x : string * string => [VText x.1; VText x.2]) <$> page limit offset sorted)
  | DeleteReader, [VInt r] =>
      let doors := if foreign_keys db then filter (fun x => x.1 <> r) (reader_doors t)
                   else reader_doors t in
      change db (set_readers (delete r (readers t)) doors t)
  | RevokeDoor, [VInt r; VInt d] => change db (set_readers (readers t) (reader_doors t ∖ {[(r, d)]}) t)
  | RevokeRole, [VInt d; VText r] => change db (set_door_roles (door_roles t ∖ {[(d, r)]}) t)
  | DeleteCard, [VText c] => change db (set_cards (delete c (cards t)) t)
  | InitAnchor, [] =>
      match audit_anchor t with
      | Some _ => answer db []
      | None => change db (set_anchor (Some (replicate 32 0, 0)) t)
      end
  | LastEntryHash, [] =>
      answer db (match last (audit_log t) with Some r => [[VBlob (a_entry r)]] | None => [] end)
  | InsertAudit, [VInt ts; VInt reader; VInt door; VInt seq; VInt allow; VText reason; card; action;
                  VBlob prev; VBlob entry] =>
      match text_or_null card, text_or_null action with
      | Some c, Some a =>
          if decide (audit_last_id t < max_rowid) then
            let i := audit_last_id t + 1 in
            change db (set_audit
              (audit_log t ++ [mkAuditRow i ts reader door seq allow reason c a prev entry]) i t)
          else None
      | _, _ => None
      end
  | UpdateAnchor, [VBlob h; VInt ts] =>
      match audit_anchor t with
      | Some _ => change db (set_anchor (Some (h, ts)) t)
      | None => answer db []
      end
  | Begin, [] =>
      match saved db with
      | None => Some ([], mkDatabase t (Some t) (foreign_keys db))
      | Some _ => None
      end
  | Commit, [] =>
      match saved db with
      | Some _ => Some ([], mkDatabase t None (foreign_keys db))
      | None => None
      end
  | Rollback, [] =>
      match saved db with
      | Some old => Some ([], mkDatabase old None (foreign_keys db))
      | None => None
      end
  | SelectChain, [] => answer db (chain_row <$> audit_log t)
  | SelectAnchor, [] =>
      answer db (match audit_anchor t with Some (h, _) => [[VBlob h]] | None => [] end)
  | ListAudit, [VInt limit; VInt offset] =>
      answer db (audit_cells <$> page limit offset (reverse (audit_log t)))
  | _, _ => None
  end.

(** The database after an error that rolled the open transaction back. *)
Definition rolled_back (db : database) : database :=
  match saved db with
  | Some old => mkDatabase old None (foreign_keys db)
  | None => db
  end.

(** No text parameter has an embedded NUL: SQLite leaves the result of
    operating on such text undefined. *)
Definition clean_value (v : value) : Prop :=
  match v with VText s => cstr s = s | _ => True end.
Definition clean (ps : list value) : Prop := Forall clean_value ps.

#[global] Instance clean_value_dec v : Decision (clean_value v).
Proof. destruct v; apply _. Defined.

End Sql.

(** ** What SQLite promises

    A statement that ends in [SQLITE_DONE] did what it means; one that fails
    did nothing, except that an error may roll the open transaction back. *)
Class SqliteLaws (D : Type) `{Sqlite D} := {
  content : D -> Sql.database;
  run_done s ps d d' rows :
    sqlite_run (Sql.text s) ps d = (d', (rows, SQLITE_DONE)) -> Sql.clean ps ->
    Sql.meaning s ps (content d) = Some (rows, content d');
  run_failed s ps d d' rows rc :
    sqlite_run (Sql.text s) ps d = (d', (rows, rc)) -> rc <> SQLITE_DONE -> Sql.clean ps ->
    content d' = content d \/ content d' = Sql.rolled_back (content d);
  exec_ok s d d' :
    sqlite_exec (Sql.text s) d = (d', None) ->
    exists rows, Sql.meaning s [] (content d) = Some (rows, content d');
  exec_failed s d d' err :
    sqlite_exec (Sql.text s) d = (d', Some err) ->
    content d' = content d \/ content d' = Sql.rolled_back (content d);
  column_int_int z : column_int (VInt z) = i32 z;
  column_int64_int z : - 2 ^ 63 <= z < 2 ^ 63 -> column_int64 (VInt z) = z;
  column_text_text s : column_text (VText s) = Some s;
  column_text_null : column_text VNull = None;
  column_blob_blob b : column_blob (VBlob b) = if decide (b = []) then None else Some b;
}.

(** A database that is not busy, full or broken: what can be done is done. *)
Class SqliteReliable (D : Type) `{SqliteLaws D} : Prop := {
  prepare_reliable s d : sqlite_prepare (Sql.text s) d = true;
  run_reliable s ps d rows db :
    Sql.clean ps -> Sql.meaning s ps (content d) = Some (rows, db) ->
    exists d', sqlite_run (Sql.text s) ps d = (d', (rows, SQLITE_DONE));
  exec_reliable s d rows db :
    Sql.meaning s [] (content d) = Some (rows, db) ->
    exists d', sqlite_exec (Sql.text s) d = (d', None);
}.

(** A row that is delivered is a row of the answer, whatever happens to the rest;
    and [SQLITE_ROW] is not the code after the last one. *)
Class SqliteRows (D : Type) `{SqliteLaws D} : Prop := {
  rows_true s ps d row : Sql.clean ps -> row ∈ (sqlite_run (Sql.text s) ps d).2.1 ->
    exists rows db, Sql.meaning s ps (content d) = Some (rows, db) /\ row ∈ rows;
  last_code s ps d : (sqlite_run (Sql.text s) ps d).2.2 <> SQLITE_ROW;
}.

(** ** Running statements *)

Module SqliteFacts.
Import Helpers.
Section SqliteFacts.
Context {D : Type} `{SqliteLaws D}.
Context (T : Prop) (T_reliable : T -> SqliteReliable D).

Lemma wp_prepare_or msg s (d : D) (Q : unit -> D -> Prop) :
  Q tt d -> wp T (prepare_or msg (Sql.text s)) d Q.
Proof.
  intros HQ. unfold wp, prepare_or. destruct (sqlite_prepare _ d) eqn:E; [done|].
  intros HT%T_reliable. by rewrite prepare_reliable in E.
Qed.

(** An update: either it is done, or it throws. *)
Lemma wp_step_done s ps msg (d : D) (Q : unit -> D -> Prop) :
  Sql.clean ps -> (T -> exists db, Sql.meaning s ps (content d) = Some ([], db)) ->
  (forall d', Sql.meaning s ps (content d) = Some ([], content d') -> Q tt d') ->
  wp T (step_done (Sql.text s) ps msg) d Q.
Proof.
  intros Hc HT HQ. unfold wp, step_done, run. cbv [mbind M_bind].
  destruct (sqlite_run _ ps d) as [d' [rows rc]] eqn:E. unfold first_step. cbn [fst snd].
  destruct (decide (_ <> SQLITE_DONE)) as [Hn|Hd].
  - intros Ht. destruct (HT Ht) as [db Hm]. destruct (T_reliable Ht).
    destruct (run_reliable0 s ps d [] db Hc Hm) as [d2 E2]. rewrite E in E2. by simplify_eq.
  - apply dec_stable in Hd. destruct rows; [|done]. subst rc. apply HQ. by apply run_done.
Qed.

(** An update that a constraint forbids throws, and changes nothing unless the
    error ended a transaction. *)
Lemma step_done_forbidden s ps msg (d : D) :
  Sql.clean ps -> Sql.meaning s ps (content d) = None ->
  exists d', step_done (Sql.text s) ps msg d = (d', Throw (runtime_error msg)) /\
    (content d' = content d \/ content d' = Sql.rolled_back (content d)).
Proof.
  intros Hc Hm. unfold step_done, run. cbv [mbind M_bind].
  destruct (sqlite_run _ ps d) as [d' [rows rc]] eqn:E. exists d'.
  destruct (decide (rc = SQLITE_DONE)) as [->|Hn].
  { apply run_done in E; [|done]. by rewrite Hm in E. }
  rewrite decide_True; [split; [done|by eapply run_failed]|].
  unfold first_step. by destruct rows.
Qed.

Lemma wp_exec s (d : D) (Q : unit -> D -> Prop) :
  (T -> is_Some (Sql.meaning s [] (content d))) ->
  (forall d' rows, Sql.meaning s [] (content d) = Some (rows, content d') -> Q tt d') ->
  wp T (execOrThrow (Sql.text s)) d Q.
Proof.
  intros HT HQ. unfold wp, execOrThrow. destruct (sqlite_exec _ d) as [d' [err|]] eqn:E.
  - intros Ht. destruct (HT Ht) as [[rows db] Hm]. destruct (T_reliable Ht).
    destruct (exec_reliable0 s d rows db Hm) as [d2 E2]. by rewrite E in E2.
  - destruct (exec_ok s d d' E) as [rows Hm]. by eapply HQ.
Qed.

End SqliteFacts.

(** A query of a reliable database answers with its meaning. *)
Lemma run_query {D : Type} `{SqliteReliable D} s ps (d : D) rows :
  Sql.clean ps -> Sql.meaning s ps (content d) = Some (rows, content d) ->
  exists d', run (Sql.text s) ps d = (d', Ok (rows, SQLITE_DONE)) /\ content d' = content d.
Proof.
  intros Hc Hm. destruct (run_reliable s ps d rows _ Hc Hm) as [d' E]. exists d'.
  unfold run. rewrite E. split; [done|].
  pose proof (run_done s ps d d' rows E Hc). by simplify_eq.
Qed.

Lemma run_prepared {D : Type} `{SqliteReliable D} msg s (d : D) :
  prepare_or msg (Sql.text s) d = (d, Ok tt).
Proof. unfold prepare_or. by rewrite prepare_reliable. Qed.

Lemma clean_nil : Sql.clean [].
Proof. by apply Forall_nil_2. Qed.
Lemma clean_cons v ps : Sql.clean_value v -> Sql.clean ps -> Sql.clean (v :: ps).
Proof. by apply Forall_cons_2. Qed.
Lemma clean_int z : Sql.clean_value (bind_int z).
Proof. done. Qed.
Lemma clean_int64 z : Sql.clean_value (bind_int64 z).
Proof. done. Qed.
Lemma clean_cstr s : Sql.clean_value (bind_cstr s).
Proof. apply cstr_cstr. Qed.
Lemma clean_text s : cstr s = s -> Sql.clean_value (VText s).
Proof. done. Qed.

End SqliteFacts.

Create HintDb sqlite.
#[export] Hint Resolve SqliteFacts.clean_nil SqliteFacts.clean_cons SqliteFacts.clean_int
  SqliteFacts.clean_int64 SqliteFacts.clean_cstr SqliteFacts.clean_text : sqlite.

(** ** A database in memory

    A concrete instance that meets the promises: it does what each statement
    means, and fails otherwise. *)

Module MemDb.
Import Sql.

Definition statements : list stmt :=
  [JournalMode; BusyTimeout; ForeignKeysOn; CreateCards; CreateDoorRoles; CreateReaders;
   CreateReaderDoors; UpsertCard; AllowRole; RoleForCard; IsAllowed; UpsertReader; KeyVersion;
   AllowDoor; IsReaderAllowedDoor; ListReaders; ListReaderDoorsAll; ListReaderDoorsOne;
   ListDoorRolesAll; ListDoorRolesOne; ListCards; DeleteReader; RevokeDoor; RevokeRole; DeleteCard;
   CreateAuditLog; CreateAuditTsIndex; CreateAuditReaderIndex; CreateAnchor; InitAnchor;
   LastEntryHash; InsertAudit; UpdateAnchor; Begin; Commit; Rollback; SelectChain; SelectAnchor;
   ListAudit].

Fixpoint parse_in (l : list stmt) (sql : string) : option stmt :=
  match l with
  | [] => None
  | s :: l' => if String.eqb (text s) sql then Some s else parse_in l' sql
  end.

Definition SQLITE_ERROR : Z := 1.

Definition run (sql : string) (ps : list value) (db : database) : database * (list row * Z) :=
  match parse_in statements sql with
  | Some s =>
      match meaning s ps db with
      | Some (rows, db') => (db', (rows, SQLITE_DONE))
      | None => (db, ([], SQLITE_ERROR))
      end
  | None => (db, ([], SQLITE_ERROR))
  end.

#[export] Instance sqlite : Sqlite database := {|
  sqlite_exec sql db :=
    match run sql [] db with
    | (db', (_, rc)) => (db', if decide (rc = SQLITE_DONE) then None else Some None)
    end;
  sqlite_prepare sql _ := bool_decide (is_Some (parse_in statements sql));
  sqlite_run := run;
  column_int v := match v with VInt z => i32 z | _ => 0 end;
  column_int64 v := match v with VInt z => z | _ => 0 end;
  column_text v := match v with VText s => Some s | _ => None end;
  column_blob v := match v with VBlob (b :: bs) => Some (b :: bs) | _ => None end;
|}.

Lemma parse_text s : parse_in statements (text s) = Some s.
Proof. destruct s; vm_compute; reflexivity. Qed.

Lemma run_text s ps db :
  run (text s) ps db =
    match meaning s ps db with
    | Some (rows, db') => (db', (rows, SQLITE_DONE))
    | None => (db, ([], SQLITE_ERROR))
    end.
Proof. unfold run. by rewrite parse_text. Qed.

#[export] Instance laws : SqliteLaws database.
Proof.
  refine {| content db := db |}.
  - intros s ps d d' rows. cbn [sqlite_run sqlite]. rewrite run_text.
    destruct (meaning s ps d) as [[r db]|]; by intros; simplify_eq.
  - intros s ps d d' rows rc. cbn [sqlite_run sqlite]. rewrite run_text.
    destruct (meaning s ps d) as [[r db]|]; intros; simplify_eq; by left.
  - intros s d d'. cbn [sqlite_exec sqlite]. rewrite run_text.
    destruct (meaning s [] d) as [[r db]|]; intros [= <-]; by eexists.
  - intros s d d' err. cbn [sqlite_exec sqlite]. rewrite run_text.
    destruct (meaning s [] d) as [[r db]|]; intros; simplify_eq; by left.
  - done.
  - done.
  - done.
  - done.
  - by intros [].
Defined.

#[export] Instance reliable : SqliteReliable database.
Proof.
  split.
  - intros s d. cbn [sqlite_prepare sqlite]. by rewrite parse_text.
  - intros s ps d rows db _ Hm. cbn [sqlite_run sqlite]. rewrite run_text.
    cbn [content laws] in Hm. rewrite Hm. by eexists.
  - intros s d rows db Hm. cbn [sqlite_exec sqlite]. rewrite run_text.
    cbn [content laws] in Hm. rewrite Hm. by eexists.
Defined.

#[export] Instance rows : SqliteRows database.
Proof.
  split.
  - intros s ps d row _. cbn [sqlite_run sqlite content laws]. rewrite run_text.
    destruct (meaning s ps d) as [[rows db']|]; cbn; intros Hin; [by exists rows, db'|].
    by apply not_elem_of_nil in Hin.
  - intros s ps d. cbn [sqlite_run sqlite]. rewrite run_text. by destruct (meaning s ps d) as [[rows db']|].
Defined.

End MemDb.
