(* ===== verification/SqliteStore.v ===== *)
(** access_storage/sqlite_access_store: the policy tables and the store
    interface over them. *)
From Stdlib Require Import ZArith Lia.
From stdpp Require Import base option list gmap strings sorting.
From S2P Require Import Prelude Access Sqlite.
Local Open Scope Z_scope.

Module SqliteAccessStore.
Import Helpers.

Record ReaderRow := mkReaderRow { reader_id : Z; current_key_version : Z }.
Record ReaderDoorRow := mkReaderDoorRow { rd_reader_id : Z; rd_door_id : Z }.
Record DoorRoleRow := mkDoorRoleRow { dr_door_id : Z; dr_role : string }.
Record CardRow := mkCardRow { c_card_hmac : string; c_role : string }.

Section SqliteAccessStore.
Context {D : Type} `{Sqlite D}.

(** The constructor, once [sqlite3_open] succeeded. *)
Definition SqliteAccessStore_open : M D unit :=
  execOrThrow (Sql.text Sql.JournalMode) ;;
  execOrThrow (Sql.text Sql.BusyTimeout) ;;
  execOrThrow (Sql.text Sql.ForeignKeysOn).

Definition initSchema : M D unit :=
  execOrThrow (Sql.text Sql.CreateCards) ;;
  execOrThrow (Sql.text Sql.CreateDoorRoles) ;;
  execOrThrow (Sql.text Sql.CreateReaders) ;;
  execOrThrow (Sql.text Sql.CreateReaderDoors).

Definition prepare (s : Sql.stmt) : M D unit := prepare_or "prepare failed" (Sql.text s).

Definition upsertCardHmac (cardHmacHex role : string) : M D unit :=
  prepare Sql.UpsertCard ;;
  step_done (Sql.text Sql.UpsertCard) [bind_cstr cardHmacHex; bind_cstr role] "upsertCardHmac failed".

Definition allowRole (doorId : Z) (role : string) : M D unit :=
  prepare Sql.AllowRole ;;
  step_done (Sql.text Sql.AllowRole) [bind_int doorId; bind_cstr role] "allowRole failed".

(** Anything but a row, an error included, is [nullopt]. *)
Definition roleForCardHmac (cardHmacHex : string) : M D (option string) :=
  prepare Sql.RoleForCard ;;
  r ← run (Sql.text Sql.RoleForCard) [VText cardHmacHex];
  mret (match r.1 with
        | row :: _ => Some (text_of (col row 0))
        | [] => None
        end).

Definition isAllowed (doorId : Z) (role : string) : M D bool :=
  prepare Sql.IsAllowed ;;
  r ← run (Sql.text Sql.IsAllowed) [bind_int doorId; VText role];
  mret (bool_decide (first_step r = SQLITE_ROW)).

Definition upsertReader (reader_id current_key_version : Z) : M D unit :=
  prepare Sql.UpsertReader ;;
  step_done (Sql.text Sql.UpsertReader) [bind_int reader_id; bind_int current_key_version]
    "upsert_reader failed".

Definition currentKeyVersionForReader (reader_id : Z) : M D Z :=
  prepare Sql.KeyVersion ;;
  r ← run (Sql.text Sql.KeyVersion) [bind_int reader_id];
  mret (match r.1 with
        | row :: _ =>
            let v := column_int (col row 0) in
            if decide (v <= 0) then 0 else u32 v
        | [] => 0
        end).

Definition allowDoorForReader (reader_id door_id : Z) : M D unit :=
  prepare Sql.AllowDoor ;;
  step_done (Sql.text Sql.AllowDoor) [bind_int reader_id; bind_int door_id]
    "allowDoorForReader failed".

Definition isReaderAllowedDoor (reader_id door_id : Z) : M D bool :=
  prepare Sql.IsReaderAllowedDoor ;;
  r ← run (Sql.text Sql.IsReaderAllowedDoor) [bind_int reader_id; bind_int door_id];
  mret (bool_decide (first_step r = SQLITE_ROW)).

(** The rows up to the first step that is not [SQLITE_ROW]. *)
Definition select {A} (s : Sql.stmt) (params : list value) (read : row -> A) : M D (list A) :=
  prepareOrThrow (Sql.text s) ;;
  r ← run (Sql.text s) params;
  mret (read <$> r.1).

Definition listReaders : M D (list ReaderRow) :=
  select Sql.ListReaders []
    (fun r => mkReaderRow (u32 (column_int (col r 0))) (u32 (column_int (col r 1)))).

Definition listReaderDoors (reader_id : Z) : M D (list ReaderDoorRow) :=
  select (if decide (reader_id = 0) then Sql.ListReaderDoorsAll else Sql.ListReaderDoorsOne)
    (if decide (reader_id <> 0) then [bind_int reader_id] else [])
    (fun r => mkReaderDoorRow (u32 (column_int (col r 0))) (u32 (column_int (col r 1)))).

Definition listDoorRoles (door_id : Z) : M D (list DoorRoleRow) :=
  select (if decide (door_id = 0) then Sql.ListDoorRolesAll else Sql.ListDoorRolesOne)
    (if decide (door_id <> 0) then [bind_int door_id] else [])
    (fun r => mkDoorRoleRow (u32 (column_int (col r 0))) (text_of (col r 1))).

Definition listCards (limit offset : Z) : M D (list CardRow) :=
  select Sql.ListCards [bind_int64 limit; bind_int64 offset]
    (fun r => mkCardRow (text_of (col r 0)) (text_of (col r 1))).

Definition deleteReader (reader_id : Z) : M D unit :=
  prepareOrThrow (Sql.text Sql.DeleteReader) ;;
  step_done (Sql.text Sql.DeleteReader) [bind_int reader_id] "deleteReader failed".

Definition revokeDoorForReader (reader_id door_id : Z) : M D unit :=
  prepareOrThrow (Sql.text Sql.RevokeDoor) ;;
  step_done (Sql.text Sql.RevokeDoor) [bind_int reader_id; bind_int door_id]
    "revokeDoorForReader failed".

Definition revokeRole (door_id : Z) (role : string) : M D unit :=
  prepareOrThrow (Sql.text Sql.RevokeRole) ;;
  step_done (Sql.text Sql.RevokeRole) [bind_int door_id; VText role] "revokeRole failed".

Definition deleteCardHmac (card_hmac : string) : M D unit :=
  prepareOrThrow (Sql.text Sql.DeleteCard) ;;
  step_done (Sql.text Sql.DeleteCard) [VText card_hmac] "deleteCardHmac failed".

#[global] Instance sqlite_store : IAccessStore D := {|
  Access.roleForCardHmac := roleForCardHmac;
  Access.isAllowed := isAllowed;
  Access.currentKeyVersionForReader := currentKeyVersionForReader;
  Access.upsertReader := upsertReader;
  Access.isReaderAllowedDoor := isReaderAllowedDoor;
  Access.allowDoorForReader := allowDoorForReader;
|}.

End SqliteAccessStore.
End SqliteAccessStore.

(** ** The policy the tables hold *)

Module StoreSpec.
Import Helpers SqliteAccessStore.

(** A stored key version as the program reads it: negative (from 2^31 on) and
    zero are "no version". *)
Definition version_value (v : Z) : Z := if decide (i32 v <= 0) then 0 else u32 (i32 v).

Definition policy (t : Sql.tables) : PolicyView := {|
  view_role c := cstr <$> (Sql.cards t !! c);
  view_allowed d r := bool_decide ((i32 d, r) ∈ Sql.door_roles t);
  view_key_version r := from_option version_value 0 (Sql.readers t !! i32 r);
  view_bound r d := bool_decide ((i32 r, i32 d) ∈ Sql.reader_doors t);
|}.

(** Two policies that answer every question of the program alike. *)
Record view_equiv (v v' : PolicyView) : Prop := {
  eq_role c : cstr c = c -> view_role v c = view_role v' c;
  eq_allowed d r : is_u32 d -> cstr r = r -> view_allowed v d r = view_allowed v' d r;
  eq_version r : is_u32 r -> view_key_version v r = view_key_version v' r;
  eq_bound r d : is_u32 r -> is_u32 d -> view_bound v r d = view_bound v' r d;
}.

#[global] Instance view_equivalence : Equivalence view_equiv.
Proof.
  split.
  - by intros v.
  - intros v v' [E1 E2 E3 E4]. split; intros; symmetry; [by apply E1|by apply E2|by apply E3|by apply E4].
  - intros v1 v2 v3 [E1 E2 E3 E4] [F1 F2 F3 F4].
    split; intros; [by rewrite E1, F1|by rewrite E2, F2|by rewrite E3, F3|by rewrite E4, F4].
Qed.

(** The administrative operations. *)
Inductive update :=
| PutCard (cardHmac role : string)
| RemoveCard (cardHmac : string)
| GrantRole (door : Z) (role : string)
| WithdrawRole (door : Z) (role : string)
| PutReader (reader version : Z)
| RemoveReader (reader : Z)
| BindDoor (reader door : Z)
| UnbindDoor (reader door : Z).

Definition update_ok (u : update) : Prop :=
  match u with
  | PutCard _ _ => True
  | RemoveCard c => cstr c = c
  | GrantRole d _ => is_u32 d
  | WithdrawRole d r => is_u32 d /\ cstr r = r
  | PutReader r v => is_u32 r /\ is_u32 v
  | RemoveReader r => is_u32 r
  | BindDoor r d | UnbindDoor r d => is_u32 r /\ is_u32 d
  end.

Definition run_update {D} `{Sqlite D} (u : update) : M D unit :=
  match u with
  | PutCard c r => upsertCardHmac c r
  | RemoveCard c => deleteCardHmac c
  | GrantRole d r => allowRole d r
  | WithdrawRole d r => revokeRole d r
  | PutReader r v => upsertReader r v
  | RemoveReader r => deleteReader r
  | BindDoor r d => allowDoorForReader r d
  | UnbindDoor r d => revokeDoorForReader r d
  end.

(** What each does to the policy. *)
Definition apply_update (u : update) (v : PolicyView) : PolicyView :=
  match u with
  | PutCard c r => mkPolicyView
      (fun c' => if decide (c' = cstr c) then Some (cstr r) else view_role v c')
      (view_allowed v) (view_key_version v) (view_bound v)
  | RemoveCard c => mkPolicyView
      (fun c' => if decide (c' = c) then None else view_role v c')
      (view_allowed v) (view_key_version v) (view_bound v)
  | GrantRole d r => mkPolicyView (view_role v)
      (fun d' r' => bool_decide (d' = d /\ r' = cstr r) || view_allowed v d' r')
      (view_key_version v) (view_bound v)
  | WithdrawRole d r => mkPolicyView (view_role v)
      (fun d' r' => negb (bool_decide (d' = d /\ r' = r)) && view_allowed v d' r')
      (view_key_version v) (view_bound v)
  | PutReader r n => mkPolicyView (view_role v) (view_allowed v)
      (fun r' => if decide (r' = r) then (if decide (n < 2 ^ 31) then n else 0)
                 else view_key_version v r') (view_bound v)
  | RemoveReader r => mkPolicyView (view_role v) (view_allowed v)
      (fun r' => if decide (r' = r) then 0 else view_key_version v r')
      (fun r' d' => negb (bool_decide (r' = r)) && view_bound v r' d')
  | BindDoor r d => mkPolicyView (view_role v) (view_allowed v) (view_key_version v)
      (fun r' d' => bool_decide (r' = r /\ d' = d) || view_bound v r' d')
  | UnbindDoor r d => mkPolicyView (view_role v) (view_allowed v) (view_key_version v)
      (fun r' d' => negb (bool_decide (r' = r /\ d' = d)) && view_bound v r' d')
  end.

End StoreSpec.

(** ** Lemmas *)

Module StoreFacts.
Import Helpers SqliteAccessStore StoreSpec SqliteFacts.

Lemma version_value_range v : is_u32 (version_value v).
Proof. unfold version_value. case_decide; [by_decision|apply u32_range]. Qed.

Lemma version_value_i32 n :
  is_u32 n -> version_value (i32 n) = if decide (n < 2 ^ 31) then n else 0.
Proof.
  intros Hn. unfold version_value.
  assert (i32 (i32 n) = i32 n) as -> by apply i32_id, i32_i64_range.
  unfold is_u32 in Hn. destruct (decide (n < 2 ^ 31)) as [Hlt|Hge].
  - rewrite i32_id by lia. case_decide; [lia|]. rewrite u32_id; [done|]. unfold is_u32. lia.
  - rewrite decide_True; [done|]. unfold i32.
    rewrite <- (Z.mod_unique (n + 2 ^ 31) (2 ^ 32) 1 (n - 2 ^ 31)); lia.
Qed.

Section Queries.
Context {D : Type} `{SqliteReliable D}.

(** Run a prepared query on the tables. *)
Ltac query d :=
  unfold prepare; cbv [mbind M_bind]; rewrite run_prepared;
  match goal with |- context [run (Sql.text ?s) ?ps d] =>
    let Eq := fresh "Eq" in
    edestruct (run_query s ps d) as (?d' & Eq & ?Hd);
      [repeat apply clean_cons; auto with sqlite | reflexivity | rewrite Eq; clear Eq] end.

Lemma role_run c (d : D) :
  cstr c = c ->
  exists d', roleForCardHmac c d = (d', Ok (view_role (policy (Sql.current (content d))) c)) /\
    content d' = content d.
Proof.
  intros Hc. unfold roleForCardHmac. query d. exists d'. split; [|done]. cbn.
  destruct (Sql.cards _ !! c); [|done]. cbn. unfold text_of, col. cbn.
  by rewrite column_text_text.
Qed.

Lemma allowed_run door r (d : D) :
  cstr r = r ->
  exists d', isAllowed door r d =
      (d', Ok (view_allowed (policy (Sql.current (content d))) door r)) /\ content d' = content d.
Proof.
  intros Hr. unfold isAllowed. query d. exists d'. split; [|done]. cbn.
  case_decide as Hin; [by rewrite (bool_decide_true (_ ∈ _))|by rewrite (bool_decide_false (_ ∈ _))].
Qed.

Lemma version_run r (d : D) :
  exists d', currentKeyVersionForReader r d =
      (d', Ok (view_key_version (policy (Sql.current (content d))) r)) /\ content d' = content d.
Proof.
  unfold currentKeyVersionForReader. query d. exists d'. split; [|done]. cbn.
  destruct (Sql.readers _ !! i32 r); [|done]. cbn. unfold col, version_value. cbn.
  by rewrite column_int_int.
Qed.

Lemma bound_run r door (d : D) :
  exists d', isReaderAllowedDoor r door d =
      (d', Ok (view_bound (policy (Sql.current (content d))) r door)) /\ content d' = content d.
Proof.
  unfold isReaderAllowedDoor. query d. exists d'. split; [|done]. cbn.
  case_decide as Hin; [by rewrite (bool_decide_true (_ ∈ _))|by rewrite (bool_decide_false (_ ∈ _))].
Qed.

(** The store keeps the promises of [IAccessStore]. *)
#[global] Instance sqlite_store_spec : AccessStoreSpec D.
Proof.
  refine {| policy_of d := policy (Sql.current (content d)) |}.
  - intros c w w' r Hc E. destruct (role_run c w Hc) as (d' & E' & Hd).
    cbn in E. rewrite E' in E. simplify_eq. by rewrite Hd.
  - intros c w r. cbn. destruct (Sql.cards _ !! c); intros; simplify_eq/=. apply cstr_cstr.
  - intros door r w w' b _ Hr E. destruct (allowed_run door r w Hr) as (d' & E' & Hd).
    cbn in E. rewrite E' in E. simplify_eq. by rewrite Hd.
  - intros r w w' v _ E. destruct (version_run r w) as (d' & E' & Hd).
    cbn in E. rewrite E' in E. simplify_eq. by rewrite Hd.
  - intros w r. cbn. destruct (Sql.readers _ !! _); [apply version_value_range|by_decision].
  - intros r door w w' b _ _ E. destruct (bound_run r door w) as (d' & E' & Hd).
    cbn in E. rewrite E' in E. simplify_eq. by rewrite Hd.
Defined.

End Queries.
#[global] Instance sqlite_store_returns {D : Type} `{SqliteReliable D} : StoreReturns D.
Proof.
  split; intros; cbn;
    unfold roleForCardHmac, isAllowed, currentKeyVersionForReader, isReaderAllowedDoor, prepare;
    cbv [mbind M_bind]; rewrite run_prepared; unfold run; destruct (sqlite_run _ _ _); by eexists _, _.
Qed.

(** One update, at the level of the tables. *)
Definition update_tables (fk : bool) (u : update) (t : Sql.tables) : Sql.tables :=
  match u with
  | PutCard c r => Sql.set_cards (<[cstr c := cstr r]> (Sql.cards t)) t
  | RemoveCard c => Sql.set_cards (delete c (Sql.cards t)) t
  | GrantRole d r => Sql.set_door_roles ({[(i32 d, cstr r)]} ∪ Sql.door_roles t) t
  | WithdrawRole d r => Sql.set_door_roles (Sql.door_roles t ∖ {[(i32 d, r)]}) t
  | PutReader r v => Sql.set_readers (<[i32 r := i32 v]> (Sql.readers t)) (Sql.reader_doors t) t
  | RemoveReader r => Sql.set_readers (delete (i32 r) (Sql.readers t))
      (if fk then filter (fun x => x.1 <> i32 r) (Sql.reader_doors t) else Sql.reader_doors t) t
  | BindDoor r d => Sql.set_readers (Sql.readers t) ({[(i32 r, i32 d)]} ∪ Sql.reader_doors t) t
  | UnbindDoor r d => Sql.set_readers (Sql.readers t) (Sql.reader_doors t ∖ {[(i32 r, i32 d)]}) t
  end.

(** What the foreign key forbids. *)
Definition forbidden (u : update) (db : Sql.database) : Prop :=
  match u with
  | BindDoor r d => Sql.foreign_keys db = true /\
      ((i32 r, i32 d) ∉ Sql.reader_doors (Sql.current db)) /\
      Sql.readers (Sql.current db) !! i32 r = None
  | _ => False
  end.

Lemma wp_update {D : Type} `{SqliteLaws D} (T : Prop) (u : update) (d : D) :
  update_ok u -> (T -> SqliteReliable D) -> (T -> ~ forbidden u (content d)) ->
  wp T (run_update u) d (fun _ d' =>
    content d' = Sql.mkDatabase (update_tables (Sql.foreign_keys (content d)) u (Sql.current (content d)))
      (Sql.saved (content d)) (Sql.foreign_keys (content d))).
Proof.
  intros Hu HT Hf. destruct u; cbn in Hu, Hf;
    unfold run_update, upsertCardHmac, deleteCardHmac, allowRole, revokeRole, upsertReader,
      deleteReader, allowDoorForReader, revokeDoorForReader, prepare;
    apply wp_bind, wp_prepare_or; try done; apply wp_step_done; try done;
    try (repeat apply clean_cons; destruct_and?; auto with sqlite; fail);
    try (intros _; cbn; eexists; reflexivity);
    try (intros d' Hm; cbn in Hm; unfold Sql.change in Hm; by simplify_eq).
  - intros Ht. cbn. rewrite decide_False by (by apply Hf). by eexists.
  - intros d' Hm. cbn in Hm. unfold Sql.change in Hm. case_decide; by simplify_eq.
Qed.

(** The tables change as the policy should. *)
Lemma update_tables_policy u t :
  update_ok u -> view_equiv (policy (update_tables true u t)) (apply_update u (policy t)).
Proof.
  intros Hu. destruct u as [c r|c|d r|d r|r v|r|r d|r d]; cbn in Hu; split; intros;
    destruct_and?; cbn; try done.
  - destruct (decide (c0 = cstr c)) as [->|];
      [rewrite lookup_insert_eq; cbn; by rewrite cstr_cstr|by rewrite lookup_insert_ne].
  - destruct (decide (c0 = c)) as [->|]; [by rewrite lookup_delete_eq|by rewrite lookup_delete_ne].
  - rewrite <- bool_decide_or. apply bool_decide_ext. pose proof (i32_inj d0 d). set_solver.
  - rewrite <- bool_decide_not, <- bool_decide_and. apply bool_decide_ext.
    pose proof (i32_inj d0 d). set_solver.
  - destruct (decide (r0 = r)) as [->|Hne].
    + rewrite lookup_insert_eq. by apply version_value_i32.
    + rewrite lookup_insert_ne; [done|]. intros E. by apply Hne, i32_inj.
  - destruct (decide (r0 = r)) as [->|Hne]; [by rewrite lookup_delete_eq|].
    rewrite lookup_delete_ne; [done|]. intros E. by apply Hne, i32_inj.
  - rewrite <- bool_decide_not, <- bool_decide_and. apply bool_decide_ext.
    pose proof (i32_inj r0 r). rewrite elem_of_filter. naive_solver.
  - rewrite <- bool_decide_or. apply bool_decide_ext.
    pose proof (i32_inj r0 r). pose proof (i32_inj d0 d). set_solver.
  - rewrite <- bool_decide_not, <- bool_decide_and. apply bool_decide_ext.
    pose proof (i32_inj r0 r). pose proof (i32_inj d0 d). set_solver.
Qed.

End StoreFacts.

(** ** Properties of the store *)

Module StoreProps.
Import SqliteAccessStore StoreSpec StoreFacts MemDb.

(** Reader 7 is known, with key version 2 and door 3. *)
Definition test_db : Sql.database :=
  Sql.mkDatabase
    (Sql.mkTables {["aa" := "staff"]} {[(3, "staff")]} {[7 := 2]} {[(7, 3)]} [] 0 None)
    None true.

(** C35: the store is the abstract policy. On a database that does what it can,
    every administrative operation (cards, roles, readers, bindings) returns,
    and afterwards the store answers every question as the policy updated by
    that operation: nothing else changes, deleting a reader takes its doors
    with it, and the audit log is not touched. *)
Theorem store_update_refines {D : Type} `{SqliteReliable D} (u : update) (d : D) :
  update_ok u -> Sql.foreign_keys (content d) = true -> ~ forbidden u (content d) ->
  exists d', run_update u d = (d', Ok tt) /\
    view_equiv (policy_of d') (apply_update u (policy_of d)) /\
    Sql.audit_log (Sql.current (content d')) = Sql.audit_log (Sql.current (content d)).
Proof.
  intros Hu Hfk Hf.
  destruct (wp_returns True _ _ _
    (wp_update True u d Hu (fun _ => _) (fun _ => Hf)) I) as (d' & [] & E & Hd).
  exists d'. split; [done|]. cbn [policy_of sqlite_store_spec]. rewrite Hd. cbn [Sql.current].
  rewrite Hfk. split; [by apply update_tables_policy|by destruct u].
Qed.

Lemma store_update_refines_witness :
  exists d', run_update (RemoveReader 7) test_db = (d', Ok tt) /\
    view_equiv (policy_of d') (apply_update (RemoveReader 7) (policy_of test_db)) /\
    Sql.audit_log (Sql.current (content d')) = Sql.audit_log (Sql.current (content test_db)).
Proof.
  apply (store_update_refines (RemoveReader 7) test_db); [cbn; by_decision|reflexivity|intros []].
Defined.

(** A door is bound to known readers only. Binding a door to a reader that
    is not registered throws, and the tables are as before (or, inside a
    transaction the error ended, as they were when it began). *)
Theorem bind_unknown_reader_throws {D : Type} `{SqliteReliable D} (reader door : Z) (d : D) :
  is_u32 reader -> is_u32 door -> Sql.foreign_keys (content d) = true ->
  Sql.readers (Sql.current (content d)) !! i32 reader = None ->
  view_bound (policy_of d) reader door = false ->
  exists d', allowDoorForReader reader door d
      = (d', Throw (runtime_error "allowDoorForReader failed")) /\
    (content d' = content d \/ content d' = Sql.rolled_back (content d)).
Proof.
  intros Hr Hd Hfk Hn Hb. unfold allowDoorForReader, prepare. cbv [mbind M_bind].
  rewrite SqliteFacts.run_prepared.
  apply SqliteFacts.step_done_forbidden; [auto with sqlite|].
  cbn in Hb |- *. apply bool_decide_eq_false in Hb. by rewrite decide_True.
Qed.

Lemma bind_unknown_reader_throws_witness :
  exists d', allowDoorForReader 8 3 test_db
      = (d', Throw (runtime_error "allowDoorForReader failed")) /\
    (content d' = content test_db \/ content d' = Sql.rolled_back (content test_db)).
Proof. apply (bind_unknown_reader_throws 8 3 test_db); by_decision || reflexivity. Defined.

(** Key versions from 2^31 on are lost. [upsertReader] stores such a
    version without complaint, and the reader then counts as unknown: its
    version reads back as 0. *)
Theorem large_key_version_reads_zero {D : Type} `{SqliteReliable D} (reader version : Z) (d : D) :
  is_u32 reader -> is_u32 version -> 2 ^ 31 <= version ->
  exists d1 d2, upsertReader reader version d = (d1, Ok tt) /\
    currentKeyVersionForReader reader d1 = (d2, Ok 0).
Proof.
  intros Hr Hv Hbig.
  destruct (wp_returns True _ _ _
    (wp_update True (PutReader reader version) d (conj Hr Hv) (fun _ => _) (fun _ F => F)) I)
    as (d1 & [] & E & Hd1).
  destruct (version_run reader d1) as (d2 & E2 & _). exists d1, d2. split; [done|].
  rewrite E2, Hd1. cbn [Sql.current update_tables policy view_key_version Sql.set_readers Sql.readers].
  rewrite lookup_insert_eq. cbn [from_option]. rewrite version_value_i32 by done.
  by rewrite decide_False by lia.
Qed.

Lemma large_key_version_reads_zero_witness :
  exists d1 d2, upsertReader 9 2147483648 test_db = (d1, Ok tt) /\
    currentKeyVersionForReader 9 d1 = (d2, Ok 0).
Proof. apply large_key_version_reads_zero; by_decision || lia. Defined.

End StoreProps.
