(* ===== verification/AuditLog.v ===== *)
(** access_storage, the audit log: the canonical bytes of an event
    ([Serialization]), the hash-chained table ([SqliteAuditLog]) and its
    verification ([AuditVerify]). *)
From Stdlib Require Import ZArith Lia.
From stdpp Require Import base option list gmap strings.
From S2P Require Import Prelude LittleEndian Crypto Access Sqlite SqliteStore.
Local Open Scope Z_scope.

(** ** serialization *)

Module Serialization.

Definition putLe32 (v : Z) (out : bytes) : bytes :=
  out ++ [u8 (Z.land v 255)] ++ [u8 (Z.land (Z.shiftr v 8) 255)] ++
  [u8 (Z.land (Z.shiftr v 16) 255)] ++ [u8 (Z.land (Z.shiftr v 24) 255)].

Definition putLe64 (v : Z) (out : bytes) : bytes :=
  foldl (fun out i => out ++ [u8 (Z.land (Z.shiftr v (8 * Z.of_nat i)) 255)]) out (seq 0 8).

Definition putBytesWithLen (s : string) (out : bytes) : bytes :=
  putLe32 (u32 (Z.of_nat (String.length s))) out ++ bytes_of_string s.

End Serialization.

(** ** SqliteAuditLog *)

Module SqliteAuditLog.
Import Helpers Serialization.

Definition kHashSize : nat := 32.

Definition zero_hash : bytes := replicate kHashSize 0.

Record SqliteAuditLog := mkSqliteAuditLog { _key : bytes; _chainEnabled : bool }.

Section SqliteAuditLog.
Context {D : Type} `{Sodium, Sqlite D}.

Definition initSchema : M D unit :=
  execOrThrow (Sql.text Sql.CreateAuditLog) ;;
  execOrThrow (Sql.text Sql.CreateAuditTsIndex) ;;
  execOrThrow (Sql.text Sql.CreateAuditReaderIndex) ;;
  execOrThrow (Sql.text Sql.CreateAnchor) ;;
  execOrThrow (Sql.text Sql.InitAnchor).

(** The constructor; [db] tells whether the handle is non-null. *)
Definition SqliteAuditLog_new (db : bool) (hmacKey : bytes) (chainEnabled : bool) :
    M D SqliteAuditLog :=
  if negb db then throw (invalid_argument "SqliteAuditLog: db is null")
  else initSchema ;; mret (mkSqliteAuditLog hmacKey chainEnabled).

Definition getLastEntryHash : M D bytes :=
  prepareOrThrow (Sql.text Sql.LastEntryHash) ;;
  r ← run (Sql.text Sql.LastEntryHash) [];
  match r.1 with
  | row :: _ =>
      match column_blob (col row 0) with
      | Some blob =>
          if decide (length blob <> kHashSize)
          then throw (runtime_error "SqliteAuditLog: bad entry_hash blob") else mret blob
      | None => throw (runtime_error "SqliteAuditLog: bad entry_hash blob")
      end
  | [] => mret zero_hash
  end.

Definition computeEntryHash (l : SqliteAuditLog) (prevHash : bytes) (e : Audit.AuditEvent) : bytes :=
  let fields := [] in
  let fields := putLe64 (Audit.ts_unix_ms e) fields in
  let fields := putLe32 (Audit.reader_id e) fields in
  let fields := putLe32 (Audit.door_id e) fields in
  let fields := putLe64 (Audit.seqno e) fields in
  let fields := fields ++ [if Audit.allow e then 1 else 0] in
  let fields := putBytesWithLen (Audit.reason e) fields in
  let fields := putBytesWithLen (Audit.card_id e) fields in
  let fields := putBytesWithLen (Audit.action e) fields in
  CryptoUtils.hmac_sha256 (_key l) (prevHash ++ fields).

(** [bind_null] of an empty text, else [bind_text]. *)
Definition bind_text_or_null (s : string) : value :=
  match s with EmptyString => VNull | _ => bind_cstr s end.

Definition insertAuditEntry (e : Audit.AuditEvent) (prevHash entryHash : bytes) : M D unit :=
  prepareOrThrow (Sql.text Sql.InsertAudit) ;;
  step_done (Sql.text Sql.InsertAudit)
    [bind_int64 (Audit.ts_unix_ms e); bind_int (Audit.reader_id e); bind_int (Audit.door_id e);
     bind_int64 (Audit.seqno e); VInt (if Audit.allow e then 1 else 0);
     bind_cstr (Audit.reason e); bind_text_or_null (Audit.card_id e);
     bind_text_or_null (Audit.action e); VBlob prevHash; VBlob entryHash]
    "SqliteAuditLog: insert failed".

Definition updateAnchor (entryHash : bytes) (ts : Z) : M D unit :=
  prepareOrThrow (Sql.text Sql.UpdateAnchor) ;;
  step_done (Sql.text Sql.UpdateAnchor) [VBlob entryHash; bind_int64 ts]
    "SqliteAuditLog: anchor update failed".

Definition append (l : SqliteAuditLog) (e : Audit.AuditEvent) : M D unit :=
  execOrThrow (Sql.text Sql.Begin) ;;
  try_catch
    (if negb (_chainEnabled l) then
       insertAuditEntry e zero_hash zero_hash ;;
       execOrThrow (Sql.text Sql.Commit)
     else
       prev ← getLastEntryHash;
       let entry := computeEntryHash l prev e in
       insertAuditEntry e prev entry ;;
       updateAnchor entry (Audit.ts_unix_ms e) ;;
       execOrThrow (Sql.text Sql.Commit))
    (fun err => execOrThrow (Sql.text Sql.Rollback) ;; throw err).

End SqliteAuditLog.
End SqliteAuditLog.

(** ** audit_verify *)

Module AuditVerify.
Import Helpers Serialization.

Definition kVerifyHashSize : nat := 32.

Record AuditVerifyResult := mkResult { ok : bool; bad_id : Z; error : string }.

#[global] Instance AuditVerifyResult_eq_dec : EqDecision AuditVerifyResult.
Proof. solve_decision. Defined.

Record AuditRow := mkRow {
  id : Z;
  ts : Z;
  reader_id : Z;
  door_id : Z;
  seqno : Z;
  allow : bool;
  reason : string;
  card_hmac : string;
  action : string;
  storedPrev : bytes;
  storedEntry : bytes;
}.

Section AuditVerify.
Context {D : Type} `{Sodium, Sqlite D}.

Definition computeEntryHash (key prev : bytes) (ts reader_id door_id seqno : Z) (allow : bool)
    (reason card_hmac action : string) : bytes :=
  let fields := [] in
  let fields := putLe64 ts fields in
  let fields := putLe32 reader_id fields in
  let fields := putLe32 door_id fields in
  let fields := putLe64 seqno fields in
  let fields := fields ++ [if allow then 1 else 0] in
  let fields := putBytesWithLen reason fields in
  let fields := putBytesWithLen card_hmac fields in
  let fields := putBytesWithLen action fields in
  CryptoUtils.hmac_sha256 key (prev ++ fields).

(** The row, and [false] if one of the hashes is not 32 bytes. *)
Definition extractRow (r : row) : AuditRow * bool :=
  let base prev entry := mkRow (column_int64 (col r 0)) (u64 (column_int64 (col r 1)))
    (u32 (column_int (col r 2))) (u32 (column_int (col r 3))) (u64 (column_int64 (col r 4)))
    (bool_decide (column_int (col r 5) <> 0)) (text_of (col r 6)) (text_of (col r 7))
    (text_of (col r 8)) prev entry in
  let zeros := replicate kVerifyHashSize 0 in
  match column_blob (col r 9), column_blob (col r 10) with
  | Some prev, Some entry =>
      if decide (length prev = kVerifyHashSize /\ length entry = kVerifyHashSize)
      then (base prev entry, true) else (base zeros zeros, false)
  | _, _ => (base zeros zeros, false)
  end.

Definition verifyRow (hmacKey : bytes) (r : AuditRow) (expectedPrev : bytes) : AuditVerifyResult :=
  if decide (sodium_memcmp (storedPrev r) expectedPrev <> 0)
  then mkResult false (id r) "prev_hash mismatch"
  else
    let expectedEntry := computeEntryHash hmacKey expectedPrev (ts r) (reader_id r) (door_id r)
      (seqno r) (allow r) (reason r) (card_hmac r) (action r) in
    if decide (sodium_memcmp (storedEntry r) expectedEntry <> 0)
    then mkResult false (id r) "entry_hash mismatch"
    else mkResult true (-1) "".

Definition verifyAnchor (lastEntry : bytes) (anyRows : bool) : M D AuditVerifyResult :=
  prepareOrThrow (Sql.text Sql.SelectAnchor) ;;
  r ← run (Sql.text Sql.SelectAnchor) [];
  mret (match r.1 with
        | [] => mkResult false (-1) "anchor row missing"
        | row :: _ =>
            match column_blob (col row 0) with
            | None => mkResult false (-1) "anchor last_hash bad blob"
            | Some anchor =>
                if decide (length anchor <> kVerifyHashSize)
                then mkResult false (-1) "anchor last_hash bad blob"
                else if decide (sodium_memcmp anchor lastEntry <> 0)
                then mkResult false (if anyRows then -2 else -1)
                       "anchor mismatch (possible truncation)"
                else mkResult true (-1) ""
            end
        end).

(** The loop over the rows; [inr] when it ran to the end. *)
Fixpoint verify_rows (hmacKey : bytes) (rows : list row) (rc : Z)
    (expectedPrev lastEntry : bytes) (anyRows : bool) : AuditVerifyResult + bytes * bool :=
  match rows with
  | [] =>
      if decide (rc = SQLITE_DONE) then inr (lastEntry, anyRows)
      else inl (mkResult false (-1) "step failed")
  | r :: rows' =>
      let '(row, good) := extractRow r in
      if negb good then inl (mkResult false (id row) "bad hash blob length")
      else
        let rowResult := verifyRow hmacKey row expectedPrev in
        if negb (ok rowResult) then inl rowResult
        else verify_rows hmacKey rows' rc (storedEntry row) (storedEntry row) true
  end.

Definition verifyAuditChain (db : bool) (hmacKey : bytes) : M D AuditVerifyResult :=
  if negb db then mret (mkResult false (-1) "db is null")
  else
    prepareOrThrow (Sql.text Sql.SelectChain) ;;
    r ← run (Sql.text Sql.SelectChain) [];
    let zeros := replicate kVerifyHashSize 0 in
    match verify_rows hmacKey r.1 r.2 zeros zeros false with
    | inl res => mret res
    | inr (lastEntry, anyRows) => verifyAnchor lastEntry anyRows
    end.

End AuditVerify.
End AuditVerify.

(** ** The chain *)

Module ChainSpec.
Import SqliteAuditLog.

(** The canonical bytes of an event. *)
Definition text_bytes (s : string) : bytes :=
  le_bytes 4 (Z.of_nat (String.length s)) ++ bytes_of_string s.

Definition event_bytes (e : Audit.AuditEvent) : bytes :=
  le_bytes 8 (Audit.ts_unix_ms e) ++ le_bytes 4 (Audit.reader_id e) ++ le_bytes 4 (Audit.door_id e) ++
  le_bytes 8 (Audit.seqno e) ++ [if Audit.allow e then 1 else 0] ++
  text_bytes (Audit.reason e) ++ text_bytes (Audit.card_id e) ++ text_bytes (Audit.action e).

(** The event a stored row stands for, as the verifier reads it. *)
Definition row_event (r : Sql.audit_row) : Audit.AuditEvent :=
  Audit.mkAuditEvent (u64 (Sql.a_ts r)) (u32 (i32 (Sql.a_reader r))) (u32 (i32 (Sql.a_door r)))
    (u64 (Sql.a_seq r)) (bool_decide (i32 (Sql.a_allow r) <> 0)) (cstr (Sql.a_reason r))
    (cstr (default "" (Sql.a_card r))) (cstr (default "" (Sql.a_action r))).

Definition trail (t : Sql.tables) : list Audit.AuditEvent := row_event <$> Sql.audit_log t.

(** What SQLite can hold: 64-bit integers, texts below 4 GB. *)
Record row_fits (r : Sql.audit_row) : Prop := {
  fits_id : - 2 ^ 63 <= Sql.a_id r < 2 ^ 63;
  fits_ts : - 2 ^ 63 <= Sql.a_ts r < 2 ^ 63;
  fits_seq : - 2 ^ 63 <= Sql.a_seq r < 2 ^ 63;
  fits_reason : is_u32 (Z.of_nat (String.length (cstr (Sql.a_reason r))));
  fits_card : is_u32 (Z.of_nat (String.length (cstr (default "" (Sql.a_card r)))));
  fits_action : is_u32 (Z.of_nat (String.length (cstr (default "" (Sql.a_action r)))));
}.
#[global] Instance row_fits_dec r : Decision (row_fits r).
Proof.
  refine (iff_decision (P := (- 2 ^ 63 <= Sql.a_id r < 2 ^ 63) /\ (- 2 ^ 63 <= Sql.a_ts r < 2 ^ 63) /\
    (- 2 ^ 63 <= Sql.a_seq r < 2 ^ 63) /\
    is_u32 (Z.of_nat (String.length (cstr (Sql.a_reason r)))) /\
    is_u32 (Z.of_nat (String.length (cstr (default "" (Sql.a_card r))))) /\
    is_u32 (Z.of_nat (String.length (cstr (default "" (Sql.a_action r)))))) _ _).
  split; [intros (? & ? & ? & ? & ? & ?); by split|by intros []].
Defined.

Definition log_fits (t : Sql.tables) : Prop := Forall row_fits (Sql.audit_log t).

(** An event whose texts are below 4 GB. *)
Definition event_fits (e : Audit.AuditEvent) : Prop :=
  is_u32 (Z.of_nat (String.length (Audit.reason e))) /\
  is_u32 (Z.of_nat (String.length (Audit.card_id e))) /\
  is_u32 (Z.of_nat (String.length (Audit.action e))).
#[global] Instance event_fits_dec e : Decision (event_fits e).
Proof. unfold event_fits. apply _. Defined.

Section ChainSpec.
Context `{SodiumLaws} (key : bytes).

Definition link (prev : bytes) (r : Sql.audit_row) : bytes := prev ++ event_bytes (row_event r).

(** Each row carries the hash of the row before it and its own hash over both. *)
Fixpoint chained (prev : bytes) (rows : list Sql.audit_row) : Prop :=
  match rows with
  | [] => True
  | r :: rows' =>
      Sql.a_prev r = prev /\ Sql.a_entry r = HMAC key (link prev r) /\ chained (Sql.a_entry r) rows'
  end.

(** The hash the chain ends with. *)
Definition last_hash (prev : bytes) (rows : list Sql.audit_row) : bytes :=
  from_option Sql.a_entry prev (last rows).

Definition chain_ok (t : Sql.tables) : Prop :=
  chained zero_hash (Sql.audit_log t) /\
  exists ts, Sql.audit_anchor t = Some (last_hash zero_hash (Sql.audit_log t), ts).

(** What was hashed along the chain. *)
Fixpoint messages (prev : bytes) (rows : list Sql.audit_row) : list bytes :=
  match rows with
  | [] => []
  | r :: rows' => link prev r :: messages (Sql.a_entry r) rows'
  end.

(** The identifier of the first row that does not continue the chain. *)
Fixpoint first_bad (prev : bytes) (rows : list Sql.audit_row) : option Z :=
  match rows with
  | [] => None
  | r :: rows' =>
      if decide (Sql.a_prev r = prev /\ Sql.a_entry r = HMAC key (link prev r))
      then first_bad (Sql.a_entry r) rows' else Some (Sql.a_id r)
  end.

End ChainSpec.
End ChainSpec.

(** ** Lemmas *)

Module ChainFacts.
Import Helpers Serialization SqliteAuditLog ChainSpec SqliteFacts.

Lemma row_putLe32_le v out : putLe32 v out = out ++ le_bytes 4 v.
Proof. rewrite <- map_byte_at. unfold putLe32, byte_at. simpl. by rewrite Z.shiftr_0_r. Qed.

Lemma putLe64_le v out : putLe64 v out = out ++ le_bytes 8 v.
Proof. rewrite <- map_byte_at. unfold putLe64. simpl. rewrite <- !app_assoc. done. Qed.

Lemma putBytesWithLen_text s out :
  is_u32 (Z.of_nat (String.length s)) -> putBytesWithLen s out = out ++ text_bytes s.
Proof. intros Hs. unfold putBytesWithLen. by rewrite row_putLe32_le, u32_id, <- app_assoc. Qed.

Lemma text_bytes_inj s s' r r' :
  is_u32 (Z.of_nat (String.length s)) -> is_u32 (Z.of_nat (String.length s')) ->
  text_bytes s ++ r = text_bytes s' ++ r' -> s = s' /\ r = r'.
Proof.
  intros Hs Hs'. unfold text_bytes. rewrite <- !app_assoc.
  intros [E1 E]%app_inj_length; [|by rewrite !length_le_bytes].
  apply (le_bytes_inj 4) in E1; [|done..].
  apply app_inj_length in E as [E ->]; [|rewrite !length_bytes_of_string; lia].
  by apply bytes_of_string_inj in E.
Qed.

(** Two events that fit have the same canonical bytes only if they are equal. *)
Lemma event_bytes_inj e e' :
  event_ok e -> event_ok e' -> event_fits e -> event_fits e' -> event_bytes e = event_bytes e' -> e = e'.
Proof.
  intros [T1 R1 D1 S1 _ _ _] [T2 R2 D2 S2 _ _ _] (F1 & F2 & F3) (G1 & G2 & G3).
  unfold event_bytes. intros E.
  apply app_inj_length in E as [E1 E]; [|by rewrite !length_le_bytes].
  apply app_inj_length in E as [E2 E]; [|by rewrite !length_le_bytes].
  apply app_inj_length in E as [E3 E]; [|by rewrite !length_le_bytes].
  apply app_inj_length in E as [E4 E]; [|by rewrite !length_le_bytes].
  apply app_inj_length in E as [E5 E]; [|done].
  apply text_bytes_inj in E as [E6 E]; [|done..]. apply text_bytes_inj in E as [E7 E]; [|done..].
  rewrite <- (app_nil_r (text_bytes (Audit.action e))),
    <- (app_nil_r (text_bytes (Audit.action e'))) in E.
  apply text_bytes_inj in E as [E8 _]; [|done..].
  apply (le_bytes_inj 8) in E1; [|done..]. apply (le_bytes_inj 4) in E2; [|done..].
  apply (le_bytes_inj 4) in E3; [|done..]. apply (le_bytes_inj 8) in E4; [|done..].
  destruct e, e'; cbn in *. repeat f_equal; try done. by destruct allow, allow0.
Qed.

Lemma row_event_ok r : event_ok (row_event r).
Proof.
  split; cbn; try apply u64_range; try apply u32_range; apply cstr_cstr.
Qed.

Lemma row_event_fits r : row_fits r -> event_fits (row_event r).
Proof. intros []. by split. Qed.

Section Hashes.
Context `{SodiumLaws}.

Lemma computeEntryHash_spec (l : SqliteAuditLog) prev e :
  event_fits e -> computeEntryHash l prev e = HMAC (_key l) (prev ++ event_bytes e).
Proof.
  intros (F1 & F2 & F3). unfold computeEntryHash, event_bytes.
  rewrite !putBytesWithLen_text by done. rewrite !row_putLe32_le, !putLe64_le, CryptoFacts.hmac_sha256_HMAC.
  rewrite <- !app_assoc. done.
Qed.

Lemma verify_hash_spec key prev e :
  event_fits e ->
  AuditVerify.computeEntryHash key prev (Audit.ts_unix_ms e) (Audit.reader_id e) (Audit.door_id e)
    (Audit.seqno e) (Audit.allow e) (Audit.reason e) (Audit.card_id e) (Audit.action e)
  = HMAC key (prev ++ event_bytes e).
Proof. exact (computeEntryHash_spec (mkSqliteAuditLog key true) prev e). Qed.

End Hashes.
Section Verify.
Context {D : Type} `{SodiumLaws, SqliteReliable D} (key : bytes).

Lemma column_hash b : length b = 32%nat -> column_blob (VBlob b) = Some b.
Proof. intros Hb. rewrite column_blob_blob. by rewrite decide_False by (by intros ->). Qed.

(** The verifier reads of a row its identifier, its event and its hashes. *)
Lemma extractRow_good r :
  row_fits r -> length (Sql.a_prev r) = 32%nat -> length (Sql.a_entry r) = 32%nat ->
  let e := row_event r in
  AuditVerify.extractRow (Sql.chain_row r) =
    (AuditVerify.mkRow (Sql.a_id r) (Audit.ts_unix_ms e) (Audit.reader_id e) (Audit.door_id e)
       (Audit.seqno e) (Audit.allow e) (Audit.reason e) (Audit.card_id e) (Audit.action e)
       (Sql.a_prev r) (Sql.a_entry r), true).
Proof.
  intros [] Hp He e. unfold AuditVerify.extractRow, Sql.chain_row, col, text_of. cbn.
  rewrite !column_hash by done. rewrite decide_True by done.
  rewrite !column_int_int, !column_int64_int, !column_text_text by done. done.
Qed.

Lemma extractRow_bad r :
  row_fits r -> ~ (length (Sql.a_prev r) = 32%nat /\ length (Sql.a_entry r) = 32%nat) ->
  exists row, AuditVerify.extractRow (Sql.chain_row r) = (row, false) /\ AuditVerify.id row = Sql.a_id r.
Proof.
  intros [] Hn. unfold AuditVerify.extractRow, Sql.chain_row, col. cbn.
  rewrite !column_blob_blob, column_int64_int by done.
  destruct (decide (Sql.a_prev r = [])); [by eexists|].
  destruct (decide (Sql.a_entry r = [])); [by eexists|].
  rewrite decide_False by done. by eexists.
Qed.

Lemma verifyRow_spec r prev :
  row_fits r -> length prev = 32%nat -> length (Sql.a_prev r) = 32%nat ->
  length (Sql.a_entry r) = 32%nat ->
  let row := (AuditVerify.extractRow (Sql.chain_row r)).1 in
  let res := AuditVerify.verifyRow key row prev in
  if decide (Sql.a_prev r = prev /\ Sql.a_entry r = HMAC key (link prev r))
  then AuditVerify.ok res = true
  else AuditVerify.ok res = false /\ AuditVerify.bad_id res = Sql.a_id r.
Proof.
  intros Hf Hl Hp He row. subst row. rewrite extractRow_good by done. cbn [fst].
  unfold AuditVerify.verifyRow. cbn.
  rewrite (verify_hash_spec key prev (row_event r)) by (by apply row_event_fits).
  assert (forall a b, length a = 32%nat -> length b = 32%nat ->
    sodium_memcmp a b <> 0 <-> a <> b) as Hcmp
    by (intros a b Ha Hb; rewrite memcmp_eq by congruence; done).
  destruct (decide (sodium_memcmp (Sql.a_prev r) prev <> 0)) as [Hc1|Hc1].
  { apply Hcmp in Hc1; [|done..]. by rewrite decide_False by tauto. }
  assert (Sql.a_prev r = prev) by (apply dec_stable; intros ?; apply Hc1; by apply Hcmp).
  destruct (decide (sodium_memcmp _ _ <> 0)) as [Hc2|Hc2].
  { apply Hcmp in Hc2; [|done|apply CryptoFacts.length_HMAC]. by rewrite decide_False by tauto. }
  rewrite decide_True; [done|]. split; [done|].
  apply dec_stable; intros ?; apply Hc2; apply Hcmp; [done|apply CryptoFacts.length_HMAC|done].
Qed.

(** The loop finds the first row that does not continue the chain. *)
Lemma verify_rows_spec rows prev lst any :
  Forall row_fits rows -> length prev = 32%nat ->
  match first_bad key prev rows with
  | None => AuditVerify.verify_rows key (Sql.chain_row <$> rows) SQLITE_DONE prev lst any =
      inr (last_hash lst rows, any || bool_decide (rows <> []))
  | Some i => exists err, AuditVerify.verify_rows key (Sql.chain_row <$> rows) SQLITE_DONE prev lst any =
      inl (AuditVerify.mkResult false i err)
  end.
Proof.
  intros Hf. revert prev lst any. induction Hf as [|r rows Hr Hf IH]; intros prev lst any Hl.
  { cbn. by rewrite orb_false_r. }
  cbn [first_bad fmap list_fmap AuditVerify.verify_rows].
  destruct (decide (length (Sql.a_prev r) = 32%nat /\ length (Sql.a_entry r) = 32%nat))
    as [[Hp He]|Hn]; cycle 1.
  { rewrite decide_False
      by (intros [E1 E2]; apply Hn; rewrite E1, E2; split; [done|apply CryptoFacts.length_HMAC]).
    destruct (extractRow_bad r Hr Hn) as (row & -> & Hid). exists "bad hash blob length"%string.
    cbn [negb]. by rewrite Hid. }
  pose proof (verifyRow_spec r prev Hr Hl Hp He) as Hv. cbv zeta in Hv.
  rewrite extractRow_good in Hv |- * by done. cbn [fst] in Hv. cbn [negb].
  destruct (decide (_ /\ _)) as [[E1 E2]|Hbad].
  - rewrite Hv. cbn [negb AuditVerify.storedEntry].
    specialize (IH (Sql.a_entry r) (Sql.a_entry r) true He). destruct (first_bad _ _ rows); [done|].
    rewrite IH. unfold last_hash. rewrite (bool_decide_true (r :: rows <> [])) by done.
    rewrite orb_true_r, last_cons. by destruct (last rows).
  - destruct Hv as [Hok Hid]. rewrite Hok. cbn [negb].
    destruct (AuditVerify.verifyRow _ _ _) as [o i err]. cbn in Hok, Hid. subst. by exists err.
Qed.

Lemma first_bad_chained prev rows : first_bad key prev rows = None <-> chained key prev rows.
Proof.
  revert prev. induction rows as [|r rows IH]; intros prev; cbn; [done|].
  destruct (decide _) as [[E1 E2]|Hn]; [rewrite IH; naive_solver|naive_solver].
Qed.

Lemma last_hash_length rows prev lst :
  chained key prev rows -> length lst = 32%nat -> length (last_hash lst rows) = 32%nat.
Proof.
  revert prev lst. induction rows as [|r rows IH]; intros prev lst Hc Hl; [done|].
  destruct Hc as (_ & E & Hc). unfold last_hash. rewrite last_cons.
  assert (length (Sql.a_entry r) = 32%nat) as He by (rewrite E; apply CryptoFacts.length_HMAC).
  specialize (IH _ _ Hc He). unfold last_hash in IH. by destruct (last rows).
Qed.

(** The anchor check. *)
Lemma verifyAnchor_spec (d : D) lst any :
  length lst = 32%nat ->
  exists d' res, AuditVerify.verifyAnchor lst any d = (d', Ok res) /\ content d' = content d /\
    (AuditVerify.ok res = true <->
     exists ts, Sql.audit_anchor (Sql.current (content d)) = Some (lst, ts)).
Proof.
  intros Hl. unfold AuditVerify.verifyAnchor. cbv [mbind M_bind].
  unfold prepareOrThrow. rewrite run_prepared.
  edestruct (run_query Sql.SelectAnchor [] d) as (d' & E & Hd); [apply clean_nil|reflexivity|].
  rewrite E. clear E. eexists d', _. split; [done|]. split; [done|]. cbn [fst].
  destruct (Sql.audit_anchor _) as [[h ts]|]; [|naive_solver].
  change (col [VBlob h] 0) with (VBlob h). rewrite column_blob_blob.
  destruct (decide (h = [])) as [->|Hne]; [cbn; split; [done|]; intros [? [= <- _]]; done|].
  destruct (decide (length h <> _)) as [Hh|Hh]; [cbn; split; [done|]; by intros [? [= <- _]]|].
  apply dec_stable in Hh.
  assert (sodium_memcmp h lst <> 0 <-> h <> lst) as Hcmp by (rewrite memcmp_eq by (rewrite Hl; exact Hh); done).
  destruct (decide _) as [Hc|Hc]; cbn.
  - split; [done|]. intros [? [= -> _]]. by apply Hcmp in Hc.
  - split; [intros _|done]. exists ts. do 2 f_equal. apply dec_stable. intros Hn. by apply Hc, Hcmp.
Qed.

(** Verification decides whether the chain is intact, and finds the first bad
    row otherwise. *)
Lemma verify_run (d : D) :
  log_fits (Sql.current (content d)) ->
  exists d' res, AuditVerify.verifyAuditChain true key d = (d', Ok res) /\ content d' = content d /\
    (AuditVerify.ok res = true <-> chain_ok key (Sql.current (content d))) /\
    (forall i, first_bad key zero_hash (Sql.audit_log (Sql.current (content d))) = Some i ->
      AuditVerify.bad_id res = i).
Proof.
  intros Hf. unfold AuditVerify.verifyAuditChain. cbn [negb]. cbv [mbind M_bind].
  unfold prepareOrThrow. rewrite run_prepared.
  edestruct (run_query Sql.SelectChain [] d) as (d1 & E & Hd1); [apply clean_nil|reflexivity|].
  rewrite E. clear E. cbn [fst snd].
  pose proof (verify_rows_spec _ zero_hash zero_hash false Hf eq_refl) as Hv.
  change (replicate AuditVerify.kVerifyHashSize 0) with zero_hash.
  set (rows := Sql.audit_log _) in *. unfold chain_ok. fold rows.
  destruct (first_bad key zero_hash rows) as [i|] eqn:Eb.
  - destruct Hv as [err ->]. eexists d1, _. split; [done|]. split; [done|]. cbn [AuditVerify.ok AuditVerify.bad_id]. split.
    + split; [done|]. intros [Hc _]. apply first_bad_chained in Hc. congruence.
    + by intros ? [= <-].
  - rewrite Hv. apply first_bad_chained in Eb.
    destruct (verifyAnchor_spec d1 (last_hash zero_hash rows) (false || bool_decide (rows <> [])))
      as (d2 & res & E2 & Hd2 & Hok); [by eapply last_hash_length|].
    exists d2, res. rewrite E2. split; [done|]. split; [congruence|]. split; [|done].
    rewrite Hok, Hd1. split; [by intros|by intros [_ ?]].
Qed.

(** *** A verification that says yes, on a database that may fail *)

Lemma anchor_sound `{!SqliteRows D} (d d' : D) lst any res :
  length lst = 32%nat -> AuditVerify.verifyAnchor lst any d = (d', Ok res) -> AuditVerify.ok res = true ->
  exists ts, Sql.audit_anchor (Sql.current (content d)) = Some (lst, ts).
Proof.
  intros Hl. unfold AuditVerify.verifyAnchor, prepareOrThrow, prepare_or, run. cbv [mbind M_bind mret M_ret].
  destruct (sqlite_prepare _ d); [|done]. pose proof (rows_true Sql.SelectAnchor [] d) as Hr.
  destruct (sqlite_run _ [] d) as [d1 [[|row rows] rc]]; cbn [fst snd] in *; [by intros [= _ <-]|].
  destruct (Hr row clean_nil (list_elem_of_here _ _)) as (all & db & Hm & Hin). cbn in Hm.
  injection Hm as <- _. destruct (Sql.audit_anchor _) as [[h ts]|]; [|by apply not_elem_of_nil in Hin].
  apply list_elem_of_singleton in Hin as ->. change (col [VBlob h] 0) with (VBlob h).
  rewrite column_blob_blob. destruct (decide (h = [])); [by intros [= _ <-]|].
  destruct (decide (length h <> _)) as [|Hh%dec_stable]; [by intros [= _ <-]|].
  destruct (decide (sodium_memcmp h lst <> 0)) as [|Hc]; [by intros [= _ <-]|]. intros _ _.
  exists ts. do 2 f_equal. apply dec_stable. intros Hn. apply Hc.
  by rewrite memcmp_eq by (rewrite Hl; exact Hh).
Qed.

Lemma reading_keeps s (d d' : D) rows rc :
  (forall db, exists l, Sql.meaning s [] db = Sql.answer db l) ->
  sqlite_run (Sql.text s) [] d = (d', (rows, rc)) -> Sql.saved (content d) = None ->
  content d' = content d.
Proof.
  intros Hs E Hn. destruct (decide (rc = SQLITE_DONE)) as [->|Hrc].
  - apply run_done in E; [|apply clean_nil]. destruct (Hs (content d)) as [l Hm]. rewrite Hm in E.
    by injection E as _ <-.
  - destruct (run_failed s [] d d' rows rc E Hrc clean_nil) as [->| ->]; [done|].
    unfold Sql.rolled_back. by rewrite Hn.
Qed.

Lemma verify_sound `{!SqliteRows D} (d d' : D) r :
  Sql.saved (content d) = None -> AuditVerify.verifyAuditChain true key d = (d', r) ->
  content d' = content d /\
  forall res, r = Ok res -> AuditVerify.ok res = true -> log_fits (Sql.current (content d)) ->
    chain_ok key (Sql.current (content d)).
Proof.
  intros Hn. unfold AuditVerify.verifyAuditChain. cbn [negb].
  unfold prepareOrThrow at 1, prepare_or, run at 1. cbv [mbind M_bind mret M_ret].
  destruct (sqlite_prepare _ d); [|by intros [= <- <-]].
  destruct (sqlite_run (Sql.text Sql.SelectChain) [] d) as [d1 [rows rc]] eqn:E1.
  pose proof (reading_keeps Sql.SelectChain d d1 rows rc ltac:(intros; by eexists) E1 Hn) as C1.
  cbn [fst snd]. destruct (AuditVerify.verify_rows _ _ _ _ _ _) as [res|[lst any]] eqn:Ev.
  { intros [= <- <-]. split; [done|]. intros ? [= <-] Hok _. exfalso.
    assert (forall rows prev l a, AuditVerify.verify_rows key rows rc prev l a <> inl res) as Hno; [|by eapply Hno].
    clear - Hok. induction rows as [|x rows IH]; intros prev l a; cbn; [by case_decide; intros [= <-]|].
    destruct (AuditVerify.extractRow x) as [y []]; cbn; [|by intros [= <-]].
    destruct (AuditVerify.ok (AuditVerify.verifyRow key y prev)) eqn:Ey; cbn; [by apply IH|].
    intros [= <-]. congruence. }
  intros Ea. assert (content d' = content d1) as C2.
  { revert Ea. unfold AuditVerify.verifyAnchor, prepareOrThrow, prepare_or, run. cbv [mbind M_bind mret M_ret].
    destruct (sqlite_prepare _ d1); [|by intros [= <- _]].
    destruct (sqlite_run (Sql.text Sql.SelectAnchor) [] d1) as [d2 [rows2 rc2]] eqn:E2. intros [= <- _].
    eapply reading_keeps; [|exact E2|by rewrite C1]. intros; by eexists. }
  split; [congruence|]. intros res -> Hok Hf.
  assert (rc = SQLITE_DONE) as ->.
  { revert Ev. generalize (replicate AuditVerify.kVerifyHashSize 0) at 1 as prev.
    generalize (replicate AuditVerify.kVerifyHashSize 0) as l. generalize false as a. clear.
    induction rows as [|x rows IH]; intros a l prev; cbn; [by case_decide|].
    destruct (AuditVerify.extractRow x) as [y []]; cbn; [|done].
    destruct (AuditVerify.ok _); cbn; [apply IH|done]. }
  apply run_done in E1; [|apply clean_nil]. cbn in E1. injection E1 as <- _.
  set (log := Sql.audit_log (Sql.current (content d))) in *.
  pose proof (verify_rows_spec log zero_hash zero_hash false Hf eq_refl) as Hv.
  change (replicate AuditVerify.kVerifyHashSize 0) with zero_hash in Ev.
  destruct (first_bad key zero_hash log) as [i|] eqn:Eb; [destruct Hv as [err Hv]; by rewrite Hv in Ev|].
  rewrite Hv in Ev. injection Ev as <- <-. apply first_bad_chained in Eb. split; [done|].
  apply anchor_sound in Ea; [by rewrite C1 in Ea|by eapply last_hash_length|done].
Qed.

End Verify.
(** The row an event is stored as. *)
Definition new_row (i : Z) (e : Audit.AuditEvent) (prev entry : bytes) : Sql.audit_row :=
  let opt s := match s with EmptyString => None | _ => Some s end in
  Sql.mkAuditRow i (i64 (Audit.ts_unix_ms e)) (i32 (Audit.reader_id e)) (i32 (Audit.door_id e))
    (i64 (Audit.seqno e)) (if Audit.allow e then 1 else 0) (Audit.reason e)
    (opt (Audit.card_id e)) (opt (Audit.action e)) prev entry.

Lemma new_row_event i e prev entry : event_ok e -> row_event (new_row i e prev entry) = e.
Proof.
  intros [T R Dr S E1 E2 E3]. unfold row_event, new_row. destruct e as [ts r d q a w c x]. cbn in *.
  assert (forall z, i32 (i32 z) = i32 z) as Hi by (intros; apply i32_id, i32_i64_range).
  rewrite !u64_i64, !Hi, !u32_i32, E1 by done. f_equal.
  - by destruct a.
  - by destruct c.
  - by destruct x.
Qed.

Lemma i64_range z : - 2 ^ 63 <= i64 z < 2 ^ 63.
Proof. unfold i64. pose proof (Z.mod_pos_bound (z + 2 ^ 63) (2 ^ 64)). lia. Qed.

Lemma new_row_fits i e prev entry :
  event_ok e -> event_fits e -> - 2 ^ 63 <= i < 2 ^ 63 -> row_fits (new_row i e prev entry).
Proof.
  intros He Hf Hi. pose proof (new_row_event i e prev entry He) as E.
  assert (event_fits (row_event (new_row i e prev entry))) as (F1 & F2 & F3) by by rewrite E.
  split; try done; apply i64_range.
Qed.

(** The tables after an append. *)
Definition appended `{SodiumLaws} (l : SqliteAuditLog) (e : Audit.AuditEvent) (t : Sql.tables) : Sql.tables :=
  let i := Sql.audit_last_id t + 1 in
  if _chainEnabled l then
    let prev := last_hash zero_hash (Sql.audit_log t) in
    let entry := HMAC (_key l) (prev ++ event_bytes e) in
    Sql.set_anchor (Some (entry, i64 (Audit.ts_unix_ms e)))
      (Sql.set_audit (Sql.audit_log t ++ [new_row i e prev entry]) i t)
  else Sql.set_audit (Sql.audit_log t ++ [new_row i e zero_hash zero_hash]) i t.

(** The state of a log that appends need: an anchor row, a free identifier, a
    32-byte hash to continue from. *)
Record log_ready (t : Sql.tables) : Prop := {
  ready_anchor : is_Some (Sql.audit_anchor t);
  ready_id : 0 <= Sql.audit_last_id t < Sql.max_rowid;
  ready_last : length (last_hash zero_hash (Sql.audit_log t)) = 32%nat;
}.

(** A database whose query for the last hash runs to its end. The code takes an
    error of this query for an empty log. *)
Class LogReadable (D : Type) `{Sqlite D} : Prop :=
  log_readable d : (sqlite_run (Sql.text Sql.LastEntryHash) [] d).2.2 = SQLITE_DONE.

#[export] Instance reliable_readable {D : Type} `{SqliteReliable D} : LogReadable D.
Proof.
  intros d. edestruct (run_reliable Sql.LastEntryHash [] d) as [d' E]; [apply clean_nil|reflexivity|].
  by rewrite E.
Qed.

Section Append.
Context {D : Type} `{SodiumLaws, SqliteLaws D}.

Lemma clean_text_or_null s : Sql.clean_value (bind_text_or_null s).
Proof. destruct s; [done|apply clean_cstr]. Qed.

(** What the insertion of an entry binds, and means. *)
Definition entry_values (e : Audit.AuditEvent) (prev entry : bytes) : list value :=
  [bind_int64 (Audit.ts_unix_ms e); bind_int (Audit.reader_id e); bind_int (Audit.door_id e);
   bind_int64 (Audit.seqno e); VInt (if Audit.allow e then 1 else 0);
   bind_cstr (Audit.reason e); bind_text_or_null (Audit.card_id e);
   bind_text_or_null (Audit.action e); VBlob prev; VBlob entry].

Lemma entry_clean e prev entry : Sql.clean (entry_values e prev entry).
Proof. repeat apply clean_cons; done || apply clean_cstr || apply clean_text_or_null || apply clean_nil. Qed.

Lemma insert_meaning e prev entry db :
  event_ok e -> let t := Sql.current db in let i := Sql.audit_last_id t + 1 in
  Sql.meaning Sql.InsertAudit (entry_values e prev entry) db
    = if decide (Sql.audit_last_id t < Sql.max_rowid)
      then Sql.change db (Sql.set_audit (Sql.audit_log t ++ [new_row i e prev entry]) i t)
      else None.
Proof.
  intros [_ _ _ _ E1 E2 E3] t i. destruct e as [ts r dr q a w c x]. unfold entry_values.
  cbn [Audit.reason Audit.card_id Audit.action Audit.ts_unix_ms Audit.reader_id Audit.door_id
    Audit.seqno Audit.allow] in *.
  unfold bind_text_or_null, bind_cstr, bind_int, bind_int64. rewrite E1, ?E2, ?E3.
  destruct c, x; reflexivity.
Qed.

(** The statements of the transaction; under [T] they return. *)
Section Statements.
Context (T : Prop) (T_reliable : T -> SqliteReliable D).

Lemma wp_insert (d : D) e prev entry (Q : unit -> D -> Prop) :
  let t := Sql.current (content d) in
  let i := Sql.audit_last_id t + 1 in
  event_ok e -> (T -> log_ready t) ->
  (forall d', content d' = Sql.mkDatabase
      (Sql.set_audit (Sql.audit_log t ++ [new_row i e prev entry]) i t)
      (Sql.saved (content d)) (Sql.foreign_keys (content d)) -> Q tt d') ->
  wp T (insertAuditEntry e prev entry) d Q.
Proof.
  intros t i He Hid HQ. unfold insertAuditEntry. apply wp_bind, wp_prepare_or; [done|].
  pose proof (insert_meaning e prev entry (content d) He) as Hm. unfold entry_values in Hm.
  cbv zeta in Hm. fold t i in Hm.
  apply wp_step_done; [done|apply entry_clean| |].
  - intros Ht. rewrite Hm, decide_True by apply (Hid Ht). by eexists.
  - intros d' E. apply HQ. rewrite Hm in E. unfold Sql.change in E. case_decide; by simplify_eq.
Qed.

Lemma wp_anchor (d : D) h ts (Q : unit -> D -> Prop) :
  let t := Sql.current (content d) in
  (forall d', content d' = Sql.mkDatabase
      (if decide (Sql.audit_anchor t = None) then t else Sql.set_anchor (Some (h, i64 ts)) t)
      (Sql.saved (content d)) (Sql.foreign_keys (content d)) -> Q tt d') ->
  wp T (updateAnchor h ts) d Q.
Proof.
  intros t HQ. unfold updateAnchor. apply wp_bind, wp_prepare_or; [done|].
  apply wp_step_done; [done| | |].
  - repeat apply clean_cons; done || apply clean_nil.
  - intros _. cbn. fold t. destruct (Sql.audit_anchor t); by eexists.
  - intros d' E. apply HQ. cbn in E. fold t in E. unfold Sql.change, Sql.answer in E.
    destruct (Sql.audit_anchor t); case_decide; try done; injection E as <-; [done|].
    subst t. by destruct (content d).
Qed.

Lemma wp_begin (d : D) (Q : unit -> D -> Prop) :
  (T -> Sql.saved (content d) = None) ->
  (forall d', Sql.saved (content d) = None -> content d' = Sql.mkDatabase (Sql.current (content d))
      (Some (Sql.current (content d))) (Sql.foreign_keys (content d)) -> Q tt d') ->
  wp T (execOrThrow (Sql.text Sql.Begin)) d Q.
Proof.
  intros HT HQ. apply wp_exec; [done| |].
  - intros Ht. cbn. rewrite (HT Ht). by eexists.
  - intros d' rows E. cbn in E. destruct (Sql.saved (content d)); [done|]. apply HQ; [done|].
    by simplify_eq.
Qed.

Lemma wp_commit (d : D) (Q : unit -> D -> Prop) :
  is_Some (Sql.saved (content d)) ->
  (forall d', content d' = Sql.mkDatabase (Sql.current (content d)) None
      (Sql.foreign_keys (content d)) -> Q tt d') ->
  wp T (execOrThrow (Sql.text Sql.Commit)) d Q.
Proof.
  intros [t Ht] HQ. apply wp_exec; [done| |].
  - intros _. cbn. rewrite Ht. by eexists.
  - intros d' rows E. apply HQ. cbn in E. rewrite Ht in E. by simplify_eq.
Qed.

(** Reading the last hash changes nothing. *)
Lemma wp_last_hash `{!LogReadable D} (d : D) (Q : bytes -> D -> Prop) :
  let t := Sql.current (content d) in
  (T -> log_ready t) ->
  (forall d', content d' = content d -> Q (last_hash zero_hash (Sql.audit_log t)) d') ->
  wp T getLastEntryHash d Q.
Proof.
  intros t HT HQ. unfold getLastEntryHash. apply wp_bind, wp_prepare_or; [done|]. apply wp_bind.
  unfold wp at 1, run. pose proof (log_readable d) as Hrc.
  destruct (sqlite_run _ [] d) as [d1 [rows rc]] eqn:E. cbn in Hrc. subst rc.
  pose proof (run_done _ _ _ _ _ E clean_nil) as Hm. cbn in Hm. injection Hm as <- Hd1.
  cbn [fst]. fold t. unfold last_hash in HQ.
  assert (T -> length (last_hash zero_hash (Sql.audit_log t)) = 32%nat) as Hl by (intros Ht; apply (HT Ht)).
  unfold last_hash in Hl. destruct (last _) as [r|]; [|by apply HQ]. cbn [from_option] in *.
  change (col [VBlob (Sql.a_entry r)] 0) with (VBlob (Sql.a_entry r)). rewrite column_blob_blob.
  destruct (decide (Sql.a_entry r = [])) as [E0|]; [intros Ht; by rewrite E0 in Hl; specialize (Hl Ht)|].
  case_decide as Hn; [intros Ht; apply Hn, Hl, Ht|]. by apply HQ.
Qed.

Lemma wp_try {S A} (m : M S A) h s (Q : A -> S -> Prop) :
  wp T m s Q -> (~ T -> forall e s', wp T (h e) s' Q) -> wp T (try_catch m h) s Q.
Proof. unfold wp, try_catch. destruct (m s) as [s' [a|e|]]; [done| |done]. intros Hn Hh. by apply Hh. Qed.

(** A whole append. *)
Lemma wp_append `{!LogReadable D} (l : SqliteAuditLog) (e : Audit.AuditEvent) (d : D) :
  let t := Sql.current (content d) in
  event_ok e -> (T -> Sql.saved (content d) = None /\ log_ready t) ->
  wp T (append l e) d (fun _ d' =>
    exists prev entry i a,
      content d' = Sql.mkDatabase (Sql.set_anchor a
        (Sql.set_audit (Sql.audit_log t ++ [new_row i e prev entry]) i t)) None
        (Sql.foreign_keys (content d)) /\
      (event_fits e -> is_Some (Sql.audit_anchor t) -> Sql.current (content d') = appended l e t)).
Proof.
  intros t He Hr. unfold append. apply wp_bind, wp_begin; [apply Hr|]. intros d1 Hs Hd1.
  assert (T -> log_ready (Sql.current (content d1))) as Hr1 by (intros Ht; rewrite Hd1; apply Hr, Ht).
  fold t in Hd1. unfold appended.
  apply wp_try; [|intros Hn err s'; apply wp_bind; unfold wp;
    destruct (execOrThrow _ s') as [? [[]|?|]]; done].
  destruct (_chainEnabled l); cbn [negb].
  - apply wp_bind, wp_last_hash; [done|]. intros d2 Hd2. rewrite Hd1 in Hd2 |- *. cbn [Sql.current].
    apply wp_bind, wp_insert; [done|by rewrite Hd2, <- Hd1|]. intros d3 Hd3. rewrite Hd2 in Hd3.
    apply wp_bind, wp_anchor. intros d4 Hd4. rewrite Hd3 in Hd4.
    apply wp_commit; [rewrite Hd4; by eexists|]. intros d5 Hd5. rewrite Hd4 in Hd5.
    cbn in Hd5. rewrite Hd5. cbn [Sql.current].
    destruct (decide (Sql.audit_anchor t = None)) as [Ea|Ea].
    + eexists _, _, _, None. split; [|intros _ []; congruence]. do 2 f_equal. by rewrite <- Ea.
    + eexists _, _, _, _. split; [reflexivity|]. intros Hf _. by rewrite computeEntryHash_spec.
  - apply wp_bind, wp_insert; [done|done|]. intros d3 Hd3. rewrite Hd1 in Hd3.
    apply wp_commit; [rewrite Hd3; by eexists|]. intros d5 Hd5. rewrite Hd3 in Hd5. cbn in Hd5.
    rewrite Hd5. eexists _, _, _, (Sql.audit_anchor t). split; [reflexivity|done].
Qed.

End Statements.
End Append.

Section Chain.
Context `{SodiumLaws} (key : bytes).

Lemma chained_snoc prev rows r :
  chained key prev (rows ++ [r]) <->
  chained key prev rows /\ Sql.a_prev r = last_hash prev rows /\
  Sql.a_entry r = HMAC key (link (last_hash prev rows) r).
Proof.
  revert prev. induction rows as [|r' rows IH]; intros prev; cbn [app chained].
  - unfold last_hash. cbn. naive_solver.
  - rewrite IH. assert (last_hash prev (r' :: rows) = last_hash (Sql.a_entry r') rows) as ->;
      [|naive_solver]. unfold last_hash. rewrite last_cons. by destruct (last rows).
Qed.

Lemma last_hash_snoc prev rows r : last_hash prev (rows ++ [r]) = Sql.a_entry r.
Proof. unfold last_hash. by rewrite last_snoc. Qed.

Lemma messages_snoc prev rows r :
  messages prev (rows ++ [r]) = messages prev rows ++ [link (last_hash prev rows) r].
Proof.
  revert prev. induction rows as [|r' rows IH]; intros prev; cbn [app messages]; [done|].
  rewrite IH. assert (last_hash prev (r' :: rows) = last_hash (Sql.a_entry r') rows) as ->; [|done].
  unfold last_hash. rewrite last_cons. by destruct (last rows).
Qed.

(** An appended event continues the chain. *)
Lemma appended_chain_ok (e : Audit.AuditEvent) (t : Sql.tables) :
  event_ok e -> chain_ok key t -> chain_ok key (appended (mkSqliteAuditLog key true) e t).
Proof.
  intros He [Hc [ts Ha]]. unfold appended. cbn [_chainEnabled _key]. split; cbn [Sql.audit_log
    Sql.set_anchor Sql.set_audit Sql.audit_anchor].
  - apply chained_snoc. split; [done|]. split; [done|].
    unfold link. by rewrite new_row_event.
  - rewrite last_hash_snoc. by eexists.
Qed.

(** Two events hashed to the same value, or a zero hash. *)
Definition hash_coincidence (ms1 ms2 : list bytes) : Prop :=
  (exists m1 m2, m1 ∈ ms1 /\ m2 ∈ ms2 /\ m1 <> m2 /\ HMAC key m1 = HMAC key m2) \/
  (exists m, m ∈ ms1 ++ ms2 /\ HMAC key m = zero_hash).

Lemma hash_coincidence_mono ms1 ms2 ms1' ms2' :
  ms1 ⊆ ms1' -> ms2 ⊆ ms2' -> hash_coincidence ms1 ms2 -> hash_coincidence ms1' ms2'.
Proof.
  intros H1 H2 [(m1 & m2 & ? & ? & ? & ?)|(m & Hm & ?)]; [left; exists m1, m2; auto|right].
  exists m. split; [|done]. set_solver.
Qed.

(** Two intact chains that end in the same hash tell the same story. *)
Lemma chains_agree rows1 rows2 :
  Forall row_fits rows1 -> Forall row_fits rows2 ->
  chained key zero_hash rows1 -> chained key zero_hash rows2 ->
  last_hash zero_hash rows1 = last_hash zero_hash rows2 ->
  row_event <$> rows1 = row_event <$> rows2 \/
  hash_coincidence (messages zero_hash rows1) (messages zero_hash rows2).
Proof.
  intros F1. revert rows2. induction rows1 as [|r1 rows1 IH] using rev_ind; intros rows2 F2 C1 C2 E.
  - destruct rows2 as [|r2 rows2 _] using rev_ind; [by left|]. right. right.
    apply chained_snoc in C2 as (_ & _ & E2). rewrite last_hash_snoc, E2 in E.
    exists (link (last_hash zero_hash rows2) r2). split; [|by symmetry].
    rewrite messages_snoc. set_solver.
  - apply Forall_app in F1 as [F1 R1%Forall_inv]. apply chained_snoc in C1 as (C1 & P1 & E1).
    rewrite last_hash_snoc in E.
    destruct rows2 as [|r2 rows2 _] using rev_ind.
    { right. right. exists (link (last_hash zero_hash rows1) r1). rewrite messages_snoc.
      split; [set_solver|]. by rewrite <- E1, E. }
    apply Forall_app in F2 as [F2 R2%Forall_inv]. apply chained_snoc in C2 as (C2 & P2 & E2).
    rewrite last_hash_snoc in E. rewrite !messages_snoc.
    destruct (decide (link (last_hash zero_hash rows1) r1 = link (last_hash zero_hash rows2) r2))
      as [El|Hne]; cycle 1.
    { right. left. exists (link (last_hash zero_hash rows1) r1), (link (last_hash zero_hash rows2) r2).
      split; [set_solver|]. split; [set_solver|]. split; [exact Hne|]. by rewrite <- E1, <- E2. }
    unfold link in El. apply app_inj_length in El as [Eh Ee];
      [|rewrite !(last_hash_length key _ zero_hash) by done; done].
    apply event_bytes_inj in Ee; [|apply row_event_ok|apply row_event_ok|by apply row_event_fits..].
    destruct (IH F1 rows2 F2 C1 C2 Eh) as [Et|Hc].
    + left. by rewrite !fmap_app, Et; cbn; rewrite Ee.
    + right. eapply hash_coincidence_mono; [| |exact Hc]; set_solver.
Qed.

End Chain.
(** ** A failed append *)

(** The tables that are on disk, or will be once the open transaction is
    abandoned. *)
Definition committed (db : Sql.database) : Sql.tables := default (Sql.current db) (Sql.saved db).

Section Atomic.
Context {D : Type} `{Sodium, SqliteLaws D}.

(** The database inside the transaction that started from the tables [t]. *)
Definition in_tx (t : Sql.tables) (d : D) : Prop := Sql.saved (content d) = Some t.

(** A step of the transaction: it stays open, or the step threw and what is
    committed is still [t]. *)
Definition tx_step (t : Sql.tables) {A} (m : M D A) : Prop :=
  forall d d' r, in_tx t d -> m d = (d', r) ->
    match r with
    | Ok _ => in_tx t d'
    | Throw _ => committed (content d') = t
    | Fault => False
    end.

Lemma in_tx_committed t d : in_tx t d -> committed (content d) = t.
Proof. unfold in_tx, committed. by intros ->. Qed.

Lemma failed_committed (d d' : D) t :
  committed (content d) = t ->
  content d' = content d \/ content d' = Sql.rolled_back (content d) -> committed (content d') = t.
Proof.
  intros Hc [->| ->]; [done|]. unfold committed, Sql.rolled_back in *.
  destruct (Sql.saved (content d)) eqn:E; [done|by rewrite E].
Qed.

Lemma tx_bind t {A B} (m : M D A) (f : A -> M D B) :
  tx_step t m -> (forall a, tx_step t (f a)) -> tx_step t (m ≫= f).
Proof.
  intros Hm Hf d d' r Ht. unfold mbind, M_bind.
  destruct (m d) as [d1 [a|e|]] eqn:E; pose proof (Hm d d1 _ Ht E) as H'; [by apply Hf|..];
    by intros [= <- <-].
Qed.

Lemma tx_prepare t s : tx_step t (prepareOrThrow (D := D) s).
Proof.
  intros d d' r Ht. unfold prepareOrThrow, prepare_or.
  destruct (sqlite_prepare s d); intros [= <- <-]; [done|by apply in_tx_committed].
Qed.

Lemma tx_step_done t s ps msg :
  Sql.clean ps ->
  (forall db rows db', Sql.meaning s ps db = Some (rows, db') -> Sql.saved db' = Sql.saved db) ->
  tx_step t (step_done (D := D) (Sql.text s) ps msg).
Proof.
  intros Hc Hm d d' r Ht. unfold step_done, run. cbv [mbind M_bind].
  destruct (sqlite_run _ ps d) as [d1 [rows rc]] eqn:E.
  assert (rc = SQLITE_DONE /\ in_tx t d1 \/ committed (content d1) = t) as Hd.
  { destruct (decide (rc = SQLITE_DONE)) as [->|Hn].
    - left. split; [done|]. apply run_done in E; [|done]. unfold in_tx. by rewrite (Hm _ _ _ E).
    - right. eapply failed_committed; [by apply in_tx_committed|by eapply run_failed]. }
  unfold first_step. cbn [fst snd]. destruct (decide _) as [Hn|Hn]; intros [= <- <-].
  - destruct Hd as [[_ Hd]|Hd]; [by apply in_tx_committed|done].
  - apply dec_stable in Hn. destruct rows; [|done]. subst rc. destruct Hd as [[_ Hd]|Hd]; [done|].
    apply run_done in E; [|done]. unfold in_tx. by rewrite (Hm _ _ _ E).
Qed.

Lemma tx_insert t e prev entry : tx_step t (insertAuditEntry (D := D) e prev entry).
Proof.
  apply tx_bind; [apply tx_prepare|intros _]. apply tx_step_done.
  - repeat apply clean_cons; done || apply clean_cstr || apply clean_text_or_null || apply clean_nil.
  - intros db rows db'. cbn. destruct (Sql.text_or_null _); [|done].
    destruct (Sql.text_or_null _); [|done]. case_decide; [|done]. unfold Sql.change.
    by intros [= _ <-].
Qed.

Lemma tx_anchor t h ts : tx_step t (updateAnchor (D := D) h ts).
Proof.
  apply tx_bind; [apply tx_prepare|intros _]. apply tx_step_done.
  - repeat apply clean_cons; done || apply clean_nil.
  - intros db rows db'. cbn. unfold Sql.change, Sql.answer.
    destruct (Sql.audit_anchor _); by intros [= _ <-].
Qed.

(** Reading the last hash, when the query itself does not fail. *)
Lemma tx_last_hash t :
  (forall d : D, (sqlite_run (Sql.text Sql.LastEntryHash) [] d).2.2 = SQLITE_DONE) ->
  tx_step t (getLastEntryHash (D := D)).
Proof.
  intros Hq. apply tx_bind; [apply tx_prepare|intros _]. intros d d' r Ht.
  unfold run. cbv [mbind M_bind]. specialize (Hq d).
  destruct (sqlite_run _ [] d) as [d1 [rows rc]] eqn:E. cbn in Hq. subst rc.
  assert (in_tx t d1) as Ht1.
  { apply run_done in E; [|apply clean_nil]. cbn in E. unfold Sql.answer in E.
    injection E as _ E. unfold in_tx. by rewrite <- E. }
  cbn [fst]. unfold throw, mret, M_ret.
  repeat (case_match || case_decide); intros; simplify_eq; done || by apply in_tx_committed.
Qed.

(** A statement without parameters, run on its own. *)
Lemma exec_failed_committed s (d d' : D) e t :
  committed (content d) = t -> execOrThrow (Sql.text s) d = (d', Throw e) ->
  committed (content d') = t.
Proof.
  intros Hc. unfold execOrThrow. destruct (sqlite_exec _ d) as [d1 [err|]] eqn:E; [|done].
  intros [= <- _]. eapply failed_committed; [done|]. by eapply exec_failed.
Qed.

Lemma rollback_committed (d d' : D) r t :
  committed (content d) = t -> execOrThrow (Sql.text Sql.Rollback) d = (d', r) ->
  committed (content d') = t.
Proof.
  intros Hc E. destruct r as [[]|e|]; [|by eapply exec_failed_committed|].
  - unfold execOrThrow in E. destruct (sqlite_exec _ d) as [d1 [err|]] eqn:Ex; [done|].
    injection E as <-. apply exec_ok in Ex as [rows Hm]. cbn in Hm. unfold committed in *.
    destruct (Sql.saved (content d)) as [old|]; [|done]. injection Hm as _ <-. done.
  - unfold execOrThrow in E. by destruct (sqlite_exec _ d) as [d1 [err|]].
Qed.

Lemma begin_in_tx (d d' : D) :
  Sql.saved (content d) = None -> execOrThrow (Sql.text Sql.Begin) d = (d', Ok tt) ->
  in_tx (Sql.current (content d)) d'.
Proof.
  intros Hs. unfold execOrThrow. destruct (sqlite_exec _ d) as [d1 [err|]] eqn:E; [done|].
  intros [= <-]. apply exec_ok in E as [rows Hm]. cbn in Hm. rewrite Hs in Hm.
  injection Hm as _ Hm. unfold in_tx. by rewrite <- Hm.
Qed.

(** A computation that ends with the commit, when it throws. *)
Lemma tx_then_commit t {A} (m : M D A) (k : A -> M D unit) d d' e :
  tx_step t m -> in_tx t d ->
  (forall a d1, in_tx t d1 -> k a d1 = (d', Throw e) -> committed (content d') = t) ->
  (m ≫= k) d = (d', Throw e) -> committed (content d') = t.
Proof.
  intros Hm Ht Hk. unfold mbind, M_bind.
  destruct (m d) as [d1 [a|e1|]] eqn:E; pose proof (Hm d d1 _ Ht E) as H'; [|by intros [= <- <-]|done].
  by apply Hk.
Qed.

(** A computation that ends with the commit returns or throws. *)
Lemma tx_then_no_fault t {A} (m : M D A) (k : A -> M D unit) d d' :
  tx_step t m -> in_tx t d -> (forall a d1, in_tx t d1 -> k a d1 <> (d', Fault)) ->
  (m ≫= k) d <> (d', Fault).
Proof.
  intros Hm Ht Hk. unfold mbind, M_bind.
  destruct (m d) as [d1 [a|e1|]] eqn:E; pose proof (Hm d d1 _ Ht E) as H'; [by apply Hk|done|done].
Qed.

Lemma exec_no_fault s (d d' : D) : execOrThrow s d <> (d', Fault).
Proof. unfold execOrThrow. by destruct (sqlite_exec _ d) as [? [?|]]. Qed.

Lemma commit_throws t (d d' : D) e :
  in_tx t d -> execOrThrow (Sql.text Sql.Commit) d = (d', Throw e) -> committed (content d') = t.
Proof. intros Ht. by apply exec_failed_committed, in_tx_committed. Qed.

Lemma transaction_throws (l : SqliteAuditLog) (ev : Audit.AuditEvent) t (d d' : D) e :
  (forall d : D, (sqlite_run (Sql.text Sql.LastEntryHash) [] d).2.2 = SQLITE_DONE) -> in_tx t d ->
  (if negb (_chainEnabled l) then
     insertAuditEntry ev zero_hash zero_hash ;;
     execOrThrow (Sql.text Sql.Commit)
   else
     prev ← getLastEntryHash;
     let entry := computeEntryHash l prev ev in
     insertAuditEntry ev prev entry ;;
     updateAnchor entry (Audit.ts_unix_ms ev) ;;
     execOrThrow (Sql.text Sql.Commit)) d = (d', Throw e) ->
  committed (content d') = t.
Proof.
  intros Hq Ht. destruct (_chainEnabled l); cbn [negb].
  - apply tx_then_commit; [by apply tx_last_hash|done|]. intros prev d1 T1.
    apply tx_then_commit; [apply tx_insert|done|]. intros [] d2 T2.
    apply tx_then_commit; [apply tx_anchor|done|]. intros [] d3 T3. by apply commit_throws.
  - apply tx_then_commit; [apply tx_insert|done|]. intros [] d2 T2. by apply commit_throws.
Qed.

Lemma transaction_no_fault (l : SqliteAuditLog) (ev : Audit.AuditEvent) t (d d' : D) :
  (forall d : D, (sqlite_run (Sql.text Sql.LastEntryHash) [] d).2.2 = SQLITE_DONE) -> in_tx t d ->
  (if negb (_chainEnabled l) then
     insertAuditEntry ev zero_hash zero_hash ;;
     execOrThrow (Sql.text Sql.Commit)
   else
     prev ← getLastEntryHash;
     let entry := computeEntryHash l prev ev in
     insertAuditEntry ev prev entry ;;
     updateAnchor entry (Audit.ts_unix_ms ev) ;;
     execOrThrow (Sql.text Sql.Commit)) d <> (d', Fault).
Proof.
  intros Hq Ht. destruct (_chainEnabled l); cbn [negb].
  - apply (tx_then_no_fault t); [by apply tx_last_hash|done|]. intros prev d1 T1.
    apply (tx_then_no_fault t); [apply tx_insert|done|]. intros [] d2 T2.
    apply (tx_then_no_fault t); [apply tx_anchor|done|]. intros [] d3 _. apply exec_no_fault.
  - apply (tx_then_no_fault t); [apply tx_insert|done|]. intros [] d2 _. apply exec_no_fault.
Qed.

(** An append that does not return has committed nothing. *)
Lemma append_committed (l : SqliteAuditLog) (ev : Audit.AuditEvent) (d d' : D) r :
  (forall d : D, (sqlite_run (Sql.text Sql.LastEntryHash) [] d).2.2 = SQLITE_DONE) ->
  append l ev d = (d', r) -> r = Ok tt \/ committed (content d') = committed (content d).
Proof.
  intros Hq. unfold append. unfold mbind at 1, M_bind at 1.
  destruct (execOrThrow (Sql.text Sql.Begin) d) as [d1 [[]|e1|]] eqn:Eb; cycle 1.
  { intros [= <- _]. right. by eapply exec_failed_committed. }
  { unfold execOrThrow in Eb. by destruct (sqlite_exec _ d) as [? [?|]]. }
  destruct (Sql.saved (content d)) as [t0|] eqn:Hs.
  { unfold execOrThrow in Eb. destruct (sqlite_exec _ d) as [d2 [?|]] eqn:Ex; [done|].
    apply exec_ok in Ex as [rows Hm]. cbn in Hm. by rewrite Hs in Hm. }
  set (t := Sql.current (content d)).
  assert (committed (content d) = t) as -> by (unfold committed; by rewrite Hs).
  assert (in_tx t d1) as Ht by by eapply begin_in_tx.
  unfold try_catch.
  match goal with |- match ?x with _ => _ end = _ -> _ =>
    destruct x as [d2 [[]|e2|]] eqn:Et; [intros [= _ <-]; by left| |] end; cycle 1.
  { intros _. exfalso. by eapply (transaction_no_fault l ev t d1 d2). }
  assert (committed (content d2) = t) as Hc2 by (by eapply (transaction_throws l ev t d1 d2 e2)).
  intros Er. right. unfold mbind, M_bind in Er.
  destruct (execOrThrow (Sql.text Sql.Rollback) d2) as [d3 [[]|e3|]] eqn:Erb;
    pose proof (rollback_committed _ _ _ _ Hc2 Erb); injection Er as <- _; done.
Qed.

(** One that returns began outside a transaction. *)
Lemma append_began (l : SqliteAuditLog) (ev : Audit.AuditEvent) (d d' : D) :
  append l ev d = (d', Ok tt) -> Sql.saved (content d) = None.
Proof.
  unfold append. intros E. apply M_bind_inv_ok in E as (d1 & [] & Eb & _).
  unfold execOrThrow in Eb. destruct (sqlite_exec _ d) as [d2 [?|]] eqn:Ex; [done|].
  apply exec_ok in Ex as [rows Hm]. cbn in Hm. by destruct (Sql.saved (content d)).
Qed.

End Atomic.
End ChainFacts.

(** ** The log behind [IAuditLog] *)

Module AuditInstance.
Import SqliteAuditLog ChainSpec ChainFacts StoreSpec StoreFacts.

Section AuditInstance.
Context {D : Type} `{SodiumLaws, SqliteReliable D} (l : SqliteAuditLog).

Definition sqlite_audit : IAuditLog D := {| Access.append := append l |}.

(** An append that returned stored its event, and nothing else of the tables
    but the anchor changed. *)
Lemma append_ok (e : Audit.AuditEvent) (w w' : D) :
  event_ok e -> append l e w = (w', Ok tt) ->
  trail (Sql.current (content w')) = trail (Sql.current (content w)) ++ [e] /\
  policy (Sql.current (content w')) = policy (Sql.current (content w)).
Proof.
  intros He E.
  destruct (wp_ok False _ w w' tt _ (wp_append False (False_ind _) l e w He (False_ind _)) E)
    as (prev & entry & i & a & Hc & _).
  rewrite Hc. cbn [Sql.current]. split; [|done]. unfold trail. cbn [Sql.audit_log Sql.set_anchor Sql.set_audit].
  rewrite fmap_app. cbn. by rewrite new_row_event.
Qed.

Definition sqlite_audit_spec : @AuditLogSpec D sqlite_audit.
Proof.
  refine (@Build_AuditLogSpec D sqlite_audit (fun d => trail (Sql.current (content d)))
    (fun d => Sql.saved (content d) = None /\ log_ready (Sql.current (content d))) _).
  intros e w w' He E. by apply append_ok.
Defined.

Lemma sqlite_store_audit_spec :
  @StoreAuditSpec D _ sqlite_store_spec sqlite_audit sqlite_audit_spec.
Proof.
  split.
  - intros e w w' He E. by apply (append_ok e w w').
  - intros c w Hc. destruct (role_run c w Hc) as (d' & E & Hd). cbn in E |- *. rewrite E. cbn. by rewrite Hd.
  - intros d r w Hr. destruct (allowed_run d r w Hr) as (d' & E & Hd). cbn in E |- *. rewrite E. cbn. by rewrite Hd.
  - intros r w. destruct (version_run r w) as (d' & E & Hd). cbn in E |- *. rewrite E. cbn. by rewrite Hd.
  - intros r d w. destruct (bound_run r d w) as (d' & E & Hd). cbn in E |- *. rewrite E. cbn. by rewrite Hd.
  - intros c w Hc. destruct (role_run c w Hc) as (d' & E & Hd). cbn in E |- *. rewrite E. cbn. by rewrite Hd.
  - intros d r w Hr. destruct (allowed_run d r w Hr) as (d' & E & Hd). cbn in E |- *. rewrite E. cbn. by rewrite Hd.
  - intros r w. destruct (version_run r w) as (d' & E & Hd). cbn in E |- *. rewrite E. cbn. by rewrite Hd.
  - intros r d w. destruct (bound_run r d w) as (d' & E & Hd). cbn in E |- *. rewrite E. cbn. by rewrite Hd.
Qed.

Lemma sqlite_audit_returns : @AuditReturns D sqlite_audit sqlite_audit_spec.
Proof.
  split. intros e w He Hw.
  destruct (wp_returns True _ _ _ (wp_append True (fun _ => _) l e w He (fun _ => Hw)) I) as (w' & [] & E & _).
  by exists w'.
Qed.

End AuditInstance.
End AuditInstance.

(** ** Properties of the audit log *)

Module AuditProps.
Import Helpers SqliteAuditLog ChainSpec ChainFacts ToySodium MemDb.

Definition test_log : SqliteAuditLog := mkSqliteAuditLog (replicate 32 9) true.

(** An empty log, as [initSchema] leaves it. *)
Definition empty_db : Sql.database :=
  (SqliteAuditLog.initSchema (Sql.mkDatabase Sql.no_tables None true)).1.

Definition test_event : Audit.AuditEvent := Audit.mkAuditEvent 1234 1 2 42 true "ok" "aa" "open".
Definition other_event : Audit.AuditEvent := Audit.mkAuditEvent 1235 1 2 43 false "forbidden" "bb" "open".

Definition one_entry : Sql.database := (append test_log test_event empty_db).1.
Definition two_entries : Sql.database := (append test_log other_event one_entry).1.

Example test_verified :
  (AuditVerify.verifyAuditChain true (_key test_log) two_entries).2
  = Ok (AuditVerify.mkResult true (-1) "").
Proof. vm_compute. reflexivity. Qed.

(** C14: an append continues the chain. On a log whose chain is intact, an
    append of an event (no NUL in its texts) returns, the trail is the old one
    followed by the event, the chain with its anchor is intact again, and
    verification of the result says so. *)
Theorem append_keeps_chain {D : Type} `{SodiumLaws, SqliteReliable D} (key : bytes)
    (e : Audit.AuditEvent) (d : D) :
  let t := Sql.current (content d) in
  event_ok e -> event_fits e -> Sql.saved (content d) = None -> log_ready t -> log_fits t ->
  chain_ok key t ->
  exists d', append (mkSqliteAuditLog key true) e d = (d', Ok tt) /\
    trail (Sql.current (content d')) = trail t ++ [e] /\
    chain_ok key (Sql.current (content d')) /\
    exists d'' res, AuditVerify.verifyAuditChain true key d' = (d'', Ok res) /\
      AuditVerify.ok res = true /\ content d'' = content d'.
Proof.
  intros t He Hf Hs Hr Hl Hc.
  destruct (wp_returns True _ _ _
    (wp_append True (fun _ => _) (mkSqliteAuditLog key true) e d He (fun _ => conj Hs Hr)) I)
    as (d' & [] & E & (_ & _ & _ & _ & _ & Ha)).
  specialize (Ha Hf (ready_anchor _ Hr)). fold t in Ha.
  pose proof (appended_chain_ok key e t He Hc) as Hc'.
  destruct (verify_run key d') as (d'' & res & Ev & Hd'' & Hok & _).
  { rewrite Ha. unfold log_fits. apply Forall_app_2; [done|]. apply Forall_singleton.
    apply new_row_fits; [done..|]. pose proof (ready_id _ Hr). unfold Sql.max_rowid in *. fold t. lia. }
  exists d'. rewrite Ha in *. split; [done|]. split.
  { unfold trail, appended. cbn. rewrite fmap_app. cbn. by rewrite new_row_event. }
  split; [done|]. exists d'', res. split; [done|]. split; [by apply Hok|done].
Qed.

Lemma append_keeps_chain_witness :
  exists d', append test_log other_event one_entry = (d', Ok tt) /\
    trail (Sql.current (content d')) = trail (Sql.current (content one_entry)) ++ [other_event] /\
    chain_ok (_key test_log) (Sql.current (content d')) /\
    exists d'' res, AuditVerify.verifyAuditChain true (_key test_log) d' = (d'', Ok res) /\
      AuditVerify.ok res = true /\ content d'' = content d'.
Proof.
  apply (append_keeps_chain (_key test_log) other_event one_entry).
  - split; by_decision || reflexivity.
  - by_decision.
  - reflexivity.
  - split; [by eexists | vm_compute; split; congruence | reflexivity].
  - refine (bool_decide_eq_true_1 (Forall row_fits _) _). vm_compute. reflexivity.
  - split; [vm_compute; tauto|]. eexists. vm_compute. reflexivity.
Defined.

(** C15: verification decides integrity. [verifyAuditChain] reports success
    exactly when every row carries the hash of the row before it and the HMAC
    of its own fields, and the anchor holds the last hash; otherwise the
    identifier it reports is that of the first row that breaks the chain. The
    database is only read. *)
Theorem verify_decides_chain {D : Type} `{SodiumLaws, SqliteReliable D} (key : bytes) (d : D) :
  let t := Sql.current (content d) in
  log_fits t ->
  exists d' res, AuditVerify.verifyAuditChain true key d = (d', Ok res) /\ content d' = content d /\
    (AuditVerify.ok res = true <-> chain_ok key t) /\
    (forall i, first_bad key zero_hash (Sql.audit_log t) = Some i -> AuditVerify.bad_id res = i).
Proof. intros t Hf. by apply verify_run. Qed.

(** The second entry turned from a denial into a grant. *)
Definition forged : Sql.database :=
  let t := Sql.current two_entries in
  Sql.mkDatabase (Sql.set_audit
    ((fun r => if decide (Sql.a_id r = 2)
               then Sql.mkAuditRow 2 (Sql.a_ts r) (Sql.a_reader r) (Sql.a_door r) (Sql.a_seq r) 1
                      "ok" (Sql.a_card r) (Sql.a_action r) (Sql.a_prev r) (Sql.a_entry r)
               else r) <$> Sql.audit_log t) 2 t) None true.

Lemma verify_decides_chain_witness :
  exists d' res, AuditVerify.verifyAuditChain true (_key test_log) forged = (d', Ok res) /\
    content d' = content forged /\
    (AuditVerify.ok res = true <-> chain_ok (_key test_log) (Sql.current (content forged))) /\
    (forall i, first_bad (_key test_log) zero_hash (Sql.audit_log (Sql.current (content forged))) = Some i ->
       AuditVerify.bad_id res = i).
Proof.
  apply (verify_decides_chain (_key test_log) forged).
  refine (bool_decide_eq_true_1 (Forall row_fits _) _). vm_compute. reflexivity.
Defined.

(** C13: tamper evidence. Two databases that both verify under one key with the
    same anchor hash hold the same sequence of events. If they do not, then
    among the messages hashed along the two chains there are two different ones
    with the same HMAC, or one whose HMAC is all zero: altering, reordering,
    inserting or deleting entries without touching the anchor takes a forgery
    of HMAC-SHA256. *)
Theorem audit_log_tamper_evident {D : Type} `{SodiumLaws, SqliteReliable D} (key : bytes) (d1 d2 : D)
    (d1' d2' : D) (r1 r2 : AuditVerify.AuditVerifyResult) (h : bytes) (ts1 ts2 : Z) :
  let t1 := Sql.current (content d1) in
  let t2 := Sql.current (content d2) in
  log_fits t1 -> log_fits t2 ->
  AuditVerify.verifyAuditChain true key d1 = (d1', Ok r1) -> AuditVerify.ok r1 = true ->
  AuditVerify.verifyAuditChain true key d2 = (d2', Ok r2) -> AuditVerify.ok r2 = true ->
  Sql.audit_anchor t1 = Some (h, ts1) -> Sql.audit_anchor t2 = Some (h, ts2) ->
  trail t1 = trail t2 \/
  hash_coincidence key (messages zero_hash (Sql.audit_log t1)) (messages zero_hash (Sql.audit_log t2)).
Proof.
  intros t1 t2 F1 F2 E1 O1 E2 O2 A1 A2.
  destruct (verify_run key d1 F1) as (? & ? & E1' & _ & Hok1 & _).
  destruct (verify_run key d2 F2) as (? & ? & E2' & _ & Hok2 & _).
  rewrite E1 in E1'. rewrite E2 in E2'. injection E1' as <- <-. injection E2' as <- <-.
  destruct (proj1 Hok1 O1) as [C1 [? H1']]. destruct (proj1 Hok2 O2) as [C2 [? H2']].
  apply chains_agree; [done..|]. unfold t1, t2 in *. congruence.
Qed.

Lemma audit_log_tamper_evident_witness :
  trail (Sql.current two_entries) = trail (Sql.current two_entries) \/
  hash_coincidence (_key test_log) (messages zero_hash (Sql.audit_log (Sql.current two_entries)))
    (messages zero_hash (Sql.audit_log (Sql.current two_entries))).
Proof.
  refine (audit_log_tamper_evident (_key test_log) two_entries two_entries two_entries two_entries
    (AuditVerify.mkResult true (-1) "") (AuditVerify.mkResult true (-1) "") _ _ _ _ _ _ eq_refl _ eq_refl _ _).
  - refine (bool_decide_eq_true_1 (Forall row_fits _) _). vm_compute. reflexivity.
  - refine (bool_decide_eq_true_1 (Forall row_fits _) _). vm_compute. reflexivity.
  - vm_compute. reflexivity.
  - vm_compute. reflexivity.
  - vm_compute. reflexivity.
  - vm_compute. reflexivity.
Defined.

(** C16: a failed append leaves no trace. If an append that started outside a
    transaction throws, whatever failed (the insert, the anchor update, the
    commit, even the rollback), the committed tables are those from before the
    call: no entry without its anchor, no anchor without its entry. It is
    assumed that the query for the last hash ran to its end: its failure is
    not checked by the code. *)
Theorem append_is_atomic {D : Type} `{Sodium, SqliteLaws D} (l : SqliteAuditLog)
    (e : Audit.AuditEvent) (d d' : D) (err : exn) :
  (forall d : D, (sqlite_run (Sql.text Sql.LastEntryHash) [] d).2.2 = SQLITE_DONE) ->
  Sql.saved (content d) = None -> append l e d = (d', Throw err) ->
  committed (content d') = Sql.current (content d).
Proof.
  intros Hq Hs E. destruct (append_committed l e d d' (Throw err) Hq E) as [|Hc]; [done|].
  rewrite Hc. unfold committed. by rewrite Hs.
Qed.

(** A log that has used up its identifiers. *)
Definition full_log : Sql.database :=
  let t := Sql.current one_entry in
  Sql.mkDatabase (Sql.set_audit (Sql.audit_log t) Sql.max_rowid t) None true.

Lemma append_is_atomic_witness :
  committed (content (append test_log other_event full_log).1) = Sql.current (content full_log).
Proof.
  apply (append_is_atomic test_log other_event full_log
    (append test_log other_event full_log).1 (runtime_error "SqliteAuditLog: insert failed"));
    [|reflexivity|vm_compute; reflexivity].
  intros d. cbn [sqlite_run sqlite]. rewrite run_text. reflexivity.
Defined.

End AuditProps.
