(* ===== verification/Config.v ===== *)
(** config_loader: the settings of the server and how they are read from YAML.
    yaml-cpp is the class [Yaml]. *)
From Stdlib Require Import ZArith Lia.
From stdpp Require Import base option list strings.
From S2P Require Import Prelude Wire Replay Crypto Keys Access FrameHandling.
Local Open Scope Z_scope.

(** yaml-cpp as the loader uses it: [YAML::LoadFile]; [node[key]], where [None]
    is an undefined node and subscripting a scalar throws; [as<T>()] for the
    types of the settings, [as_uint w] for the unsigned type of [w] bits. *)
Class Yaml := {
  node : Type;
  LoadFile : string -> res node;
  subscript : node -> string -> res (option node);
  as_bool : node -> res bool;
  as_uint : Z -> node -> res Z;
  as_string : node -> res string;
}.

(** [as<T>()] returns a value of type [T]. *)
Class YamlLaws `{Yaml} : Prop := {
  as_uint_range w n z : as_uint w n = Ok z -> 0 <= z < 2 ^ w;
}.

Module Config.

Record StorageConfig := mkStorageConfig { sqlitePath : string }.

Record AdminConfig := mkAdminConfig {
  bindHost : string;
  port : Z;
  adminToken : string;
  hwSharedSecretHex : string;
  maxUploadBytes : Z;
  maxEvents : Z;
  decisionMode : string;
  decisionUrl : string;
}.

Record KeyManagementYaml := mkKeyManagementYaml {
  currentKeyVersion : Z;
  allowPreviousKeyVersion : bool;
  masterKeyPath : string;
}.

Record ExperimentConfig := mkExperimentConfig {
  cipherMode : string;
  nonceMode : string;
  keyDerivationMode : string;
  aadMode : string;
  pepperMode : string;
  auditChainEnabled : bool;
  misuseDetectionEnabled : bool;
  rollbackThreshold : Z;
  tagFailStreakLimit : Z;
}.

Record Config := mkConfig {
  frameHandler : FrameHandler.FrameHandlerConfig;
  storage : StorageConfig;
  admin : AdminConfig;
  keyManagement : KeyManagementYaml;
  experiment : ExperimentConfig;
}.

(** The default member initializers. *)
Definition StorageConfig_default : StorageConfig := mkStorageConfig "data/access.db".

Definition AdminConfig_default : AdminConfig :=
  mkAdminConfig "127.0.0.1" 8080 "" "" (20 * 1024 * 1024) 1024 "local" "http://127.0.0.1:8081".

Definition KeyManagementYaml_default : KeyManagementYaml :=
  mkKeyManagementYaml 1 true "secrets/master_key.hex".

Definition ExperimentConfig_default : ExperimentConfig :=
  mkExperimentConfig "xchacha20" "deterministic" "hkdf" "full" "versioned" true false 100 5.

Definition Config_default : Config :=
  mkConfig FrameHandler.FrameHandlerConfig_default StorageConfig_default AdminConfig_default
    KeyManagementYaml_default ExperimentConfig_default.

Section Loading.
Context `{Yaml}.

(** [root[key]] on a node that may be undefined: the child, undefined again if
    there is none. *)
Definition readValue {A} (as_ : node -> res A) (n : option node) (key : string) (defaultValue : A) :
    res A :=
  match n with
  | None => Ok defaultValue
  | Some n =>
      child ← subscript n key;
      match child with
      | None => Ok defaultValue
      | Some v => as_ v
      end
  end.

Definition loadFrameHandler (n : option node) : res FrameHandler.FrameHandlerConfig :=
  let cfg := FrameHandler.FrameHandlerConfig_default in
  antiReplayEnabled ← readValue as_bool n "anti_replay_enabled"
    (FrameHandler.antiReplayEnabled cfg);
  replayWindowSize ← readValue (as_uint 64) n "replay_window_size"
    (FrameHandler.replayWindowSize cfg);
  maxCtLen ← readValue (as_uint 32) n "max_ct_len" (FrameHandler.maxCtLen cfg);
  maxSkewMs ← readValue (as_uint 64) n "max_skew_ms" (FrameHandler.maxSkewMs cfg);
  allowPreviousKeyVersion ← readValue as_bool n "allow_previous_key_version"
    (FrameHandler.allowPreviousKeyVersion cfg);
  enforceReaderDoorBinding ← readValue as_bool n "enforce_reader_door_binding"
    (FrameHandler.enforceReaderDoorBinding cfg);
  if antiReplayEnabled && bool_decide (replayWindowSize = 0) then
    Throw (runtime_error "config: replay_window_size must be > 0 when anti_replay_enabled")
  else
    Ok (FrameHandler.mkFrameHandlerConfig antiReplayEnabled replayWindowSize maxCtLen maxSkewMs
          allowPreviousKeyVersion enforceReaderDoorBinding
          (FrameHandler.keyDerivationMode cfg) (FrameHandler.aadMode cfg)
          (FrameHandler.pepperMode cfg) (FrameHandler.cipherMode cfg)
          (FrameHandler.nonceMode cfg)).

Definition loadStorage (n : option node) : res StorageConfig :=
  let cfg := StorageConfig_default in
  sqlitePath ← readValue as_string n "sqlite_path" (sqlitePath cfg);
  Ok (mkStorageConfig sqlitePath).

Definition loadAdmin (n : option node) : res AdminConfig :=
  let cfg := AdminConfig_default in
  bindHost ← readValue as_string n "bind_host" (bindHost cfg);
  port ← readValue (as_uint 16) n "port" (port cfg);
  adminToken ← readValue as_string n "admin_token" (adminToken cfg);
  hwSharedSecretHex ← readValue as_string n "hw_shared_secret_hex" (hwSharedSecretHex cfg);
  maxUploadBytes ← readValue (as_uint 64) n "max_upload_bytes" (maxUploadBytes cfg);
  maxEvents ← readValue (as_uint 64) n "max_events" (maxEvents cfg);
  decisionMode ← readValue as_string n "decision_mode" (decisionMode cfg);
  decisionUrl ← readValue as_string n "decision_url" (decisionUrl cfg);
  Ok (mkAdminConfig bindHost port adminToken hwSharedSecretHex maxUploadBytes maxEvents
        decisionMode decisionUrl).

Definition loadKeyManagement (n : option node) : res KeyManagementYaml :=
  let cfg := KeyManagementYaml_default in
  currentKeyVersion ← readValue (as_uint 32) n "current_key_version" (currentKeyVersion cfg);
  allowPreviousKeyVersion ← readValue as_bool n "allow_previous_key_version"
    (allowPreviousKeyVersion cfg);
  masterKeyPath ← readValue as_string n "master_key_path" (masterKeyPath cfg);
  Ok (mkKeyManagementYaml currentKeyVersion allowPreviousKeyVersion masterKeyPath).

Definition loadExperiment (n : option node) : res ExperimentConfig :=
  let cfg := ExperimentConfig_default in
  cipherMode ← readValue as_string n "cipher_mode" (cipherMode cfg);
  nonceMode ← readValue as_string n "nonce_mode" (nonceMode cfg);
  keyDerivationMode ← readValue as_string n "key_derivation_mode" (keyDerivationMode cfg);
  aadMode ← readValue as_string n "aad_mode" (aadMode cfg);
  pepperMode ← readValue as_string n "pepper_mode" (pepperMode cfg);
  auditChainEnabled ← readValue as_bool n "audit_chain_enabled" (auditChainEnabled cfg);
  misuseDetectionEnabled ← readValue as_bool n "misuse_detection_enabled"
    (misuseDetectionEnabled cfg);
  rollbackThreshold ← readValue (as_uint 64) n "rollback_threshold" (rollbackThreshold cfg);
  tagFailStreakLimit ← readValue (as_uint 32) n "tag_fail_streak_limit" (tagFailStreakLimit cfg);
  Ok (mkExperimentConfig cipherMode nonceMode keyDerivationMode aadMode pepperMode
        auditChainEnabled misuseDetectionEnabled rollbackThreshold tagFailStreakLimit).

(** [catch (const std::exception& e)] around [YAML::LoadFile] only. *)
Definition loadRoot (path : string) : res node :=
  match LoadFile path with
  | Throw e =>
      match FrameHandler.what_of e with
      | Some what => Throw (runtime_error ("config: failed to load yaml: " +:+ what))
      | None => Throw e
      end
  | r => r
  end.

Definition loadFromYaml (path : string) : res Config :=
  root ← loadRoot path;
  frameHandler ← (n ← subscript root "frame_handler"; loadFrameHandler n);
  storage ← (n ← subscript root "storage"; loadStorage n);
  admin ← (n ← subscript root "admin"; loadAdmin n);
  keyManagement ← (n ← subscript root "key_management"; loadKeyManagement n);
  experiment ← (n ← subscript root "experiment"; loadExperiment n);
  Ok (mkConfig frameHandler storage admin keyManagement experiment).

End Loading.
End Config.

(** ** What loading promises *)

Module ConfigSpec.
Import Config.

(** Every number has the width of its type, and an anti-replay window that is
    in use is not empty. *)
Record Config_ok (c : Config) : Prop := {
  ok_frame : HandlerFacts.config_ok (frameHandler c);
  ok_window : FrameHandler.antiReplayEnabled (frameHandler c) = true ->
    FrameHandler.replayWindowSize (frameHandler c) <> 0;
  ok_port : 0 <= port (admin c) < 2 ^ 16;
  ok_upload : is_u64 (maxUploadBytes (admin c));
  ok_events : is_u64 (maxEvents (admin c));
  ok_version : is_u32 (currentKeyVersion (keyManagement c));
  ok_rollback : is_u64 (rollbackThreshold (experiment c));
  ok_streak : is_u32 (tagFailStreakLimit (experiment c));
}.

End ConfigSpec.

(** ** Lemmas *)

Module ConfigFacts.
Import Config ConfigSpec.
Section ConfigFacts.
Context `{YamlLaws}.

(** A setting is the default or what its own key converts to. *)
Lemma readValue_inv {A} (as_ : node -> res A) n key d v (P : A -> Prop) :
  readValue as_ n key d = Ok v -> P d -> (forall m v, as_ m = Ok v -> P v) -> P v.
Proof.
  unfold readValue. intros E Hd Has. destruct n as [n|]; [|by simplify_eq].
  inv_res. case_match; [by eapply Has|by simplify_eq].
Qed.

Lemma readValue_uint w n key d v :
  readValue (as_uint w) n key d = Ok v -> 0 <= d < 2 ^ w -> 0 <= v < 2 ^ w.
Proof. intros E Hd. apply (readValue_inv _ _ _ _ _ (fun v => 0 <= v < 2 ^ w) E Hd). intros m u. apply as_uint_range. Qed.

Lemma loadFrameHandler_ok n c :
  loadFrameHandler n = Ok c ->
  HandlerFacts.config_ok c /\
  (FrameHandler.antiReplayEnabled c = true -> FrameHandler.replayWindowSize c <> 0).
Proof.
  unfold loadFrameHandler. intros E. inv_res.
  destruct (_ && _) eqn:Hz in E; [done|]. injection E as <-. split.
  - split; cbn; eapply readValue_uint; eauto; by_decision.
  - cbn. intros -> ->. by rewrite bool_decide_true in Hz.
Qed.

Lemma loadFromYaml_ok path c : loadFromYaml path = Ok c -> Config_ok c.
Proof.
  unfold loadFromYaml, loadAdmin, loadKeyManagement, loadExperiment. intros E. inv_res.
  edestruct loadFrameHandler_ok as [Hc Hw]; [eassumption|].
  split; cbn; try done; eapply readValue_uint; eauto; by_decision.
Qed.

End ConfigFacts.
End ConfigFacts.

(** ** Properties *)

(** A file store with one document, for evaluation. *)
Module ToyYaml.
#[local] Set Warnings "-register-all".
Inductive tree := Num (z : Z) | Flag (b : bool) | Text (s : string) | Map (l : list (string * tree)).

Fixpoint assoc (key : string) (l : list (string * tree)) : option tree :=
  match l with
  | [] => None
  | (k, t) :: l' => if decide (k = key) then Some t else assoc key l'
  end.

Section ToyYaml.
Context (files : list (string * tree)).

Definition toy_yaml : Yaml := {|
  node := tree;
  LoadFile path :=
    match assoc path files with Some t => Ok t | None => Throw (std_exception "bad file") end;
  subscript t key := match t with Map l => Ok (assoc key l) | _ => Throw (std_exception "bad subscript") end;
  as_bool t := match t with Flag b => Ok b | _ => Throw (std_exception "bad conversion") end;
  as_uint w t :=
    match t with
    | Num z => if decide (0 <= z < 2 ^ w) then Ok z else Throw (std_exception "bad conversion")
    | _ => Throw (std_exception "bad conversion")
    end;
  as_string t := match t with Text s => Ok s | _ => Throw (std_exception "bad conversion") end;
|}.

#[global] Instance toy_yaml_laws : @YamlLaws toy_yaml.
Proof. split. intros w t z E. destruct t; cbn in E; try done. case_decide; by simplify_eq. Qed.

End ToyYaml.
End ToyYaml.

Module ConfigProps.
Import Config ConfigSpec ConfigFacts ToyYaml.

Definition test_files : list (string * tree) := [
  ("empty.yaml", Map []);
  ("port.yaml", Map [("admin", Map [("port", Num 70000)])]);
  ("window.yaml", Map [("frame_handler", Map [("replay_window_size", Num 0)])]);
  ("off.yaml", Map [("frame_handler",
     Map [("replay_window_size", Num 0); ("anti_replay_enabled", Flag false)])]);
  ("typo.yaml", Map [("experiment", Map [("nonce_mode", Text "determinstic")])]);
  ("r2.yaml", Map [("frame_handler", Map [("replay_window_size", Num 64); ("max_skew_ms", Num 30000)]);
    ("admin", Map [("port", Num 9000); ("admin_token", Text "secret")]);
    ("experiment", Map [("misuse_detection_enabled", Flag true); ("rollback_threshold", Num 50)])])
  ]%string.

#[export] Instance test_yaml : Yaml := toy_yaml test_files.

Definition r2_config : Config :=
  mkConfig
    (FrameHandler.mkFrameHandlerConfig true 64 4096 30000 true true
       "hkdf" "full" "versioned" "xchacha20" "deterministic")
    StorageConfig_default
    (mkAdminConfig "127.0.0.1" 9000 "secret" "" (20 * 1024 * 1024) 1024 "local"
       "http://127.0.0.1:8081")
    KeyManagementYaml_default
    (mkExperimentConfig "xchacha20" "deterministic" "hkdf" "full" "versioned" true true 50 5).

(** An empty document gives the default settings; a number out of the range of
    its type, an unreadable file and an empty window in use are errors. *)
Example load_empty : loadFromYaml "empty.yaml" = Ok Config_default.
Proof. vm_compute. reflexivity. Qed.
Example load_port : loadFromYaml "port.yaml" = Throw (std_exception "bad conversion").
Proof. vm_compute. reflexivity. Qed.
Example load_missing :
  loadFromYaml "none.yaml" = Throw (runtime_error "config: failed to load yaml: bad file").
Proof. vm_compute. reflexivity. Qed.
Example load_zero_window : loadFromYaml "window.yaml" =
  Throw (runtime_error "config: replay_window_size must be > 0 when anti_replay_enabled").
Proof. vm_compute. reflexivity. Qed.
Example load_zero_window_off :
  exists c, loadFromYaml "off.yaml" = Ok c /\ FrameHandler.replayWindowSize (frameHandler c) = 0.
Proof. eexists. split; vm_compute; reflexivity. Qed.

(** A mode is any text: a misspelled one is accepted. *)
Example load_typo :
  exists c, loadFromYaml "typo.yaml" = Ok c /\ nonceMode (experiment c) = "determinstic"%string.
Proof. eexists. split; vm_compute; reflexivity. Qed.

(** C39: settings that load are well typed and usable. Whatever the YAML
    document holds, a configuration that [loadFromYaml] returns has every
    number within the width of its C++ type (the frame handler's limits, the
    port, the upload limit, the key version, the detector's thresholds), and
    the replay window is not empty when anti-replay is on: what the theorems on
    the frame handler assume of its configuration. *)
Theorem loaded_config_ok `{YamlLaws} (path : string) (c : Config) :
  loadFromYaml path = Ok c -> Config_ok c.
Proof. apply loadFromYaml_ok. Qed.

Lemma loaded_config_ok_witness : Config_ok r2_config.
Proof. refine (loaded_config_ok "r2.yaml" r2_config _). vm_compute. reflexivity. Defined.

End ConfigProps.
