(* ===== verification/HwService.v ===== *)
(** access_admin/service/hw_service: the signed hardware endpoint. It builds,
    from a card scan, the encrypted frame a reader would send, and has the
    engine decide it. *)
From Stdlib Require Import ZArith Lia Ascii.
From stdpp Require Import base option list gmap strings.
From S2P Require Import Prelude LittleEndian Wire Replay Crypto Keys Events Detector Access FrameHandling Engine.
Local Open Scope Z_scope.

Module HwService.

Record HwUidRequest := mkHwUidRequest {
  uid : string;
  reader_id : Z;
  door_id : Z;
  hw_seq : Z;
  action : string;
}.

(** The modes of [cfg.experiment] the frame is built with. *)
Record Modes := mkModes {
  keyDerivationMode : string;
  aadMode : string;
  cipherMode : string;
  nonceMode : string;
}.

Section Building.
Context `{Sodium, Json}.

Definition buildPayloadJson (uid action : string) : res string :=
  dump (json_object [("card_id", uid); ("action", action)]%string).

Definition buildPacketHeader (reader_id door_id seq key_version ts_unix_ms : Z) (nonce : bytes) :
    Packet.Header :=
  Packet.mkHeader reader_id door_id ts_unix_ms seq key_version nonce.

Definition createNonceGenerator (nonceMode : string) (cm : SecureAead.CipherMode)
    (km : KeyManager.KeyManager) (reader_id key_version : Z) : res Nonce.NonceGenerator :=
  if decide (nonceMode = "random"%string) then Ok (Nonce.RandomNonceGenerator cm)
  else
    nonceKey ← KeyManager.deriveNonceKey km reader_id key_version;
    Ok (Nonce.HmacNonceGenerator nonceKey cm).

Definition buildNonceContext (reader_id door_id ts_unix_ms seq key_version : Z) : bytes :=
  Packet.to_bytes (Packet.mkHeader reader_id door_id ts_unix_ms seq key_version (replicate 24 0)).

Definition encryptAndSerialize (aead : SecureAead.SecureAead) (header : Packet.Header)
    (payload_text : string) (nonce : bytes) (aadMode : string) : res bytes :=
  let aad := if decide (aadMode <> "none"%string) then Packet.to_bytes header else [] in
  let pt := bytes_of_string payload_text in
  c ← SecureAead.sealWithNonce aead pt aad nonce;
  Ok (Frame.serialize (Frame.mkFrame header (SecureAead.c_ct c) (SecureAead.c_tag c))).

(** [nonceGen->generate(context, seq)], reading random bytes if it must. *)
Definition generate_nonce `{Env} {W} (g : Nonce.NonceGenerator) (context : bytes) (seq : Z) :
    M (HState W) bytes :=
  match g with
  | Nonce.RandomNonceGenerator cm =>
      rnd ← randombytes (Nonce.nonceLenFor cm); mret (Nonce.generate g context seq rnd)
  | Nonce.HmacNonceGenerator _ _ => mret (Nonce.generate g context seq [])
  end.

Definition buildEncryptedFrameBytes `{Env} {W} (km : KeyManager.KeyManager)
    (reader_id door_id seq key_version ts_unix_ms : Z) (uid action : string) (modes : Modes) :
    M (HState W) bytes :=
  payloadText ← lift (buildPayloadJson uid action);
  aeadKey ← lift (if decide (keyDerivationMode modes = "direct"%string)
                  then Ok (KeyManager.masterAsAeadKey km)
                  else KeyManager.deriveAeadKey km reader_id key_version);
  let cm := if decide (cipherMode modes = "chacha20"%string) then SecureAead.ChaCha20Poly1305
            else SecureAead.XChaCha20Poly1305 in
  rnd ← randombytes 16;
  let aead := SecureAead.SecureAead_new aeadKey cm rnd in
  nonceGen ← lift (createNonceGenerator (nonceMode modes) cm km reader_id key_version);
  let context := buildNonceContext reader_id door_id ts_unix_ms seq key_version in
  nonce ← generate_nonce nonceGen context seq;
  let header := buildPacketHeader reader_id door_id seq key_version ts_unix_ms nonce in
  lift (encryptAndSerialize aead header payloadText nonce (aadMode modes)).

End Building.

(** ** The request signature *)

Definition hexNibble (c : ascii) : Z :=
  if decide (48 <= Hex.code c <= 57) then u8 (Hex.code c - 48)
  else if decide (97 <= Hex.code c <= 102) then u8 (10 + (Hex.code c - 97))
  else if decide (65 <= Hex.code c <= 70) then u8 (10 + (Hex.code c - 65))
  else 0.

Fixpoint hex_pairs (l : list ascii) : bytes :=
  match l with
  | c1 :: c2 :: l' => u8 (Z.lor (Z.shiftl (hexNibble c1) 4) (hexNibble c2)) :: hex_pairs l'
  | _ => []
  end.

Definition hexToBytesLoose (hex : string) : bytes :=
  let l := String.list_ascii_of_string hex in
  if decide (Nat.modulo (length l) 2 <> 0%nat) then [] else hex_pairs l.

(** The key, or the error. *)
Definition parseHmacKey (hex : string) : string + bytes :=
  let key := hexToBytesLoose hex in
  if decide (length key <> 32%nat) then inl "bad_hw_secret_len"%string else inr key.

Definition parseSignature (hex : string) : string + bytes :=
  let sig := hexToBytesLoose hex in
  if decide (length sig <> 32%nat) then inl "bad_signature_len"%string else inr sig.

Section Signature.
Context `{Sodium}.

Definition verifyHmac (msg : string) (key expected_sig : bytes) : bool :=
  let mac := crypto_auth_hmacsha256 (bytes_of_string msg) key in
  bool_decide (sodium_memcmp mac expected_sig = 0).

(** What is signed. *)
Definition signed_message (body : string) : string :=
  "POST /api/hw/uid" +:+ String (ascii_of_nat 10) EmptyString +:+ body.

(** The verdict, and [err] when it is [false]; [sodium_ready] is
    [sodium_init() >= 0]. *)
Definition verifyHwSignature (sodium_ready : bool) (signature_hex body hw_secret_hex : string) :
    bool * string :=
  if decide (hw_secret_hex = EmptyString) then (false, "misconfigured"%string)
  else if negb sodium_ready then (false, "sodium_init_failed"%string)
  else if decide (signature_hex = EmptyString) then (false, "missing_signature"%string)
  else
    match parseHmacKey hw_secret_hex with
    | inl err => (false, err)
    | inr key =>
        match parseSignature signature_hex with
        | inl err => (false, err)
        | inr sig =>
            if negb (verifyHmac (signed_message body) key sig)
            then (false, "bad_signature"%string) else (true, EmptyString)
        end
    end.

End Signature.

(** ** The endpoint *)

(** One attempt of the POST to the decision service: [None] without a response
    of status 200; else the fields of the JSON answer, if present. *)
Class Http := { post_frame : nat -> bytes -> res (option (option bool * option string)) }.

Section Processing.
Context `{Sodium, Env, Json, Http} {W : Type} `{IAccessStore W, !IAuditLog W}.
Import Engine.

Record App := mkApp {
  engine : DecisionEngine;
  modes : Modes;
  decisionMode : string;
}.

(** [app.events.push] of an event stamped with the current time. *)
Definition pushHwEvent (message : string) (reader_id door_id seq : Z) : M (EState W) unit :=
  now ← on_h nowUnixMs;
  push_event (EventBus.mkEvent 0 now "hw" message reader_id door_id seq false "").

(** The three attempts of "remote" mode, from attempt [i] on. *)
Fixpoint remote_decision (fuel i : nat) (frameBytes : bytes) : res DecisionResult :=
  match fuel with
  | O => Ok (mkDecisionResult false "")
  | S fuel' =>
      answer ← post_frame i frameBytes;
      match answer with
      | Some (allow, reason) =>
          Ok (mkDecisionResult (default false allow) (default "remote_error"%string reason))
      | None =>
          if decide (i < 2)%nat then remote_decision fuel' (S i) frameBytes
          else Ok (mkDecisionResult false "remote_unavailable")
      end
  end.

(** What the response tells: verdict, reason, and the frame's metadata unless
    the reader is unknown. *)
Record HwResponse := mkHwResponse {
  r_allow : bool;
  r_reason : string;
  r_frame : option (Z * Z * Z * Z);   (* reader_id, door_id, seq, key_version *)
}.

(** The part of [processHwUid] under the lock of the store: the answer for a
    reader without a key, else the key version and the frame. *)
Definition prepareScan (km : KeyManager.KeyManager) (modes : Modes) (req : HwUidRequest) :
    M (EState W) (HwResponse + Z * bytes) :=
  ts ← on_h nowUnixMs;
  kv ← on_h (on_ext (currentKeyVersionForReader (reader_id req)));
  if decide (kv = 0) then
    pushHwEvent "hw uid: unknown_reader" (reader_id req) (door_id req) 0 ;;
    mret (inl (mkHwResponse false "unknown_reader" None))
  else
    let seq := hw_seq req in
    pushHwEvent ("uid=" +:+ uid req) (reader_id req) (door_id req) seq ;;
    frameBytes ← on_h (buildEncryptedFrameBytes km (reader_id req)
      (door_id req) seq kv ts (uid req) (action req) modes);
    mret (inr (kv, frameBytes)).

(** The response to a scan that was decided. *)
Definition scan_response (req : HwUidRequest) (kv : Z) (r : DecisionResult) : HwResponse :=
  mkHwResponse (allow r) (reason r) (Some (reader_id req, door_id req, hw_seq req, kv)).

Definition processHwUid (app : App) (req : HwUidRequest) : M (EState W) HwResponse :=
  scan ← prepareScan (_keyManager (engine app)) (modes app) req;
  match scan with
  | inl response => mret response
  | inr (kv, frameBytes) =>
      r ← (if decide (decisionMode app = "remote"%string)
           then lift (remote_decision 3 0 frameBytes)
           else handleFrameBytes (engine app) frameBytes);
      mret (scan_response req kv r)
  end.

End Processing.
End HwService.

(** ** Lemmas *)

Module HwFacts.
Import HwService Engine EngineSpec EngineFacts.

(** The engine is configured with the modes the endpoint builds frames with, as
    [AppState::openOrCreate] does. *)
Record modes_agree (m : Modes) (c : FrameHandler.FrameHandlerConfig) : Prop := {
  agree_key : keyDerivationMode m = FrameHandler.keyDerivationMode c;
  agree_aad : aadMode m = FrameHandler.aadMode c;
  agree_cipher : cipherMode m = FrameHandler.cipherMode c;
  agree_nonce : nonceMode m = FrameHandler.nonceMode c;
}.

(** A generator of random bytes delivers as many bytes as are asked for. *)
Class EnvLaws `{Env} : Prop := {
  entropy_ok n : (24 <= length (entropy n))%nat /\ bytes_ok (entropy n);
}.

Section HwFacts.
Context `{SodiumLaws, Env, !EnvLaws, JsonLaws} {W : Type} `{IAccessStore W}.

Lemma payload_run (uid action : string) :
  text_ok uid -> text_ok action -> text_ok "card_id"%string -> text_ok "action"%string ->
  uid <> EmptyString -> action <> EmptyString ->
  exists text, buildPayloadJson uid action = Ok text /\
    Payload.parseAccessRequestJson text = Ok (Payload.mkAccessRequest uid action).
Proof.
  intros Hu Ha Hk1 Hk2 Hu0 Ha0.
  destruct (dump_parse [("card_id", uid); ("action", action)]%string) as (text & j & Ed & Ep & Eo & Ek).
  { repeat apply Forall_cons_2; [done..|by apply Forall_nil_2]. }
  { cbn. apply NoDup_cons_2; [set_solver|]. apply NoDup_singleton. }
  exists text. split; [exact Ed|].
  destruct (Ek "card_id"%string uid) as (E1 & E2 & E3); [set_solver|].
  destruct (Ek "action"%string action) as (F1 & F2 & F3); [set_solver|].
  unfold Payload.parseAccessRequestJson. rewrite Ep, Eo, E1, E2, F1, F2, E3, F3. cbn.
  by rewrite !decide_False.
Qed.

Definition aead_key (km : KeyManager.KeyManager) (mode : string) (reader kv : Z) : bytes :=
  if decide (mode = "direct"%string) then KeyManager._masterKey km
  else KeySpec.key_for km (KeySpec.ForAead reader kv).

Lemma aead_key_run km mode reader kv :
  is_u32 reader -> is_u32 kv ->
  (if decide (mode = "direct"%string) then Ok (KeyManager.masterAsAeadKey km)
   else KeyManager.deriveAeadKey km reader kv) = Ok (aead_key km mode reader kv).
Proof.
  intros Hr Hk. unfold aead_key. case_decide; [done|].
  by apply (KeyFacts.derive_for_spec km (KeySpec.ForAead reader kv)).
Qed.

Lemma aead_key_array km mode reader kv :
  array_ok 32 (KeyManager._masterKey km) -> array_ok 32 (aead_key km mode reader kv).
Proof. intros Hm. unfold aead_key. case_decide; [done|]. apply KeyFacts.key_for_array. Qed.

(** Sealing under the key and modes of the handler gives a frame it opens. *)
Lemma encrypt_run (e : DecisionEngine) (hd : Packet.Header) (text : string) (rnd : bytes) :
  let c := _frameHandlerCfg e in
  Packet.Header_ok hd -> array_ok 32 (KeyManager._masterKey (_keyManager e)) ->
  let key := aead_key (_keyManager e) (FrameHandler.keyDerivationMode c)
    (Packet.reader_id hd) (Packet.key_version hd) in
  exists f,
    encryptAndSerialize
      (SecureAead.SecureAead_new key (FrameHandler.cipher_of (FrameHandler.cipherMode c)) rnd)
      hd text (Packet.nonce hd) (FrameHandler.aadMode c) = Ok (Frame.serialize f) /\
    Frame.header f = hd /\ Frame.Frame_ok f /\ length (Frame.ct f) = String.length text /\
    HandlerSpec.opened (handler_of e) f = Some (bytes_of_string text).
Proof.
  intros c Hh Hm key. unfold encryptAndSerialize.
  set (aad := if decide (FrameHandler.aadMode c <> "none"%string) then _ else _).
  destruct (CryptoFacts.open_seal
    (SecureAead.mkSecureAead key (FrameHandler.cipher_of (FrameHandler.cipherMode c)) [])
    (bytes_of_string text) aad (Packet.nonce hd)) as (ct & E & _ & Hct & Hok & Htag & Hopen).
  { apply bytes_of_string_ok. }
  { apply aead_key_array, Hm. }
  { apply Hh. }
  change (SecureAead.sealWithNonce (SecureAead.SecureAead_new key _ rnd)) with
    (SecureAead.sealWithNonce
       (SecureAead.mkSecureAead key (FrameHandler.cipher_of (FrameHandler.cipherMode c)) [])).
  rewrite E. cbn [mbind res_bind]. eexists. split; [reflexivity|].
  rewrite length_bytes_of_string in Hct.
  split; [done|]. split; [split; cbn; try done; by rewrite Hct|]. split; [done|].
  unfold HandlerSpec.opened.
  cbn [Frame.header Frame.ct Frame.tag handler_of FrameHandler._config FrameHandler._keyManager].
  fold c. fold (aead_key (_keyManager e) (FrameHandler.keyDerivationMode c)
    (Packet.reader_id hd) (Packet.key_version hd)). fold key.
  replace (if decide (FrameHandler.aadMode c = "none"%string) then [] else Packet.to_bytes hd)
    with aad by (subst aad; repeat case_decide; naive_solver).
  by rewrite Hopen.
Qed.

(** The nonce: 24 bytes, and the one the engine expects if it is derived. *)
Lemma nonce_run (e : DecisionEngine) reader door ts seq kv (s : HState W) :
  let c := _frameHandlerCfg e in
  let cm := FrameHandler.cipher_of (FrameHandler.cipherMode c) in
  is_u32 reader -> is_u32 kv ->
  exists gen nonce s',
    createNonceGenerator (FrameHandler.nonceMode c) cm (_keyManager e) reader kv = Ok gen /\
    generate_nonce gen (buildNonceContext reader door ts seq kv) seq s = (s', Ok nonce) /\
    h_windows s' = h_windows s /\ h_ext s' = h_ext s /\ array_ok 24 nonce /\
    (FrameHandler.nonceMode c = "deterministic"%string ->
     nonce_expected e (Packet.mkHeader reader door ts seq kv nonce) = true).
Proof.
  intros c cm Hr Hk. unfold createNonceGenerator. pose proof (CryptoFacts.nonceLenFor_bound cm) as Hn.
  destruct (decide (FrameHandler.nonceMode c = "random"%string)) as [Em|Em].
  - destruct (entropy_ok (h_ticks s)) as [Hel Heb].
    do 3 eexists. split; [reflexivity|]. split; [reflexivity|]. split; [done|]. split; [done|].
    split; [|by rewrite Em].
    cbn [Nonce.generate]. split; [apply CryptoFacts.length_nonce_array; [done|]|].
    + rewrite length_take. lia.
    + unfold Nonce.nonce_array. apply bytes_ok_app. auto with widths.
  - pose proof (KeyFacts.derive_for_spec (_keyManager e) (KeySpec.ForNonce reader kv)) as Hd.
    cbn [KeySpec.derive_for KeySpec.purpose_ok] in Hd. rewrite Hd by done. clear Hd.
    pose proof (KeyFacts.key_for_array (_keyManager e) (KeySpec.ForNonce reader kv)) as [Hkl _].
    set (key := KeySpec.key_for _ _) in *.
    do 3 eexists. split; [reflexivity|]. split; [reflexivity|]. split; [done|]. split; [done|].
    cbn [Nonce.generate]. rewrite hmac_oneshot by done.
    pose proof (HMAC_array key (buildNonceContext reader door ts seq kv)) as [Hl Hb].
    split; [split; [apply CryptoFacts.length_nonce_array; lia|]|intros _].
    + unfold Nonce.nonce_array. apply bytes_ok_app. auto with widths.
    + unfold nonce_expected.
      cbn [Packet.reader_id Packet.door_id Packet.ts_unix_ms Packet.seqno Packet.key_version
           Packet.nonce].
      fold key. fold c. fold cm. apply bool_decide_eq_true.
      unfold Nonce.nonce_array. rewrite take_app_le by (rewrite length_take; lia).
      by rewrite take_take, Nat.min_id.
Qed.

(** The frame the endpoint builds: well-formed, openable by the handler, with
    the nonce the detector expects. *)
Lemma build_run (e : DecisionEngine) (m : Modes) reader door seq kv ts uid action text
    (s : HState W) :
  modes_agree m (_frameHandlerCfg e) -> array_ok 32 (KeyManager._masterKey (_keyManager e)) ->
  is_u32 reader -> is_u32 door -> is_u64 seq -> is_u32 kv -> is_u64 ts ->
  buildPayloadJson uid action = Ok text ->
  exists s' f nonce,
    buildEncryptedFrameBytes (_keyManager e) reader door seq kv ts uid action m s
      = (s', Ok (Frame.serialize f)) /\
    h_windows s' = h_windows s /\ h_ext s' = h_ext s /\
    Frame.header f = Packet.mkHeader reader door ts seq kv nonce /\
    Frame.Frame_ok f /\ length (Frame.ct f) = String.length text /\
    HandlerSpec.opened (handler_of e) f = Some (bytes_of_string text) /\
    (FrameHandler.nonceMode (_frameHandlerCfg e) = "deterministic"%string ->
     nonce_expected e (Frame.header f) = true).
Proof.
  intros [Ak Aa Ac An] Hm Hr Hd Hs Hk Ht Et. unfold buildEncryptedFrameBytes.
  rewrite Ak, Aa, Ac, An, Et, aead_key_run by done.
  fold (FrameHandler.cipher_of (FrameHandler.cipherMode (_frameHandlerCfg e))).
  set (s1 := mkHState (h_windows s) (h_ext s) (S (h_ticks s))).
  destruct (nonce_run e reader door ts seq kv s1 Hr Hk)
    as (gen & nonce & s' & Eg & En & Ew & Ex & Hn & Hexp).
  set (hd := Packet.mkHeader reader door ts seq kv nonce) in *.
  destruct (encrypt_run e hd text (take 16 (entropy (h_ticks s)))) as (f & Ef & Eh & Hf & Hl & Ho);
    [by constructor|done|].
  exists s', f, nonce. split; [|rewrite Eh; by split_and!].
  rewrite (M_bind_ok _ _ s s text eq_refl), (M_bind_ok _ _ s s _ eq_refl).
  rewrite (M_bind_ok _ _ s s1 _ eq_refl).
  erewrite M_bind_ok by (unfold lift; by rewrite Eg).
  cbv zeta. rewrite (M_bind_ok _ _ _ _ _ En). unfold lift. f_equal. exact Ef.
Qed.

End HwFacts.

Section Decided.
Context `{SodiumLaws, Env, !EnvLaws, Json, Http} {W : Type}.
Context `{AccessStoreSpec W, !IAuditLog W, !AuditLogSpec W, !StoreAuditSpec W}.

(** An active detector keeps a reader out, or takes the number for a rollback. *)
Definition distrusts (d : option Detector.ProtocolAnomalyDetector) (reader seq : Z) : bool :=
  match d with
  | None => false
  | Some d =>
      Detector.enabled (Detector._config d) &&
      (Detector.isQuarantined d reader ||
       bool_decide (0 < seq /\ is_Some (Detector.reportSeq reader seq 0 d).2))
  end.

Lemma distrusts_refuses (e : DecisionEngine) d hd :
  (FrameHandler.nonceMode (_frameHandlerCfg e) = "deterministic"%string ->
   nonce_expected e hd = true) ->
  detector_refuses e d hd = distrusts d (Packet.reader_id hd) (Packet.seqno hd).
Proof.
  intros Hn. unfold detector_refuses, distrusts. destruct d as [d|]; [|done].
  destruct (decide (FrameHandler.nonceMode (_frameHandlerCfg e) = "deterministic"%string)) as [Em|Em].
  - by rewrite (Hn Em), andb_false_r, orb_false_r.
  - by rewrite (bool_decide_false _ Em), orb_false_r.
Qed.

(** The engine's decision on a frame the handler accepts. *)
Lemma decision_accepted (e : DecisionEngine) (s : EState W) (f : Frame.Frame) pt req :
  let v := policy_of (h_ext (e_h s)) in
  let now := u64 (clock (S (h_ticks (e_h s)))) in
  let hd := Frame.header f in
  Frame.Frame_ok f -> is_u32 (Z.of_nat (length (Frame.ct f))) ->
  Z.of_nat (length (Frame.ct f)) <= FrameHandler.maxCtLen (_frameHandlerCfg e) ->
  HandlerFacts.accepted (handler_of e) v (HandlerSpec.window_of (handler_of e) (e_h s)) now f pt ->
  Payload.parseAccessRequestJson (string_of_bytes pt) = Ok req ->
  (FrameHandler.nonceMode (_frameHandlerCfg e) = "deterministic"%string ->
   nonce_expected e hd = true) ->
  decision e s (Frame.serialize f) =
    (if distrusts (e_detector s) (Packet.reader_id hd) (Packet.seqno hd) then denied "quarantined"
     else policy_verdict e v hd req) /\
  FrameHandler.hdr (frame_result e s (Frame.serialize f)) = hd.
Proof.
  intros v now hd Hf Hl Hm Hacc Hp Hn.
  assert (frame_result e s (Frame.serialize f) = FrameHandler.mkHandleResult true "ok" pt hd) as Er.
  { unfold frame_result, HandlerSpec.verdict. fold v now.
    rewrite <- WireSpec.parseFrame_spec by by apply WireSpec.serialize_span_ok.
    rewrite WireSpec.parse_serialize by done.
    rewrite (proj2 (HandlerFacts.checks_accepted _ _ _ _ _)) by eauto.
    by rewrite (HandlerFacts.acc_opened _ _ _ _ _ _ Hacc). }
  split; [|by rewrite Er]. unfold decision, engine_verdict. fold (frame_result e s (Frame.serialize f)).
  rewrite Er. cbn [FrameHandler.hdr FrameHandler.allow FrameHandler.plaintext negb].
  rewrite distrusts_refuses by done. fold hd. by rewrite Hp.
Qed.

(** A scan the endpoint can serve: the modes of frame building and frame
    handling agree, the numbers have the widths of their types, [text] is the
    payload and fits in a frame, the reader is known and bound to the door, the
    number is new, and clock readings differ by no more than the skew. *)
Record serviceable (app : App) (req : HwUidRequest) (text : string) (s : EState W) : Prop := {
  sv_local : decisionMode app <> "remote"%string;
  sv_config : HandlerFacts.config_ok (_frameHandlerCfg (engine app));
  sv_modes : modes_agree (modes app) (_frameHandlerCfg (engine app));
  sv_master : array_ok 32 (KeyManager._masterKey (_keyManager (engine app)));
  sv_store : _store (engine app) = true;
  sv_reader : is_u32 (reader_id req);
  sv_door : is_u32 (door_id req);
  sv_seq : is_u64 (hw_seq req);
  sv_payload : buildPayloadJson (uid req) (action req) = Ok text;
  sv_fits : Z.of_nat (String.length text) <= FrameHandler.maxCtLen (_frameHandlerCfg (engine app));
  sv_known : view_key_version (policy_of (h_ext (e_h s))) (reader_id req) <> 0;
  sv_bound : FrameHandler.enforceReaderDoorBinding (_frameHandlerCfg (engine app)) = true ->
    view_bound (policy_of (h_ext (e_h s))) (reader_id req) (door_id req) = true;
  sv_fresh : FrameHandler.antiReplayEnabled (_frameHandlerCfg (engine app)) = true ->
    ReplayWindow.contains (HandlerSpec.window_of (handler_of (engine app)) (e_h s) (reader_id req))
      (hw_seq req) = false;
  sv_clock : FrameHandler.maxSkewMs (_frameHandlerCfg (engine app)) <> 0 ->
    forall i j, Z.abs (u64 (clock i) - u64 (clock j))
      <= FrameHandler.maxSkewMs (_frameHandlerCfg (engine app));
  sv_bus : is_Some (e_events s);
}.

Context (T : Prop) (T_store : T -> StoreReturns W) (T_audit : T -> AuditReturns W).

Lemma wp_pushHwEvent (s : EState W) message reader door seq (Q : unit -> EState W -> Prop) :
  is_Some (e_events s) -> (T -> bus_live s) ->
  (forall s', evolves reader [] s s' -> e_detector s' = e_detector s -> Q tt s') ->
  wp T (pushHwEvent message reader door seq) s Q.
Proof.
  intros He Hb HQ. unfold pushHwEvent. apply wp_bind, (wp_now _ _ reader). intros t s1 E1 Ed1.
  apply (wp_push _ s1 reader).
  - destruct E1 as [_ _ _ _ E _]. destruct He as [b Eb]. rewrite Eb in E.
    by destruct (e_events s1).
  - solve_live.
  - intros s2 E2 Ed2. apply HQ; [by eapply evolves_trans_l|congruence].
Qed.

Lemma ts_skew (e : DecisionEngine) i j hd nonce reader door seq kv :
  (FrameHandler.maxSkewMs (_frameHandlerCfg e) <> 0 ->
   forall i j, Z.abs (u64 (clock i) - u64 (clock j)) <= FrameHandler.maxSkewMs (_frameHandlerCfg e)) ->
  hd = Packet.mkHeader reader door (u64 (clock i)) seq kv nonce ->
  FrameHandler.maxSkewMs (_frameHandlerCfg e) <> 0 ->
  Z.abs (u64 (clock j) - Packet.ts_unix_ms hd) <= FrameHandler.maxSkewMs (_frameHandlerCfg e).
Proof. intros Hc -> Hn. by apply Hc. Qed.

(** The verdict on a scan. *)
Definition hw_outcome (app : App) (req : HwUidRequest) (s : EState W) (hd : Packet.Header) : outcome :=
  if distrusts (e_detector s) (reader_id req) (hw_seq req) then denied "quarantined"
  else policy_verdict (engine app) (policy_of (h_ext (e_h s))) hd
         (Payload.mkAccessRequest (uid req) (action req)).

(** The frame built for a scan passes every check of the handler. *)
Lemma scan_accepted (app : App) (req : HwUidRequest) text (s s' : EState W) f pt nonce i j :
  let kv := view_key_version (policy_of (h_ext (e_h s))) (reader_id req) in
  serviceable app req text s -> evolves (reader_id req) [] s s' ->
  Frame.header f = Packet.mkHeader (reader_id req) (door_id req) (u64 (clock i)) (hw_seq req) kv nonce ->
  HandlerSpec.opened (handler_of (engine app)) f = Some pt ->
  HandlerFacts.accepted (handler_of (engine app)) (policy_of (h_ext (e_h s')))
    (HandlerSpec.window_of (handler_of (engine app)) (e_h s')) (u64 (clock j)) f pt.
Proof.
  intros kv [] E Eh Ho. split; rewrite ?Eh;
    cbn [handler_of FrameHandler._has_store FrameHandler._config Packet.reader_id
      Packet.door_id Packet.key_version Packet.seqno Packet.ts_unix_ms];
    rewrite ?(ev_policy _ _ _ _ E); try done.
  - apply bool_decide_eq_true. by left.
  - intros. unfold HandlerSpec.window_of. rewrite (ev_windows _ _ _ _ E). by apply sv_fresh0.
  - intros. by apply sv_clock0.
Qed.

(** What the endpoint knows of the frame it built for a scan. *)
Record built (app : App) (req : HwUidRequest) (text : string) (kv : Z) (i : nat) (nonce : bytes)
    (f : Frame.Frame) : Prop := {
  bu_header : Frame.header f =
    Packet.mkHeader (reader_id req) (door_id req) (u64 (clock i)) (hw_seq req) kv nonce;
  bu_ok : Frame.Frame_ok f;
  bu_length : length (Frame.ct f) = String.length text;
  bu_opened : HandlerSpec.opened (handler_of (engine app)) f = Some (bytes_of_string text);
  bu_nonce : FrameHandler.nonceMode (_frameHandlerCfg (engine app)) = "deterministic"%string ->
    nonce_expected (engine app) (Frame.header f) = true;
}.

Lemma wp_build (app : App) (req : HwUidRequest) text (s s0 : EState W) kv i
    (Q : bytes -> EState W -> Prop) :
  serviceable app req text s0 -> is_u32 kv ->
  (forall f nonce s', evolves (reader_id req) [] s s' -> e_detector s' = e_detector s ->
     built app req text kv i nonce f -> Q (Frame.serialize f) s') ->
  wp T (on_h (buildEncryptedFrameBytes (_keyManager (engine app)) (reader_id req) (door_id req)
    (hw_seq req) kv (u64 (clock i)) (uid req) (action req) (modes app))) s Q.
Proof.
  intros [] Hk HQ.
  destruct (build_run (engine app) (modes app) (reader_id req) (door_id req) (hw_seq req) kv
    (u64 (clock i)) (uid req) (action req) text (e_h s)) as
    (h4 & f & nonce & Eb & Ew & Ex & Ehd & Hf & Hl & Ho & Hn); try done; [apply u64_range|].
  unfold on_h. apply wp_zoom. unfold wp. rewrite Eb. apply (HQ f nonce); try done.
  split; cbn; rewrite ?Ew, ?Ex, ?app_nil_r; try done. apply detector_evolves_refl.
Qed.

(** The endpoint up to the frame it built. *)
Lemma wp_prepareScan (app : App) (req : HwUidRequest) text (s : EState W)
    (Q : HwResponse + Z * bytes -> EState W -> Prop) :
  serviceable app req text s -> (T -> live s) ->
  let kv := view_key_version (policy_of (h_ext (e_h s))) (reader_id req) in
  (forall f nonce s', evolves (reader_id req) [] s s' -> e_detector s' = e_detector s ->
     built app req text kv (h_ticks (e_h s)) nonce f -> Q (inr (kv, Frame.serialize f)) s') ->
  wp T (prepareScan (_keyManager (engine app)) (modes app) req) s Q.
Proof.
  intros Hs Hb kv HQ. unfold prepareScan. apply wp_bind.
  change (wp T (on_h nowUnixMs) s) with (fun (P : Z -> EState W -> Prop) =>
    P (u64 (clock (h_ticks (e_h s))))
      (mkEState (mkHState (h_windows (e_h s)) (h_ext (e_h s)) (S (h_ticks (e_h s))))
         (e_detector s) (e_events s))).
  cbv beta. set (s1 := mkEState (mkHState _ _ _) _ _).
  assert (evolves (reader_id req) [] s s1) as E1.
  { split; try done; [by rewrite app_nil_r|apply detector_evolves_refl]. }
  assert (forall s', evolves (reader_id req) [] s s' -> (T -> live s') /\ is_Some (e_events s')) as Hbus.
  { intros s' E. split; [solve_live|].
    destruct E as [_ _ _ _ E _], (sv_bus _ _ _ _ Hs) as [b Eb]. rewrite Eb in E.
    by destruct (e_events s'). }
  apply wp_bind, (wp_current T T_store s1 (reader_id req)); [apply Hs|]. intros s2 E2 Ed2.
  change (view_key_version _ _) with kv. rewrite decide_False by apply Hs.
  pose proof (evolves_trans_l _ _ _ _ _ E1 E2) as E12.
  apply wp_bind, wp_pushHwEvent; [apply (Hbus _ E12)|solve_live|]. intros s3 E3 Ed3.
  pose proof (evolves_trans_l _ _ _ _ _ E12 E3) as E13.
  apply wp_bind, (wp_build app req text s3 s); [done|apply key_version_range|].
  intros f nonce s4 E4 Ed4 Hf. apply wp_ret, (HQ f nonce); try done;
    [by eapply evolves_trans_l|by rewrite Ed4, Ed3, Ed2].
Qed.

(** The verdict on the frame of a scan, in a later state the scan led to. *)
Lemma scan_decision (app : App) (req : HwUidRequest) text (s s' : EState W) f nonce :
  let kv := view_key_version (policy_of (h_ext (e_h s))) (reader_id req) in
  let o := hw_outcome app req s (Frame.header f) in
  serviceable app req text s -> evolves (reader_id req) [] s s' -> e_detector s' = e_detector s ->
  Payload.parseAccessRequestJson text = Ok (Payload.mkAccessRequest (uid req) (action req)) ->
  built app req text kv (h_ticks (e_h s)) nonce f ->
  is_u32 (Z.of_nat (length (Frame.ct f))) /\
  decision (engine app) s' (Frame.serialize f) = o /\
  FrameHandler.hdr (frame_result (engine app) s' (Frame.serialize f)) = Frame.header f.
Proof.
  intros kv o Hs E Ed Hparse Hf. pose proof Hf as [Ehd Hok Hl Ho Hn].
  assert (is_u32 (Z.of_nat (length (Frame.ct f)))) as Hct.
  { rewrite Hl. pose proof (sv_fits _ _ _ _ Hs).
    pose proof (HandlerFacts.config_ctLen _ (sv_config _ _ _ _ Hs)). unfold is_u32 in *. lia. }
  split; [done|].
  destruct (decision_accepted (engine app) s' f (bytes_of_string text)
    (Payload.mkAccessRequest (uid req) (action req))) as [Eo Eh]; try done;
    [rewrite Hl; apply Hs|by eapply scan_accepted|by rewrite string_of_bytes_of_string|].
  split; [|done]. unfold o, hw_outcome.
  by rewrite Eo, (ev_policy _ _ _ _ E), Ed, Ehd.
Qed.

Lemma wp_processHwUid (app : App) (req : HwUidRequest) text (s : EState W) :
  serviceable app req text s ->
  Payload.parseAccessRequestJson text = Ok (Payload.mkAccessRequest (uid req) (action req)) ->
  (T -> live s) ->
  let kv := view_key_version (policy_of (h_ext (e_h s))) (reader_id req) in
  wp T (processHwUid app req) s (fun resp s' =>
    exists nonce,
      let hd := Packet.mkHeader (reader_id req) (door_id req) (u64 (clock (h_ticks (e_h s))))
                  (hw_seq req) kv nonce in
      let o := hw_outcome app req s hd in
      resp = scan_response req kv (o_result o) /\
      trail_of (h_ext (e_h s')) = trail_of (h_ext (e_h s)) ++ audited (engine app) hd o).
Proof.
  intros Hs Hparse Hb kv. unfold processHwUid.
  apply wp_bind, (wp_prepareScan app req text); [done..|]. intros f nonce s1 E1 Ed1 Hf.
  rewrite decide_False by apply Hs.
  destruct (scan_decision app req text s s1 f nonce Hs E1 Ed1 Hparse Hf) as (Hct & Eo & Eh).
  apply wp_bind. eapply wp_mono.
  { apply (wp_engine T T_store T_audit (engine app) (Frame.serialize f) s1); [apply Hs| |].
    - apply WireSpec.serialize_span_ok; [apply Hf|done].
    - solve_live. }
  intros r s2 [-> A]. apply wp_ret. exists nonce.
  pose proof (ac_trail _ _ _ _ A) as Et. rewrite Eo, Eh in Et. rewrite Eo.
  pose proof (ev_trail _ _ _ _ E1) as Et1. rewrite app_nil_r in Et1. rewrite Et1 in Et.
  rewrite (bu_header _ _ _ _ _ _ _ Hf) in *. by split.
Qed.

End Decided.

(** The digits of a hexadecimal text read back. *)
Lemma hexNibble_strict c n : Hex.hexNibble c = Ok n -> hexNibble c = n.
Proof. unfold Hex.hexNibble, hexNibble. repeat case_decide; congruence. Qed.

Lemma hex_pairs_toHex k :
  bytes_ok k -> hex_pairs (String.list_ascii_of_string (CardIdHasher.toHex k)) = k.
Proof.
  induction 1 as [|b k Hb _ IH]; [done|].
  destruct (CardFacts.nibbles b Hb) as (N1 & N2 & N3).
  destruct (CardFacts.hex_char_ok _ N1) as [E1 _], (CardFacts.hex_char_ok _ N2) as [E2 _].
  cbn [CardIdHasher.toHex String.list_ascii_of_string hex_pairs].
  by rewrite (hexNibble_strict _ _ E1), (hexNibble_strict _ _ E2), IH, N3.
Qed.

Lemma hexToBytesLoose_toHex k : bytes_ok k -> hexToBytesLoose (CardIdHasher.toHex k) = k.
Proof.
  intros Hk. unfold hexToBytesLoose. rewrite CardFacts.toHex_length.
  rewrite decide_False; [by apply hex_pairs_toHex|]. rewrite Nat.mul_comm, Nat.Div0.mod_mul. tauto.
Qed.

Lemma hexToBytesLoose_nonempty h : length (hexToBytesLoose h) = 32%nat -> h <> EmptyString.
Proof. by intros Hl ->. Qed.

Lemma hw_verify_run `{SodiumLaws} signature body secret :
  verifyHwSignature true signature body secret = (true, EmptyString) <->
  length (hexToBytesLoose secret) = 32%nat /\
  hexToBytesLoose signature
    = HMAC (hexToBytesLoose secret) (bytes_of_string (signed_message body)).
Proof.
  unfold verifyHwSignature, parseHmacKey, parseSignature, verifyHmac. cbn [negb].
  set (key := hexToBytesLoose secret). set (sig := hexToBytesLoose signature).
  set (msg := bytes_of_string _). pose proof (CryptoFacts.length_HMAC key msg) as Hml.
  split.
  - do 2 (case_decide; [done|]). destruct (decide (length key <> 32%nat)) as [|Hk]; [done|].
    apply dec_stable in Hk.
    destruct (decide (length sig <> 32%nat)) as [|Hs]; [done|]. apply dec_stable in Hs.
    rewrite hmac_oneshot by done. case_bool_decide as Hc; [intros _|done].
    apply memcmp_eq in Hc; [done|]. by rewrite Hml, Hs.
  - intros [Hk Hs]. assert (length sig = 32%nat) as Hsl by by rewrite Hs.
    rewrite decide_False by (by apply hexToBytesLoose_nonempty).
    rewrite decide_False by (by apply hexToBytesLoose_nonempty).
    rewrite !decide_False by tauto. rewrite hmac_oneshot by done.
    rewrite bool_decide_true; [done|]. apply memcmp_eq; [by rewrite Hml, Hsl|done].
Qed.

End HwFacts.

(** ** Properties *)

Module HwProps.
Import HwService Engine EngineSpec EngineFacts HwFacts ToySodium ToyJson ToyStore HandlerProps
  EngineProps.

#[export] Instance test_env_laws : EnvLaws.
Proof.
  split. intros n. split; [cbn; lia|]. apply Forall_replicate. unfold is_u8.
  pose proof (Z.mod_pos_bound (Z.of_nat n) 256). lia.
Qed.

(** A decision service that never answers. *)
#[export] Instance test_http : Http := {| post_frame _ _ := Ok None |}.

Definition test_app : App :=
  mkApp test_engine (mkModes "hkdf" "full" "xchacha20" "deterministic") "local".

Definition test_scan : HwUidRequest := mkHwUidRequest "04A1" 1 2 42 "open".

Example test_scan_granted :
  (processHwUid test_app test_scan test_world).2 = Ok (mkHwResponse true "ok" (Some (1, 2, 42, 2))).
Proof. vm_compute. reflexivity. Qed.

(** A scan is decided by the policy. For a known reader bound to the door,
    a number new to its window and clocks within the skew, the endpoint's own
    frame passes every check of the frame handler (it is well formed, opens
    under the same derived key and carries the nonce the detector expects), so
    [processHwUid] returns the policy's verdict on the scanned card, or
    [quarantined] when an active detector keeps the reader out or takes the
    number for a rollback; and exactly the entry of that verdict is added to
    the audit trail. *)
Theorem hw_scan_is_decided `{SodiumLaws, Env, !EnvLaws, JsonLaws, Http} {W : Type}
    `{AccessStoreSpec W, !IAuditLog W, !AuditLogSpec W, !StoreAuditSpec W, !StoreReturns W, !AuditReturns W}
    (app : App) (req : HwUidRequest) (text : string) (s : EState W) :
  serviceable app req text s -> live s ->
  Forall text_ok [uid req; action req; "card_id"; "action"]%string ->
  uid req <> EmptyString -> action req <> EmptyString ->
  let kv := view_key_version (policy_of (h_ext (e_h s))) (reader_id req) in
  exists s' nonce,
    let hd := Packet.mkHeader (reader_id req) (door_id req) (u64 (clock (h_ticks (e_h s))))
                (hw_seq req) kv nonce in
    let o := hw_outcome app req s hd in
    processHwUid app req s = (s', Ok (scan_response req kv (o_result o))) /\
    trail_of (h_ext (e_h s')) = trail_of (h_ext (e_h s)) ++ audited (engine app) hd o.
Proof.
  intros Hs Hb Ht Hu Ha kv. repeat rewrite Forall_cons in Ht. destruct Ht as (T1 & T2 & T3 & T4 & _).
  destruct (payload_run (uid req) (action req) T1 T2 T3 T4 Hu Ha) as (text' & E1 & E2).
  pose proof (sv_payload _ _ _ _ Hs) as E. rewrite E1 in E. injection E as ->.
  destruct (wp_returns True _ s _
    (wp_processHwUid True (fun _ => _) (fun _ => _) app req text s Hs E2 (fun _ => Hb)) I)
    as (s' & r & Er & nonce & -> & Htr).
  by exists s', nonce.
Qed.

Definition test_text : string := ToyJson.encode [("card_id", "04A1"); ("action", "open")]%string.

Lemma test_serviceable : serviceable test_app test_scan test_text test_world.
Proof.
  split; first [by_decision | done | exact test_config | by split | vm_compute; eauto].
Qed.

Lemma hw_scan_is_decided_witness :
  exists s' nonce,
    let hd := Packet.mkHeader 1 2 1700000000000 42 2 nonce in
    let o := hw_outcome test_app test_scan test_world hd in
    processHwUid test_app test_scan test_world =
      (s', Ok (scan_response test_scan 2 (o_result o))) /\
    trail_of (h_ext (e_h s')) = trail_of (h_ext (e_h test_world)) ++ audited test_engine hd o.
Proof.
  exact (hw_scan_is_decided test_app test_scan test_text test_world test_serviceable
    ltac:(split; [cbn; lia|done]) ltac:(repeat constructor) ltac:(discriminate) ltac:(discriminate)).
Defined.

(** Request signatures. With libsodium ready, a request is authenticated
    exactly when the secret decodes to 32 bytes and the signature decodes to
    the HMAC of "POST /api/hw/uid", a newline and the body under it; in
    particular the hexadecimal HMAC of the body, as a client computes it, is
    accepted, and no signature is when the secret is missing or of another
    length. *)
Theorem hw_signature_decides `{SodiumLaws} (signature body secret : string) :
  let key := hexToBytesLoose secret in
  let mac := HMAC key (bytes_of_string (signed_message body)) in
  (verifyHwSignature true signature body secret = (true, EmptyString) <->
   length key = 32%nat /\ hexToBytesLoose signature = mac) /\
  (length key = 32%nat ->
   verifyHwSignature true (CardIdHasher.toHex mac) body secret = (true, EmptyString)).
Proof.
  intros key mac. split; [apply hw_verify_run|]. intros Hk. apply hw_verify_run. split; [done|].
  apply hexToBytesLoose_toHex, HMAC_array.
Qed.

Definition test_secret : string := CardIdHasher.toHex (replicate 32 7).

Lemma hw_signature_decides_witness :
  verifyHwSignature true
    (CardIdHasher.toHex (HMAC (replicate 32 7) (bytes_of_string (signed_message "{}")))) "{}"
    test_secret = (true, EmptyString).
Proof.
  refine (proj2 (hw_signature_decides "" "{}" test_secret) _). vm_compute. reflexivity.
Defined.

(** A character that is not a hexadecimal digit counts as 0: a secret of 64
    letters z is accepted as the key of 32 zero bytes. *)
Lemma loose_secret_is_zero_key :
  parseHmacKey "zzzzzzzzzzzzzzzzzzzzzzzzzzzzzzzzzzzzzzzzzzzzzzzzzzzzzzzzzzzzzzzz"
  = inr (replicate 32 0).
Proof. vm_compute. reflexivity. Qed.

End HwProps.
