(* ===== verification/AppState.v ===== *)
(** access_admin/app_state: the objects the server is made of, how they are
    opened on a database file, and how the database is replaced. The file system
    is the class [Files], opening a database file the class [SqliteFiles]. *)
From Stdlib Require Import ZArith Lia Ascii.
From stdpp Require Import base option list gmap strings.
From S2P Require Import Prelude LittleEndian Wire Replay Crypto Keys Events Detector Access FrameHandling Engine Sqlite SqliteStore AuditLog Config.
Local Open Scope Z_scope.

(** ** The environment

    std::filesystem and the file streams: [F] is the state of the file system.
    [create_directories] gives what it throws, [copy_file] (overwriting) and
    [remove] the message of their error code; a stream that cannot be opened
    for writing is not noticed by the code. *)
Class Files (F : Type) := {
  create_directories : string -> F -> F * option exn;
  exists_ : string -> F -> bool;
  copy_file : string -> string -> F -> F * option string;
  remove : string -> F -> F;
  write_file : string -> string -> F -> F;
  read_file : string -> F -> option string;
}.

(** [sqlite3_open] and [sqlite3_close]: the connection, unless opening failed. *)
Class SqliteFiles (F D : Type) := {
  sqlite3_open : string -> F -> F * option D;
  sqlite3_close : D -> F -> F;
}.

(** [std::filesystem::path(p).parent_path()] *)
Definition parent_path (p : string) : string :=
  let fix last_slash (i : nat) (s : string) (found : option nat) : option nat :=
    match s with
    | EmptyString => found
    | String a s' => last_slash (S i) s' (if decide (a = "/"%char) then Some i else found)
    end in
  let fix strip (n : nat) : nat :=
    match n with
    | S m => match String.get m p with
             | Some a => if decide (a = "/"%char) then strip m else n
             | None => n
             end
    | O => O
    end in
  match last_slash 0%nat p None with
  | None => EmptyString
  | Some i => match strip i with
              | O => "/"%string
              | n => String.substring 0 n p
              end
  end.

Module AppState.
Import EventBus.

Section AppState.
Context `{Sodium, Env} {D F : Type} `{Sqlite D, Files F, !SqliteFiles F D}.

(** [None] is a null [unique_ptr]. The audit log works on the handle of the
    store, the engine on both. [ticks] counts the reads of clock and random
    generator, [files] is the file system. *)
Record AppState := mkAppState {
  cfg : Config.Config;
  dbPath : string;
  events : EventBus.EventBus;
  keyManager : KeyManager.KeyManager;
  anomalyDetector : Detector.ProtocolAnomalyDetector;
  store : option D;
  audit : option SqliteAuditLog.SqliteAuditLog;
  engine : option Engine.DecisionEngine;
  decisionClient : option string;
  replayByReader : gmap Z ReplayWindow.ReplayWindow;
  lastSeqByReader : gmap Z Z;
  ticks : nat;
  files : F;
}.

Definition set_events b s := mkAppState (cfg s) (dbPath s) b (keyManager s) (anomalyDetector s)
  (store s) (audit s) (engine s) (decisionClient s) (replayByReader s) (lastSeqByReader s)
  (ticks s) (files s).
Definition set_detector d s := mkAppState (cfg s) (dbPath s) (events s) (keyManager s) d
  (store s) (audit s) (engine s) (decisionClient s) (replayByReader s) (lastSeqByReader s)
  (ticks s) (files s).
Definition set_store o s := mkAppState (cfg s) (dbPath s) (events s) (keyManager s)
  (anomalyDetector s) o (audit s) (engine s) (decisionClient s) (replayByReader s)
  (lastSeqByReader s) (ticks s) (files s).
Definition set_audit o s := mkAppState (cfg s) (dbPath s) (events s) (keyManager s)
  (anomalyDetector s) (store s) o (engine s) (decisionClient s) (replayByReader s)
  (lastSeqByReader s) (ticks s) (files s).
Definition set_engine o s := mkAppState (cfg s) (dbPath s) (events s) (keyManager s)
  (anomalyDetector s) (store s) (audit s) o (decisionClient s) (replayByReader s)
  (lastSeqByReader s) (ticks s) (files s).
Definition set_client o s := mkAppState (cfg s) (dbPath s) (events s) (keyManager s)
  (anomalyDetector s) (store s) (audit s) (engine s) o (replayByReader s)
  (lastSeqByReader s) (ticks s) (files s).
Definition set_windows w s := mkAppState (cfg s) (dbPath s) (events s) (keyManager s)
  (anomalyDetector s) (store s) (audit s) (engine s) (decisionClient s) w
  (lastSeqByReader s) (ticks s) (files s).
Definition set_ticks n s := mkAppState (cfg s) (dbPath s) (events s) (keyManager s)
  (anomalyDetector s) (store s) (audit s) (engine s) (decisionClient s) (replayByReader s)
  (lastSeqByReader s) n (files s).
Definition set_files f s := mkAppState (cfg s) (dbPath s) (events s) (keyManager s)
  (anomalyDetector s) (store s) (audit s) (engine s) (decisionClient s) (replayByReader s)
  (lastSeqByReader s) (ticks s) f.

(** [nowUnixMs()] *)
Definition nowUnixMs : M AppState Z := fun s => (set_ticks (S (ticks s)) s, Ok (u64 (clock (ticks s)))).

(** [app.events.push({.ts_unix_ms = nowUnixMs(), .kind = kind, ...})] *)
Definition push_event (kind message : string) (reader_id door_id : Z) : M AppState unit :=
  now ← nowUnixMs;
  zoom events set_events (push (mkEvent 0 now kind message reader_id door_id 0 false "")) ;;
  mret tt.

(** A call through the pointer [store]. *)
Definition on_store {A} (m : M D A) : M AppState A := fun s =>
  match store s with
  | None => (s, Fault)
  | Some d => match m d with (d', r) => (set_store (Some d') s, r) end
  end.

(** A call on the objects the engine works on, [d] being the database handle:
    the events, the detector and the replay windows are members of the state. *)
Definition engine_view (d : D) (s : AppState) : Engine.EState D :=
  Engine.mkEState (mkHState (replayByReader s) d (ticks s)) (Some (anomalyDetector s)) (Some (events s)).

Definition with_view (t : Engine.EState D) (s : AppState) : AppState :=
  set_store (Some (h_ext (Engine.e_h t)))
    (set_windows (h_windows (Engine.e_h t))
      (set_ticks (h_ticks (Engine.e_h t))
        (set_detector (default (anomalyDetector s) (Engine.e_detector t))
          (set_events (default (events s) (Engine.e_events t)) s)))).

Definition on_view {A} (m : M (Engine.EState D) A) : M AppState A := fun s =>
  match store s with
  | None => (s, Fault)
  | Some d => match m (engine_view d s) with (t, r) => (with_view t s, r) end
  end.

(** A call through the pointer [engine], which holds the pointer [audit]. *)
Definition on_engine {A}
    (m : SqliteAuditLog.SqliteAuditLog -> Engine.DecisionEngine -> M (Engine.EState D) A) :
    M AppState A := fun s =>
  match engine s, audit s with
  | Some e, Some l => on_view (m l e) s
  | _, _ => (s, Fault)
  end.

(** A call on the file system. *)
Definition on_files {A} (f : F -> F * A) : M AppState A := fun s =>
  match f (files s) with (f', a) => (set_files f' s, Ok a) end.

(** The constructor. *)
Definition AppState_new (c : Config.Config) (db : string) (km : KeyManager.KeyManager)
    (ticks0 : nat) (files0 : F) : AppState :=
  let x := Config.experiment c in
  mkAppState c db (EventBus_new (Config.maxEvents (Config.admin c))) km
    (Detector.Detector_new (Detector.mkDetectorConfig (Config.misuseDetectionEnabled x)
       (Config.rollbackThreshold x) (Config.tagFailStreakLimit x)))
    None None None None ∅ ∅ ticks0 files0.

(** The 32 bytes of the key, copied into an array of 32. *)
Definition deriveAuditHash (km : KeyManager.KeyManager) : res bytes :=
  auditKey ← KeyManager.deriveAuditHmacKey km;
  Ok auditKey.

(** ** Opening *)

(** [store = std::make_unique<SqliteAccessStore>(dbPath)]: the old store is
    closed when the new one has been constructed. *)
Definition make_store : M AppState unit :=
  s ← get;
  opened ← on_files (sqlite3_open (dbPath s));
  match opened with
  | None => throw (runtime_error "sqlite3_open failed")
  | Some d =>
      match SqliteAccessStore.SqliteAccessStore_open d with
      | (d', Ok _) =>
          (match store s with
           | Some old => on_files (fun f => (sqlite3_close old f, tt))
           | None => mret tt
           end) ;;
          modify (set_store (Some d'))
      | (_, Throw e) => throw e
      | (_, Fault) => fault
      end
  end.

(** The handler settings with the modes of the experiment section. *)
Definition runtime_config (c : Config.Config) : FrameHandler.FrameHandlerConfig :=
  let f := Config.frameHandler c in
  let x := Config.experiment c in
  FrameHandler.mkFrameHandlerConfig (FrameHandler.antiReplayEnabled f)
    (FrameHandler.replayWindowSize f) (FrameHandler.maxCtLen f) (FrameHandler.maxSkewMs f)
    (FrameHandler.allowPreviousKeyVersion f) (FrameHandler.enforceReaderDoorBinding f)
    (Config.keyDerivationMode x) (Config.aadMode x) (Config.pepperMode x) (Config.cipherMode x)
    (Config.nonceMode x).

Definition openOrCreate : M AppState unit :=
  s ← get;
  failed ← on_files (create_directories (parent_path (dbPath s)));
  (match failed with Some e => throw e | None => mret tt end) ;;
  make_store ;;
  on_store SqliteAccessStore.initSchema ;;
  hash ← lift (deriveAuditHash (keyManager s));
  log ← on_store (SqliteAuditLog.SqliteAuditLog_new true hash
    (Config.auditChainEnabled (Config.experiment (cfg s))));
  modify (set_audit (Some log)) ;;
  _ ← lift (KeyManager.deriveCardPepper (keyManager s)
    (Config.currentKeyVersion (Config.keyManagement (cfg s))));
  modify (set_engine (Some (Engine.mkDecisionEngine true true (keyManager s)
    (runtime_config (cfg s))))) ;;
  (if decide (Config.decisionMode (Config.admin (cfg s)) = "remote"%string)
   then modify (set_client (Some (Config.decisionUrl (Config.admin (cfg s)))))
   else mret tt) ;;
  push_event "admin" ("storage opened: " +:+ dbPath s) 0 0.

(** ** Importing a database file

    The checks return [None], or [Some error]. *)

Definition kIntegrityCheckSql : string := "PRAGMA integrity_check;".

Definition sqliteIntegrityOk (path : string) : M AppState (option string) :=
  opened ← on_files (sqlite3_open path);
  match opened with
  | None => mret (Some "sqlite_open failed"%string)
  | Some d =>
      if negb (sqlite_prepare kIntegrityCheckSql d) then
        on_files (fun f => (sqlite3_close d f, tt)) ;;
        mret (Some "prepare integrity_check failed"%string)
      else
        let '(d', r) := sqlite_run kIntegrityCheckSql [] d in
        on_files (fun f => (sqlite3_close d' f, tt)) ;;
        mret (match r.1 with
              | row :: _ =>
                  let v := Helpers.text_of (Helpers.col row 0) in
                  if decide (v = "ok"%string) then None else Some ("integrity_check: " +:+ v)
              | [] => Some "integrity_check: no row"%string
              end)
  end.

(** An exception of [verifyAuditChain] passes [sqlite3_close] by. *)
Definition verifyUploadedAuditChain (path : string) (km : KeyManager.KeyManager) :
    M AppState (option string) :=
  opened ← on_files (sqlite3_open path);
  match opened with
  | None => mret (Some "sqlite_open(uploaded) failed"%string)
  | Some d =>
      hash ← lift (deriveAuditHash km);
      match AuditVerify.verifyAuditChain true hash d with
      | (d', Ok vr) =>
          on_files (fun f => (sqlite3_close d' f, tt)) ;;
          mret (if AuditVerify.ok vr then None
                else Some ("verifyAuditChain failed: " +:+ AuditVerify.error vr))
      | (_, Throw e) => throw e
      | (_, Fault) => fault
      end
  end.

(** The error code of the backup copy is overwritten by that of the second. *)
Definition replaceDbFile (dbPath uploadedPath : string) : M AppState (option string) :=
  s ← get;
  (if exists_ dbPath (files s) then
     _ ← on_files (copy_file dbPath (dbPath +:+ ".bak")); mret tt
   else mret tt) ;;
  failed ← on_files (copy_file uploadedPath dbPath);
  mret (match failed with
        | Some message => Some ("failed to replace db: " +:+ message)
        | None => None
        end).

(** [store.reset(); audit.reset(); engine.reset();] *)
Definition reset_all : M AppState unit :=
  s ← get;
  (match store s with
   | Some d => on_files (fun f => (sqlite3_close d f, tt))
   | None => mret tt
   end) ;;
  modify (set_store None) ;;
  modify (set_audit None) ;;
  modify (set_engine None).

(** The result, with the error when it is [false]. *)
Definition importDbFile (uploadedPath : string) : M AppState (bool * string) :=
  s ← get;
  err ← sqliteIntegrityOk uploadedPath;
  match err with
  | Some error => mret (false, error)
  | None =>
      err ← verifyUploadedAuditChain uploadedPath (keyManager s);
      match err with
      | Some error => mret (false, error)
      | None =>
          reset_all ;;
          err ← replaceDbFile (dbPath s) uploadedPath;
          match err with
          | Some error => mret (false, error)
          | None =>
              openOrCreate ;;
              push_event "admin" "db imported + reopened" 0 0 ;;
              mret (true, EmptyString)
          end
      end
  end.

End AppState.
Arguments AppState D F : clear implicits.
End AppState.

(** ** What the files promise

    [file_db] is the database a file holds, if it holds one; [conn_path] the file
    a connection is on. Opening gives the content of the file, closing outside a
    transaction writes the content back, copying copies, and none of it touches
    another database. Checking the integrity changes nothing. *)
Class FilesLaws (F D : Type) `{SqliteLaws D, Files F, !SqliteFiles F D} := {
  file_db : string -> F -> option Sql.tables;
  conn_path : D -> string;
  open_path p f f' d : sqlite3_open p f = (f', Some d) -> conn_path d = p;
  open_content p f f' d t : sqlite3_open p f = (f', Some d) -> file_db p f = Some t ->
    content d = Sql.mkDatabase t None false;
  open_keeps p f q t : file_db q f = Some t -> file_db q (sqlite3_open p f).1 = Some t;
  close_saves d f : Sql.saved (content d) = None ->
    file_db (conn_path d) (sqlite3_close d f) = Some (Sql.current (content d));
  close_keeps d f q : q <> conn_path d -> file_db q (sqlite3_close d f) = file_db q f;
  run_path sql ps d : conn_path (sqlite_run sql ps d).1 = conn_path d;
  exec_path sql d : conn_path (sqlite_exec sql d).1 = conn_path d;
  integrity_content d :
    content (sqlite_run AppState.kIntegrityCheckSql [] d).1 = content d;
  copy_copies p q f f' t : copy_file p q f = (f', None) -> file_db p f = Some t ->
    file_db q f' = Some t;
  copy_keeps p q r f : r <> q -> file_db r (copy_file p q f).1 = file_db r f;
  create_keeps p q f : file_db q (create_directories p f).1 = file_db q f;
}.

(** Uploads: a file that was written exists, and if it is a database, the rows of
    its log have the types SQLite has; a file that is none does not pass the
    integrity check. Writing and removing a file leave the others alone. *)
Class UploadLaws (F D : Type) `{FilesLaws F D} : Prop := {
  write_exists p data f : exists_ p (write_file p data f) = true;
  write_keeps p data f q : q <> p -> file_db q (write_file p data f) = file_db q f;
  remove_keeps p f q : q <> p -> file_db q (remove p f) = file_db q f;
  upload_fits p data f t : file_db p (write_file p data f) = Some t -> ChainSpec.log_fits t;
  not_a_database p f f' d row : exists_ p f = true -> file_db p f = None ->
    sqlite3_open p f = (f', Some d) ->
    head (sqlite_run AppState.kIntegrityCheckSql [] d).2.1 = Some row ->
    Helpers.text_of (Helpers.col row 0) <> "ok"%string;
}.

(** Backups: [image] is the database that bytes are, as a file without a write-ahead
    log beside it; a file that is written with them holds that database; and a
    database passes the integrity check. The file of a database that is open in WAL
    mode may lack what is committed: nothing is said of its bytes. *)
Class BackupLaws (F D : Type) `{UploadLaws F D} := {
  image : string -> option Sql.tables;
  image_written p data f : file_db p (write_file p data f) = image data;
  integrity_prepared d : sqlite_prepare AppState.kIntegrityCheckSql d = true;
  integrity_passes p f f' d t : file_db p f = Some t -> sqlite3_open p f = (f', Some d) ->
    exists row, head (sqlite_run AppState.kIntegrityCheckSql [] d).2.1 = Some row /\
      Helpers.text_of (Helpers.col row 0) = "ok"%string;
}.

(** A file system with room on it, and files that are databases. *)
Class FilesReliable (F D : Type) `{FilesLaws F D} : Prop := {
  create_reliable p f : (create_directories p f).2 = None;
  open_reliable p f : is_Some (sqlite3_open p f).2;
  copy_reliable p q f t : file_db p f = Some t -> (copy_file p q f).2 = None;
}.

(** ** What a server that is open looks like *)

Module AppSpec.
Import AppState.

Section AppSpec.
Context `{SodiumLaws, Env} {D F : Type} `{SqliteLaws D, Files F, !SqliteFiles F D, !FilesLaws F D}.

Definition audit_key (s : AppState D F) : bytes := KeySpec.key_for (keyManager s) KeySpec.ForAudit.

(** The log and the engine [openOrCreate] constructs. *)
Definition the_log (s : AppState D F) : SqliteAuditLog.SqliteAuditLog :=
  SqliteAuditLog.mkSqliteAuditLog (audit_key s) (Config.auditChainEnabled (Config.experiment (cfg s))).

Definition the_engine (s : AppState D F) : Engine.DecisionEngine :=
  Engine.mkDecisionEngine true true (keyManager s) (runtime_config (cfg s)).

(** The three objects exist, on the connection [d], which is outside a
    transaction, enforces foreign keys and has a log to append to. *)
Record serving (s : AppState D F) (d : D) : Prop := {
  sg_store : store s = Some d;
  sg_audit : audit s = Some (the_log s);
  sg_engine : engine s = Some (the_engine s);
  sg_bus : 1 <= EventBus._max (events s);
  sg_saved : Sql.saved (content d) = None;
  sg_fk : Sql.foreign_keys (content d) = true;
  sg_log : ChainFacts.log_ready (Sql.current (content d));
}.

(** What opening and importing leave alone. *)
Record kept (s s' : AppState D F) : Prop := {
  k_cfg : cfg s' = cfg s;
  k_path : dbPath s' = dbPath s;
  k_keys : keyManager s' = keyManager s;
  k_bus : EventBus._max (events s') = EventBus._max (events s);
  k_detector : anomalyDetector s' = anomalyDetector s;
  k_windows : replayByReader s' = replayByReader s;
}.

#[global] Instance kept_preorder : PreOrder kept.
Proof. split; [by intros s|intros s1 s2 s3 [] []; split; congruence]. Qed.

(** Only the event buffer and the clock moved. *)
Definition published (s s' : AppState D F) : Prop :=
  exists b n, s' = set_events b (set_ticks n s) /\ EventBus._max b = EventBus._max (events s).

(** The checks have passed the uploaded file: if it is a database of this program,
    the chain of its log is intact. *)
Definition checked (s : AppState D F) (upload : string) : Prop := forall t,
  file_db upload (files s) = Some t -> ChainSpec.log_fits t -> ChainSpec.chain_ok (audit_key s) t.

(** The objects of the server are the ones before. *)
Record untouched (s s' : AppState D F) : Prop := {
  un_store : store s' = store s;
  un_audit : audit s' = audit s;
  un_engine : engine s' = engine s;
  un_kept : kept s s';
}.

(** What an import can come to: it is refused and nothing has changed; the checks
    threw, and nothing has changed; the old database is gone and the new one not in
    place; opening the new one failed; or it is done, and then the server works on
    the uploaded database. *)
Inductive import_outcome (s : AppState D F) (upload : string) (s' : AppState D F) :
    res (bool * string) -> Prop :=
| import_refused err : untouched s s' -> import_outcome s upload s' (Ok (false, err))
| import_uncaught r : untouched s s' -> (forall a, r <> Ok a) -> import_outcome s upload s' r
| import_lost err :
    checked s upload -> store s' = None -> audit s' = None -> engine s' = None ->
    import_outcome s upload s' (Ok (false, err))
| import_broken r :
    checked s upload -> engine s' = None -> (forall a, r <> Ok a) -> import_outcome s upload s' r
| import_done :
    checked s upload ->
    (forall t, file_db upload (files s) = Some t -> ChainSpec.log_fits t ->
       0 <= Sql.audit_last_id t < Sql.max_rowid ->
       exists d, serving s' d /\ Sql.current (content d) = t /\ kept s s') ->
    import_outcome s upload s' (Ok (true, EmptyString)).

End AppSpec.
End AppSpec.

(** ** Lemmas *)

Module AppFacts.
Import AppState AppSpec.

Section AppFacts.
Context `{SodiumLaws, Env} {D F : Type} `{SqliteLaws D, Files F, !SqliteFiles F D}.
Context (T : Prop).

Lemma wp_on_store {A} (m : M D A) (s : AppState D F) d (Q : A -> AppState D F -> Prop) :
  store s = Some d -> wp T m d (fun a d' => Q a (set_store (Some d') s)) -> wp T (on_store m) s Q.
Proof. intros E. unfold wp, on_store. rewrite E. by destruct (m d) as [d' []]. Qed.

Lemma wp_on_view {A} (m : M (Engine.EState D) A) (s : AppState D F) d
    (Q : A -> AppState D F -> Prop) :
  store s = Some d -> wp T m (engine_view d s) (fun a t => Q a (with_view t s)) -> wp T (on_view m) s Q.
Proof. intros E. unfold wp, on_view. rewrite E. by destruct (m _) as [t []]. Qed.

Lemma wp_on_engine {A} m (s : AppState D F) d (Q : A -> AppState D F -> Prop) :
  store s = Some d -> audit s = Some (the_log s) -> engine s = Some (the_engine s) ->
  wp T (m (the_log s) (the_engine s)) (engine_view d s) (fun a t => Q a (with_view t s)) ->
  wp T (on_engine m) s Q.
Proof.
  intros Es Ea Ee Hm. pose proof (wp_on_view _ s d Q Es Hm) as Hv.
  unfold wp, on_engine in *. by rewrite Ee, Ea.
Qed.

(** Publishing an event. *)
Lemma wp_push_event kind message reader door (s : AppState D F) (Q : unit -> AppState D F -> Prop) :
  (T -> 1 <= EventBus._max (events s)) -> (forall s', published s s' -> Q tt s') ->
  wp T (push_event kind message reader door) s Q.
Proof.
  intros Hm HQ. unfold push_event. apply wp_bind.
  change (wp T nowUnixMs s) with (fun (P : Z -> AppState D F -> Prop) =>
    P (u64 (clock (ticks s))) (set_ticks (S (ticks s)) s)). cbv beta.
  apply wp_bind, wp_zoom. set (ev := EventBus.mkEvent _ _ _ _ _ _ _ _ _).
  assert (forall b, EventBus._max b = EventBus._max (events s) ->
    wp T (mret tt) (set_events b (set_ticks (S (ticks s)) s)) Q) as HQ'.
  { intros b Eb. apply wp_ret, HQ. by exists b, (S (ticks s)). }
  unfold EventBus.push, wp at 1. cbn [set_ticks events].
  destruct (decide (_ <= _)) as [Hfull|]; [|by apply HQ'].
  destruct (EventBus._events (events s)) as [|x rest]; cbn [length] in Hfull; [|by apply HQ'].
  intros Ht%Hm. lia.
Qed.

Lemma published_serving (s s' : AppState D F) d : published s s' -> serving s d -> serving s' d.
Proof.
  intros (b & n & -> & Eb) []. split; try done. cbn [events set_events]. by rewrite Eb.
Qed.

(** An update of the database through the store. *)
Lemma serving_store (s : AppState D F) d d' :
  serving s d -> Sql.saved (content d') = Sql.saved (content d) ->
  Sql.foreign_keys (content d') = Sql.foreign_keys (content d) ->
  (ChainFacts.log_ready (Sql.current (content d)) -> ChainFacts.log_ready (Sql.current (content d'))) ->
  serving (set_store (Some d') s) d'.
Proof. intros [] E1 E2 Hl. split; try done; [by rewrite E1|by rewrite E2|by apply Hl]. Qed.

(** *** Opening *)

Section Opening.
Context `{!FilesLaws F D} (T_reliable : T -> SqliteReliable D).

Lemma wp_exec_path stm (d : D) (Q : unit -> D -> Prop) :
  (T -> is_Some (Sql.meaning stm [] (content d))) ->
  (forall d' rows, Sql.meaning stm [] (content d) = Some (rows, content d') ->
     conn_path d' = conn_path d -> Q tt d') ->
  wp T (Helpers.execOrThrow (Sql.text stm)) d Q.
Proof.
  intros HT HQ. pose proof (SqliteFacts.wp_exec T T_reliable stm d
    (fun _ d' => conn_path d' = conn_path d -> Q tt d') HT HQ) as Hw.
  pose proof (exec_path (Sql.text stm) d) as Hp. unfold wp, Helpers.execOrThrow in *.
  destruct (sqlite_exec _ d) as [d' []]; [done|by apply Hw].
Qed.

(** A statement that leaves the database as it is. *)
Lemma wp_exec_noop stm (d : D) (Q : unit -> D -> Prop) :
  Sql.meaning stm [] (content d) = Sql.answer (content d) [] ->
  (forall d', content d' = content d -> conn_path d' = conn_path d -> Q tt d') ->
  wp T (Helpers.execOrThrow (Sql.text stm)) d Q.
Proof.
  intros Hm HQ. apply wp_exec_path; rewrite Hm; [intros _; by eexists|].
  intros d' rows [= _ E] Hp. by apply HQ.
Qed.

Ltac noop d := apply wp_exec_noop; [reflexivity|]; intros d ? ?.

Lemma wp_store_open (d : D) t fk (Q : unit -> D -> Prop) :
  content d = Sql.mkDatabase t None fk ->
  (forall d', content d' = Sql.mkDatabase t None true -> conn_path d' = conn_path d -> Q tt d') ->
  wp T SqliteAccessStore.SqliteAccessStore_open d Q.
Proof.
  intros Ed HQ. unfold SqliteAccessStore.SqliteAccessStore_open.
  apply wp_bind. noop d1. apply wp_bind. noop d2.
  apply wp_exec_path; [intros _; by eexists|]. intros d3 rows E Hp. apply HQ; [|congruence].
  cbn in E. injection E as _ <-. by replace (content d2) with (Sql.mkDatabase t None fk) by congruence.
Qed.

Lemma wp_store_schema (d : D) (Q : unit -> D -> Prop) :
  (forall d', content d' = content d -> conn_path d' = conn_path d -> Q tt d') ->
  wp T SqliteAccessStore.initSchema d Q.
Proof.
  intros HQ. unfold SqliteAccessStore.initSchema.
  apply wp_bind. noop d1. apply wp_bind. noop d2. apply wp_bind. noop d3. noop d4.
  apply HQ; congruence.
Qed.

(** The anchor a log starts with. *)
Definition with_anchor (t : Sql.tables) : Sql.tables :=
  match Sql.audit_anchor t with
  | Some _ => t
  | None => Sql.set_anchor (Some (SqliteAuditLog.zero_hash, 0)) t
  end.

Lemma wp_log_new (d : D) t key chain (Q : SqliteAuditLog.SqliteAuditLog -> D -> Prop) :
  content d = Sql.mkDatabase t None true ->
  (forall d', content d' = Sql.mkDatabase (with_anchor t) None true -> conn_path d' = conn_path d ->
     Q (SqliteAuditLog.mkSqliteAuditLog key chain) d') ->
  wp T (SqliteAuditLog.SqliteAuditLog_new true key chain) d Q.
Proof.
  intros Ed HQ. unfold SqliteAuditLog.SqliteAuditLog_new. cbn [negb].
  apply wp_bind. unfold SqliteAuditLog.initSchema.
  apply wp_bind. noop d1. apply wp_bind. noop d2. apply wp_bind. noop d3. apply wp_bind. noop d4.
  assert (content d4 = Sql.mkDatabase t None true) as E4 by congruence.
  apply wp_exec_path; rewrite E4.
  - intros _. cbn. destruct (Sql.audit_anchor t); by eexists.
  - intros d5 rows E Hp. apply wp_ret, HQ; [|congruence]. revert E. unfold with_anchor. cbn.
    by destruct (Sql.audit_anchor t); intros [= _ <-].
Qed.

Lemma log_new_engine (s s' : AppState D F) : kept s s' -> the_log s' = the_log s /\ the_engine s' = the_engine s.
Proof. intros [E1 _ E3 _ _ _]. unfold the_log, the_engine, audit_key. by rewrite E1, E3. Qed.

Lemma published_kept (s s' : AppState D F) : published s s' -> kept s s'.
Proof. intros (b & n & -> & Eb). by split. Qed.

Lemma wp_get {S} (s : S) (Q : S -> S -> Prop) : Q s s -> wp T get s Q.
Proof. done. Qed.

Lemma wp_files {A} (f : F -> F * A) (s : AppState D F) (Q : A -> AppState D F -> Prop) :
  Q (f (files s)).2 (set_files (f (files s)).1 s) -> wp T (on_files f) s Q.
Proof. unfold wp, on_files. by destruct (f _). Qed.

Lemma wp_modify {S} (f : S -> S) (s : S) (Q : unit -> S -> Prop) : Q tt (f s) -> wp T (modify f) s Q.
Proof. done. Qed.

Lemma audit_hash_run km : deriveAuditHash km = Ok (KeySpec.key_for km KeySpec.ForAudit).
Proof.
  unfold deriveAuditHash. pose proof (KeyFacts.derive_for_spec km KeySpec.ForAudit I) as E.
  cbn [KeySpec.derive_for] in E. by rewrite E.
Qed.

(** The new store, on the file of the database. *)
Lemma wp_make_store (s : AppState D F) t (Q : unit -> AppState D F -> Prop) :
  store s = None -> file_db (dbPath s) (files s) = Some t ->
  (T -> is_Some (sqlite3_open (dbPath s) (files s)).2) ->
  (forall d f, content d = Sql.mkDatabase t None true -> conn_path d = dbPath s ->
     Q tt (set_store (Some d) (set_files f s))) ->
  wp T make_store s Q.
Proof.
  intros En Ef Ho HQ. unfold make_store. apply wp_bind, wp_get, wp_bind, wp_files.
  destruct (sqlite3_open (dbPath s) (files s)) as [f [d|]] eqn:Eo; cbn [fst snd] in *;
    [|intros Ht%Ho; by destruct Ht].
  pose proof (wp_store_open d t false (fun _ d' => content d' = Sql.mkDatabase t None true /\
    conn_path d' = dbPath s) (open_content _ _ _ _ _ Eo Ef)) as Hw.
  rewrite (open_path _ _ _ _ Eo) in Hw. specialize (Hw (fun d' H1 H2 => conj H1 H2)).
  unfold wp in Hw. destruct (SqliteAccessStore.SqliteAccessStore_open d) as [d' [[]|e|]]; [|exact Hw..].
  rewrite En. apply wp_bind, wp_ret, wp_modify.
  destruct Hw. by apply HQ.
Qed.

(** What opening needs of a server without objects. *)
Record openable (s : AppState D F) (t : Sql.tables) : Prop := {
  ob_store : store s = None;
  ob_bus : 1 <= EventBus._max (events s);
  ob_file : file_db (dbPath s) (files s) = Some t;
  ob_log : ChainFacts.log_ready (with_anchor t);
}.

Definition version_ok (s : AppState D F) : Prop :=
  let kv := Config.currentKeyVersion (Config.keyManagement (cfg s)) in is_u32 kv /\ kv <> 0.

Lemma wp_openOrCreate (s : AppState D F) t (Q : unit -> AppState D F -> Prop) :
  openable s t -> (T -> FilesReliable F D) -> (T -> version_ok s) ->
  (forall s' d, serving s' d -> kept s s' -> Sql.current (content d) = with_anchor t ->
     conn_path d = dbPath s -> Q tt s') ->
  wp T openOrCreate s Q.
Proof.
  intros [] HT Hv HQ. unfold openOrCreate. apply wp_bind, wp_get, wp_bind, wp_files.
  destruct (create_directories (parent_path (dbPath s)) (files s)) as [f o] eqn:Ec. cbn [fst snd].
  pose proof (create_keeps (parent_path (dbPath s)) (dbPath s) (files s)) as Ef.
  rewrite Ec in Ef. cbn [fst] in Ef. apply wp_bind. destruct o as [e|].
  { intros Ht. destruct (HT Ht) as [Hc _ _]. pose proof (Hc (parent_path (dbPath s)) (files s)) as E.
    by rewrite Ec in E. }
  apply wp_ret, wp_bind, (wp_make_store _ t); cbn [store set_files dbPath files]; [done|by rewrite Ef| |].
  { intros Ht. destruct (HT Ht). auto. }
  intros d1 f1 E1 P1. apply wp_bind, (wp_on_store _ _ d1), wp_store_schema; [done|].
  intros d2 E2 P2. rewrite E1 in E2. apply wp_bind.
  eapply wp_lift; [apply audit_hash_run|].
  apply wp_bind, (wp_on_store _ _ d2), (wp_log_new d2 t); [done..|]. intros d3 E3 P3.
  apply wp_bind, wp_modify, wp_bind.
  destruct (KeyManager.deriveCardPepper (keyManager s) _) as [pepper|e|] eqn:Ep; cycle 1.
  { intros Ht. destruct (Hv Ht) as [Hk Hz].
    by rewrite (EngineFacts.pepper_run (keyManager s) _ Hk Hz) in Ep. }
  { intros Ht. destruct (Hv Ht) as [Hk Hz].
    by rewrite (EngineFacts.pepper_run (keyManager s) _ Hk Hz) in Ep. }
  eapply wp_lift; [done|]. apply wp_bind, wp_modify, wp_bind.
  assert (forall s', serving s' d3 -> kept s s' ->
    wp T (push_event "admin" ("storage opened: " +:+ dbPath s) 0 0) s' Q) as Hpush.
  { intros s' Hs' Hk. apply wp_push_event; [intros _; apply Hs'|]. intros s2 Hp.
    apply (HQ s2 d3); [by eapply published_serving| |by rewrite E3|congruence].
    etransitivity; [exact Hk|by apply published_kept]. }
  case_decide; [apply wp_modify|apply wp_ret]; (apply Hpush; [|by split]);
    (split; cbn; try rewrite E3; done).
Qed.

End Opening.

End AppFacts.

(** *** Opening, whatever it comes to *)

Section Opened.
Context `{SodiumLaws, Env} {D F : Type} `{SqliteLaws D, Files F, !SqliteFiles F D, !FilesLaws F D}.

(** Calls that leave the engine and the size of the event buffer as they are. *)
Definition same_engine (s s' : AppState D F) : Prop :=
  engine s' = engine s /\ EventBus._max (events s') = EventBus._max (events s).

#[local] Instance same_engine_preorder : PreOrder same_engine.
Proof. split; [done|]. intros s1 s2 s3 [] []. split; congruence. Qed.

Abbreviation keeps_engine m := (always (fun _ : AppState D F => True) same_engine m).

Lemma keeps_engine_store {A} (m : M D A) : keeps_engine (on_store m).
Proof. intros s _. unfold on_store. destruct (store s); [|done]. by destruct (m _). Qed.

Lemma keeps_engine_files {A} (f : F -> F * A) : keeps_engine (on_files f).
Proof. intros s _. unfold on_files. by destruct (f _). Qed.

#[local] Ltac same_engine := keeps_by ltac:(first
  [apply keeps_engine_files|apply keeps_engine_store|by apply (keeps_modify (fun _ => True))]).

Lemma keeps_engine_make_store : keeps_engine make_store.
Proof. unfold make_store. same_engine. Qed.

(** Until the engine is set, a call that does not return leaves none. *)
Definition no_engine (s : AppState D F) : Prop :=
  engine s = None /\ 1 <= EventBus._max (events s).

Definition returns_or_closed {A} (m : M (AppState D F) A) (s : AppState D F) : Prop :=
  engine (m s).1 = None \/ exists a, (m s).2 = Ok a.

Lemma closed_bind {A B} (m : M (AppState D F) A) (f : A -> M (AppState D F) B) s :
  keeps_engine m -> no_engine s -> (forall a s', no_engine s' -> returns_or_closed (f a) s') ->
  returns_or_closed (m ≫= f) s.
Proof.
  intros Hm [He Hb] Hf. unfold returns_or_closed, mbind, M_bind. destruct (Hm s I) as (_ & [E1 E2] & _).
  destruct (m s) as [s1 [a|e|]]; cbn in *; [|left; congruence..].
  apply Hf. split; [congruence|lia].
Qed.

Lemma push_returns kind message reader door (s : AppState D F) :
  1 <= EventBus._max (events s) -> returns_or_closed (push_event kind message reader door) s.
Proof.
  intros Hb. right.
  destruct (wp_returns True (push_event kind message reader door) s (fun _ _ => True)) as (s' & a & E & _);
    [by apply wp_push_event|done|]. exists a. by rewrite E.
Qed.

(** Opening that does not return leaves no engine. *)
Lemma openOrCreate_closed (s : AppState D F) : no_engine s -> returns_or_closed openOrCreate s.
Proof.
  intros Hs. unfold openOrCreate.
  apply closed_bind; [same_engine|done|]. intros s0 s1 N1.
  apply closed_bind; [same_engine|done|]. intros o s2 N2.
  apply closed_bind; [same_engine|done|]. intros _ s3 N3.
  apply closed_bind; [apply keeps_engine_make_store|done|]. intros _ s4 N4.
  apply closed_bind; [same_engine|done|]. intros _ s5 N5.
  apply closed_bind; [same_engine|done|]. intros hash s6 N6.
  apply closed_bind; [same_engine|done|]. intros log s7 N7.
  apply closed_bind; [same_engine|done|]. intros _ s8 N8.
  apply closed_bind; [same_engine|done|]. intros _ s9 [N9 Hb].
  case_decide; by apply push_returns.
Qed.

(** Opening keeps the size of the event buffer. *)
Definition same_bus (s s' : AppState D F) : Prop := EventBus._max (events s') = EventBus._max (events s).

#[local] Instance same_bus_preorder : PreOrder same_bus.
Proof. split; [done|]. intros s1 s2 s3. unfold same_bus. congruence. Qed.

Lemma push_keeps_bus kind message reader door :
  always (fun _ : AppState D F => True) same_bus (push_event kind message reader door).
Proof.
  intros s _. unfold push_event, zoom, EventBus.push, same_bus. cbv [mbind M_bind mret M_ret]. cbn.
  case_decide; [|done]. by destruct (EventBus._events (events s)).
Qed.

Lemma openOrCreate_bus : always (fun _ : AppState D F => True) same_bus openOrCreate.
Proof.
  assert (forall (A : Type) (m : M (AppState D F) A), keeps_engine m ->
    always (fun _ : AppState D F => True) same_bus m) as Hk.
  { intros A m Hm s _. by destruct (Hm s I) as (_ & [_ E] & _). }
  unfold openOrCreate. keeps_by ltac:(first
    [ apply push_keeps_bus | apply Hk, keeps_engine_make_store | apply Hk, keeps_engine_files
    | apply Hk, keeps_engine_store | by apply (keeps_modify (fun _ => True)) ]).
Qed.

Lemma chain_ok_ready key t :
  ChainSpec.chain_ok key t -> 0 <= Sql.audit_last_id t < Sql.max_rowid ->
  ChainFacts.log_ready (with_anchor t) /\ with_anchor t = t.
Proof.
  intros [Hc [ts Ea]] Hi. assert (with_anchor t = t) as E by (unfold with_anchor; by rewrite Ea).
  rewrite E. split; [|done]. split; [by eexists|done|]. by eapply ChainFacts.last_hash_length.
Qed.

End Opened.

(** *** An import on a disk and a database that may fail *)

Section Outcome.
Context `{SodiumLaws, Env} {D F : Type} `{SqliteLaws D, !SqliteRows D}.
Context `{Files F, !SqliteFiles F D, !FilesLaws F D}.

(** From one state of the file system to another, as far as one file goes. *)
Definition same_db (path : string) (f f' : F) : Prop := forall t,
  file_db path f = Some t -> file_db path f' = Some t.

Lemma closed_same path (f f1 : F) (d d' : D) :
  sqlite3_open path f = (f1, Some d) -> conn_path d' = conn_path d ->
  (Sql.saved (content d) = None -> content d' = content d) -> same_db path f (sqlite3_close d' f1).
Proof.
  intros Eo Ep Ec t Ef. pose proof (open_content _ _ _ _ _ Eo Ef) as Ed. rewrite Ed in Ec.
  specialize (Ec eq_refl). rewrite <- (open_path _ _ _ _ Eo), <- Ep, close_saves; by rewrite Ec.
Qed.

(** The integrity check answers, whatever the file is. *)
Lemma integrity_answers path (s : AppState D F) :
  exists f r, sqliteIntegrityOk path s = (set_files f s, Ok r) /\ same_db path (files s) f.
Proof.
  unfold sqliteIntegrityOk. cbv [mbind M_bind]. unfold on_files at 1.
  pose proof (open_keeps path (files s) path) as Ek.
  destruct (sqlite3_open path (files s)) as [f [d|]] eqn:Eo; cbn [fst] in Ek; [|by eexists _, _].
  destruct (negb _); cbn.
  - eexists _, _. split; [reflexivity|]. by eapply closed_same.
  - pose proof (integrity_content d) as Ec. pose proof (run_path kIntegrityCheckSql [] d) as Er.
    destruct (sqlite_run kIntegrityCheckSql [] d) as [d' r]. cbn in *.
    eexists _, _. split; [reflexivity|]. by eapply closed_same.
Qed.

(** Verifying stays on its file, *)
Lemma verify_stays key (d : D) : conn_path (AuditVerify.verifyAuditChain true key d).1 = conn_path d.
Proof.
  assert (PreOrder (fun d d' : D => conn_path d' = conn_path d)) as Hp by (split; [done|intros ?; congruence]).
  enough (always (fun _ : D => True) (fun d d' => conn_path d' = conn_path d)
    (AuditVerify.verifyAuditChain true key)) as Hm by by apply Hm.
  unfold AuditVerify.verifyAuditChain, AuditVerify.verifyAnchor, Helpers.prepareOrThrow. cbn [negb].
  keeps_by ltac:(first
    [ intros x _; unfold Helpers.prepare_or; by destruct (sqlite_prepare _ x)
    | intros x _; unfold Helpers.run;
      match goal with |- context [sqlite_run ?q ?ps x] => pose proof (run_path q ps x) end;
      by destruct (sqlite_run _ _ x) ]).
Qed.

(** and when it says yes, the chain of the file is intact. *)
Lemma verify_answers path km (s : AppState D F) :
  exists f r, verifyUploadedAuditChain path km s = (set_files f s, r) /\
    (forall o, r = Ok o -> same_db path (files s) f) /\
    (r = Ok None -> forall t, file_db path (files s) = Some t -> ChainSpec.log_fits t ->
       ChainSpec.chain_ok (KeySpec.key_for km KeySpec.ForAudit) t).
Proof.
  unfold verifyUploadedAuditChain. cbv [mbind M_bind]. unfold on_files at 1.
  pose proof (open_keeps path (files s) path) as Ek.
  destruct (sqlite3_open path (files s)) as [f [d|]] eqn:Eo; cbn [fst snd] in *; [|by eexists _, _].
  rewrite audit_hash_run. unfold lift. set (key := KeySpec.key_for _ _).
  pose proof (verify_stays key d) as Er. pose proof (ChainFacts.verify_sound key d) as Hv.
  destruct (AuditVerify.verifyAuditChain true key d) as [d' [vr|e|]]; cbn [fst] in Er; [|by eexists _, _..].
  specialize (Hv d'). eexists _, _. split; [reflexivity|]. cbn. split.
  - intros o _. eapply closed_same; [done|done|]. intros Hn. by destruct (Hv _ Hn eq_refl).
  - intros [= E] t Ef Hf. pose proof (open_content _ _ _ _ _ Eo Ef) as Ed. rewrite Ed in Hv.
    destruct (Hv _ eq_refl eq_refl) as [_ Hc]. cbn in Hc. apply (Hc vr); [done| |done].
    by destruct (AuditVerify.ok vr).
Qed.

(** Copying the upload over the database. *)
Lemma replace_answers path upload (s : AppState D F) :
  upload <> path -> upload <> path +:+ ".bak" ->
  exists f r, replaceDbFile path upload s = (set_files f s, Ok r) /\
    (r = None -> forall t, file_db upload (files s) = Some t -> file_db path f = Some t) /\
    (FilesReliable F D -> is_Some (file_db upload (files s)) -> r = None).
Proof.
  intros Hp Hb. unfold replaceDbFile. cbv [mbind M_bind]. unfold get.
  assert (exists f, (if exists_ path (files s)
      then on_files (copy_file path (path +:+ ".bak")) ≫= (fun _ => mret tt) else mret tt) s
      = (set_files f s, Ok tt) /\ file_db upload f = file_db upload (files s)) as (f & E & Ef').
  { destruct (exists_ _ _); [|exists (files s); by destruct s].
    pose proof (copy_keeps path (path +:+ ".bak") upload (files s) Hb) as Ek.
    cbv [mbind M_bind]. unfold on_files. destruct (copy_file _ _ _) as [f o]. by exists f. }
  cbv [mbind M_bind] in E. rewrite E. unfold on_files. cbn [files set_files].
  destruct (copy_file upload path f) as [f' [m|]] eqn:Ec; (eexists f', _; split; [reflexivity|]); split; try done.
  - intros [_ _ Hcopy] [t Et]. specialize (Hcopy upload path f t). rewrite Ec, Ef' in Hcopy. by discriminate Hcopy.
  - intros _ t Et. eapply copy_copies; [exact Ec|]. by rewrite Ef'.
Qed.

(** The state after [reset_all]. *)
Lemma reset_run (s : AppState D F) d :
  store s = Some d ->
  reset_all s = (set_engine None (set_audit None (set_store None
    (set_files (sqlite3_close d (files s)) s))), Ok tt).
Proof. intros E. unfold reset_all. cbv [mbind M_bind]. unfold get. by rewrite E. Qed.

(** Opening the file that was put in place. *)
Lemma import_open (s s5 : AppState D F) upload :
  checked s upload -> kept s s5 -> store s5 = None -> engine s5 = None -> 1 <= EventBus._max (events s5) ->
  (forall t, file_db upload (files s) = Some t -> file_db (dbPath s5) (files s5) = Some t) ->
  let m := openOrCreate ;; push_event "admin" "db imported + reopened" 0 0 ;;
           mret (true, EmptyString) in
  import_outcome s upload (m s5).1 (m s5).2.
Proof.
  intros Hc Hk Hs He Hb Hf m.
  pose proof (wp_openOrCreate False (False_ind _) s5) as Hw.
  pose proof (openOrCreate_closed s5 (conj He Hb)) as Hcl. unfold wp, returns_or_closed in *.
  pose proof (openOrCreate_bus s5 I) as (_ & Hbus & _).
  destruct (openOrCreate s5) as [s6 [[]|e|]] eqn:Eo; cbn [fst snd] in *; cycle 1.
  { unfold m. rewrite (M_bind_throw _ _ _ _ _ Eo). apply import_broken; [done| |done].
    by destruct Hcl as [|[? ?]]. }
  { unfold m, mbind, M_bind. rewrite Eo. apply import_broken; [done| |done].
    by destruct Hcl as [|[? ?]]. }
  destruct (wp_returns True (push_event "admin" "db imported + reopened" 0 0) s6
    (fun _ s' => published s6 s')) as (s7 & [] & E & Hpub);
    [apply wp_push_event; [intros _; unfold same_bus in Hbus; lia|done]|done|].
  unfold m. rewrite (M_bind_ok _ _ _ _ _ Eo), (M_bind_ok _ _ _ _ _ E). apply import_done; [done|].
  intros t Ht Hl Hi. destruct (chain_ok_ready _ t (Hc t Ht Hl) Hi) as [Hr Ew].
  destruct (Hw t (fun _ s' => exists d, serving s' d /\ kept s5 s' /\ Sql.current (content d) = t))
    as (d & Hd & Hk' & Hcur); [by split; auto|done|done|
    intros s' d Hd Hk' Hcur _; exists d; by rewrite Hcur|].
  exists d. split; [by eapply published_serving|]. split; [done|].
  etransitivity; [exact Hk|]. etransitivity; [exact Hk'|]. by apply published_kept.
Qed.

Lemma import_run (s : AppState D F) d upload :
  serving s d -> conn_path d = dbPath s ->
  upload <> dbPath s -> upload <> dbPath s +:+ ".bak" ->
  import_outcome s upload (importDbFile upload s).1 (importDbFile upload s).2.
Proof.
  intros Hs Hd Hu Hb. unfold importDbFile. rewrite (M_bind_ok get _ s s s) by done.
  destruct (integrity_answers upload s) as (f1 & r1 & E1 & F1).
  rewrite (M_bind_ok _ _ _ _ _ E1). destruct r1 as [err|]; [apply import_refused; by split|].
  destruct (verify_answers upload (keyManager s) (set_files f1 s)) as (f2 & r2 & E2 & F2 & Hc).
  destruct r2 as [[err|]|e|]; cycle 2.
  { rewrite (M_bind_throw _ _ _ _ _ E2). apply import_uncaught; [by split|done]. }
  { unfold mbind, M_bind. rewrite E2. apply import_uncaught; [by split|done]. }
  { rewrite (M_bind_ok _ _ _ _ _ E2). apply import_refused. by split. }
  rewrite (M_bind_ok _ _ _ _ _ E2). specialize (F2 _ eq_refl). specialize (Hc eq_refl). cbn in F2, Hc.
  assert (checked s upload) as Hck by (intros t Ht; by apply Hc, F1).
  pose proof (reset_run (set_files f2 (set_files f1 s)) d (sg_store _ _ Hs)) as E3.
  rewrite (M_bind_ok _ _ _ _ _ E3). set (s3 := set_engine None _) in *.
  destruct (replace_answers (dbPath s) upload s3 Hu Hb) as (f4 & r4 & E4 & F4 & _).
  rewrite (M_bind_ok _ _ _ _ _ E4). destruct r4 as [err|]; [by apply import_lost|].
  apply import_open; try done; [apply Hs|]. intros t Ht. cbn. apply F4; [done|].
  cbn. rewrite close_keeps by congruence. by apply F2, F1.
Qed.

End Outcome.

(** *** An import on a disk and a database that do not fail *)

Section Importing.
Context `{SodiumLaws, Env} {D F : Type} `{SqliteReliable D, Files F, !SqliteFiles F D, !FilesLaws F D}.

(** The integrity check answers, and the file stays the database it was. *)
Lemma integrity_run path (s : AppState D F) t :
  file_db path (files s) = Some t ->
  exists f r, sqliteIntegrityOk path s = (set_files f s, Ok r) /\ file_db path f = Some t.
Proof.
  intros Ef. destruct (integrity_answers path s) as (f & r & E & Hf). exists f, r. auto.
Qed.

(** The check of the uploaded log passes only an intact chain. *)
Lemma verify_upload_run path km (s : AppState D F) t :
  file_db path (files s) = Some t -> ChainSpec.log_fits t ->
  exists f r, verifyUploadedAuditChain path km s = (set_files f s, Ok r) /\
    file_db path f = Some t /\
    (r = None -> ChainSpec.chain_ok (KeySpec.key_for km KeySpec.ForAudit) t) /\
    (is_Some (sqlite3_open path (files s)).2 ->
     ChainSpec.chain_ok (KeySpec.key_for km KeySpec.ForAudit) t -> r = None).
Proof.
  intros Ef Hf. unfold verifyUploadedAuditChain. cbv [mbind M_bind]. unfold on_files at 1.
  pose proof (open_keeps path (files s) path t Ef) as Ek.
  destruct (sqlite3_open path (files s)) as [f [d|]] eqn:Eo; cbn [fst snd] in *;
    [|eexists _, _; split; [reflexivity|]; by split_and!; [..|intros []]].
  pose proof (open_content _ _ _ _ _ Eo Ef) as Ed. pose proof (open_path _ _ _ _ Eo) as Ep.
  rewrite audit_hash_run. unfold lift. set (key := KeySpec.key_for _ _).
  destruct (ChainFacts.verify_run key d) as (d' & vr & Ev & Ec & Hok & _); [by rewrite Ed|].
  pose proof (verify_stays key d) as Er. rewrite Ev in Er |- *. cbn [fst] in Er.
  rewrite Ed in Ec, Hok. cbn [Sql.current] in Hok.
  eexists _, _. split; [reflexivity|]. cbn. split_and!.
  - rewrite <- Ep, <- Er, close_saves; by rewrite Ec.
  - intros E. apply Hok. by destruct (AuditVerify.ok vr).
  - intros _ Hc. by rewrite (proj2 Hok Hc).
Qed.

(** Copying the upload over the database. *)
Lemma replace_run path upload (s : AppState D F) t :
  upload <> path -> upload <> path +:+ ".bak" -> file_db upload (files s) = Some t ->
  exists f r, replaceDbFile path upload s = (set_files f s, Ok r) /\
    (r = None -> file_db path f = Some t) /\ (FilesReliable F D -> r = None).
Proof.
  intros Hp Hb Ef. destruct (replace_answers path upload s Hp Hb) as (f & r & E & Hf & Hr).
  exists f, r. split_and!; eauto.
Qed.

(** *** An import that must succeed *)

Context `{!UploadLaws F D, !BackupLaws F D, !FilesReliable F D}.

Lemma integrity_ok path (s : AppState D F) t :
  file_db path (files s) = Some t ->
  exists f, sqliteIntegrityOk path s = (set_files f s, Ok None) /\ file_db path f = Some t.
Proof.
  intros Ef. destruct (integrity_run path s t Ef) as (f & r & E & F1). exists f. split; [|done].
  rewrite E. do 2 f_equal. revert E. unfold sqliteIntegrityOk, mbind, M_bind, on_files.
  destruct (open_reliable path (files s)) as [d Ed].
  destruct (sqlite3_open path (files s)) as [f' o] eqn:Eo. cbn in Ed. subst o.
  rewrite integrity_prepared. cbn [negb].
  destruct (integrity_passes path (files s) f' d t Ef Eo) as (row & Er & Et).
  destruct (sqlite_run kIntegrityCheckSql [] d) as [d' [[|row' rows] rc]]; [done|].
  cbn in *. injection Er as ->. rewrite Et, decide_True by done. by intros [= _ <-].
Qed.

Lemma import_succeeds (s : AppState D F) d upload t :
  serving s d -> conn_path d = dbPath s -> version_ok s ->
  upload <> dbPath s -> upload <> dbPath s +:+ ".bak" ->
  file_db upload (files s) = Some t -> ChainSpec.log_fits t ->
  ChainSpec.chain_ok (audit_key s) t -> 0 <= Sql.audit_last_id t < Sql.max_rowid ->
  exists s' d', importDbFile upload s = (s', Ok (true, EmptyString)) /\
    serving s' d' /\ kept s s' /\ Sql.current (content d') = t.
Proof.
  intros Hs Hd Hv Hu Hb Hf Hl Hc Hi. unfold importDbFile. rewrite (M_bind_ok get _ s s s) by done.
  destruct (integrity_ok upload s t Hf) as (f1 & E1 & F1). rewrite (M_bind_ok _ _ _ _ _ E1).
  destruct (verify_upload_run upload (keyManager s) (set_files f1 s) t F1 Hl)
    as (f2 & r2 & E2 & F2 & _ & Hr2).
  rewrite (M_bind_ok _ _ _ _ _ E2), (Hr2 (open_reliable _ _) Hc).
  pose proof (reset_run (set_files f2 (set_files f1 s)) d (sg_store _ _ Hs)) as E3.
  rewrite (M_bind_ok _ _ _ _ _ E3). set (s3 := set_engine None _) in *.
  assert (file_db upload (files s3) = Some t) as F3 by (cbn; by rewrite close_keeps by congruence).
  destruct (replace_run (dbPath s) upload s3 t Hu Hb F3) as (f4 & r4 & E4 & F4 & Hr4).
  rewrite (M_bind_ok _ _ _ _ _ E4). specialize (Hr4 _). subst r4. specialize (F4 eq_refl).
  destruct (chain_ok_ready _ t Hc Hi) as [Hr Ew].
  destruct (wp_returns True openOrCreate (set_files f4 s3) (fun _ s' => exists d',
      serving s' d' /\ kept (set_files f4 s3) s' /\ Sql.current (content d') = with_anchor t))
    as (s5 & [] & E5 & d' & Hs5 & Hk5 & Ec); [|done|].
  { apply (wp_openOrCreate True (fun _ => _) _ t); [|done|done|].
    - by split; [|apply Hs|..].
    - intros s' d' Hs' Hk' Hcur _. by exists d'. }
  destruct (wp_returns True (push_event "admin" "db imported + reopened" 0 0) s5 (fun _ s' => published s5 s'))
    as (s6 & [] & E6 & Hp); [apply wp_push_event; [intros _; apply Hs5|done]|done|].
  rewrite (M_bind_ok _ _ _ _ _ E5), (M_bind_ok _ _ _ _ _ E6). exists s6, d'. split; [done|].
  split; [by eapply published_serving|]. split; [|congruence].
  transitivity s5; [|by apply published_kept]. transitivity (set_files f4 s3); [by split|done].
Qed.

End Importing.
End AppFacts.

(** ** Files in memory

    A concrete file system that meets the promises: a file is a byte string,
    [images] telling which byte strings are databases, or a database that has been
    written to, whose bytes are not modelled. *)

Module MemFiles.
Import AppState.

Inductive file := Db (t : Sql.tables) | Raw (s : string).

Abbreviation filesys := (gmap string file).

(** A connection: the path, and the database as [MemDb] has it. *)
Definition connection : Type := string * Sql.database.

Definition run (sql : string) (ps : list Sqlite.value) (d : connection) :
    connection * (list row * Z) :=
  if decide (sql = kIntegrityCheckSql) then
    (d, ([[VText (if Sql.saved d.2 is Some _ then "file is not a database" else "ok")]], SQLITE_DONE))
  else let '(db, r) := MemDb.run sql ps d.2 in ((d.1, db), r).

#[export] Instance sqlite : Sqlite connection := {|
  sqlite_exec sql d :=
    let '(db, r) := sqlite_exec (Sqlite := MemDb.sqlite) sql d.2 in ((d.1, db), r);
  sqlite_prepare sql d :=
    bool_decide (sql = kIntegrityCheckSql) || sqlite_prepare (Sqlite := MemDb.sqlite) sql d.2;
  sqlite_run := run;
  column_int := column_int (Sqlite := MemDb.sqlite);
  column_int64 := column_int64 (Sqlite := MemDb.sqlite);
  column_text := column_text (Sqlite := MemDb.sqlite);
  column_blob := column_blob (Sqlite := MemDb.sqlite);
|}.

Lemma not_integrity s : Sql.text s <> kIntegrityCheckSql.
Proof. by destruct s. Qed.

Lemma conn_run_text s ps d : run (Sql.text s) ps d = let '(db, r) := MemDb.run (Sql.text s) ps d.2 in ((d.1, db), r).
Proof. unfold run. by rewrite decide_False by apply not_integrity. Qed.

#[export] Instance laws : SqliteLaws connection.
Proof.
  refine {| content d := d.2 |}.
  - intros s ps d d' rows. cbn. rewrite conn_run_text. destruct (MemDb.run _ _ _) as [db r] eqn:E.
    intros [= <- ->]. by apply (@run_done _ _ MemDb.laws).
  - intros s ps d d' rows rc. cbn. rewrite conn_run_text. destruct (MemDb.run _ _ _) as [db r] eqn:E.
    intros [= <- ->]. by apply (@run_failed _ _ MemDb.laws s ps d.2 db rows).
  - intros s d d'. cbn [sqlite_exec sqlite]. destruct (sqlite_exec _ d.2) as [db r] eqn:E.
    intros [= <- ->]. by apply (@exec_ok _ _ MemDb.laws).
  - intros s d d' err. cbn [sqlite_exec sqlite]. destruct (sqlite_exec _ d.2) as [db r] eqn:E.
    intros [= <- ->]. by apply (@exec_failed _ _ MemDb.laws s d.2 db err).
  - apply (@column_int_int _ _ MemDb.laws).
  - apply (@column_int64_int _ _ MemDb.laws).
  - apply (@column_text_text _ _ MemDb.laws).
  - apply (@column_text_null _ _ MemDb.laws).
  - apply (@column_blob_blob _ _ MemDb.laws).
Defined.

#[export] Instance reliable : SqliteReliable connection.
Proof.
  split.
  - intros s d. cbn [sqlite_prepare sqlite]. rewrite (@prepare_reliable _ _ _ MemDb.reliable).
    apply orb_true_r.
  - intros s ps [p db] rows db' Hc Hm. cbn [sqlite_run sqlite]. rewrite conn_run_text.
    destruct (@run_reliable _ _ _ MemDb.reliable s ps db rows db' Hc Hm) as [db2 E].
    exists (p, db2). cbn. cbn [sqlite_run MemDb.sqlite] in E. by rewrite E.
  - intros s [p db] rows db' Hm. cbn [sqlite_exec sqlite].
    destruct (@exec_reliable _ _ _ MemDb.reliable s db rows db' Hm) as [db2 E].
    exists (p, db2). cbn. cbn [sqlite_exec MemDb.sqlite] in E. by rewrite E.
Defined.

#[export] Instance connection_rows : SqliteRows connection.
Proof.
  split.
  - intros s ps [p db] row Hc. cbn [sqlite_run sqlite content laws]. rewrite conn_run_text, MemDb.run_text.
    cbn [snd fst]. destruct (Sql.meaning s ps db) as [[rows db']|] eqn:E; cbn; intros Hin;
      [by exists rows, db'|by apply not_elem_of_nil in Hin].
  - intros s ps [p db]. cbn [sqlite_run sqlite content laws]. rewrite conn_run_text, MemDb.run_text.
    cbn [snd fst]. by destruct (Sql.meaning s ps db) as [[rows db']|].
Defined.

Section MemFiles.
Context (images : string -> option Sql.tables).

Definition file_tables (x : file) : option Sql.tables :=
  match x with Db t => Some t | Raw s => images s end.

Definition mem_files : Files filesys := {|
  create_directories _ f := (f, None);
  exists_ p f := bool_decide (is_Some (f !! p));
  copy_file p q f :=
    match f !! p with
    | Some x => (<[q := x]> f, None)
    | None => (f, Some "No such file or directory"%string)
    end;
  remove p f := delete p f;
  write_file p s f := <[p := Raw s]> f;
  read_file p f := match f !! p with Some (Raw s) => Some s | _ => None end;
|}.

(** What opening a file gives that is no database, until the integrity check. *)
Definition garbage : Sql.database := Sql.mkDatabase Sql.no_tables (Some Sql.no_tables) false.

Definition mem_sqlite_files : @SqliteFiles filesys connection := {|
  sqlite3_open p f :=
    match f !! p with
    | None => (<[p := Db Sql.no_tables]> f, Some (p, Sql.mkDatabase Sql.no_tables None false))
    | Some x =>
        (f, Some (p, match file_tables x with
                     | Some t => Sql.mkDatabase t None false
                     | None => garbage
                     end))
    end;
  sqlite3_close d f :=
    <[d.1 := Db (default (Sql.current d.2) (Sql.saved d.2))]> f;
|}.

#[local] Existing Instances mem_files mem_sqlite_files.

Definition mem_files_laws : FilesLaws filesys connection.
Proof.
  refine {| file_db p f := (f : filesys) !! p ≫= file_tables; conn_path d := d.1 |}.
  - intros p f f' d. cbn. by destruct (f !! p) as [x|]; intros [= _ <-].
  - intros p f f' d t. cbn. destruct (f !! p) as [x|]; cbn; [|done]. intros [= _ <-] ->. done.
  - intros p f q t. cbn. destruct (f !! p) eqn:E; [done|]. cbn. destruct (decide (q = p)) as [->|Hn];
      [by rewrite E|by rewrite lookup_insert_ne].
  - intros [p db] f E. cbn in *. rewrite lookup_insert_eq. cbn. by rewrite E.
  - intros [p db] f q Hq. cbn in *. by rewrite lookup_insert_ne.
  - intros sql ps d. cbn. unfold run. case_decide; [done|]. by destruct (MemDb.run _ _ _).
  - intros sql d. cbn [sqlite_exec sqlite]. by destruct (sqlite_exec _ _).
  - intros d. cbn. unfold run. by rewrite decide_True.
  - intros p q f f' t. cbn. destruct (f !! p); cbn; [|done]. intros [= <-] E. by rewrite lookup_insert_eq.
  - intros p q r f Hr. cbn. destruct (f !! p); [|done]. cbn. by rewrite lookup_insert_ne.
  - done.
Defined.

Lemma mem_files_reliable :
  @FilesReliable filesys connection _ _ mem_files mem_sqlite_files mem_files_laws.
Proof.
  split.
  - done.
  - intros p f. cbn. by destruct (f !! p).
  - intros p q f t. cbn. by destruct (f !! p).
Qed.

Lemma mem_upload_laws :
  (forall s t, images s = Some t -> ChainSpec.log_fits t) ->
  @UploadLaws filesys connection _ _ mem_files mem_sqlite_files mem_files_laws.
Proof.
  intros Himg. split.
  - intros p data f. cbn. by rewrite lookup_insert_eq, bool_decide_true.
  - intros p data f q Hq. cbn. by rewrite lookup_insert_ne.
  - intros p f q Hq. cbn. by rewrite lookup_delete_ne.
  - intros p data f t. cbn. rewrite lookup_insert_eq. cbn. apply Himg.
  - intros p f f' d row. cbn. rewrite bool_decide_eq_true. intros [x Ex]. rewrite Ex. cbn. intros Ef.
    rewrite Ef. intros [= _ <-]. unfold run. rewrite decide_True by done. cbn. by intros [= <-].
Qed.

Definition mem_backup_laws (fits : forall s t, images s = Some t -> ChainSpec.log_fits t) :
  @BackupLaws filesys connection _ _ mem_files mem_sqlite_files mem_files_laws (mem_upload_laws fits).
Proof.
  refine (@Build_BackupLaws _ _ _ _ mem_files mem_sqlite_files mem_files_laws _ images _ _ _).
  - intros p data f. cbn. by rewrite lookup_insert_eq.
  - intros d. reflexivity.
  - intros p f f' d t. cbn. destruct (f !! p) as [x|]; cbn; [|done]. intros Ex. rewrite Ex.
    intros [= _ <-]. eexists. split; reflexivity.
Defined.

End MemFiles.
End MemFiles.

(** ** Properties *)

Module AppProps.
Import AppState AppSpec AppFacts MemDb MemFiles ToySodium HandlerProps.

(** A log of one entry, chained with the audit key of the server. *)
Definition backup_tables : Sql.tables := Eval vm_compute in
  let key := KeySpec.key_for KeyProps.test_km KeySpec.ForAudit in
  Sql.current (SqliteAuditLog.append (SqliteAuditLog.mkSqliteAuditLog key true)
    AuditProps.test_event AuditProps.empty_db).1.

(** The same entry, written by a server with the chain switched off. *)
Definition unchained_tables : Sql.tables := Eval vm_compute in
  let key := KeySpec.key_for KeyProps.test_km KeySpec.ForAudit in
  Sql.current (SqliteAuditLog.append (SqliteAuditLog.mkSqliteAuditLog key false)
    AuditProps.test_event AuditProps.empty_db).1.

Definition test_images (s : string) : option Sql.tables :=
  if decide (s = "backup"%string) then Some backup_tables else None.

#[export] Instance test_files : Files filesys := mem_files.
#[export] Instance test_sqlite_files : SqliteFiles filesys connection := mem_sqlite_files test_images.
#[export] Instance test_files_laws : FilesLaws filesys connection := mem_files_laws test_images.
Lemma backup_fits : ChainSpec.log_fits backup_tables.
Proof. refine (bool_decide_eq_true_1 (Forall ChainSpec.row_fits _) _). vm_compute. reflexivity. Qed.

Lemma images_fit s t : test_images s = Some t -> ChainSpec.log_fits t.
Proof. unfold test_images. case_decide; [|done]. intros [= <-]. exact backup_fits. Qed.

#[export] Instance test_upload_laws : UploadLaws filesys connection := mem_upload_laws test_images images_fit.

#[export] Instance test_backup_laws : BackupLaws filesys connection := mem_backup_laws test_images images_fit.

#[export] Instance test_files_reliable : FilesReliable filesys connection := mem_files_reliable test_images.

(** Reader 1 may open door 2 for staff; the database file is on disk. *)
Definition test_tables : Sql.tables :=
  Sql.mkTables ∅ {[(2, "staff"%string)]} {[1 := 2]} {[(1, 2)]} [] 0 None.

Definition test_start : AppState connection filesys :=
  AppState_new Config.Config_default "data/access.db" KeyProps.test_km 0
    {["data/access.db"%string := Db test_tables; "upload"%string := Raw "backup";
      "forged"%string := Db (Sql.current AuditProps.two_entries);
      "unchained"%string := Db unchained_tables]}.

(** The server after [openOrCreate]. *)
Definition test_server : AppState connection filesys :=
  Eval vm_compute in (openOrCreate test_start).1.

Example test_server_opens : (openOrCreate test_start).2 = Ok tt.
Proof. vm_compute. reflexivity. Qed.

(** A log that another key chained is refused; without room for the copy, the
    server is left without a database. *)
Example import_forged :
  (importDbFile "forged" test_server).2
  = Ok (false, "verifyAuditChain failed: entry_hash mismatch"%string).
Proof. vm_compute. reflexivity. Qed.

(** A log that was written without the chain cannot be imported any more. *)
Example import_unchained :
  (importDbFile "unchained" test_server).2
  = Ok (false, "verifyAuditChain failed: entry_hash mismatch"%string).
Proof. vm_compute. reflexivity. Qed.

(** C17: an import swaps the database or leaves the server as it was. Whatever file
    is uploaded, and whatever fails in the file system and in the database, importing
    it ends in one of five ways. The file is refused, or the checks throw (as
    they do for a database without an audit log), and in both cases store, audit log
    and engine are the ones before. Or the checks passed, so that the audit chain in
    the file is intact under the server's key, if it is a database of this program;
    and then (a) the copy failed, and there is no store, log or engine any more, (b)
    opening the new file threw, and there is no engine, or (c) it succeeded, and the
    server works on exactly the uploaded tables, with events, detector and replay
    windows kept. (The chain is checked here and nowhere else: a start of the server
    does not verify it.) *)
Theorem import_swaps_or_keeps {D F : Type} `{SodiumLaws, Env} `{SqliteLaws D, !SqliteRows D, Files F}
    `{!SqliteFiles F D, !FilesLaws F D} (s : AppState D F) (d : D) (upload : string) :
  serving s d -> conn_path d = dbPath s ->
  upload <> dbPath s -> upload <> dbPath s +:+ ".bak" ->
  import_outcome s upload (importDbFile upload s).1 (importDbFile upload s).2.
Proof. apply import_run. Qed.

Definition test_connection : connection :=
  ("data/access.db"%string, Sql.mkDatabase (with_anchor test_tables) None true).

Lemma test_serving : serving test_server test_connection.
Proof.
  split; vm_compute; done.
Qed.

Lemma import_swaps_or_keeps_witness :
  (importDbFile "upload" test_server).2 = Ok (true, EmptyString) /\
  import_outcome test_server "upload" (importDbFile "upload" test_server).1
    (importDbFile "upload" test_server).2.
Proof.
  split; [vm_compute; reflexivity|].
  apply (import_swaps_or_keeps test_server test_connection "upload");
    [exact test_serving|vm_compute; reflexivity|vm_compute; congruence|vm_compute; congruence].
Defined.

End AppProps.
