(* ===== verification/Durable.v ===== *)
(** What is on disk: the committed tables, and what the statements of the
    program can do to them whatever fails. SQLite may refuse any statement at any
    time (busy, full, a broken disk), and roll the open transaction back when it
    does; that the log is continued needs no statement to succeed, that its chain is
    kept needs the query for the last hash ([chain_kept]), and the last section has
    a database on which only that query fails. *)
From Stdlib Require Import ZArith Lia.
From stdpp Require Import base option list gmap strings.
From S2P Require Import Prelude LittleEndian Crypto Keys Access FrameHandling Sqlite SqliteStore AuditLog AppState.
Local Open Scope Z_scope.

Module DurableSpec.
Import SqliteAuditLog ChainSpec ChainFacts.

Section DurableSpec.
Context `{SodiumLaws} (kept : Prop) (key : bytes).

(** The log of [t'] is the log of [t], continued; and, if the chain is [kept], it
    is intact if the chain of [t] is. *)
Record grown (t t' : Sql.tables) : Prop := {
  gr_log : Sql.audit_log t `prefix_of` Sql.audit_log t';
  gr_chain : kept -> chain_ok key t -> chain_ok key t';
}.

(** The policy is the same, too. *)
Record extended (t t' : Sql.tables) : Prop := {
  ex_grown : grown t t';
  ex_cards : Sql.cards t' = Sql.cards t;
  ex_roles : Sql.door_roles t' = Sql.door_roles t;
  ex_readers : Sql.readers t' = Sql.readers t;
  ex_doors : Sql.reader_doors t' = Sql.reader_doors t;
}.

#[global] Instance grown_preorder : PreOrder grown.
Proof.
  split; [by intros t|]. intros t1 t2 t3 [] []. split; [by etransitivity|auto].
Qed.

#[global] Instance extended_preorder : PreOrder extended.
Proof.
  split; [by intros t|]. intros t1 t2 t3 [] []. split; [by etransitivity|congruence..].
Qed.

End DurableSpec.

(** What it takes for the chain to be kept: it is switched on, and the query for
    the last hash does not fail (see [failed_query_forks_log] for what happens when
    it does). *)
Definition chain_kept (D : Type) `{Sqlite D} (chain : bool) : Prop := LogReadable D /\ chain = true.

(** The statements that only read, set up the connection or create what is
    missing; and with them those that change the policy. *)
Definition harmless (s : Sql.stmt) : bool :=
  match s with
  | Sql.JournalMode | Sql.BusyTimeout | Sql.ForeignKeysOn
  | Sql.CreateCards | Sql.CreateDoorRoles | Sql.CreateReaders | Sql.CreateReaderDoors
  | Sql.CreateAuditLog | Sql.CreateAuditTsIndex | Sql.CreateAuditReaderIndex | Sql.CreateAnchor
  | Sql.InitAnchor
  | Sql.RoleForCard | Sql.IsAllowed | Sql.KeyVersion | Sql.IsReaderAllowedDoor
  | Sql.ListReaders | Sql.ListReaderDoorsAll | Sql.ListReaderDoorsOne
  | Sql.ListDoorRolesAll | Sql.ListDoorRolesOne | Sql.ListCards
  | Sql.LastEntryHash | Sql.SelectChain | Sql.SelectAnchor | Sql.ListAudit => true
  | _ => false
  end.

Definition of_policy (s : Sql.stmt) : bool :=
  match s with
  | Sql.UpsertCard | Sql.AllowRole | Sql.UpsertReader | Sql.AllowDoor
  | Sql.DeleteReader | Sql.RevokeDoor | Sql.RevokeRole | Sql.DeleteCard => true
  | _ => false
  end.

End DurableSpec.

(** A statement touches the tables it names only, whatever texts are bound to it
    (the meaning of a text with an embedded NUL is not specified). *)
Class SqliteConfined (D : Type) `{SqliteLaws D} : Prop :=
  run_confined s ps d : DurableSpec.of_policy s = true ->
    let t := ChainFacts.committed (content d) in
    let t' := ChainFacts.committed (content (sqlite_run (Sql.text s) ps d).1) in
    Sql.audit_log t' = Sql.audit_log t /\ Sql.audit_anchor t' = Sql.audit_anchor t.

(** ** Lemmas *)

Module DurableFacts.
Import Helpers SqliteAuditLog ChainSpec ChainFacts DurableSpec.

Section Meanings.
Context `{SodiumLaws} (kept : Prop) (key : bytes).

(** The same log and anchor. *)
Lemma same_log_grown t t' :
  Sql.audit_log t' = Sql.audit_log t -> Sql.audit_anchor t' = Sql.audit_anchor t -> grown kept key t t'.
Proof. intros El Ea. split; [by rewrite El|]. unfold chain_ok. by rewrite El, Ea. Qed.

Lemma harmless_extended s ps db rows db' :
  harmless s = true -> Sql.meaning s ps db = Some (rows, db') ->
  extended kept key (committed db) (committed db').
Proof.
  destruct s; intros Hs Hm; try done; clear Hs; cbn in Hm; unfold Sql.answer, Sql.change in Hm;
    repeat case_match; simplify_eq; try done.
  unfold committed. cbn. destruct (Sql.saved db); [done|]. cbn. split; try done. split; [done|].
  intros _ [_ [ts Ea]]. congruence.
Qed.

Lemma policy_log s ps db rows db' :
  of_policy s = true -> Sql.meaning s ps db = Some (rows, db') ->
  Sql.audit_log (committed db') = Sql.audit_log (committed db) /\
  Sql.audit_anchor (committed db') = Sql.audit_anchor (committed db).
Proof.
  destruct s; intros Hs Hm; try done; clear Hs; cbn in Hm; unfold Sql.answer, Sql.change in Hm;
    repeat case_match; simplify_eq; unfold committed; cbn; by destruct (Sql.saved db).
Qed.

End Meanings.

Lemma anchor_clean h ts : Sql.clean [VBlob h; bind_int64 ts].
Proof. repeat apply SqliteFacts.clean_cons; done || apply SqliteFacts.clean_nil. Qed.

Section DurableFacts.
Context {D F : Type} `{SqliteLaws D, Files F, !SqliteFiles F D, !FilesLaws F D}.

(** From one state of a connection to a later one. *)
Record moved (P : relation Sql.tables) (d d' : D) : Prop := {
  mv_path : conn_path d' = conn_path d;
  mv_tables : P (committed (content d)) (committed (content d'));
}.

#[global] Instance moved_preorder P `{!PreOrder P} : PreOrder (moved P).
Proof.
  split; [by intros d|]. intros d1 d2 d3 [] []. split; [congruence|by etransitivity].
Qed.

Lemma moved_mono (P Q : relation Sql.tables) d d' :
  (forall t t', P t t' -> Q t t') -> moved P d d' -> moved Q d d'.
Proof. intros HPQ []. split; auto. Qed.

Abbreviation calm P m := (always (fun _ : D => True) (moved P) m).

Lemma failed_same (d d' : D) :
  content d' = content d \/ content d' = Sql.rolled_back (content d) ->
  committed (content d') = committed (content d).
Proof. by apply failed_committed. Qed.

Section Calm.
Context (P : relation Sql.tables) `{!PreOrder P}.

(** A computation that leaves the connection as it is. *)
Lemma calm_still {A} (m : M D A) : (forall d, (m d).1 = d) -> calm P m.
Proof. intros Hm d _. rewrite Hm. by split_and!. Qed.

Lemma calm_prepare msg sql : calm P (prepare_or (D := D) msg sql).
Proof. apply calm_still. intros d. unfold prepare_or. by destruct (sqlite_prepare sql d). Qed.

Lemma calm_exec s :
  (forall db rows db', Sql.meaning s [] db = Some (rows, db') -> P (committed db) (committed db')) ->
  calm P (execOrThrow (D := D) (Sql.text s)).
Proof.
  intros Hm d _. unfold execOrThrow. pose proof (exec_path (Sql.text s) d) as Hp.
  destruct (sqlite_exec (Sql.text s) d) as [d' [err|]] eqn:E; cbn in *; split_and!; try done;
    (split; [done|]).
  - by rewrite (failed_same d d') by by eapply exec_failed.
  - apply exec_ok in E as [rows E]. by eapply Hm.
Qed.

(** A statement that is run: [ps] is clean, or the statement is known to keep
    [P] whatever is bound. *)
Lemma calm_run s ps :
  (forall d, P (committed (content d)) (committed (content (sqlite_run (Sql.text s) ps d).1))) ->
  calm P (run (D := D) (Sql.text s) ps).
Proof.
  intros Hm d _. unfold run. pose proof (run_path (Sql.text s) ps d) as Hp. specialize (Hm d).
  destruct (sqlite_run (Sql.text s) ps d) as [d' r]. cbn in *. by split_and!.
Qed.

Lemma run_clean s ps (d : D) :
  Sql.clean ps ->
  (forall db rows db', Sql.meaning s ps db = Some (rows, db') -> P (committed db) (committed db')) ->
  P (committed (content d)) (committed (content (sqlite_run (Sql.text s) ps d).1)).
Proof.
  intros Hc Hm. destruct (sqlite_run (Sql.text s) ps d) as [d' [rows rc]] eqn:E. cbn.
  destruct (decide (rc = SQLITE_DONE)) as [->|Hn].
  - apply run_done in E; [|done]. by eapply Hm.
  - rewrite (failed_same d d'); [done|]. by eapply run_failed.
Qed.

Lemma calm_step_done s ps msg :
  calm P (run (D := D) (Sql.text s) ps) -> calm P (step_done (D := D) (Sql.text s) ps msg).
Proof.
  intros Hr. unfold step_done. keeps_by ltac:(exact Hr).
Qed.

End Calm.
(** *** A transaction

    Inside, the tables the connection works on may differ from those on disk, and
    [Commit] puts them there. So a statement has to keep [P] between what a rollback
    would go back to and the tables of the moment; then, however the transaction
    ends, it has done [P] to the disk. *)
Section Transaction.
Context (P : relation Sql.tables) `{!PreOrder P}.

Definition onto (d d' : D) : Prop := P (committed (content d)) (committed (content d')).

#[global] Instance onto_preorder : PreOrder onto.
Proof. split; [by intros d; unfold onto|]. intros d1 d2 d3. unfold onto. by etransitivity. Qed.

Definition ahead (d : D) : Prop := forall t, Sql.saved (content d) = Some t -> P t (Sql.current (content d)).

(** A statement that leaves the transaction open, or is outside one. *)
Definition inside_tx (s : Sql.stmt) (ps : list value) : Prop := forall db rows db',
  Sql.meaning s ps db = Some (rows, db') ->
  Sql.saved db' = Sql.saved db /\ P (Sql.current db) (Sql.current db').

Abbreviation tx m := (always ahead onto m).

Lemma failed_ahead (d d' : D) :
  content d' = content d \/ content d' = Sql.rolled_back (content d) -> ahead d -> ahead d' /\ onto d d'.
Proof.
  intros Hf Hd. unfold onto. rewrite (failed_same d d' Hf). split; [|done].
  unfold ahead. destruct Hf as [->| ->]; [done|]. unfold Sql.rolled_back.
  destruct (Sql.saved (content d)) as [old|] eqn:E; cbn; [done|]. by rewrite E.
Qed.

Lemma kept_prepare msg s : tx (prepare_or (D := D) msg s).
Proof. intros d Hd. unfold prepare_or. by destruct (sqlite_prepare s d). Qed.

Lemma tx_run s ps : Sql.clean ps -> inside_tx s ps -> tx (run (D := D) (Sql.text s) ps).
Proof.
  intros Hc Hs d Hd. unfold run. destruct (sqlite_run (Sql.text s) ps d) as [d' [rows rc]] eqn:E. cbn.
  enough (ahead d' /\ onto d d') as [? ?] by done. destruct (decide (rc = SQLITE_DONE)) as [->|Hn].
  - apply run_done in E as [Es Hp]%Hs; [|done]. unfold ahead, onto, committed. rewrite Es.
    destruct (Sql.saved (content d)) as [old|] eqn:Eo; cbn; [|done]. split; [|done].
    intros ? [= <-]. etransitivity; [by apply Hd|done].
  - apply failed_ahead; [|done]. by eapply run_failed.
Qed.

Lemma kept_step_done s ps msg : Sql.clean ps -> inside_tx s ps -> tx (step_done (D := D) (Sql.text s) ps msg).
Proof. intros Hc Hs. unfold step_done. keeps_by ltac:(by apply tx_run). Qed.

Lemma tx_end s : s = Sql.Commit \/ s = Sql.Rollback -> tx (execOrThrow (D := D) (Sql.text s)).
Proof.
  intros Hs d Hd. unfold execOrThrow. destruct (sqlite_exec (Sql.text s) d) as [d' [err|]] eqn:E; cbn;
    enough (ahead d' /\ onto d d') as [? ?] by done.
  - apply failed_ahead; [|done]. by eapply exec_failed.
  - apply exec_ok in E as [rows E]. unfold ahead, onto, committed.
    destruct Hs as [-> | ->]; cbn in E; destruct (Sql.saved (content d)) as [old|] eqn:Eo; try done;
      injection E as _ <-; cbn; split; try done. by apply Hd.
Qed.

(** An append, whatever fails. *)
Lemma append_onto `{SodiumLaws} l e (d : D) :
  (forall prev entry, inside_tx Sql.InsertAudit (entry_values e prev entry)) ->
  (forall h ts, inside_tx Sql.UpdateAnchor [VBlob h; bind_int64 ts]) ->
  onto d (append l e d).1.
Proof.
  intros Hi Ha. assert (inside_tx Sql.LastEntryHash []) as Hq by (intros db rows db' [= <- <-]; done).
  unfold append. unfold mbind at 1, M_bind at 1.
  assert (forall m : M D unit, tx m ->
    onto d (match execOrThrow (Sql.text Sql.Begin) d with
            | (d1, Ok _) => m d1 | (d1, Throw ex) => (d1, Throw ex) | (d1, Fault) => (d1, Fault) end).1) as Hm.
  { intros m Hm. unfold execOrThrow. destruct (sqlite_exec _ d) as [d1 [err|]] eqn:E; cbn.
    - unfold onto. by rewrite (failed_same d d1) by by eapply exec_failed.
    - apply exec_ok in E as [rows E]. cbn in E. destruct (Sql.saved (content d)) as [old|] eqn:Es; [done|].
      injection E as _ E. etransitivity; [|apply Hm]; unfold onto, ahead, committed.
      + by rewrite Es, <- E.
      + rewrite <- E. by intros t [= <-]. }
  apply (Hm (try_catch _ _)). unfold insertAuditEntry, updateAnchor, getLastEntryHash, prepareOrThrow.
  keeps_by ltac:(first [apply kept_prepare | apply tx_end; tauto
    | apply kept_step_done; [apply entry_clean|apply Hi]
    | apply kept_step_done; [apply anchor_clean|apply Ha] | apply tx_run; [auto with sqlite|exact Hq]]).
Qed.

End Transaction.

(** *** The statements of the program *)

Section Statements.
Context `{SodiumLaws} (kept : Prop) (key : bytes).

Abbreviation quiet m := (calm (extended kept key) m).

Lemma quiet_exec s : harmless s = true -> quiet (execOrThrow (D := D) (Sql.text s)).
Proof. intros Hs. apply calm_exec; [apply _|]. intros db rows db'. by apply harmless_extended. Qed.

Lemma quiet_run s ps : harmless s = true -> Sql.clean ps -> quiet (run (D := D) (Sql.text s) ps).
Proof.
  intros Hs Hc. apply calm_run. intros d. apply (run_clean (extended kept key)); [done|].
  intros db rows db'. by apply harmless_extended.
Qed.

Lemma quiet_prepare msg s : quiet (prepare_or (D := D) msg s).
Proof. apply calm_prepare, _. Qed.

Ltac quiet := keeps_by ltac:(first
  [ apply quiet_prepare
  | apply quiet_exec; reflexivity
  | apply quiet_run; [reflexivity|eauto with sqlite] ]).

Lemma quiet_open : quiet (SqliteAccessStore.SqliteAccessStore_open (D := D)).
Proof. unfold SqliteAccessStore.SqliteAccessStore_open. quiet. Qed.

Lemma quiet_schema : quiet (SqliteAccessStore.initSchema (D := D)).
Proof. unfold SqliteAccessStore.initSchema. quiet. Qed.

Lemma quiet_log_new k chain : quiet (SqliteAuditLog_new (D := D) true k chain).
Proof. unfold SqliteAuditLog_new, initSchema. cbn [negb]. quiet. Qed.

(** The role is a text without NUL. *)
Lemma quiet_role c : cstr c = c ->
  keeps (fun _ : D => True) (moved (extended kept key)) (SqliteAccessStore.roleForCardHmac c)
    (fun role => forall r, role = Some r -> cstr r = r).
Proof.
  intros Hc. unfold SqliteAccessStore.roleForCardHmac, SqliteAccessStore.prepare.
  apply always_bind; [apply _|apply quiet_prepare|]. intros _.
  apply always_bind; [apply _|apply quiet_run; [reflexivity|eauto with sqlite]|]. intros r.
  apply keeps_ret; [apply _|]. intros role. destruct r.1 as [|row rows]; [done|]. intros [= <-].
  unfold text_of. destruct (column_text _); [apply cstr_cstr|done].
Qed.

Lemma quiet_allowed d r : cstr r = r -> quiet (SqliteAccessStore.isAllowed (D := D) d r).
Proof. intros Hr. unfold SqliteAccessStore.isAllowed, SqliteAccessStore.prepare. quiet. Qed.

(** The version fits its type. *)
Lemma quiet_version r :
  keeps (fun _ : D => True) (moved (extended kept key))
    (SqliteAccessStore.currentKeyVersionForReader r) is_u32.
Proof.
  unfold SqliteAccessStore.currentKeyVersionForReader, SqliteAccessStore.prepare.
  apply always_bind; [apply _|apply quiet_prepare|]. intros _.
  apply always_bind; [apply _|apply quiet_run; [reflexivity|eauto with sqlite]|]. intros x.
  apply keeps_ret; [apply _|]. destruct x.1; [by compute|]. case_decide; [by compute|apply u32_range].
Qed.

Lemma quiet_bound r d : quiet (SqliteAccessStore.isReaderAllowedDoor (D := D) r d).
Proof. unfold SqliteAccessStore.isReaderAllowedDoor, SqliteAccessStore.prepare. quiet. Qed.

Lemma quiet_select {A} s ps (read : row -> A) :
  harmless s = true -> Sql.clean ps -> quiet (SqliteAccessStore.select (D := D) s ps read).
Proof.
  intros Hs Hc. unfold SqliteAccessStore.select, prepareOrThrow.
  keeps_by ltac:(first [apply quiet_prepare|by apply quiet_run]).
Qed.

Lemma quiet_list_readers : quiet (SqliteAccessStore.listReaders (D := D)).
Proof. apply quiet_select; eauto with sqlite. Qed.

Lemma quiet_list_doors r : quiet (SqliteAccessStore.listReaderDoors (D := D) r).
Proof. apply quiet_select; repeat case_decide; eauto with sqlite. Qed.

Lemma quiet_list_roles d : quiet (SqliteAccessStore.listDoorRoles (D := D) d).
Proof. apply quiet_select; repeat case_decide; eauto with sqlite. Qed.

Lemma quiet_list_cards n m : quiet (SqliteAccessStore.listCards (D := D) n m).
Proof. apply quiet_select; eauto with sqlite. Qed.

Lemma quiet_verify k : quiet (AuditVerify.verifyAuditChain (D := D) true k).
Proof.
  unfold AuditVerify.verifyAuditChain, AuditVerify.verifyAnchor, prepareOrThrow. cbn [negb]. quiet.
Qed.

(** An update of the policy, whatever texts it is given. *)
Lemma grown_update `{!SqliteConfined D} u :
  calm (grown kept key) (StoreSpec.run_update (D := D) u).
Proof.
  assert (forall s ps, of_policy s = true -> calm (grown kept key) (run (D := D) (Sql.text s) ps))
    as Hrun.
  { intros s ps Hs. apply calm_run. intros d. destruct (run_confined s ps d Hs) as [El Ea].
    by apply same_log_grown. }
  assert (forall s ps msg, of_policy s = true ->
    calm (grown kept key) (step_done (D := D) (Sql.text s) ps msg)) as Hstep.
  { intros s ps msg Hs. apply calm_step_done; [apply _|]. by apply Hrun. }
  destruct u; cbn [StoreSpec.run_update];
    unfold SqliteAccessStore.upsertCardHmac, SqliteAccessStore.deleteCardHmac,
      SqliteAccessStore.allowRole, SqliteAccessStore.revokeRole, SqliteAccessStore.upsertReader,
      SqliteAccessStore.deleteReader, SqliteAccessStore.allowDoorForReader,
      SqliteAccessStore.revokeDoorForReader, SqliteAccessStore.prepare, prepareOrThrow;
    keeps_by ltac:(first [apply calm_prepare, _|by apply Hstep]).
Qed.

(** An append stays on its file. *)
Lemma append_path l e (d : D) : conn_path (append l e d).1 = conn_path d.
Proof.
  assert (PreOrder (fun _ _ : Sql.tables => True)) as Hp by (split; by intros ?).
  assert (calm (fun _ _ => True) (append (D := D) l e)) as Hc; [|apply (Hc d I)].
  unfold append, insertAuditEntry, updateAnchor, getLastEntryHash, prepareOrThrow.
  keeps_by ltac:(first [apply calm_prepare, Hp|by apply calm_exec|by apply calm_run
    |apply calm_step_done; [apply Hp|by apply calm_run]]).
Qed.

End Statements.

(** It extends the committed log by the event, or leaves it, whatever fails; and
    keeps the chain if the query for the last hash does not fail. *)
Lemma append_extends `{SodiumLaws} (l : SqliteAuditLog) e (d : D) :
  event_ok e -> onto (extended False []) d (append l e d).1.
Proof.
  intros He. apply (append_onto _).
  - intros prev entry db rows db' Hm. rewrite insert_meaning in Hm by done.
    case_decide; [|done]. injection Hm as _ <-. split; [done|]. split; try done. split; [by eexists|done].
  - intros h ts db rows db' Hm. cbn in Hm. unfold Sql.answer, Sql.change in Hm.
    case_match; simplify_eq; [|done]. split; [done|]. by split.
Qed.

Lemma quiet_append `{SodiumLaws} chain key e :
  event_ok e -> event_fits e ->
  calm (extended (chain_kept D chain) key) (append (D := D) (mkSqliteAuditLog key chain) e).
Proof.
  intros He Hf d _. set (l := mkSqliteAuditLog key chain).
  pose proof (append_extends l e d He) as [[Hl _] Hc Hr Hrd Hdo].
  pose proof (append_path l e d) as Hp.
  destruct (append l e d) as [d' r] eqn:E. cbn [fst snd] in *. split_and!; [done| |done].
  split; [done|]. split; try done. split; [done|]. intros [Hrd' ->] Hok. clear Hl Hc Hr Hrd Hdo.
  destruct (append_committed l e d d' r log_readable E) as [->| ->]; [|done].
  pose proof (append_began l e d d' E) as Hs.
  pose proof (wp_ok False _ _ _ _ _ (wp_append False (False_ind _) l e d He (False_ind _)) E)
    as (prev & entry & i & a & Hd & Happ).
  unfold committed in Hok |- *. rewrite Hs in Hok. rewrite Hd in Happ |- *.
  cbn [Sql.saved Sql.current default] in *.
  rewrite Happ; [|done|destruct Hok as (_ & ts & ->); by eexists].
  subst l. by apply appended_chain_ok.
Qed.

End DurableFacts.
End DurableFacts.

(** ** A database on which one statement may fail *)

(** Like [SqliteReliable], for all statements but one. *)
Class SqliteReliableBut (D : Type) `{SqliteLaws D} (bad : Sql.stmt) : Prop := {
  prepare_but s d : sqlite_prepare (Sql.text s) d = true;
  run_but s ps d rows db :
    s <> bad -> Sql.clean ps -> Sql.meaning s ps (content d) = Some (rows, db) ->
    exists d', sqlite_run (Sql.text s) ps d = (d', (rows, SQLITE_DONE));
  exec_but s d rows db :
    s <> bad -> Sql.meaning s [] (content d) = Some (rows, db) ->
    exists d', sqlite_exec (Sql.text s) d = (d', None);
}.

Module ForkFacts.
Import Helpers SqliteAuditLog ChainSpec ChainFacts DurableFacts.

Section ForkFacts.
Context {D : Type} (bad : Sql.stmt) `{SodiumLaws, SqliteReliableBut D bad}.

Lemma exec_does s (d : D) rows db :
  s <> bad -> Sql.meaning s [] (content d) = Some (rows, db) ->
  exists d', execOrThrow (Sql.text s) d = (d', Ok tt) /\ content d' = db.
Proof.
  intros Hs Hm. destruct (exec_but s d rows db Hs Hm) as [d' E]. exists d'. unfold execOrThrow. rewrite E.
  split; [done|]. apply exec_ok in E as [rows' E]. congruence.
Qed.

Lemma step_does s ps msg (d : D) db :
  s <> bad -> Sql.clean ps -> Sql.meaning s ps (content d) = Some ([], db) ->
  exists d', (prepareOrThrow (Sql.text s) ;; step_done (Sql.text s) ps msg) d = (d', Ok tt) /\ content d' = db.
Proof.
  intros Hs Hc Hm. destruct (run_but s ps d [] db Hs Hc Hm) as [d' E]. exists d'.
  unfold prepareOrThrow, prepare_or, step_done, run. cbv [mbind M_bind mret M_ret]. rewrite prepare_but, E. cbn.
  split; [done|]. apply run_done in E; [|done]. congruence.
Qed.

Lemma anchor_means h ts (d : D) :
  exists a, Sql.meaning Sql.UpdateAnchor [VBlob h; bind_int64 ts] (content d)
    = Some ([], Sql.mkDatabase (Sql.set_anchor a (Sql.current (content d))) (Sql.saved (content d))
        (Sql.foreign_keys (content d))).
Proof.
  cbn. unfold Sql.change, Sql.answer. destruct (Sql.audit_anchor (Sql.current (content d))) eqn:E; [by eexists|].
  exists None. unfold Sql.set_anchor. rewrite <- E. by destruct (content d) as [[]].
Qed.

End ForkFacts.

(** An append for which the query for the last hash delivers nothing: it returns,
    and its entry continues the all-zero hash. *)
Lemma fork_run {D : Type} `{SodiumLaws, SqliteReliableBut D Sql.LastEntryHash} (key : bytes)
    (e : Audit.AuditEvent) (d : D) :
  let t := Sql.current (content d) in
  event_ok e -> Sql.saved (content d) = None -> Sql.audit_last_id t < Sql.max_rowid ->
  let d1 := (sqlite_exec (Sql.text Sql.Begin) d).1 in
  let q := sqlite_run (Sql.text Sql.LastEntryHash) [] d1 in
  q.2.1 = [] -> content q.1 = content d1 ->
  exists d' i a entry, append (mkSqliteAuditLog key true) e d = (d', Ok tt) /\
    content d' = Sql.mkDatabase (Sql.set_anchor a
      (Sql.set_audit (Sql.audit_log t ++ [new_row i e zero_hash entry]) i t)) None
      (Sql.foreign_keys (content d)).
Proof.
  intros t He Hs Hid d1 q Hq Hc. unfold append. cbn [_chainEnabled negb].
  destruct (exec_does Sql.LastEntryHash Sql.Begin d [] (Sql.mkDatabase t (Some t) (Sql.foreign_keys (content d))))
    as (d1' & E1 & C1); [done|cbn; by rewrite Hs|].
  assert (d1 = d1') as E1'.
  { subst d1. revert E1. unfold execOrThrow. destruct (sqlite_exec _ d) as [x [?|]]; by intros [= ->]. }
  rewrite (M_bind_ok _ _ _ _ _ E1), <- E1'. rewrite <- E1' in C1. clear E1 E1' d1'. unfold try_catch.
  assert (getLastEntryHash d1 = (q.1, Ok zero_hash)) as E2.
  { unfold getLastEntryHash, prepareOrThrow, prepare_or, run. cbv [mbind M_bind mret M_ret].
    rewrite prepare_but. fold q. destruct q as [d2 [rows rc]]. cbn in *. by rewrite Hq. }
  rewrite (M_bind_ok _ _ _ _ _ E2). rewrite <- Hc in C1. cbv zeta.
  set (entry := computeEntryHash _ _ _).
  pose proof (insert_meaning e zero_hash entry (content q.1) He) as Hm. cbv zeta in Hm.
  rewrite C1 in Hm. cbn [Sql.current] in Hm. rewrite decide_True in Hm by done.
  destruct (step_does Sql.LastEntryHash Sql.InsertAudit (entry_values e zero_hash entry)
    "SqliteAuditLog: insert failed" q.1 _ ltac:(done) (entry_clean _ _ _) ltac:(by rewrite C1)) as (d3 & E3 & C3).
  change (insertAuditEntry e zero_hash entry q.1 = (d3, Ok tt)) in E3. rewrite (M_bind_ok _ _ _ _ _ E3).
  destruct (anchor_means entry (Audit.ts_unix_ms e) d3) as [a Ha].
  destruct (step_does Sql.LastEntryHash Sql.UpdateAnchor [VBlob entry; bind_int64 (Audit.ts_unix_ms e)]
    "SqliteAuditLog: anchor update failed" d3 _ ltac:(done) (anchor_clean _ _) Ha) as (d4 & E4 & C4).
  change (updateAnchor entry (Audit.ts_unix_ms e) d3 = (d4, Ok tt)) in E4. rewrite (M_bind_ok _ _ _ _ _ E4).
  rewrite C3 in C4. cbn in C4.
  assert (Sql.meaning Sql.Commit [] (content d4)
    = Some ([], Sql.mkDatabase (Sql.current (content d4)) None (Sql.foreign_keys (content d)))) as Hcm
    by (rewrite C4; reflexivity).
  destruct (exec_does Sql.LastEntryHash Sql.Commit d4 _ _ ltac:(done) Hcm) as (d5 & E5 & C5).
  rewrite E5. exists d5, (Sql.audit_last_id t + 1), a, entry. split; [done|]. by rewrite C5, C4.
Qed.

End ForkFacts.

(** ** A database some of whose queries fail *)

Module Flaky.
Import Sql.

#[local] Existing Instances MemDb.sqlite MemDb.laws.

(** [SQLITE_BUSY] and no row for the statements in [fails]; everything else is as
    in [MemDb]. *)
Record flaky (fails : string -> list value -> bool) := mkFlaky { inner : database }.
Arguments mkFlaky {fails} _.
Arguments inner {fails} _.

Section Flaky.
Context {fails : string -> list value -> bool}.

Definition SQLITE_BUSY : Z := 5.

Definition flaky_run (sql : string) (ps : list value) (d : flaky fails) :
    flaky fails * (list row * Z) :=
  if fails sql ps then (d, ([], SQLITE_BUSY))
  else match MemDb.run sql ps (inner d) with (db, r) => (mkFlaky db, r) end.

#[export] Instance flaky_sqlite : Sqlite (flaky fails) := {|
  sqlite_exec sql d :=
    match sqlite_exec sql (inner d) with (db, r) => (mkFlaky db, r) end;
  sqlite_prepare sql d := sqlite_prepare sql (inner d);
  sqlite_run := flaky_run;
  column_int := column_int (D := database);
  column_int64 := column_int64 (D := database);
  column_text := column_text (D := database);
  column_blob := column_blob (D := database);
|}.

#[export] Instance flaky_laws : SqliteLaws (flaky fails).
Proof.
  refine {| content d := inner d |}; try apply MemDb.laws.
  - intros s ps d d' rows. cbn [sqlite_run flaky_sqlite]. unfold flaky_run.
    destruct (fails _ _); [done|]. destruct (MemDb.run _ _ _) as [db r] eqn:E.
    intros [= <- ->] Hc. exact (MemDb.laws.(run_done) s ps (inner d) db rows E Hc).
  - intros s ps d d' rows rc. cbn [sqlite_run flaky_sqlite]. unfold flaky_run.
    destruct (fails _ _); [intros [= <- _ _]; by left|].
    destruct (MemDb.run _ _ _) as [db r] eqn:E. intros [= <- ->] Hn Hc.
    exact (MemDb.laws.(run_failed) s ps (inner d) db rows rc E Hn Hc).
  - intros s d d'. cbn [sqlite_exec flaky_sqlite].
    destruct (sqlite_exec (text s) (inner d)) as [db r] eqn:E. intros [= <- ->].
    exact (MemDb.laws.(exec_ok) s (inner d) db E).
  - intros s d d' err. cbn [sqlite_exec flaky_sqlite].
    destruct (sqlite_exec (text s) (inner d)) as [db r] eqn:E. intros [= <- ->].
    exact (MemDb.laws.(exec_failed) s (inner d) db err E).
Defined.

End Flaky.
#[export] Existing Instances flaky_sqlite flaky_laws.

(** A statement that fails, or answers nothing, and nothing else. *)
Lemma flaky_but bad : SqliteReliableBut (flaky (fun sql _ => String.eqb sql (text bad))) bad.
Proof.
  assert (forall s, s <> bad -> String.eqb (text s) (text bad) = false) as Ht.
  { intros s Hs. apply String.eqb_neq. intros E. apply Hs. apply (f_equal (MemDb.parse_in MemDb.statements)) in E.
    rewrite !MemDb.parse_text in E. congruence. }
  split.
  - intros s d. exact (MemDb.reliable.(prepare_reliable) s (inner d)).
  - intros s ps d rows db Hs Hc Hm. cbn [sqlite_run flaky_sqlite]. unfold flaky_run. rewrite (Ht s Hs).
    destruct (MemDb.reliable.(run_reliable) s ps (inner d) rows db Hc Hm) as [d' E].
    exists (mkFlaky d'). cbn [sqlite_run MemDb.sqlite] in E. by rewrite E.
  - intros s d rows db Hs Hm. cbn [sqlite_exec flaky_sqlite].
    destruct (MemDb.reliable.(exec_reliable) s (inner d) rows db Hm) as [d' E].
    exists (mkFlaky d'). by rewrite E.
Qed.
End Flaky.

(** ** Properties *)

Module DurableProps.
Import Helpers SqliteAuditLog ChainSpec ChainFacts DurableSpec DurableFacts AuditProps ToySodium.

(** C29: an unchecked error forks the log. On a database on which only the query for
    the last hash fails (it is busy then, say), and that has room for an entry, on a
    log whose last hash is not zero (so not an empty one): the append returns all the same, and has committed the entry of its event; that
    entry does not continue the chain, and from then on the log no longer
    verifies. *)
Theorem failed_query_forks_log {D : Type} `{SodiumLaws, SqliteReliableBut D Sql.LastEntryHash}
    (key : bytes) (e : Audit.AuditEvent) (d : D) :
  let t := Sql.current (content d) in
  event_ok e -> Sql.saved (content d) = None -> Sql.audit_last_id t < Sql.max_rowid ->
  last_hash zero_hash (Sql.audit_log t) <> zero_hash ->
  let d1 := (sqlite_exec (Sql.text Sql.Begin) d).1 in
  let q := sqlite_run (Sql.text Sql.LastEntryHash) [] d1 in
  q.2.1 = [] -> content q.1 = content d1 ->
  exists d' row, append (mkSqliteAuditLog key true) e d = (d', Ok tt) /\
    Sql.audit_log (committed (content d')) = Sql.audit_log t ++ [row] /\ row_event row = e /\
    ~ chain_ok key (committed (content d')).
Proof.
  intros t He Hs Hid Hl d1 q Hq Hc. destruct (ForkFacts.fork_run key e d He Hs Hid Hq Hc)
    as (d' & i & a & entry & E & C). exists d', (new_row i e zero_hash entry). split; [done|].
  unfold committed. rewrite C. cbn [Sql.saved Sql.current default Sql.audit_log Sql.set_anchor Sql.set_audit].
  split_and!; [done|by apply new_row_event|]. intros [Hch _]. apply chained_snoc in Hch as (_ & Hp & _). by apply Hl.
Qed.

Import Flaky.

(** The query for the last hash fails. *)
Definition no_last_hash (sql : string) (ps : list value) : bool :=
  String.eqb sql (Sql.text Sql.LastEntryHash).

#[local] Instance no_last_hash_but : SqliteReliableBut (flaky no_last_hash) Sql.LastEntryHash :=
  flaky_but Sql.LastEntryHash.

Definition flaky_entry : flaky no_last_hash := mkFlaky one_entry.

Lemma failed_query_forks_log_witness :
  exists d' row, append test_log other_event flaky_entry = (d', Ok tt) /\
    Sql.audit_log (committed (content d')) = Sql.audit_log (Sql.current one_entry) ++ [row] /\
    row_event row = other_event /\ ~ chain_ok (_key test_log) (committed (content d')).
Proof.
  refine (failed_query_forks_log (_key test_log) other_event flaky_entry _ _ _ _ _ _).
  - split; by_decision.
  - reflexivity.
  - by_decision.
  - by_decision.
  - vm_compute. reflexivity.
  - vm_compute. reflexivity.
Defined.

End DurableProps.
