(* ===== verification/FailClosed.v ===== *)
(** What the engine grants when the database fails. A query that goes wrong
    looks to the program like one that found nothing, so the store does not keep
    its contract ([AccessStoreSpec]); it keeps a weaker one, which is enough to
    say that nothing is granted the policy has no ground for. *)
From Stdlib Require Import ZArith Lia.
From stdpp Require Import base option list gmap strings.
From S2P Require Import Prelude LittleEndian Wire Replay Crypto Keys Events Detector Access FrameHandling Engine Sqlite SqliteStore AuditLog Durable.
Local Open Scope Z_scope.

(** ** The weak contract of store and log

    The store holds a policy, and goes on holding it whatever fails; an answer is
    the one of the policy, or the one that stands for "none". Between two states
    with [noted J], the log has gained entries only, and [J] of those that say
    "allow". *)
Class AccessStoreSound (W : Type) `{IAccessStore W, !IAuditLog W} := {
  holds : PolicyView -> W -> Prop;
  noted : (Audit.AuditEvent -> Prop) -> relation W;
  noted_preorder J : PreOrder (noted J);
  role_sound v J c : cstr c = c ->
    keeps (holds v) (noted J) (roleForCardHmac c)
      (fun r => forall role, r = Some role -> view_role v c = Some role /\ cstr role = role);
  allowed_sound v J d r : cstr r = r ->
    keeps (holds v) (noted J) (isAllowed d r) (fun b => b = true -> view_allowed v d r = true);
  version_sound v J r :
    keeps (holds v) (noted J) (currentKeyVersionForReader r)
      (fun n => is_u32 n /\ (n <> 0 -> n = view_key_version v r));
  bound_sound v J r d :
    keeps (holds v) (noted J) (isReaderAllowedDoor r d) (fun b => b = true -> view_bound v r d = true);
  append_sound v J e : event_ok e -> (Audit.allow e = true -> J e) ->
    always (holds v) (noted J) (append e);
}.
#[export] Existing Instance noted_preorder.

Module FailClosedSpec.
Import Engine EngineSpec.

Section FailClosedSpec.
Context `{SodiumLaws, Env, Json} {W : Type} `{IAccessStore W}.

(** The policy has ground to grant the bytes [b]: they are the frame [f], which
    the key of its reader opens to the request [req]; reader, binding and key
    version are in order; and the card has, under a pepper version in use, a role
    that may open the door. *)
Record permitted (e : DecisionEngine) (v : PolicyView) (b : bytes) (f : Frame.Frame)
    (req : Payload.AccessRequest) : Prop := {
  pm_parsed : FrameParser.parseFrame b (FrameHandler.maxCtLen (_frameHandlerCfg e)) = Ok f;
  pm_opened : exists pt, HandlerSpec.opened (handler_of e) f = Some pt /\
    Payload.parseAccessRequestJson (string_of_bytes pt) = Ok req;
  pm_reader : view_key_version v (Packet.reader_id (Frame.header f)) <> 0;
  pm_version : HandlerSpec.version_accepted
    (FrameHandler.allowPreviousKeyVersion (_frameHandlerCfg e)) (Packet.key_version (Frame.header f))
    (view_key_version v (Packet.reader_id (Frame.header f))) = true;
  pm_bound : FrameHandler.enforceReaderDoorBinding (_frameHandlerCfg e) = true ->
    view_bound v (Packet.reader_id (Frame.header f)) (Packet.door_id (Frame.header f)) = true;
  pm_action : Payload.action req = "open"%string;
  pm_role : exists kv role,
    kv ∈ pepper_versions (_frameHandlerCfg e)
      (view_key_version v (Packet.reader_id (Frame.header f))) /\
    view_role v (card_hash (_keyManager e) kv (Payload.cardId req)) = Some role /\
    view_allowed v (Packet.door_id (Frame.header f)) role = true;
}.

(** The entry of the audit log for such a grant: the numbers of the frame, and the
    hash under which the card has its role. *)
Definition justified (e : DecisionEngine) (v : PolicyView) (b : bytes) (ev : Audit.AuditEvent) : Prop :=
  exists f req kv, permitted e v b f req /\
    ev = audit_event (Frame.header f) true "ok" (card_hash (_keyManager e) kv (Payload.cardId req)) "open" /\
    is_Some (view_role v (card_hash (_keyManager e) kv (Payload.cardId req))).

End FailClosedSpec.
End FailClosedSpec.

(** ** Lemmas *)

Module FailClosedFacts.
Import Engine EngineSpec FailClosedSpec.

Section FailClosedFacts.
Context `{SodiumLaws, Env, Json} {W : Type} `{IAccessStore W, !IAuditLog W, !AccessStoreSound W}.
Context (v : PolicyView) (J : Audit.AuditEvent -> Prop).

Definition hnoted (s s' : HState W) : Prop := noted J (h_ext s) (h_ext s').
Definition enoted (s s' : EState W) : Prop := noted J (h_ext (e_h s)) (h_ext (e_h s')).

#[global] Instance hnoted_preorder : PreOrder hnoted.
Proof. split; [by intros s; unfold hnoted|]. intros s1 s2 s3. unfold hnoted. by etransitivity. Qed.
#[global] Instance enoted_preorder : PreOrder enoted.
Proof. split; [by intros s; unfold enoted|]. intros s1 s2 s3. unfold enoted. by etransitivity. Qed.

Abbreviation hkeeps m Q := (keeps (fun s : HState W => holds v (h_ext s)) hnoted m Q).
Abbreviation ekeeps m Q := (keeps (fun s : EState W => holds v (h_ext (e_h s))) enoted m Q).

Lemma hkeeps_ext {A} (m : M W A) Q : keeps (holds v) (noted J) m Q -> hkeeps (on_ext m) Q.
Proof. intros Hm. by eapply keeps_zoom. Qed.

Lemma hkeeps_still {A} (m : M (HState W) A) Q :
  (forall s, h_ext (m s).1 = h_ext s /\ forall a, (m s).2 = Ok a -> Q a) -> hkeeps m Q.
Proof. intros Hm s Hs. destruct (Hm s) as [E HQ]. unfold hnoted. by rewrite E. Qed.

Lemma ekeeps_h {A} (m : M (HState W) A) Q : hkeeps m Q -> ekeeps (on_h m) Q.
Proof. intros Hm. by eapply keeps_zoom. Qed.

Lemma ekeeps_still {A} (m : M (EState W) A) Q :
  (forall s, e_h (m s).1 = e_h s /\ forall a, (m s).2 = Ok a -> Q a) -> ekeeps m Q.
Proof. intros Hm s Hs. destruct (Hm s) as [E HQ]. unfold enoted. by rewrite E. Qed.

(** *** The frame handler *)

(** A result whose header and reason can be logged. *)
Definition tidy (r : FrameHandler.HandleResult) : Prop :=
  Packet.Header_ok (FrameHandler.hdr r) /\ cstr (FrameHandler.reason r) = FrameHandler.reason r.

Definition refusal (r : FrameHandler.HandleResult) : Prop := tidy r /\ FrameHandler.allow r = false.

Lemma refusal_error w hd : cstr w = w -> Packet.Header_ok hd -> refusal (FrameHandler.makeError w hd).
Proof. by split. Qed.

Lemma parse_code_text w : cstr (FrameHandler.parseErrorToCode w) = FrameHandler.parseErrorToCode w.
Proof. unfold FrameHandler.parseErrorToCode. by repeat case_match. Qed.

Lemma decrypt_code_text w : cstr (FrameHandler.decryptExceptionToCode w) = FrameHandler.decryptExceptionToCode w.
Proof. unfold FrameHandler.decryptExceptionToCode. by case_match. Qed.

(** A refusal is no acceptance. *)
Lemma hkeeps_refusal (r : FrameHandler.HandleResult) (Q : FrameHandler.HandleResult -> Prop) :
  refusal r -> hkeeps (mret r) (fun r => tidy r /\ (FrameHandler.allow r = true -> Q r)).
Proof. intros [Ht E]. apply keeps_ret; [apply _|]. by rewrite E. Qed.

Lemma hkeeps_reader h f :
  Packet.Header_ok (Frame.header f) ->
  hkeeps (FrameHandler.validateReader h f) (fun x =>
    match x.1 with
    | Some e => refusal e
    | None =>
        is_u32 x.2 /\ x.2 <> 0 /\ x.2 = view_key_version v (Packet.reader_id (Frame.header f)) /\
        (FrameHandler.enforceReaderDoorBinding (FrameHandler._config h) = true ->
         view_bound v (Packet.reader_id (Frame.header f)) (Packet.door_id (Frame.header f)) = true)
    end).
Proof.
  intros Hf. unfold FrameHandler.validateReader.
  destruct (negb _); [by apply keeps_ret; [apply _|apply refusal_error]|].
  eapply keeps_bind; [apply _|apply hkeeps_ext, version_sound|]. intros kv [Hk Hv]. cbn beta in *.
  case_decide as Hz; [by apply keeps_ret; [apply _|apply refusal_error]|]. specialize (Hv Hz).
  destruct (FrameHandler.enforceReaderDoorBinding _); [|by apply keeps_ret; [apply _|]].
  eapply keeps_bind; [apply _|apply hkeeps_ext, bound_sound|]. intros [] Hb; cbn [negb];
    (apply keeps_ret; [apply _|]); [split_and!; auto|by apply refusal_error].
Qed.

Lemma hkeeps_replay h f :
  Packet.Header_ok (Frame.header f) ->
  hkeeps (FrameHandler.checkReplay h f)
    (fun x => match x.1 with Some e => refusal e | None => True end).
Proof.
  intros Hf. apply hkeeps_still. intros s. unfold FrameHandler.checkReplay, FrameHandler.getOrCreateWindow.
  destruct (negb _); [by split; [|intros ? [= <-]]|]. unfold mbind, M_bind, get, modify_windows, modify.
  destruct (h_windows s !! _); cbn; destruct (ReplayWindow.contains _ _); by split; [|intros ? [= <-]].
Qed.

(** What the decryptor reports as opened is opened. *)
Lemma hkeeps_decrypt d f :
  hkeeps (FrameDecryptor.decrypt d f) (fun r =>
    cstr (FrameDecryptor.error r) = FrameDecryptor.error r /\
    (FrameDecryptor.success r = true ->
     FrameDecryptor.decryptFrame d f = Ok (FrameDecryptor.plaintext r))).
Proof.
  unfold FrameDecryptor.decrypt. destruct (FrameDecryptor.decryptFrame d f) as [pt|e|];
    [|by apply keeps_ret; [apply _|]|apply keeps_fault, _].
  apply (keeps_bind _ _ _ _ (fun o => forall e, o = Some e -> cstr e = e)).
  - apply hkeeps_still. intros s. unfold FrameDecryptor.checkTimestamp.
    case_decide; [by split; [|intros ? [= <-]]|]. unfold nowUnixMs, mbind, M_bind. cbn.
    case_decide; cbn; (split; [done|]); intros ? [= <-]; [|done]. intros e [= <-]. by case_decide.
  - intros [e|] He; (apply keeps_ret; [apply _|]); [|done]. split; [by apply He|done].
Qed.

Lemma hkeeps_try h f window :
  Packet.Header_ok (Frame.header f) ->
  hkeeps (FrameHandler.tryDecrypt h f window) (fun r => tidy r /\ (FrameHandler.allow r = true ->
    FrameHandler.hdr r = Frame.header f /\
    HandlerSpec.opened h f = Some (FrameHandler.plaintext r))).
Proof.
  intros Hf. unfold FrameHandler.tryDecrypt.
  set (key := if decide (FrameHandler.keyDerivationMode (FrameHandler._config h) = "direct"%string)
    then KeyManager._masterKey (FrameHandler._keyManager h)
    else KeySpec.key_for (FrameHandler._keyManager h)
      (KeySpec.ForAead (Packet.reader_id (Frame.header f)) (Packet.key_version (Frame.header f)))).
  apply (keeps_bind _ _ _ _ (fun x => x = inl key)).
  { apply keeps_lift; [apply _|]. unfold FrameHandler.deriveKey. subst key.
    case_decide; [by intros x [= <-]|].
    pose proof (KeyFacts.derive_for_spec (FrameHandler._keyManager h)
      (KeySpec.ForAead (Packet.reader_id (Frame.header f)) (Packet.key_version (Frame.header f)))) as E.
    cbn in E. rewrite E by (split; apply Hf). by intros x [= <-]. }
  intros x ->. apply keeps_try; [apply _| |].
  - apply always_bind; [apply _|by apply hkeeps_still; intros s|]. intros rnd.
    eapply keeps_bind; [apply _|apply hkeeps_decrypt|]. intros dec [Ht Hd]. cbn beta in *.
    destruct (FrameDecryptor.success dec); cbn [negb]; [|by apply hkeeps_refusal, refusal_error].
    specialize (Hd eq_refl). apply always_bind; [apply _| |intros _].
    + apply hkeeps_still. intros s. destruct (FrameHandler.antiReplayEnabled _); [|done].
      unfold FrameHandler.remember_at. by destruct window.
    + apply keeps_ret; [apply _|]. split; [done|]. intros _. split; [done|].
      pose proof (HandlerFacts.decryptFrame_opened h f key rnd eq_refl) as Ho. cbv zeta in Ho.
      destruct (HandlerSpec.opened h f) as [pt|]; [|destruct Ho as [e Ho]];
        rewrite Ho in Hd; [by injection Hd as <-|done].
  - intros e. destruct (FrameHandler.what_of e); apply hkeeps_refusal, refusal_error; try done.
    apply decrypt_code_text.
Qed.

(** What the handler accepts is authentic, and the policy knows its reader. *)
Record sound_frame (h : FrameHandler.FrameHandler) (b : bytes) (r : FrameHandler.HandleResult)
    (f : Frame.Frame) : Prop := {
  sf_parsed : FrameParser.parseFrame b (FrameHandler.maxCtLen (FrameHandler._config h)) = Ok f;
  sf_header : FrameHandler.hdr r = Frame.header f;
  sf_opened : HandlerSpec.opened h f = Some (FrameHandler.plaintext r);
  sf_reader : view_key_version v (Packet.reader_id (Frame.header f)) <> 0;
  sf_version : HandlerSpec.version_accepted
    (FrameHandler.allowPreviousKeyVersion (FrameHandler._config h))
    (Packet.key_version (Frame.header f))
    (view_key_version v (Packet.reader_id (Frame.header f))) = true;
  sf_bound : FrameHandler.enforceReaderDoorBinding (FrameHandler._config h) = true ->
    view_bound v (Packet.reader_id (Frame.header f)) (Packet.door_id (Frame.header f)) = true;
}.

Lemma hkeeps_handle h b :
  ParserFacts.span_ok b ->
  hkeeps (FrameHandler.handle h b)
    (fun r => tidy r /\ (FrameHandler.allow r = true -> exists f, sound_frame h b r f)).
Proof.
  intros Hb. unfold FrameHandler.handle.
  assert (Packet.Header_ok Packet.Header_default) as Hd by by_decision.
  apply (keeps_bind _ _ _ _ (fun x => match x with
    | inl f => Packet.Header_ok (Frame.header f) /\
        FrameParser.parseFrame b (FrameHandler.maxCtLen (FrameHandler._config h)) = Ok f
    | inr e => refusal e end)).
  { unfold FrameHandler.parseFrame. destruct (FrameParser.parseFrame b _) as [f|[]|] eqn:E;
      try (apply keeps_ret; [apply _|]); try (apply keeps_fault, _);
      try (apply refusal_error; [first [done|apply parse_code_text]|done]).
    split; [|done]. destruct (WireSpec.parse_inv _ _ _ Hb E) as (Hl & _ & _ & _ & ->).
    by apply WireSpec.frame_at_ok; [apply Hb|]. }
  intros [f|e] Hf; [|by apply hkeeps_refusal]. destruct Hf as [Hf Hp].
  eapply keeps_bind; [apply _|by apply hkeeps_reader|]. intros [[e|] kv] Hr; cbn in Hr;
    [by apply hkeeps_refusal|]. destruct Hr as (Hk & Hz & -> & Hbd).
  unfold FrameHandler.validateKeyVersion.
  destruct (FrameHandler.key_version_ok _ _ _) eqn:Hkv; [|by apply hkeeps_refusal, refusal_error].
  rewrite HandlerFacts.key_version_ok_spec in Hkv by (apply Hf || done).
  eapply keeps_bind; [apply _|by apply hkeeps_replay|]. intros [[e|] w] He; cbn in He;
    [by apply hkeeps_refusal|]. eapply keeps_mono; [by apply hkeeps_try|].
  intros r [Ht Ho]. split; [done|]. intros Ha. destruct (Ho Ha). by exists f.
Qed.

(** *** The engine *)

Abbreviation esound m := (always (fun s : EState W => holds v (h_ext (e_h s))) enoted m).

Lemma esound_now : esound (on_h (nowUnixMs (W := W))).
Proof. apply ekeeps_h. by apply hkeeps_still. Qed.

Lemma esound_publish ev : esound (publish (W := W) ev).
Proof.
  unfold publish. apply always_bind; [apply _|by apply keeps_get; [apply _|]|]. intros s.
  destruct (e_events s); [|by apply keeps_ret; [apply _|]].
  apply always_bind; [apply _|apply esound_now|]. intros now.
  apply ekeeps_still. intros s'. unfold push_event. destruct (e_events s') as [b|]; [|done].
  by destruct (EventBus.push _ b) as [? [?|?|]].
Qed.

Lemma esound_detector {A} (f : Detector.ProtocolAnomalyDetector -> Detector.ProtocolAnomalyDetector * A) :
  esound (on_detector (W := W) f).
Proof.
  apply ekeeps_still. intros s. unfold on_detector. destruct (e_detector s) as [d|]; [|done].
  by destruct (f d).
Qed.

Lemma esound_log e hd a w card action :
  Packet.Header_ok hd -> cstr w = w -> cstr card = card -> cstr action = action ->
  (a = true -> J (audit_event hd a w card action)) ->
  esound (logAuditEvent (W := W) e hd a w card action).
Proof.
  intros [] Hw Hc Ha HJ. unfold logAuditEvent. destruct (negb _); [by apply keeps_ret; [apply _|]|].
  apply always_bind; [apply _| |intros _; apply esound_publish].
  apply ekeeps_h, hkeeps_ext, append_sound; [by split|done].
Qed.

(** A denial permits nothing. *)
Lemma ekeeps_deny e hd w (Q : DecisionResult -> Prop) :
  Packet.Header_ok hd -> cstr w = w ->
  ekeeps (deny (W := W) e hd w) (fun r => allow r = true -> Q r).
Proof.
  intros Hh Hw. unfold deny. apply always_bind; [apply _|by apply esound_log|]. intros _.
  by apply keeps_ret; [apply _|].
Qed.

Lemma ekeeps_quarantined e fr (Q : DecisionResult -> Prop) :
  tidy fr -> ekeeps (deny_quarantined (W := W) e fr) (fun r => allow r = true -> Q r).
Proof.
  intros [Hh _]. unfold deny_quarantined, publishDecisionEvent.
  apply always_bind; [apply _|by apply esound_log|]. intros _.
  apply always_bind; [apply _|apply esound_publish|]. intros _. by apply keeps_ret; [apply _|].
Qed.

(** The role that is found is one the card has under a version in use. *)
Lemma ekeeps_resolve e card kv :
  is_u32 kv -> kv <> 0 -> card <> EmptyString ->
  ekeeps (resolveCardHmac e card kv) (fun x => cstr x.1 = x.1 /\
    forall role, x.2 = Some role -> cstr role = role /\
    exists k, k ∈ pepper_versions (_frameHandlerCfg e) kv /\
      x.1 = card_hash (_keyManager e) k card /\ view_role v x.1 = Some role).
Proof.
  intros Hk Hz Hc. unfold resolveCardHmac, pepper_versions.
  assert (forall k {A} (f : string -> option string -> M (EState W) A) Q, is_u32 k -> k <> 0 ->
    (forall c role, c = card_hash (_keyManager e) k card -> cstr c = c ->
       (forall r, role = Some r -> view_role v c = Some r /\ cstr r = r) -> ekeeps (f c role) Q) ->
    ekeeps (pepper ← lift (KeyManager.deriveCardPepper (_keyManager e) k);
            c ← lift (CardIdHasher.hmacHex pepper card);
            role ← on_h (on_ext (roleForCardHmac c)); f c role) Q) as Hstep.
  { intros k A f Q Hk' Hz' Hf. rewrite EngineFacts.pepper_run by done.
    apply (keeps_bind _ _ _ _ (fun p => p = KeySpec.key_for (_keyManager e) (KeySpec.ForPepper k)));
      [by apply keeps_lift; [apply _|intros a [= <-]]|]. intros ? ->.
    rewrite EngineFacts.card_hash_run by done.
    apply (keeps_bind _ _ _ _ (fun c => c = card_hash (_keyManager e) k card));
      [by apply keeps_lift; [apply _|intros a [= <-]]|]. intros ? ->.
    pose proof (EngineFacts.card_hash_text (_keyManager e) k card) as Ht.
    eapply keeps_bind; [apply _|by apply ekeeps_h, hkeeps_ext, role_sound|].
    intros role Hr. by apply Hf. }
  case_decide.
  - apply Hstep; [by compute|done|]. intros c role -> Ht Hr. apply keeps_ret; [apply _|]. split; [done|].
    intros r [Hv Hrt]%Hr. split; [done|]. exists 1. split; [left|done].
  - apply Hstep; [done..|]. intros c role -> Ht Hr.
    destruct (decide (role = None /\ _ /\ _)) as [(-> & Hp & Hgt)|Hn].
    + rewrite decide_True by done. unfold is_u32 in Hk. rewrite u32_id by (unfold is_u32; lia).
      apply Hstep; [unfold is_u32; lia|lia|]. intros c' role' -> Ht' Hr'. apply keeps_ret; [apply _|].
      cbn [fst snd]. split; [by case_decide|]. intros r E. rewrite decide_False by congruence.
      apply Hr' in E as [Hv Hrt]. split; [done|]. exists (kv - 1). split; [right; left|done].
    + apply keeps_ret; [apply _|]. split; [done|]. intros r [Hv Hrt]%Hr. split; [done|]. exists kv.
      split; [case_decide; left|done].
Qed.

Lemma ekeeps_policy e b (fr : FrameHandler.HandleResult) f pt req :
  tidy fr -> sound_frame (handler_of e) b fr f -> pt = FrameHandler.plaintext fr ->
  Payload.parseAccessRequestJson (string_of_bytes pt) = Ok req ->
  (forall ev, justified e v b ev -> J ev) ->
  ekeeps (checkAccessPolicy e fr req) (fun r => allow r = true -> permitted e v b f req).
Proof.
  intros [Hh _] [Hp Hd Ho Hrd Hver Hbd] -> Ep HJ. unfold checkAccessPolicy.
  case_decide as Ha; [by apply ekeeps_deny|].
  assert (Payload.action req = "open"%string) as Hact by by destruct (decide (Payload.action req = "open"%string)).
  destruct (negb _); [by apply ekeeps_deny|].
  eapply keeps_bind; [apply _|apply ekeeps_h, hkeeps_ext, version_sound|]. intros kv [Hk Hv].
  case_decide as Hz; [by apply ekeeps_deny|]. specialize (Hv Hz).
  eapply keeps_bind; [apply _|apply ekeeps_resolve; [done..|by eapply PayloadFacts.parse_card]|].
  intros [c [role|]] [Hct Hr]; cbn in Hct, Hr; cycle 1.
  { apply always_bind; [apply _|apply esound_log; [done..|by rewrite Hact|done]|].
    intros _. by apply keeps_ret; [apply _|]. }
  destruct (Hr role eq_refl) as (Ht & k & Hin & Hc & Hrole). rewrite Hv, Hd in Hin.
  apply (keeps_bind _ _ _ _ (fun x => cstr (reason x) = reason x /\ (allow x = true ->
    reason x = "ok"%string /\ permitted e v b f req))).
  { unfold checkRoleAccess. eapply keeps_bind; [apply _|by apply ekeeps_h, hkeeps_ext, allowed_sound|].
    intros [] Hal; (apply keeps_ret; [apply _|]); [|done]. split; [done|]. intros _. split; [done|].
    split; try done; [by eexists|]. exists k, role. rewrite Hd in Hal.
    split_and!; [done|by rewrite <- Hc|by apply Hal]. }
  intros x [Hxt Hx]. apply always_bind; [apply _| |intros _; apply keeps_ret; [apply _|by apply Hx]].
  apply esound_log; [done..|by rewrite Hact|]. intros Hal. apply HJ.
  destruct (Hx Hal) as [-> Hpm]. exists f, req, k. rewrite Hal, Hact, Hd, <- Hc. by split_and!; [|..|eexists].
Qed.

(** Nothing is granted, and nothing logged as granted, that the policy has no
    ground for. *)
Lemma ekeeps_engine e b :
  ParserFacts.span_ok b -> (forall ev, justified e v b ev -> J ev) ->
  ekeeps (handleFrameBytes e b) (fun r => allow r = true -> exists f req, permitted e v b f req).
Proof.
  intros Hb HJ. unfold handleFrameBytes.
  eapply keeps_bind; [apply _|by apply ekeeps_h, hkeeps_handle|]. intros fr [Ht Hfr]. unfold decideFrame.
  apply always_bind; [apply _|by apply keeps_get; [apply _|]|]. intros s.
  apply always_bind; [apply _|apply esound_publish|]. intros _.
  apply always_bind; [apply _| |intros q].
  { destruct (detector_active s); [apply esound_detector|by apply keeps_ret; [apply _|]]. }
  destruct q; [by apply ekeeps_quarantined|].
  apply always_bind; [apply _| |intros []; [by apply ekeeps_quarantined|]].
  { unfold checkRollback, publishAnomalyEvent.
    keeps_by ltac:(first [apply esound_now|apply esound_detector|apply esound_publish]). }
  apply always_bind; [apply _| |intros []; [by apply ekeeps_quarantined|]].
  { unfold checkNonce, publishAnomalyEvent.
    keeps_by ltac:(first [apply esound_now|apply esound_detector|apply esound_publish]). }
  apply always_bind; [apply _|apply esound_publish|]. intros _. unfold concludeFrame.
  destruct (FrameHandler.allow fr) eqn:Ha; cbn [negb]; cycle 1.
  { apply always_bind; [apply _| |intros _; apply ekeeps_deny; apply Ht].
    unfold reportRejection, publishAnomalyEvent.
    keeps_by ltac:(first [apply esound_now|apply esound_detector|apply esound_publish]). }
  destruct (Hfr eq_refl) as [f Hf]. apply always_bind; [apply _| |intros _].
  { destruct (detector_active s); [apply esound_detector|by apply keeps_ret; [apply _|]]. }
  destruct (Payload.parseAccessRequestJson _) as [req| |] eqn:Ep;
    [|apply ekeeps_deny; [apply Ht|done]|apply keeps_fault, _].
  eapply keeps_mono; [by eapply ekeeps_policy|]. intros r Hx Hal. exists f, req. auto.
Qed.

End FailClosedFacts.
End FailClosedFacts.

(** ** SQLite keeps the weak contract *)

Module SqliteSound.
Import Helpers SqliteAccessStore StoreSpec DurableSpec DurableFacts ChainSpec ChainFacts.

(** The tables hold the policy, and a rollback does not bring back another. *)
Definition settled (v : PolicyView) (db : Sql.database) : Prop :=
  policy (Sql.current db) = v /\ forall old, Sql.saved db = Some old -> policy old = v.

(** All statements but those of [of_policy] leave the policy alone. *)
Lemma settled_meaning v s ps db rows db' :
  of_policy s = false -> Sql.meaning s ps db = Some (rows, db') -> settled v db -> settled v db'.
Proof.
  intros Hs Hm [Hc Hsv]. destruct s; try done; clear Hs; cbn in Hm; unfold Sql.answer, Sql.change in Hm;
    repeat case_match; simplify_eq; try done; split; cbn; try done;
    first [by apply Hsv|intros old [= <-]; done].
Qed.

Lemma settled_rolled_back v db : settled v db -> settled v (Sql.rolled_back db).
Proof.
  intros [Hc Hsv]. unfold Sql.rolled_back. destruct (Sql.saved db) as [old|] eqn:E; [|split; [done|by rewrite E]].
  split; [by apply Hsv|done].
Qed.

(** The log has gained the entries of events of [J] only, as far as it says they
    were granted. *)
Definition added (J : Audit.AuditEvent -> Prop) (t t' : Sql.tables) : Prop :=
  exists rows : list Sql.audit_row, Sql.audit_log t' = Sql.audit_log t ++ rows /\
    Forall (fun r => Audit.allow (row_event r) = true -> J (row_event r)) rows.

#[export] Instance added_preorder J : PreOrder (added J).
Proof.
  split.
  - intros t. exists []. by rewrite app_nil_r.
  - intros t1 t2 t3 (r1 & E1 & H1) (r2 & E2 & H2). exists (r1 ++ r2).
    rewrite E2, E1, app_assoc. split; [done|]. by apply Forall_app.
Qed.

(** A statement that may run: not one of the policy, and it does [P] to the
    committed tables. *)
Definition mild (P : relation Sql.tables) (s : Sql.stmt) : Prop :=
  of_policy s = false /\
  forall ps db rows db', Sql.meaning s ps db = Some (rows, db') -> P (committed db) (committed db').

Lemma harmless_mild J s : harmless s = true -> mild (added J) s.
Proof.
  intros Hs. split; [by destruct s|]. intros ps db rows db' Hm. exists []. rewrite app_nil_r.
  split; [|done]. destruct s; try done; clear Hs; cbn in Hm; unfold Sql.answer, Sql.change in Hm;
    repeat case_match; simplify_eq; try done; unfold committed; cbn; by destruct (Sql.saved db).
Qed.

Section SqliteSound.
Context {D : Type} `{SodiumLaws, SqliteLaws D, !SqliteRows D}.
Context (v : PolicyView) (P : relation Sql.tables) `{!PreOrder P}.

Abbreviation sound m Q := (keeps (fun d : D => settled v (content d)) (onto P) m Q).

Lemma sound_exec s : mild P s -> sound (execOrThrow (Sql.text s)) (fun _ => True).
Proof.
  intros [Hs Hp] d Hd. unfold execOrThrow, onto. destruct (sqlite_exec (Sql.text s) d) as [d' [err|]] eqn:E;
    cbn; split_and!; try done.
  - by destruct (exec_failed s d d' err E) as [->| ->]; [|apply settled_rolled_back].
  - by rewrite (DurableFacts.failed_same d d') by by eapply exec_failed.
  - apply exec_ok in E as [rows E]. by eapply settled_meaning.
  - apply exec_ok in E as [rows E]. by eapply Hp.
Qed.

(** A statement that is run, and where its rows come from. *)
Lemma sound_run s ps :
  mild P s -> Sql.clean ps ->
  sound (run (Sql.text s) ps) (fun r =>
    r.2 <> SQLITE_ROW /\ forall row, row ∈ r.1 ->
      exists db rows db', settled v db /\ Sql.meaning s ps db = Some (rows, db') /\ row ∈ rows).
Proof.
  intros [Hs Hp] Hc d Hd. unfold run, onto. pose proof (rows_true s ps d) as Hr. pose proof (last_code s ps d) as Hl.
  pose proof (DurableFacts.run_clean P s ps d Hc (Hp ps)) as Hcm.
  destruct (sqlite_run (Sql.text s) ps d) as [d' [rows rc]] eqn:E. cbn in *. split_and!; [|done|].
  - destruct (decide (rc = SQLITE_DONE)) as [->|Hn].
    + apply run_done in E; [|done]. by eapply settled_meaning.
    + by destruct (run_failed s ps d d' rows rc E Hn Hc) as [->| ->]; [|apply settled_rolled_back].
  - intros r [= <-]. split; [done|]. intros row Hin. destruct (Hr row Hc Hin) as (all & db' & Hm & Ha). by exists (content d), all, db'.
Qed.

Lemma sound_prepare msg s : sound (prepare_or msg s) (fun _ => True).
Proof. intros d Hd. unfold prepare_or. by destruct (sqlite_prepare s d). Qed.

Lemma sound_step_done s ps msg :
  mild P s -> Sql.clean ps -> sound (step_done (Sql.text s) ps msg) (fun _ => True).
Proof.
  intros Hs Hc. unfold step_done. keeps_by ltac:(by eapply keeps_always, sound_run).
Qed.

(** The first row of a query. *)
Lemma sound_query {A} s ps (f : list row * Z -> A) (Q : A -> Prop) :
  mild P s -> Sql.clean ps ->
  (forall rows rc, rc <> SQLITE_ROW -> (forall row rest, rows = row :: rest ->
     exists db all db', settled v db /\ Sql.meaning s ps db = Some (all, db') /\ row ∈ all) ->
     Q (f (rows, rc))) ->
  sound (prepare s ;; r ← run (Sql.text s) ps; mret (f r)) Q.
Proof.
  intros Hs Hc HQ. apply always_bind; [apply _|apply sound_prepare|]. intros _.
  eapply keeps_bind; [apply _|by apply sound_run|]. intros [rows rc] [Hrc Hr]. cbn in *.
  apply keeps_ret; [apply _|]. apply HQ; [done|]. intros row rest ->. apply Hr. left.
Qed.

End SqliteSound.

Section SqliteInstance.
Context {D : Type} `{SodiumLaws, SqliteLaws D, !SqliteRows D}.

(** An append stays within the log, *)
Lemma append_settles v (l : SqliteAuditLog.SqliteAuditLog) e (d : D) :
  settled v (content d) -> settled v (content (SqliteAuditLog.append l e d).1).
Proof.
  assert (PreOrder (fun _ _ : Sql.tables => True)) as Hp by (split; by intros ?).
  intros Hd.
  enough (always (fun d : D => settled v (content d)) (onto (fun _ _ => True)) (SqliteAuditLog.append l e))
    as Hm by by apply Hm.
  assert (forall s, of_policy s = false -> mild (fun _ _ => True) s) as Ha by done.
  unfold SqliteAuditLog.append, SqliteAuditLog.insertAuditEntry, SqliteAuditLog.updateAnchor,
    SqliteAuditLog.getLastEntryHash, prepareOrThrow.
  keeps_by ltac:(first
    [ apply sound_prepare, Hp | by apply sound_exec, Ha
    | apply sound_step_done; [done|by apply Ha|repeat apply SqliteFacts.clean_cons;
        auto using ChainFacts.clean_text_or_null with sqlite; done]
    | eapply keeps_always, sound_run; [done|by apply Ha|auto with sqlite] ]).
Qed.

(** and commits the entry of its event or none. *)
Lemma append_adds (J : Audit.AuditEvent -> Prop) l e (d : D) :
  event_ok e -> (Audit.allow e = true -> J e) ->
  added J (committed (content d)) (committed (content (SqliteAuditLog.append l e d).1)).
Proof.
  intros He HJ. apply (append_onto (added J)).
  - intros prev entry db rows db' Hm. rewrite insert_meaning in Hm by done. case_decide; [|done].
    injection Hm as _ <-. split; [done|]. eexists. split; [done|]. constructor; [|done]. by rewrite new_row_event.
  - intros h ts db rows db' Hm. cbn in Hm. unfold Sql.answer, Sql.change in Hm.
    case_match; simplify_eq; (split; [done|]); [|done]. exists []. by rewrite app_nil_r.
Qed.

(** The store and log over SQLite. *)
#[export] Instance sqlite_sound (l : SqliteAuditLog.SqliteAuditLog) :
  @AccessStoreSound D sqlite_store (AuditInstance.sqlite_audit l).
Proof.
  refine (@Build_AccessStoreSound D sqlite_store (AuditInstance.sqlite_audit l)
    (fun v d => settled v (content d)) (fun J => onto (added J)) _ _ _ _ _ _).
  - intros v J c Hc. apply sound_query; [apply _|by apply harmless_mild|auto with sqlite|].
    intros [|row rest] rc _ Hr role; [done|].
    intros [= <-]. destruct (Hr row rest eq_refl) as (db & all & db' & [<- _] & Hm & Hin).
    cbn in Hm. unfold Sql.answer in Hm. injection Hm as <- _. cbn.
    destruct (Sql.cards _ !! c) as [r|]; [|by apply not_elem_of_nil in Hin].
    apply list_elem_of_singleton in Hin as ->. unfold text_of, col. cbn.
    rewrite column_text_text. cbn. by rewrite cstr_cstr.
  - intros v J d r Hr. apply sound_query; [apply _|by apply harmless_mild|auto with sqlite|].
    intros [|row rest] rc Hrc Hrow Hb; apply bool_decide_eq_true in Hb; [done|].
    destruct (Hrow row rest eq_refl) as (db & all & db' & [<- _] & Hm & Hin).
    cbn in Hm. unfold Sql.answer in Hm. injection Hm as <- _. cbn. apply bool_decide_eq_true.
    case_decide; [done|by apply not_elem_of_nil in Hin].
  - intros v J r. apply sound_query; [apply _|by apply harmless_mild|auto with sqlite|].
    intros [|row rest] rc _ Hr; [by compute|].
    destruct (Hr row rest eq_refl) as (db & all & db' & [<- _] & Hm & Hin).
    cbn in Hm. unfold Sql.answer in Hm. injection Hm as <- _. cbn.
    destruct (Sql.readers _ !! i32 r) as [n|]; [|by apply not_elem_of_nil in Hin].
    apply list_elem_of_singleton in Hin as ->. unfold col. cbn. rewrite column_int_int.
    split; [apply StoreFacts.version_value_range|done].
  - intros v J r d. apply sound_query; [apply _|by apply harmless_mild|auto with sqlite|].
    intros [|row rest] rc Hrc Hrow Hb; apply bool_decide_eq_true in Hb; [done|].
    destruct (Hrow row rest eq_refl) as (db & all & db' & [<- _] & Hm & Hin).
    cbn in Hm. unfold Sql.answer in Hm. injection Hm as <- _. cbn. apply bool_decide_eq_true.
    case_decide; [done|by apply not_elem_of_nil in Hin].
  - intros v J e He HJ d Hd. split_and!; [by apply append_settles|by apply append_adds|done].
Defined.

End SqliteInstance.
End SqliteSound.

(** ** A role that comes back

    "No such card" and "the query failed" look alike to [resolveCardHmac], and in
    the first case it looks for the card under the previous pepper. So a failed
    query can bring back a role the card had before it was enrolled again: the
    clause [pm_role] of [permitted] cannot ask for the current version first. *)

Module StaleRole.
Import Engine EngineSpec EngineProps ToySodium ToyJson HandlerProps StoreSpec AuditProps MemDb Flaky.

(** Card 04A1 was staff under pepper 1, and is a visitor under pepper 2; staff may
    open door 2. *)
Definition stale_tables : Sql.tables :=
  Sql.mkTables
    {[card_hash KeyProps.test_km 1 "04A1" := "staff"; card_hash KeyProps.test_km 2 "04A1" := "visitor"]}%string
    {[(2, "staff"%string)]} {[1 := 2]} {[(1, 2)]} [] 0 (Some (SqliteAuditLog.zero_hash, 0)).

Definition no_lookup (sql : string) (ps : list value) : bool :=
  String.eqb sql (Sql.text Sql.RoleForCard) &&
  bool_decide (ps = [VText (card_hash KeyProps.test_km 2 "04A1")]).

#[local] Instance stale_log : IAuditLog (flaky no_lookup) := AuditInstance.sqlite_audit test_log.
#[local] Instance sure_log : IAuditLog Sql.database := AuditInstance.sqlite_audit test_log.

Definition stale_world {W} (w : W) : EState W := mkEState (mkHState ∅ w 0) None None.

(** The policy says no, and so does the engine while the database answers; it says
    yes when the first lookup fails. *)
Example failed_lookup_revives_role :
  allow (o_result (policy_verdict test_engine (policy stale_tables) test_header
    (Payload.mkAccessRequest "04A1" "open"))) = false /\
  (handleFrameBytes test_engine test_request (stale_world (Sql.mkDatabase stale_tables None true))).2
    = Ok (mkDecisionResult false "forbidden") /\
  (handleFrameBytes test_engine test_request
     (stale_world (mkFlaky (Sql.mkDatabase stale_tables None true) : flaky no_lookup))).2
    = Ok (mkDecisionResult true "ok").
Proof. vm_compute. split_and!; reflexivity. Qed.

End StaleRole.
