(* ===== verification/Services.v ===== *)
(** access_admin/service: the operations of the administration interface, and
    the access and hardware endpoints, on the state of the server. *)
From Stdlib Require Import ZArith Lia Ascii.
From stdpp Require Import base option list gmap strings.
From S2P Require Import Prelude LittleEndian Wire Replay Crypto Keys Events Detector Access FrameHandling Engine Sqlite SqliteStore AuditLog Config HwService AppState.
Local Open Scope Z_scope.

(** ** service_types *)

Module ServiceTypes.

(** The JSON values the services build. An object lists its members in the
    order they are assigned. *)
#[local] Set Warnings "-register-all".
Inductive value :=
| JBool (b : bool)
| JNum (z : Z)
| JStr (s : string)
| JArr (l : list value)
| JObj (l : list (string * value)).

Record ServiceResult := mkServiceResult { ok : bool; http_status : Z; body : value }.

Definition kHttpOk : Z := 200.
Definition kHttpRedirect : Z := 302.
Definition kHttpBadRequest : Z := 400.
Definition kHttpUnauthorized : Z := 401.
Definition kHttpPayloadTooLarge : Z := 413.
Definition kHttpServerError : Z := 500.

Definition kDefaultLimit : Z := 200.

Definition errorResult (message : string) (status : Z) : ServiceResult :=
  mkServiceResult false status (JObj [("error"%string, JStr message)]).

Definition okResult (body : value) : ServiceResult := mkServiceResult true kHttpOk body.

(** [okResult({{"ok", true}})] *)
Definition done_ : ServiceResult := okResult (JObj [("ok"%string, JBool true)]).

End ServiceTypes.

(** ** The services *)

Module Services.
Import ServiceTypes AppState.

Section Services.
Context `{Sodium, Env, Json, HwService.Http} {D F : Type} `{Sqlite D, Files F, !SqliteFiles F D}.

Abbreviation App := (AppState D F).

(** *** readers *)

Definition listReaders : M App ServiceResult :=
  readers ← on_store SqliteAccessStore.listReaders;
  doors ← on_store (SqliteAccessStore.listReaderDoors 0);
  let byReader := foldl (fun (m : gmap Z (list Z)) d =>
    <[SqliteAccessStore.rd_reader_id d :=
        default [] (m !! SqliteAccessStore.rd_reader_id d) ++ [SqliteAccessStore.rd_door_id d]]> m)
    ∅ doors in
  mret (okResult (JObj [("readers", JArr ((fun r => JObj [
    ("reader_id", JNum (SqliteAccessStore.reader_id r));
    ("current_key_version", JNum (SqliteAccessStore.current_key_version r));
    ("doors", JArr (JNum <$> default [] (byReader !! SqliteAccessStore.reader_id r)))]) <$> readers))]))%string.

Definition upsertReader (reader_id key_version : Z) : M App ServiceResult :=
  on_store (SqliteAccessStore.upsertReader reader_id key_version) ;;
  push_event "admin" "upsertReader" reader_id 0 ;;
  mret done_.

Definition deleteReader (reader_id : Z) : M App ServiceResult :=
  on_store (SqliteAccessStore.deleteReader reader_id) ;;
  push_event "admin" "deleteReader" reader_id 0 ;;
  mret done_.

Definition bindDoor (reader_id door_id : Z) : M App ServiceResult :=
  on_store (SqliteAccessStore.allowDoorForReader reader_id door_id) ;;
  push_event "admin" "bindDoor" reader_id door_id ;;
  mret done_.

Definition unbindDoor (reader_id door_id : Z) : M App ServiceResult :=
  on_store (SqliteAccessStore.revokeDoorForReader reader_id door_id) ;;
  push_event "admin" "unbindDoor" reader_id door_id ;;
  mret done_.

Definition unquarantineReader (reader_id : Z) : M App ServiceResult :=
  s ← get;
  if negb (Detector.enabled (Detector._config (anomalyDetector s)))
  then mret (errorResult "misuse_detection_disabled" kHttpBadRequest)
  else
    let '(d, was) := Detector.unquarantine reader_id (anomalyDetector s) in
    modify (set_detector d) ;;
    if negb was then mret (errorResult "not_quarantined" kHttpBadRequest)
    else
      push_event "admin" "unquarantine" reader_id 0 ;;
      mret (okResult (JObj [("ok", JBool true); ("reader_id", JNum reader_id)]%string)).

(** *** door roles *)

Definition listDoorRoles : M App ServiceResult :=
  rows ← on_store (SqliteAccessStore.listDoorRoles 0);
  mret (okResult (JObj [("door_roles", JArr ((fun r => JObj [
    ("door_id", JNum (SqliteAccessStore.dr_door_id r));
    ("role", JStr (SqliteAccessStore.dr_role r))]) <$> rows))]))%string.

Definition allowRole (door_id : Z) (role : string) : M App ServiceResult :=
  on_store (SqliteAccessStore.allowRole door_id role) ;;
  push_event "admin" ("allowRole: " +:+ role) 0 door_id ;;
  mret done_.

Definition revokeRole (door_id : Z) (role : string) : M App ServiceResult :=
  on_store (SqliteAccessStore.revokeRole door_id role) ;;
  push_event "admin" ("revokeRole: " +:+ role) 0 door_id ;;
  mret done_.

(** *** cards *)

Definition listCards (limit offset : Z) : M App ServiceResult :=
  rows ← on_store (SqliteAccessStore.listCards limit offset);
  mret (okResult (JObj [("cards", JArr ((fun r => JObj [
    ("card_hmac", JStr (SqliteAccessStore.c_card_hmac r));
    ("role", JStr (SqliteAccessStore.c_role r))]) <$> rows))]))%string.

Definition upsertCard (card_id role : string) (key_version : option Z) : M App ServiceResult :=
  s ← get;
  let kv := default (Config.currentKeyVersion (Config.keyManagement (cfg s))) key_version in
  pepper ← lift (KeyManager.deriveCardPepper (keyManager s) kv);
  hmacHex ← lift (CardIdHasher.hmacHex pepper card_id);
  on_store (SqliteAccessStore.upsertCardHmac hmacHex role) ;;
  push_event "admin" ("upsertCard role=" +:+ role) 0 0 ;;
  mret (okResult (JObj [("ok", JBool true); ("card_hmac", JStr hmacHex)]%string)).

Definition deleteCard (card_hmac : string) : M App ServiceResult :=
  on_store (SqliteAccessStore.deleteCardHmac card_hmac) ;;
  push_event "admin" "deleteCard" 0 0 ;;
  mret done_.

(** *** access *)

(** [app.engine->handleFrameBytes(frame, app.replayByReader)] *)
Definition decide_frame (frameBytes : bytes) : M App Engine.DecisionResult :=
  on_engine (fun l e =>
    let _ := AuditInstance.sqlite_audit l in Engine.handleFrameBytes e frameBytes).

Definition checkAccess (frame_bytes : bytes) : M App ServiceResult :=
  r ← decide_frame frame_bytes;
  mret (okResult (JObj [("allow", JBool (Engine.allow r)); ("reason", JStr (Engine.reason r))]%string)).

(** *** events *)

(** [max_size] as in [EventBus.getAfter]. *)
Definition getEvents (max_size after_id limit : Z) : M App ServiceResult :=
  s ← get;
  evs ← lift (EventBus.getAfter max_size (events s) after_id limit);
  mret (okResult (JObj [
    ("last_id", JNum (EventBus.lastId (events s)));
    ("events", JArr ((fun e => JObj [
      ("id", JNum (EventBus.id e)); ("ts_unix_ms", JNum (EventBus.ts_unix_ms e));
      ("kind", JStr (EventBus.kind e)); ("message", JStr (EventBus.message e));
      ("reader_id", JNum (EventBus.reader_id e)); ("door_id", JNum (EventBus.door_id e));
      ("seq", JNum (EventBus.seqno e)); ("allow", JBool (EventBus.allow e));
      ("reason", JStr (EventBus.reason e))]) <$> evs))]))%string.

(** *** audit *)

Definition parseAuditRow (r : row) : value :=
  JObj [
    ("id", JNum (column_int64 (Helpers.col r 0)));
    ("ts_unix_ms", JNum (column_int64 (Helpers.col r 1)));
    ("reader_id", JNum (column_int (Helpers.col r 2)));
    ("door_id", JNum (column_int (Helpers.col r 3)));
    ("seq", JNum (column_int64 (Helpers.col r 4)));
    ("allow", JBool (bool_decide (column_int (Helpers.col r 5) <> 0)));
    ("reason", JStr (Helpers.text_of (Helpers.col r 6)));
    ("card_hmac", JStr (Helpers.text_of (Helpers.col r 7)));
    ("action", JStr (Helpers.text_of (Helpers.col r 8)))]%string.

(** [limit] and [offset] are [int]s. The rows up to the first step that is not
    [SQLITE_ROW], whatever that is. *)
Definition listAuditLog (limit offset : Z) : M App ServiceResult :=
  prepared ← on_store (fun d => (d, Ok (sqlite_prepare (Sql.text Sql.ListAudit) d)));
  if negb prepared then mret (errorResult "prepare failed" kHttpServerError)
  else
    r ← on_store (Helpers.run (Sql.text Sql.ListAudit) [VInt limit; VInt offset]);
    mret (okResult (JObj [("audit"%string, JArr (parseAuditRow <$> r.1))])).

Definition verifyAuditChain : M App ServiceResult :=
  s ← get;
  auditKey ← lift (deriveAuditHash (keyManager s));
  vr ← on_store (AuditVerify.verifyAuditChain true auditKey);
  mret (okResult (JObj [("ok", JBool (AuditVerify.ok vr)); ("error", JStr (AuditVerify.error vr))]%string)).

(** *** db *)

Record DbExportResult := mkDbExportResult {
  x_ok : bool; x_status : Z; x_error : string; x_data : string
}.

Definition exportDatabase : M App DbExportResult :=
  s ← get;
  mret (match read_file (dbPath s) (files s) with
        | None => mkDbExportResult false kHttpServerError "cannot open db file" EmptyString
        | Some content => mkDbExportResult true kHttpOk EmptyString content
        end).

(** An exception of [importDbFile] passes [remove] by. *)
Definition importDatabase (data : string) : M App ServiceResult :=
  s ← get;
  if decide (Config.maxUploadBytes (Config.admin (cfg s)) < Z.of_nat (String.length data))
  then mret (errorResult "file too large" kHttpPayloadTooLarge)
  else
    let tmp := dbPath s +:+ ".upload.tmp" in
    on_files (fun f => (write_file tmp data f, tt)) ;;
    '(ok, error) ← importDbFile tmp;
    on_files (fun f => (remove tmp f, tt)) ;;
    if negb ok then mret (errorResult ("IMPORT FAILED: " +:+ error) kHttpBadRequest)
    else mret (okResult (JObj [("message",
           JStr "IMPORT OK (integrity + verify passed, DB swapped, reopened)")]%string)).

(** *** hardware *)

Definition modes_of (c : Config.Config) : HwService.Modes :=
  let x := Config.experiment c in
  HwService.mkModes (Config.keyDerivationMode x) (Config.aadMode x) (Config.cipherMode x)
    (Config.nonceMode x).

Definition buildHwResponse (r : HwService.HwResponse) : value :=
  JObj (app [("allow", JBool (HwService.r_allow r)); ("reason", JStr (HwService.r_reason r))]
    match HwService.r_frame r with
    | None => []
    | Some (reader_id, door_id, seq, key_version) =>
        [("reader_id", JNum reader_id); ("door_id", JNum door_id); ("seq", JNum seq);
         ("key_version", JNum key_version)]
    end)%string.

(** [processHwUid], with the two locked parts on the state of the server. *)
Definition processHwUid (req : HwService.HwUidRequest) : M App ServiceResult :=
  s ← get;
  scan ← on_view (HwService.prepareScan (keyManager s) (modes_of (cfg s)) req);
  match scan with
  | inl response => mret (okResult (buildHwResponse response))
  | inr (kv, frameBytes) =>
      r ← (if decide (Config.decisionMode (Config.admin (cfg s)) = "remote"%string)
           then lift (HwService.remote_decision 3 0 frameBytes)
           else decide_frame frameBytes);
      mret (okResult (buildHwResponse (HwService.scan_response req kv r)))
  end.

End Services.
End Services.

(** ** What the administration promises

    The requests that change the policy, as updates of the abstract policy. *)

Module ServiceSpec.
Import ServiceTypes AppState AppSpec Services.

Inductive request :=
| UpsertReader (reader version : Z)
| DeleteReader (reader : Z)
| BindDoor (reader door : Z)
| UnbindDoor (reader door : Z)
| AllowRole (door : Z) (role : string)
| RevokeRole (door : Z) (role : string)
| UpsertCard (card role : string) (version : option Z)
| DeleteCard (card_hmac : string).

Section ServiceSpec.
Context `{SodiumLaws, Env, Json, HwService.Http} {D F : Type}.
Context `{SqliteReliable D, Files F, !SqliteFiles F D}.

Definition run_request (r : request) : M (AppState D F) ServiceResult :=
  match r with
  | UpsertReader r v => upsertReader r v
  | DeleteReader r => deleteReader r
  | BindDoor r d => bindDoor r d
  | UnbindDoor r d => unbindDoor r d
  | AllowRole d role => allowRole d role
  | RevokeRole d role => revokeRole d role
  | UpsertCard c role v => upsertCard c role v
  | DeleteCard c => deleteCard c
  end.

(** One after the other, until one does not return. *)
Fixpoint run_requests (l : list request) : M (AppState D F) (list ServiceResult) :=
  match l with
  | [] => mret []
  | r :: l' => x ← run_request r; xs ← run_requests l'; mret (x :: xs)
  end.

Definition pepper_version (s : AppState D F) (v : option Z) : Z :=
  default (Config.currentKeyVersion (Config.keyManagement (cfg s))) v.

Definition hash_of (s : AppState D F) (card : string) (v : option Z) : string :=
  EngineSpec.card_hash (keyManager s) (pepper_version s v) card.

Definition update_of (s : AppState D F) (r : request) : StoreSpec.update :=
  match r with
  | UpsertReader r v => StoreSpec.PutReader r v
  | DeleteReader r => StoreSpec.RemoveReader r
  | BindDoor r d => StoreSpec.BindDoor r d
  | UnbindDoor r d => StoreSpec.UnbindDoor r d
  | AllowRole d role => StoreSpec.GrantRole d role
  | RevokeRole d role => StoreSpec.WithdrawRole d role
  | UpsertCard c role v => StoreSpec.PutCard (hash_of s c v) role
  | DeleteCard c => StoreSpec.RemoveCard c
  end.

Definition response_of (s : AppState D F) (r : request) : ServiceResult :=
  match r with
  | UpsertCard c _ v =>
      okResult (JObj [("ok", JBool true); ("card_hmac", JStr (hash_of s c v))]%string)
  | _ => done_
  end.

(** Arguments that fit their types; a card is named and has a pepper. *)
Definition request_ok (s : AppState D F) (r : request) : Prop :=
  StoreSpec.update_ok (update_of s r) /\
  match r with
  | UpsertCard c _ v => c <> EmptyString /\ is_u32 (pepper_version s v) /\ pepper_version s v <> 0
  | _ => True
  end.

(** The policy after a sequence of requests. *)
Definition policy_after (s : AppState D F) (v : PolicyView) (l : list request) : PolicyView :=
  foldl (fun v r => StoreSpec.apply_update (update_of s r) v) v l.

(** Doors are bound to readers the policy knows by then. *)
Fixpoint binds_known (s : AppState D F) (v : PolicyView) (l : list request) : Prop :=
  match l with
  | [] => True
  | r :: l' =>
      match r with BindDoor reader _ => view_key_version v reader <> 0 | _ => True end /\
      binds_known s (StoreSpec.apply_update (update_of s r) v) l'
  end.

End ServiceSpec.
End ServiceSpec.

(** ** Lemmas *)

Module ServiceFacts.
Import ServiceTypes AppState AppSpec AppFacts Services StoreSpec ServiceSpec.

(** Updates respect the equivalence of policies. *)
#[export] Instance apply_update_proper u : Proper (view_equiv ==> view_equiv) (apply_update u).
Proof.
  intros v v' [E1 E2 E3 E4]. destruct u; split; intros; cbn; try case_decide; auto;
    try (by rewrite E2); try (by rewrite E4).
Qed.

Section ServiceFacts.
Context `{SodiumLaws, Env, Json, HwService.Http} {D F : Type}.
Context `{SqliteReliable D, Files F, !SqliteFiles F D}.

(** A known reader may be bound. *)
Lemma known_not_forbidden r door (d : D) :
  view_key_version (policy_of d) r <> 0 -> ~ StoreFacts.forbidden (StoreSpec.BindDoor r door) (content d).
Proof.
  intros Hk (_ & _ & En). apply Hk. cbn. by rewrite En.
Qed.

(** One request: store, event, answer. *)
Lemma wp_admin u kind message r door (resp : ServiceResult) (s : AppState D F) d
    (Q : ServiceResult -> AppState D F -> Prop) :
  serving s d -> update_ok u -> ~ StoreFacts.forbidden u (content d) ->
  (forall s' d', serving s' d' -> kept s s' ->
     Sql.current (content d') = StoreFacts.update_tables true u (Sql.current (content d)) -> Q resp s') ->
  wp True (on_store (run_update u) ;; push_event kind message r door ;; mret resp) s Q.
Proof.
  intros Hs Hu Hf HQ. apply wp_bind, (wp_on_store _ _ _ d); [apply Hs|].
  eapply wp_mono; [by apply (StoreFacts.wp_update True u d Hu (fun _ => _))|].
  intros [] d' Ed. cbn beta in Ed. rewrite (sg_fk _ _ Hs) in Ed.
  assert (serving (set_store (Some d') s) d') as Hs'.
  { apply (serving_store s d); try done; rewrite Ed; [done|by rewrite (sg_fk _ _ Hs)|].
    by destruct u; intros []; split. }
  apply wp_bind, wp_push_event; [intros _; apply Hs'|]. intros s2 Hp. apply wp_ret, (HQ s2 d').
  - by eapply published_serving.
  - etransitivity; [|by apply published_kept]. by split.
  - by rewrite Ed.
Qed.

Lemma wp_request (r : request) (s : AppState D F) d (Q : ServiceResult -> AppState D F -> Prop) :
  serving s d -> request_ok s r ->
  match r with BindDoor reader _ => view_key_version (policy_of d) reader <> 0 | _ => True end ->
  (forall s' d', serving s' d' -> kept s s' ->
     Sql.current (content d')
       = StoreFacts.update_tables true (update_of s r) (Sql.current (content d)) ->
     Q (response_of s r) s') ->
  wp True (run_request r) s Q.
Proof.
  intros Hs [Hu Hr] Hb HQ.
  assert (~ StoreFacts.forbidden (update_of s r) (content d)) as Hf.
  { destruct r; try by intros []. by apply known_not_forbidden. }
  destruct r as [q v|q|q dr|q dr|dr role|dr role|c role v|c];
    try exact (wp_admin _ _ _ _ _ _ s d Q Hs Hu Hf HQ).
  destruct Hr as (Hc & Hk & Hz). unfold run_request, upsertCard. apply wp_bind, wp_get.
  apply wp_bind. eapply wp_lift; [by apply EngineFacts.pepper_run|].
  apply wp_bind. eapply wp_lift; [by apply EngineFacts.card_hash_run|].
  exact (wp_admin _ _ _ _ _ _ s d Q Hs Hu Hf HQ).
Qed.

(** What requests do not change decides what later requests mean. *)
Lemma update_of_kept (s s' : AppState D F) r : kept s s' -> update_of s' r = update_of s r.
Proof. intros [E1 _ E3 _ _ _]. destruct r; try done. unfold update_of, hash_of, pepper_version. by rewrite E1, E3. Qed.

Lemma response_of_kept (s s' : AppState D F) r : kept s s' -> response_of s' r = response_of s r.
Proof. intros [E1 _ E3 _ _ _]. destruct r; try done. unfold response_of, hash_of, pepper_version. by rewrite E1, E3. Qed.

Lemma request_ok_kept (s s' : AppState D F) r : kept s s' -> request_ok s r -> request_ok s' r.
Proof.
  intros Hk [Hu Hr]. split; [by rewrite (update_of_kept s s')|].
  destruct r; try done. unfold pepper_version in *. by rewrite (k_cfg _ _ Hk).
Qed.

Lemma policy_after_equiv (s : AppState D F) l v v' :
  view_equiv v v' -> view_equiv (policy_after s v l) (policy_after s v' l).
Proof. revert v v'. induction l as [|r l IH]; intros v v' E; [done|]. by apply IH, apply_update_proper. Qed.

Lemma requests_run (l : list request) (s s0 : AppState D F) d v :
  serving s d -> kept s0 s -> view_equiv (policy_of d) v ->
  Forall (request_ok s0) l -> binds_known s0 v l ->
  exists s' d', run_requests l s = (s', Ok (response_of s0 <$> l)) /\ serving s' d' /\ kept s0 s' /\
    view_equiv (policy_of d') (policy_after s0 v l) /\
    Sql.audit_log (Sql.current (content d')) = Sql.audit_log (Sql.current (content d)).
Proof.
  revert s d v. induction l as [|r l IH]; intros s d v Hs Hk Ev Hok Hb; [by exists s, d|].
  apply Forall_cons in Hok as [Hr Hok]. destruct Hb as [Hb Hbs].
  destruct (wp_returns True (run_request r) s (fun resp s' => resp = response_of s0 r /\
      exists d', serving s' d' /\ kept s0 s' /\
        Sql.current (content d') = StoreFacts.update_tables true (update_of s0 r) (Sql.current (content d))))
    as (s1 & resp & E1 & -> & d1 & Hs1 & Hk1 & Ed1); [|done|].
  { apply (wp_request r s d); [done|by eapply request_ok_kept| |].
    - destruct r; try done. rewrite (eq_version _ _ Ev); [done|apply Hr].
    - intros s' d' Hs' Hk' Ed. split; [by apply response_of_kept|]. exists d'.
      rewrite (update_of_kept s0 s) in Ed by done. split; [done|]. split; [|done]. by etransitivity. }
  destruct (IH s1 d1 (apply_update (update_of s0 r) v)) as (s2 & d2 & E2 & Hs2 & Hk2 & Ev2 & Ea2);
    [done|done| |done..|].
  { cbn [policy_of StoreFacts.sqlite_store_spec]. rewrite Ed1. etransitivity;
      [apply StoreFacts.update_tables_policy, Hr|]. by apply apply_update_proper. }
  exists s2, d2. split; [|split; [done|split; [done|split; [done|]]]].
  - cbn [run_requests fmap list_fmap]. rewrite (M_bind_ok _ _ _ _ _ E1), (M_bind_ok _ _ _ _ _ E2). done.
  - rewrite Ea2, Ed1. by destruct (update_of s0 r).
Qed.

End ServiceFacts.

(** *** Scans at the hardware endpoint *)

Section Scans.
Context `{SodiumLaws, Env, !HwFacts.EnvLaws, JsonLaws, HwService.Http} {D F : Type}.
Context `{SqliteReliable D, Files F, !SqliteFiles F D} (l : SqliteAuditLog.SqliteAuditLog).
Import Engine EngineSpec EngineFacts HwFacts.

#[local] Instance log_instance : IAuditLog D := AuditInstance.sqlite_audit l.
#[local] Instance log_spec : AuditLogSpec D := AuditInstance.sqlite_audit_spec l.
#[local] Instance log_returns : AuditReturns D := AuditInstance.sqlite_audit_returns l.
#[local] Instance log_store : StoreAuditSpec D := AuditInstance.sqlite_store_audit_spec l.

(** The objects of the server, as the endpoint of [HwService] takes them. *)
Definition hw_app (s : AppState D F) : HwService.App :=
  HwService.mkApp (the_engine s) (modes_of (cfg s)) (Config.decisionMode (Config.admin (cfg s))).

Lemma serving_live (s : AppState D F) d : serving s d -> live (engine_view d s).
Proof. intros []. by split. Qed.

(** The view of the state after a part of the call. *)
Lemma view_with_view (s : AppState D F) (t : EState D) :
  is_Some (e_detector t) -> is_Some (e_events t) ->
  engine_view (h_ext (e_h t)) (with_view t s) = t.
Proof. intros [dt E1] [b E2]. destruct t as [[w x n] d e]. cbn in *. by subst. Qed.

Lemma evolves_objects r tr (s s' : EState D) :
  evolves r tr s s' -> is_Some (e_detector s) -> is_Some (e_events s) ->
  is_Some (e_detector s') /\ is_Some (e_events s').
Proof.
  intros [_ _ _ E4 E5 _] [d Ed] [b Eb]. rewrite Ed in E4. rewrite Eb in E5.
  destruct (e_detector s'), (e_events s'); try done; by eauto.
Qed.

(** The engine's decision on a frame, in the state of the server. *)
Lemma wp_decide_frame (s : AppState D F) d b (Q : DecisionResult -> AppState D F -> Prop) :
  store s = Some d -> audit s = Some (the_log s) -> engine s = Some (the_engine s) -> the_log s = l ->
  HandlerFacts.config_ok (runtime_config (cfg s)) -> ParserFacts.span_ok b ->
  live (engine_view d s) ->
  (forall t, after_call (the_engine s) b (engine_view d s) t ->
     Q (o_result (decision (the_engine s) (engine_view d s) b)) (with_view t s)) ->
  wp True (decide_frame b) s Q.
Proof.
  intros Es Ea Ee El Hc Hb Hl HQ. unfold decide_frame.
  apply (wp_on_engine _ _ s d); [done..|]. rewrite El. eapply wp_mono.
  { by apply (wp_engine True (fun _ => _) (fun _ => _) (the_engine s) b (engine_view d s)). }
  intros r t [-> A]. by apply HQ.
Qed.

(** The whole call on a scan that can be served. *)
Lemma wp_scan (s : AppState D F) d (req : HwService.HwUidRequest) text
    (Q : ServiceResult -> AppState D F -> Prop) :
  serving s d -> the_log s = l -> serviceable (hw_app s) req text (engine_view d s) ->
  Payload.parseAccessRequestJson text
    = Ok (Payload.mkAccessRequest (HwService.uid req) (HwService.action req)) ->
  let kv := view_key_version (policy_of d) (HwService.reader_id req) in
  (forall nonce s' d',
     let hd := Packet.mkHeader (HwService.reader_id req) (HwService.door_id req)
       (u64 (clock (ticks s))) (HwService.hw_seq req) kv nonce in
     let o := hw_outcome (hw_app s) req (engine_view d s) hd in
     store s' = Some d' -> trail_of d' = trail_of d ++ audited (the_engine s) hd o ->
     Q (okResult (buildHwResponse (HwService.scan_response req kv (o_result o)))) s') ->
  wp True (processHwUid req) s Q.
Proof.
  intros Hs El Hv Hp kv HQ. unfold processHwUid. apply wp_bind, wp_get.
  apply wp_bind, (wp_on_view _ _ s d); [apply Hs|].
  pose proof (serving_live s d Hs) as Hlive.
  apply (wp_prepareScan True (fun _ => _) (hw_app s) req text (engine_view d s)); [done..|].
  intros f nonce t Ht Hdt Hf.
  destruct (evolves_objects _ _ _ _ Ht) as [Hd Hb]; [by eexists..|].
  pose proof (view_with_view s t Hd Hb) as Et.
  rewrite decide_False by apply (sv_local _ _ _ _ Hv).
  destruct (scan_decision (hw_app s) req text _ _ f nonce Hv Ht Hdt Hp Hf) as (Hct & Eo & Eh).
  apply wp_bind, (wp_decide_frame (with_view t s) (h_ext (e_h t)));
    [done|apply Hs|apply Hs|done|apply (sv_config _ _ _ _ Hv)
    |apply WireSpec.serialize_span_ok; [apply Hf|done]|rewrite Et; by eapply evolves_live|].
  rewrite Et. intros t' A. apply wp_ret.
  change (the_engine (with_view t s)) with (HwService.engine (hw_app s)) in *.
  rewrite Eo. rewrite (bu_header _ _ _ _ _ _ _ Hf).
  apply (HQ nonce _ (h_ext (e_h t'))); [done|].
  pose proof (ac_trail _ _ _ _ A) as Etr. rewrite Eo, Eh in Etr.
  pose proof (ev_trail _ _ _ _ Ht) as Et1. rewrite app_nil_r in Et1. rewrite Et1 in Etr.
  by rewrite (bu_header _ _ _ _ _ _ _ Hf) in Etr.
Qed.

End Scans.

(** *** A frame before and after a restart *)

Section Restart.
Context `{SodiumLaws, Env, Json, HwService.Http} {D F : Type}.
Context `{SqliteReliable D, Files F, !SqliteFiles F D, !FilesLaws F D, !FilesReliable F D}.
Import Engine EngineSpec EngineFacts EngineProps.

(** The server after a restart on the file system [f]. *)
Definition restarted (s : AppState D F) (n : nat) (f : F) : AppState D F :=
  AppState_new (cfg s) (dbPath s) (keyManager s) n f.

(** A server restarted on a log that was committed serves what is on disk. *)
Lemma restart_opens (s : AppState D F) t n f :
  1 <= Config.maxEvents (Config.admin (cfg s)) -> version_ok s -> ChainFacts.log_ready t ->
  file_db (dbPath s) f = Some t ->
  exists s2 d2, openOrCreate (restarted s n f) = (s2, Ok tt) /\ serving s2 d2 /\
    kept (restarted s n f) s2 /\ Sql.current (content d2) = t.
Proof.
  intros Hev Hv Hl Hf.
  assert (with_anchor t = t) as Ew.
  { unfold with_anchor. by destruct (ChainFacts.ready_anchor _ Hl) as [a ->]. }
  destruct (wp_returns True openOrCreate (restarted s n f) (fun _ s2 => exists d2, serving s2 d2 /\
      kept (restarted s n f) s2 /\ Sql.current (content d2) = t))
    as (s2 & [] & E2 & d2 & ? & ? & ?); [|done|by exists s2, d2].
  apply (wp_openOrCreate True (fun _ => _) (restarted s n f) t); try done.
  - split; try done. by rewrite Ew.
  - intros s2 d2 Hs2 Hk2 Hcur _. exists d2. by rewrite Hcur.
Qed.

Lemma restart_run (s s1 : AppState D F) (d d1 : D) (b : bytes) (r : DecisionResult) (n : nat) (f : F) :
  serving s d -> HandlerFacts.config_ok (runtime_config (cfg s)) -> ParserFacts.span_ok b ->
  FrameHandler.maxSkewMs (runtime_config (cfg s)) = 0 ->
  Detector._config (anomalyDetector s) = Detector._config (anomalyDetector (restarted s n f)) ->
  1 <= Config.maxEvents (Config.admin (cfg s)) -> version_ok s ->
  decide_frame b s = (s1, Ok r) -> allow r = true ->
  store s1 = Some d1 -> ChainFacts.log_ready (Sql.current (content d1)) ->
  file_db (dbPath s) f = Some (Sql.current (content d1)) ->
  exists s2 s3, openOrCreate (restarted s n f) = (s2, Ok tt) /\ decide_frame b s2 = (s3, Ok r).
Proof.
  intros Hs Hc Hb Hsk Hdc Hev Hv E1 Ha Es1 Hl Hf.
  set (l := the_log s).
  pose (Q := fun (r : DecisionResult) (s1 : AppState D F) => exists t,
    s1 = with_view t s /\ r = o_result (decision (the_engine s) (engine_view d s) b) /\
    policy_of (h_ext (e_h t)) = policy_of d).
  assert (Q r s1) as (t & -> & -> & Hpol).
  { refine (wp_ok True _ s s1 r Q _ E1).
    apply (wp_decide_frame l s d); try done; try apply Hs; [by apply serving_live|].
    intros t A. exists t. split; [done|]. split; [done|]. apply (ac_policy _ _ _ _ A). }
  injection Es1 as <-.
  destruct (restart_opens s _ n f Hev Hv Hl Hf) as (s2 & d2 & E2 & Hs2 & Hk2 & Hcur).
  exists s2. destruct (log_new_engine _ _ Hk2) as [El Ee].
  destruct (wp_returns True (decide_frame b) s2 (fun r2 _ =>
      r2 = o_result (decision (the_engine s) (engine_view d s) b))) as (s3 & r2 & E3 & ->);
    [|done|by exists s3].
  apply (wp_decide_frame (the_log s2) s2 d2); try done; try apply Hs2;
    [by rewrite (k_cfg _ _ Hk2)|by apply serving_live|].
  intros t2 _. f_equal. rewrite Ee. apply decision_again; try done.
  - change (policy_of d2 = policy_of d). rewrite <- Hpol. cbn. by rewrite Hcur.
  - intros q k. unfold HandlerSpec.window_of. cbn [engine_view e_h h_windows].
    rewrite (k_windows _ _ Hk2). cbn [restarted AppState_new replayByReader]. by rewrite lookup_empty.
  - intros hd. cbn [engine_view e_detector]. rewrite (k_detector _ _ Hk2).
    intros Hr%fresh_detector_refuses. rewrite Hdc in Hr. exact Hr.
Qed.

End Restart.

(** *** A scan after administration *)

Section History.
Context `{SodiumLaws, Env, !HwFacts.EnvLaws, JsonLaws, HwService.Http} {D F : Type}.
Context `{SqliteReliable D, Files F, !SqliteFiles F D}.
Import Engine EngineSpec EngineFacts HwFacts.

Lemma find_role_equiv w v hashes :
  view_equiv w v -> Forall (fun c => cstr c = c) hashes ->
  find_role (view_role w) hashes = find_role (view_role v) hashes.
Proof.
  intros E. induction 1 as [|c hashes Hc _ IH]; [done|]. cbn. by rewrite (eq_role _ _ E), IH.
Qed.

(** Equivalent policies give one verdict. *)
Lemma policy_verdict_equiv (e : DecisionEngine) (d : D) v hd req :
  view_equiv (policy_of d) v -> is_u32 (Packet.reader_id hd) -> is_u32 (Packet.door_id hd) ->
  policy_verdict e (policy_of d) hd req = policy_verdict e v hd req.
Proof.
  intros E Hr Hd. unfold policy_verdict. do 2 (case_match; [done|]).
  rewrite <- (eq_version _ _ E) by done. case_match; [done|].
  assert (Forall (fun c => cstr c = c) (card_hashes e
    (view_key_version (policy_of d) (Packet.reader_id hd)) (Payload.cardId req))) as Hc.
  { apply Forall_fmap, Forall_forall. intros kv _. apply card_hash_text. }
  rewrite <- (find_role_equiv _ _ _ E Hc).
  destruct (find_role _ _) as [[c role]|] eqn:Ef; [|done].
  rewrite (eq_allowed _ _ E); [done|done|]. by eapply find_role_clean.
Qed.

(** What serving a scan takes: the engine in this process, numbers that fit
    their types, [text] as the payload, a number new to the reader's window, and
    clock readings within the skew. *)
Record scan_ready (s : AppState D F) (req : HwService.HwUidRequest) (text : string) : Prop := {
  sr_local : Config.decisionMode (Config.admin (cfg s)) <> "remote"%string;
  sr_config : HandlerFacts.config_ok (runtime_config (cfg s));
  sr_master : array_ok 32 (KeyManager._masterKey (keyManager s));
  sr_reader : is_u32 (HwService.reader_id req);
  sr_door : is_u32 (HwService.door_id req);
  sr_seq : is_u64 (HwService.hw_seq req);
  sr_payload : HwService.buildPayloadJson (HwService.uid req) (HwService.action req) = Ok text;
  sr_parsed : Payload.parseAccessRequestJson text
    = Ok (Payload.mkAccessRequest (HwService.uid req) (HwService.action req));
  sr_fits : Z.of_nat (String.length text) <= FrameHandler.maxCtLen (runtime_config (cfg s));
  sr_fresh d : FrameHandler.antiReplayEnabled (runtime_config (cfg s)) = true ->
    ReplayWindow.contains (HandlerSpec.window_of (handler_of (the_engine s))
      (e_h (engine_view d s)) (HwService.reader_id req)) (HwService.hw_seq req) = false;
  sr_clock : FrameHandler.maxSkewMs (runtime_config (cfg s)) <> 0 -> forall i j,
    Z.abs (u64 (clock i) - u64 (clock j)) <= FrameHandler.maxSkewMs (runtime_config (cfg s));
}.

(** The policy knows the reader and, where that matters, its door. *)
Definition knows (s : AppState D F) (v : PolicyView) (req : HwService.HwUidRequest) : Prop :=
  view_key_version v (HwService.reader_id req) <> 0 /\
  (FrameHandler.enforceReaderDoorBinding (runtime_config (cfg s)) = true ->
   view_bound v (HwService.reader_id req) (HwService.door_id req) = true).

Lemma scan_ready_serviceable (s s1 : AppState D F) d1 v req text :
  scan_ready s req text -> knows s v req -> kept s s1 -> view_equiv (policy_of d1) v ->
  serviceable (hw_app s1) req text (engine_view d1 s1).
Proof.
  intros [] [Hkn Hbo] [K1 K2 K3 K4 K5 K6] E. unfold hw_app, the_engine in *.
  split; cbn [HwService.decisionMode HwService.engine HwService.modes _frameHandlerCfg _keyManager
    _store]; rewrite ?K1, ?K3; try done.
  - change (h_ext (e_h (engine_view d1 s1))) with d1. by rewrite (eq_version _ _ E).
  - intros Hb. change (h_ext (e_h (engine_view d1 s1))) with d1. rewrite (eq_bound _ _ E); auto.
  - intros Ha. specialize (sr_fresh0 d1 Ha). unfold HandlerSpec.window_of, engine_view in *. cbn in *.
    by rewrite K6.
Qed.

(** The outcome of a scan under the policy [v]. *)
Definition scan_outcome (s : AppState D F) (v : PolicyView) (req : HwService.HwUidRequest)
    (hd : Packet.Header) : outcome :=
  if distrusts (Some (anomalyDetector s)) (HwService.reader_id req) (HwService.hw_seq req)
  then denied "quarantined"
  else policy_verdict (the_engine s) v hd
         (Payload.mkAccessRequest (HwService.uid req) (HwService.action req)).

Lemma scan_run (s s1 : AppState D F) d1 v req text :
  serving s1 d1 -> kept s s1 -> view_equiv (policy_of d1) v -> scan_ready s req text ->
  knows s v req ->
  exists s2 hd, Packet.reader_id hd = HwService.reader_id req /\
    Packet.door_id hd = HwService.door_id req /\
    processHwUid req s1 = (s2, Ok (okResult (buildHwResponse (HwService.scan_response req
      (view_key_version v (HwService.reader_id req)) (o_result (scan_outcome s v req hd)))))).
Proof.
  intros Hs Hk E Hr Hkn. pose proof (scan_ready_serviceable _ _ _ _ _ _ Hr Hkn Hk E) as Hv.
  set (P := fun (resp : ServiceResult) (_ : AppState D F) =>
    exists hd, Packet.reader_id hd = HwService.reader_id req /\
      Packet.door_id hd = HwService.door_id req /\
      resp = okResult (buildHwResponse (HwService.scan_response req
        (view_key_version v (HwService.reader_id req)) (o_result (scan_outcome s v req hd))))).
  assert (wp True (processHwUid req) s1 P) as Hw;
    [|by destruct (wp_returns True _ s1 P Hw I) as (s2 & resp & Ep & hd & E1 & E2 & ->); exists s2, hd].
  apply (wp_scan (the_log s1) s1 d1 req text P Hs eq_refl Hv (sr_parsed _ _ _ Hr)).
  intros nonce s2 d2 hd o _ _. exists hd. split; [done|]. split; [done|].
  destruct Hr. rewrite (eq_version _ _ E) by done. do 3 f_equal. unfold o, hw_outcome, scan_outcome.
  destruct Hk as [K1 K2 K3 K4 K5 K6]. cbn [engine_view e_detector]. rewrite K5.
  case_match; [done|]. change (h_ext (e_h (engine_view d1 s1))) with d1.
  rewrite (policy_verdict_equiv _ _ _ _ _ E) by done.
  unfold hw_app, the_engine. cbn [HwService.engine]. by rewrite K1, K3.
Qed.

(** A card with a role under the first pepper version that is tried. *)
Lemma verdict_first (e : DecisionEngine) v hd card kc role :
  _store e = true ->
  let k := view_key_version v (Packet.reader_id hd) in
  k <> 0 -> head (pepper_versions (_frameHandlerCfg e) k) = Some kc ->
  view_role v (card_hash (_keyManager e) kc card) = Some role ->
  o_result (policy_verdict e v hd (Payload.mkAccessRequest card "open"))
  = if view_allowed v (Packet.door_id hd) role then mkDecisionResult true "ok"
    else mkDecisionResult false "forbidden".
Proof.
  intros Hst k Hk Hh Hr. unfold policy_verdict. cbn [Payload.action Payload.cardId].
  rewrite decide_False by tauto. rewrite Hst. cbn [negb]. fold k. rewrite decide_False by done.
  unfold card_hashes. destruct (pepper_versions _ k) as [|kc' ks]; [done|]. injection Hh as ->.
  cbn [fmap list_fmap find_role]. by rewrite Hr.
Qed.

(** A history of requests and then a scan. *)
Lemma history_run (s : AppState D F) d l req text :
  serving s d -> Forall (request_ok s) l -> binds_known s (policy_of d) l ->
  let v := policy_after s (policy_of d) l in
  scan_ready s req text -> knows s v req ->
  exists s1 s2 hd, Packet.reader_id hd = HwService.reader_id req /\
    Packet.door_id hd = HwService.door_id req /\
    run_requests l s = (s1, Ok (response_of s <$> l)) /\
    processHwUid req s1 = (s2, Ok (okResult (buildHwResponse (HwService.scan_response req
      (view_key_version v (HwService.reader_id req)) (o_result (scan_outcome s v req hd)))))).
Proof.
  intros Hs Hl Hb v Hr Hkn.
  destruct (requests_run l s s d (policy_of d)) as (s1 & d1 & E1 & Hs1 & Hk1 & Ev & _); try done.
  destruct (scan_run s s1 d1 v req text) as (s2 & hd & E2 & E3 & E4); try done. by exists s1, s2, hd.
Qed.

(** Registering a reader and its door, a role for the door and a card. *)
Definition enrolment (reader version door : Z) (role card : string) (pepper : Z) : list request :=
  [UpsertReader reader version; BindDoor reader door; AllowRole door role;
   UpsertCard card role (Some pepper)].

Record enrollable (s : AppState D F) (reader version door : Z) (role card : string) (pepper : Z) :
    Prop := {
  en_reader : is_u32 reader;
  en_door : is_u32 door;
  en_version : 0 < version < 2 ^ 31;
  en_role : cstr role = role;
  en_card : card <> EmptyString;
  en_pepper : is_u32 pepper /\ pepper <> 0;
  en_first : head (pepper_versions (runtime_config (cfg s)) version) = Some pepper;
}.

Lemma enrolment_ok (s : AppState D F) v reader version door role card pepper :
  enrollable s reader version door role card pepper ->
  let l := enrolment reader version door role card pepper in
  Forall (request_ok s) (l ++ [RevokeRole door role]) /\
  Forall (request_ok s) l /\ binds_known s v (l ++ [RevokeRole door role]) /\ binds_known s v l.
Proof.
  intros [Hr Hd Hv Hro Hc [Hp Hp0] Hf] l.
  assert (is_u32 version) by (unfold is_u32; lia).
  assert (Forall (request_ok s) l) as Hl.
  { repeat apply Forall_cons_2; try by split. apply Forall_nil_2. }
  assert (forall l', binds_known s v (l ++ l') <-> binds_known s (policy_after s v l) l') as Hb.
  { intros l'. cbn. rewrite decide_True by done. rewrite decide_True by lia.
    split; [tauto|]. intros Hl'. repeat split; [lia|exact Hl']. }
  split_and!; try done.
  - apply Forall_app_2; [done|]. apply Forall_singleton. by split.
  - by apply Hb.
  - pose proof (proj2 (Hb []) I) as Hn. by rewrite app_nil_r in Hn.
Qed.

(** The policy afterwards, with or without the role withdrawn. *)
Lemma enrolment_policy (s : AppState D F) v reader version door role card pepper :
  enrollable s reader version door role card pepper ->
  let l := enrolment reader version door role card pepper in
  forall v', v' = policy_after s v l \/ v' = policy_after s v (l ++ [RevokeRole door role]) ->
  view_key_version v' reader = version /\ view_bound v' reader door = true /\
  view_role v' (card_hash (keyManager s) pepper card) = Some role.
Proof.
  intros [Hr Hd Hv Hro Hc [Hp Hp0] Hf] l v' Hv'.
  assert (view_key_version v' reader = view_key_version (policy_after s v l) reader /\
    view_bound v' reader door = view_bound (policy_after s v l) reader door /\
    view_role v' = view_role (policy_after s v l)) as (-> & -> & ->) by (by destruct Hv' as [->| ->]).
  cbn. rewrite decide_True, decide_True by (done || lia). split; [done|].
  rewrite bool_decide_true by done. split; [done|].
  rewrite decide_True; [by rewrite Hro|]. symmetry. apply card_hash_text.
Qed.

End History.
End ServiceFacts.

(** ** Properties *)

Module ServiceProps.
Import ServiceTypes AppState AppSpec AppFacts Services ServiceSpec ServiceFacts MemFiles AppProps
  ToySodium ToyJson HandlerProps HwProps.

Definition test_requests : list request :=
  enrolment 1 2 2 "guard" "04A1" 2.

(** C9: the administration interface is the abstract policy. On a server that is
    up and a database that does what it can, any sequence of requests to add,
    change or remove readers, bindings, roles and cards (each with arguments that
    fit their types, doors being bound to known readers) returns with success for
    each one; afterwards the database answers every question as the policy
    updated by these requests in order (a card under its hash with the pepper of
    its key version), and the audit log, the detector, the replay windows and the
    settings are untouched. *)
Theorem requests_refine_policy {D F : Type} `{SodiumLaws, Env, Json, HwService.Http}
    `{SqliteReliable D, Files F, !SqliteFiles F D} (s : AppState D F) (d : D) (l : list request) :
  serving s d -> Forall (request_ok s) l -> binds_known s (policy_of d) l ->
  exists s' d', run_requests l s = (s', Ok (response_of s <$> l)) /\ serving s' d' /\ kept s s' /\
    StoreSpec.view_equiv (policy_of d') (policy_after s (policy_of d) l) /\
    Sql.audit_log (Sql.current (content d')) = Sql.audit_log (Sql.current (content d)).
Proof. intros Hs Hl Hb. by apply (requests_run l s s d (policy_of d)). Qed.

Lemma test_enrollable : enrollable test_server 1 2 2 "guard" "04A1" 2.
Proof. by split; first [by_decision|split; by_decision]. Qed.

Lemma requests_refine_policy_witness :
  exists s' d', run_requests test_requests test_server
      = (s', Ok (response_of test_server <$> test_requests)) /\ serving s' d' /\ kept test_server s' /\
    StoreSpec.view_equiv (policy_of d')
      (policy_after test_server (policy_of test_connection) test_requests) /\
    Sql.audit_log (Sql.current (content d')) = Sql.audit_log (Sql.current (content test_connection)).
Proof.
  refine (requests_refine_policy test_server test_connection test_requests test_serving _ _);
    apply (enrolment_ok test_server (policy_of test_connection) _ _ _ _ _ _ test_enrollable).
Defined.

(** C6: enrolment works end to end, and so does revocation. On a server that is
    up, registering a reader, binding it to a door, allowing a role there and
    enrolling a card with that role makes the next scan of that card at that
    reader (fresh number, no quarantine) open the door: the endpoint seals the
    frame, the engine opens it, finds the card by its hash and answers "ok".
    Withdrawing the role from the door instead makes the same scan "forbidden". *)
Theorem enrolled_card_opens {D F : Type} `{SodiumLaws, Env, !HwFacts.EnvLaws, JsonLaws, HwService.Http}
    `{SqliteReliable D, Files F, !SqliteFiles F D} (s : AppState D F) (d : D)
    (version : Z) (role : string) (pepper : Z) (req : HwService.HwUidRequest) (text : string) :
  let reader := HwService.reader_id req in
  let door := HwService.door_id req in
  let l := enrolment reader version door role (HwService.uid req) pepper in
  serving s d -> enrollable s reader version door role (HwService.uid req) pepper ->
  scan_ready s req text -> HwService.action req = "open"%string ->
  HwFacts.distrusts (Some (anomalyDetector s)) reader (HwService.hw_seq req) = false ->
  (exists s1 s2, run_requests l s = (s1, Ok (response_of s <$> l)) /\
    processHwUid req s1 = (s2, Ok (okResult (buildHwResponse (HwService.scan_response req version
      (Engine.mkDecisionResult true "ok")))))) /\
  (exists s1 s2, run_requests (l ++ [RevokeRole door role]) s
      = (s1, Ok (response_of s <$> (l ++ [RevokeRole door role]))) /\
    processHwUid req s1 = (s2, Ok (okResult (buildHwResponse (HwService.scan_response req version
      (Engine.mkDecisionResult false "forbidden")))))).
Proof.
  intros reader door l Hs He Hr Ha Hq.
  destruct (enrolment_ok s (policy_of d) _ _ _ _ _ _ He) as (F1 & F2 & B1 & B2).
  assert (forall l', l' = l \/ l' = l ++ [RevokeRole door role] ->
    Forall (request_ok s) l' -> binds_known s (policy_of d) l' ->
    let v := policy_after s (policy_of d) l' in
    exists s1 s2, run_requests l' s = (s1, Ok (response_of s <$> l')) /\
      processHwUid req s1 = (s2, Ok (okResult (buildHwResponse (HwService.scan_response req version
        (if view_allowed v door role then Engine.mkDecisionResult true "ok"
         else Engine.mkDecisionResult false "forbidden")))))) as Hgen.
  { intros l' Hl Fl Bl v.
    destruct (enrolment_policy s (policy_of d) _ _ _ _ _ _ He v) as (Ek & Eb & Er);
      [by destruct Hl as [->| ->]; [left|right]|].
    assert (version <> 0) as Hv by (pose proof (en_version _ _ _ _ _ _ _ He); lia).
    destruct (history_run s d l' req text Hs Fl Bl Hr) as (s1 & s2 & hd & E1 & E2 & E3 & E4).
    { split; [|done]. change (view_key_version v reader <> 0). by rewrite Ek. }
    exists s1, s2. split; [done|]. rewrite E4. fold v reader door in E1, E2 |- *. rewrite Ek.
    unfold scan_outcome. fold reader. rewrite Hq, Ha.
    rewrite (verdict_first (the_engine s) v hd (HwService.uid req) pepper role), E2; rewrite ?E1, ?Ek;
      try done. apply He. }
  assert (view_allowed (policy_after s (policy_of d) l) door role = true) as A1.
  { cbn. rewrite bool_decide_true; [done|]. by rewrite (en_role _ _ _ _ _ _ _ He). }
  assert (view_allowed (policy_after s (policy_of d) (l ++ [RevokeRole door role])) door role = false)
    as A2 by (cbn; by rewrite bool_decide_true).
  split.
  - pose proof (Hgen l (or_introl eq_refl) F2 B2) as G. cbv zeta in G. rewrite A1 in G. exact G.
  - pose proof (Hgen _ (or_intror eq_refl) F1 B1) as G. cbv zeta in G. rewrite A2 in G. exact G.
Qed.

Definition test_request : HwService.HwUidRequest := HwService.mkHwUidRequest "04A1" 1 2 7 "open".

Lemma test_scan_ready : scan_ready test_server test_request test_text.
Proof.
  split; [by_decision|split; by_decision|by_decision..|vm_compute; reflexivity|vm_compute; reflexivity
         |by_decision| |].
  - intros d _. vm_compute. reflexivity.
  - intros Hn. by destruct Hn.
Qed.

Lemma enrolled_card_opens_witness :
  (exists s1 s2, run_requests test_requests test_server
      = (s1, Ok (response_of test_server <$> test_requests)) /\
    processHwUid test_request s1 = (s2, Ok (okResult (buildHwResponse
      (HwService.scan_response test_request 2 (Engine.mkDecisionResult true "ok")))))) /\
  (exists s1 s2, run_requests (test_requests ++ [RevokeRole 2 "guard"]) test_server
      = (s1, Ok (response_of test_server <$> (test_requests ++ [RevokeRole 2 "guard"]))) /\
    processHwUid test_request s1 = (s2, Ok (okResult (buildHwResponse
      (HwService.scan_response test_request 2 (Engine.mkDecisionResult false "forbidden")))))).
Proof.
  refine (enrolled_card_opens test_server test_connection 2 "guard" 2 test_request test_text
    test_serving test_enrollable test_scan_ready eq_refl _).
  vm_compute. reflexivity.
Defined.


(** C30: a restart forgets which frames were used. The replay windows and the
    detector live in memory only, so once time stamps are not checked
    (max_skew_ms is 0, the default), a frame that opened a door is granted again,
    with the same answer, by the server restarted on the database it left: anti-
    replay holds between two restarts only. *)
Theorem restart_readmits_frame {D F : Type} `{SodiumLaws, Env, Json, HwService.Http}
    `{SqliteReliable D, Files F, !SqliteFiles F D, !FilesLaws F D, !FilesReliable F D}
    (s s1 : AppState D F) (d d1 : D) (b : bytes) (r : Engine.DecisionResult) (n : nat) (f : F) :
  serving s d -> HandlerFacts.config_ok (runtime_config (cfg s)) -> ParserFacts.span_ok b ->
  FrameHandler.maxSkewMs (runtime_config (cfg s)) = 0 ->
  Detector._config (anomalyDetector s) = Detector._config (anomalyDetector (restarted s n f)) ->
  1 <= Config.maxEvents (Config.admin (cfg s)) -> version_ok s ->
  decide_frame b s = (s1, Ok r) -> Engine.allow r = true ->
  store s1 = Some d1 -> ChainFacts.log_ready (Sql.current (content d1)) ->
  file_db (dbPath s) f = Some (Sql.current (content d1)) ->
  exists s2 s3, openOrCreate (restarted s n f) = (s2, Ok tt) /\ decide_frame b s2 = (s3, Ok r).
Proof. apply restart_run. Qed.

(** Settings with the static pepper and key version 2, and their server. *)
Definition static_config : Config.Config :=
  let c := Config.Config_default in
  let x := Config.experiment c in
  Config.mkConfig (Config.frameHandler c) (Config.storage c) (Config.admin c)
    (Config.mkKeyManagementYaml 2 false "")
    (Config.mkExperimentConfig (Config.cipherMode x) (Config.nonceMode x)
       (Config.keyDerivationMode x) (Config.aadMode x) "static" (Config.auditChainEnabled x)
       (Config.misuseDetectionEnabled x) (Config.rollbackThreshold x) (Config.tagFailStreakLimit x)).

Definition static_server : AppState connection filesys :=
  Eval vm_compute in (openOrCreate (AppState_new static_config "data/access.db" KeyProps.test_km 0
    {["data/access.db"%string := Db AppProps.test_tables]})).1.

(** The reason given to card 04A1 after enrolling it, with or without a version. *)
Definition static_reason (version : option Z) : res string :=
  ((run_requests [UpsertCard "04A1" "staff" version] ;;
    r ← decide_frame EngineProps.test_request; mret (Engine.reason r)) static_server).2.

(** Without one, the card is stored under the pepper of version 2, and the engine
    looks for it under the static one. *)
Example static_pepper_misses :
  static_reason (Some 1) = Ok "ok"%string /\ static_reason None = Ok "unknown_card"%string.
Proof. vm_compute. split; reflexivity. Qed.

(** A server on which card 04A1 is enrolled, and the frame of its scan. *)
Definition enrolled : AppState connection filesys :=
  Eval vm_compute in (run_requests test_requests test_server).1.

Definition enrolled_connection : connection := Eval vm_compute in default test_connection (store enrolled).

Definition after_grant : AppState connection filesys :=
  Eval vm_compute in (decide_frame EngineProps.test_request enrolled).1.

Definition granted_connection : connection := Eval vm_compute in default test_connection (store after_grant).

Lemma enrolled_log : ChainFacts.log_ready (Sql.current (content enrolled_connection)).
Proof. split; [by eexists|by_decision|vm_compute; reflexivity]. Qed.

Lemma granted_log : ChainFacts.log_ready (Sql.current (content granted_connection)).
Proof. split; [by eexists|by_decision|vm_compute; reflexivity]. Qed.

Lemma enrolled_serving : serving enrolled enrolled_connection.
Proof.
  split; [reflexivity|vm_compute; reflexivity|reflexivity|by_decision|reflexivity|reflexivity
         |exact enrolled_log].
Qed.

Lemma restart_readmits_frame_witness :
  exists s2 s3, openOrCreate (restarted enrolled 50
      {["data/access.db"%string := Db (Sql.current (content granted_connection))]}) = (s2, Ok tt) /\
    decide_frame EngineProps.test_request s2 = (s3, Ok (Engine.mkDecisionResult true "ok")).
Proof.
  refine (restart_readmits_frame enrolled after_grant enrolled_connection granted_connection
    EngineProps.test_request (Engine.mkDecisionResult true "ok") 50 _
    enrolled_serving _ _ _ _ _ _ _ _ _ _ _).
  - split; by_decision.
  - by_decision.
  - vm_compute. reflexivity.
  - vm_compute. reflexivity.
  - by_decision.
  - split; by_decision.
  - vm_compute. reflexivity.
  - reflexivity.
  - vm_compute. reflexivity.
  - exact granted_log.
  - vm_compute. reflexivity.
Defined.

(** C18: a backup restores the policy and the log. On files and a database that do
    not fail: take the export of a server that serves, at a moment when the main file
    of its database holds all that is committed (the program does not see to that:
    in WAL mode the file may lack it). Importing those bytes on another server (with
    the same audit key, room for the upload, and a log with an intact chain)
    succeeds, and leaves that server at work on exactly the tables the exporting
    server works on, its own settings, keys and replay windows kept. *)
Theorem export_import_roundtrip {D F : Type} `{SodiumLaws, Env, Json, HwService.Http}
    `{SqliteReliable D, Files F, !SqliteFiles F D, !FilesLaws F D, !UploadLaws F D, !BackupLaws F D}
    `{!FilesReliable F D} (a b : AppState D F) (da d : D) (data : string) :
  let t := Sql.current (content da) in
  serving a da -> read_file (dbPath a) (files a) = Some data -> image data = Some t ->
  serving b d -> conn_path d = dbPath b -> AppFacts.version_ok b -> audit_key b = audit_key a ->
  Z.of_nat (String.length data) <= Config.maxUploadBytes (Config.admin (cfg b)) ->
  ChainSpec.chain_ok (audit_key a) t ->
  exportDatabase a = (a, Ok (mkDbExportResult true 200 EmptyString data)) /\
  exists b' d' r, importDatabase data b = (b', Ok r) /\ ok r = true /\
    serving b' d' /\ kept b b' /\ Sql.current (content d') = t.
Proof.
  intros t Ha Er Ef Hs Hd Hv Hkey Hlen Hc. rewrite <- Hkey in Hc.
  pose proof (ChainFacts.ready_id _ (sg_log _ _ Ha)) as Hi. fold t in Hi. split.
  { unfold exportDatabase. rewrite (M_bind_ok get _ a a a) by done. by rewrite Er. }
  unfold importDatabase. rewrite (M_bind_ok get _ b b b) by done. rewrite decide_False by lia.
  set (tmp := dbPath b +:+ ".upload.tmp"). set (b1 := set_files (write_file tmp data (files b)) b).
  assert (file_db tmp (files b1) = Some t) as Et by (cbn; by rewrite image_written).
  destruct (AppFacts.import_succeeds b1 d tmp t) as (b2 & d' & E & Hs' & Hk & Ec);
    [by destruct Hs|done|done|by apply append_ne|intros E; by apply (inj (String.append (dbPath b))) in E|done|exact (upload_fits tmp data (files b) t Et)|done..|].
  rewrite (M_bind_ok _ _ b b1 tt) by done. rewrite (M_bind_ok _ _ _ _ _ E).
  eexists (set_files (remove tmp (files b2)) b2), d', _. split; [reflexivity|].
  split; [done|]. split; [by destruct Hs'|]. split; [|done].
  transitivity b1; [by split|]. transitivity b2; [done|by split].
Qed.

(** A server whose database came from a backup. *)
Definition backed_up : AppState connection filesys := Eval vm_compute in
  (openOrCreate (AppState_new Config.Config_default "data/access.db" KeyProps.test_km 0
    {["data/access.db"%string := Raw "backup"]})).1.

Definition backup_connection : connection :=
  ("data/access.db"%string, Sql.mkDatabase backup_tables None true).

Lemma export_import_roundtrip_witness :
  exportDatabase backed_up = (backed_up, Ok (mkDbExportResult true 200 EmptyString "backup")) /\
  exists b' d' r, importDatabase "backup" test_server = (b', Ok r) /\ ok r = true /\
    serving b' d' /\ kept test_server b' /\ Sql.current (content d') = backup_tables.
Proof.
  refine (export_import_roundtrip backed_up test_server backup_connection test_connection "backup"
    _ _ _ test_serving _ _ _ _ _).
  - split; vm_compute; done.
  - reflexivity.
  - vm_compute. reflexivity.
  - reflexivity.
  - split; by_decision.
  - vm_compute. reflexivity.
  - by_decision.
  - split; [|by eexists]. split_and!; [vm_compute; reflexivity..|exact I].
Defined.

End ServiceProps.
