(* ===== verification/Http.v ===== *)
(** access_admin/http_utils, the conversions of the standard library its routes
    use, and requests and responses. cpp-httplib delivers a [Request] and sends
    the [Response]; nlohmann::json is the class [Json] with [JsonDoc]. *)
From Stdlib Require Import ZArith Lia Ascii.
From stdpp Require Import base option list gmap strings pretty.
From S2P Require Import Prelude LittleEndian Wire Keys Access FrameHandling HwService Services.
Local Open Scope Z_scope.

(** ** [std::stoull], [std::stoul] and [std::stoi] *)

Module StdString.

Definition digit (c : ascii) : option Z :=
  if decide (48 <= Hex.code c <= 57) then Some (Hex.code c - 48) else None.

(** The number the leading digits of a text write, continuing from [n]. *)
Fixpoint digits (n : Z) (s : string) : Z :=
  match s with
  | String c s' => match digit c with Some k => digits (10 * n + k) s' | None => n end
  | EmptyString => n
  end.

Fixpoint skip_space (s : string) : string :=
  match s with
  | String c s' => if Hex.isspace c then skip_space s' else s
  | EmptyString => EmptyString
  end.

(** White space, an optional sign, digits, and then anything: the sign and the
    number, or [None] if there is no digit. *)
Definition number (s : string) : option (bool * Z) :=
  let s := skip_space s in
  let '(negative, s) :=
    match s with
    | String c s' => if decide (c = "-"%char) then (true, s')
                     else if decide (c = "+"%char) then (false, s') else (false, s)
    | EmptyString => (false, s)
    end in
  match s with
  | String c _ => match digit c with Some _ => Some (negative, digits 0 s) | None => None end
  | EmptyString => None
  end.

(** A negative number is negated in the unsigned type. *)
Definition sto_unsigned (what : string) (s : string) : res Z :=
  match number s with
  | None => Throw (invalid_argument what)
  | Some (negative, n) =>
      if decide (2 ^ 64 <= n) then Throw (std_exception what)
      else Ok (if negative : bool then u64 (- n) else n)
  end.

Definition stoull : string -> res Z := sto_unsigned "stoull".
Definition stoul : string -> res Z := sto_unsigned "stoul".

Definition stoi (s : string) : res Z :=
  match number s with
  | None => Throw (invalid_argument "stoi")
  | Some (negative, n) =>
      let v := if negative : bool then - n else n in
      if decide (- 2 ^ 31 <= v < 2 ^ 31) then Ok v else Throw (std_exception "stoi")
  end.

End StdString.

(** ** http_utils *)

Module HttpUtils.

Definition hexNibble (c : ascii) : res Z :=
  let c := Hex.code c in
  if decide (48 <= c <= 57) then Ok (u8 (c - 48))
  else if decide (97 <= c <= 102) then Ok (u8 (10 + (c - 97)))
  else if decide (65 <= c <= 70) then Ok (u8 (10 + (c - 65)))
  else Throw (runtime_error "invalid hex char").

(** The loop over pairs; the length is even. *)
Fixpoint pairs (s : list ascii) : res bytes :=
  match s with
  | [] => Ok []
  | [_] => Fault
  | c1 :: c2 :: s' =>
      hi ← hexNibble c1;
      lo ← hexNibble c2;
      rest ← pairs s';
      Ok (u8 (Z.lor (Z.shiftl hi 4) lo) :: rest)
  end.

Definition hexToBytes (hex : string) : res bytes :=
  let s := filter (fun c => Hex.isspace c = false) (String.list_ascii_of_string hex) in
  if decide (Nat.modulo (length s) 2 <> 0%nat) then Throw (runtime_error "hex odd length")
  else pairs s.

Definition kHexChars : string := "0123456789abcdef".

Definition hex_char (n : Z) : ascii := default zero (String.get (Z.to_nat n) kHexChars).

Fixpoint bytesToHex (v : bytes) : string :=
  match v with
  | [] => EmptyString
  | b :: v' =>
      String (hex_char (Z.land (Z.shiftr b 4) 15))
        (String (hex_char (Z.land (Z.shiftr b 0) 15)) (bytesToHex v'))
  end.

Definition sodiumInitOrThrow (sodium_ready : bool) : res unit :=
  if negb sodium_ready then Throw (runtime_error "libsodium init failed") else Ok tt.

End HttpUtils.

(** ** JSON documents

    [json_at] is [at(key)], [get_uint w] is [get<uintw_t>()], [get_str] is
    [get<std::string>()]; each throws when the document does not allow it.
    [dump_value] is [dump(2)], which throws on text that is not UTF-8. *)
Class JsonDoc `{Json} := {
  json_at : json -> string -> res json;
  get_uint : Z -> json -> res Z;
  get_str : json -> res string;
  dump_value : ServiceTypes.value -> res string;
}.

(** The texts in a value. *)
Fixpoint texts (v : ServiceTypes.value) : list string :=
  match v with
  | ServiceTypes.JStr s => [s]
  | ServiceTypes.JArr l => concat (texts <$> l)
  | ServiceTypes.JObj l => concat ((fun kv => kv.1 :: texts kv.2) <$> l)
  | _ => []
  end.

(** Printable ASCII. *)
Definition printable (s : string) : Prop :=
  Forall (fun c => 32 <= Hex.code c < 127) (String.list_ascii_of_string s).
#[export] Instance printable_dec s : Decision (printable s).
Proof. unfold printable. apply _. Defined.

(** [get_uint] gives a number of its type; printable text can be dumped. *)
Class JsonDocLaws `{JsonLaws, !JsonDoc} := {
  get_uint_range w j z : 0 <= w -> get_uint w j = Ok z -> 0 <= z < 2 ^ w;
  dump_printable v : Forall printable (texts v) -> exists s, dump_value v = Ok s;
}.

(** ** The hardware request *)

Module HwRequest.
Section HwRequest.
Context `{Json, !JsonDoc}.

(** [j.value(key, d)] of an object. *)
Definition value_or (j : json) (key d : string) : res string :=
  if json_contains j key then x ← json_at j key; get_str x else Ok d.

(** The fields, where [catch (...)] turns into [None]. *)
Definition parse (j : json) : res HwService.HwUidRequest :=
  uid ← (if json_contains j "uid" then x ← json_at j "uid"; get_str x
         else x ← json_at j "card_id"; get_str x);
  reader_id ← (x ← json_at j "reader_id"; get_uint 32 x);
  door_id ← (x ← json_at j "door_id"; get_uint 32 x);
  hw_seq ← (x ← json_at j "hw_seq"; get_uint 64 x);
  action ← value_or j "action" "open";
  Ok (HwService.mkHwUidRequest uid reader_id door_id hw_seq action).

Definition parseHwUidRequest (j : json) : res (option HwService.HwUidRequest) :=
  match parse j with
  | Ok req => Ok (Some req)
  | Throw _ => Ok None
  | Fault => Fault
  end.

End HwRequest.
End HwRequest.

(** ** Requests and responses *)

Module HttpTypes.

(** What httplib delivers: the body, a header by name (empty if absent), a
    parameter of the query, the groups the path matched, and the contents of
    the file field [db] if the body is a multipart form that has one. *)
Record Request := mkRequest {
  q_body : string;
  q_header : string -> string;
  q_param : string -> option string;
  q_matches : list string;
  q_db : option string;
}.

(** [res.matches[i]], [i] from 1. *)
Definition match_ (req : Request) (i : nat) : string := default EmptyString (q_matches req !! pred i).

Record Response := mkResponse {
  p_status : Z;
  p_headers : list (string * string);
  p_content : string;
  p_type : string;
}.

(** The response a handler starts from; httplib sends status 200 for -1. *)
Definition Response_new : Response := mkResponse (-1) [] "" "".

Definition set_header (name v : string) (r : Response) : Response :=
  mkResponse (p_status r) (p_headers r ++ [(name, v)]) (p_content r) (p_type r).

Definition set_content (content type : string) (r : Response) : Response :=
  mkResponse (p_status r) (p_headers r) content type.

Definition set_status (status : Z) (r : Response) : Response :=
  mkResponse status (p_headers r) (p_content r) (p_type r).

Section HttpTypes.
Context `{Json, !JsonDoc}.

Definition setJson (j : ServiceTypes.value) (status : Z) : res Response :=
  text ← dump_value j;
  Ok (set_content text "application/json" (set_status status Response_new)).

Definition checkAuth (req : Request) (token : string) : bool :=
  match token with
  | EmptyString => true
  | _ => bool_decide (q_header req "X-Admin-Token" = token)
  end.

(** [json::parse(req.body)] *)
Definition parse_body (req : Request) : res json :=
  match json_parse (q_body req) with
  | inl what => Throw (std_exception what)
  | inr j => Ok j
  end.

End HttpTypes.
End HttpTypes.

(** ** Lemmas *)

Module HttpFacts.
Import StdString HttpUtils.

(** *** Decimal numbers *)

Lemma digit_char n : (n < 10)%N -> digit (pretty_N_char n) = Some (Z.of_N n).
Proof.
  intros Hn. assert (In n (N.of_nat <$> seq 0 10)) as Hin.
  { rewrite <- (N2Nat.id n). apply in_map, in_seq. lia. }
  cbn in Hin. destruct_or! Hin; subst; by vm_compute.
Qed.

Lemma digits_go x s : digits 0 (pretty_N_go x s) = digits (Z.of_N x) s.
Proof.
  revert s. induction (N.lt_wf_0 x) as [x _ IH]. intros s.
  destruct (decide (x = 0%N)) as [->|Hx]; [by rewrite pretty_N_go_0|].
  rewrite pretty_N_go_step by lia. rewrite IH by (apply N.div_lt; lia). cbn [digits].
  rewrite digit_char by (apply N.mod_lt; lia). f_equal. pose proof (N.div_mod x 10). lia.
Qed.

Lemma go_head x s : (0 < x)%N ->
  exists c r k, pretty_N_go x s = String c r /\ digit c = Some k.
Proof.
  revert s. induction (N.lt_wf_0 x) as [x _ IH]. intros s Hx.
  rewrite pretty_N_go_step by lia. destruct (decide (x `div` 10 = 0)%N) as [E|Hn].
  - rewrite E, pretty_N_go_0. eexists _, _, _. split; [done|].
    apply digit_char, N.mod_lt. lia.
  - apply IH; [apply N.div_lt; lia|by apply N.neq_0_lt_0].
Qed.

Lemma to_string_digits z : 0 <= z -> digits 0 (to_string z) = z.
Proof.
  intros Hz. unfold to_string, pretty, pretty_N. case_decide as E.
  - by replace z with 0 by lia.
  - rewrite digits_go. cbn. lia.
Qed.

Lemma to_string_head z : exists c r k, to_string z = String c r /\ digit c = Some k.
Proof.
  unfold to_string, pretty, pretty_N. case_decide as E; [by eexists _, _, 0|]. apply go_head. lia.
Qed.

Lemma digit_plain c k :
  digit c = Some k -> Hex.isspace c = false /\ c <> "-"%char /\ c <> "+"%char.
Proof.
  unfold digit. case_decide as Hc; [|done]. intros _.
  split; [unfold Hex.isspace; apply bool_decide_eq_false; lia|].
  split; intros ->; by vm_compute in Hc; destruct Hc.
Qed.

(** What a number printed reads back as. *)
Lemma number_to_string z : 0 <= z -> number (to_string z) = Some (false, z).
Proof.
  intros Hz. destruct (to_string_head z) as (c & r & k & E & Ek). unfold number.
  destruct (digit_plain c k Ek) as (Hs & Hm & Hp).
  pose proof (to_string_digits z Hz) as Ed. rewrite E in *. cbn [skip_space]. rewrite Hs.
  rewrite decide_False, decide_False by done. by rewrite Ek, Ed.
Qed.

Lemma sto_unsigned_to_string what z :
  is_u64 z -> sto_unsigned what (to_string z) = Ok z.
Proof.
  intros Hz. unfold is_u64 in Hz. unfold sto_unsigned. rewrite number_to_string by lia.
  rewrite decide_False by lia. done.
Qed.

(** *** Hexadecimal text *)

Lemma hexNibble_char n : 0 <= n < 16 ->
  hexNibble (hex_char n) = Ok n /\ Hex.isspace (hex_char n) = false.
Proof.
  intros Hn. pose proof (CardFacts.nibble_cases n Hn) as Hin. cbn in Hin.
  destruct_or! Hin; subst; by vm_compute.
Qed.

Lemma hex_run v :
  bytes_ok v ->
  filter (fun c => Hex.isspace c = false) (String.list_ascii_of_string (bytesToHex v))
    = String.list_ascii_of_string (bytesToHex v) /\
  length (String.list_ascii_of_string (bytesToHex v)) = (2 * length v)%nat /\
  pairs (String.list_ascii_of_string (bytesToHex v)) = Ok v.
Proof.
  induction 1 as [|b v Hb _ (I1 & I2 & I3)]; [done|].
  destruct (CardFacts.nibbles b Hb) as (N1 & N2 & N3).
  destruct (hexNibble_char _ N1) as [E1 S1], (hexNibble_char _ N2) as [E2 S2].
  cbn [bytesToHex String.list_ascii_of_string length pairs].
  rewrite !filter_cons_True, I1, I2, E1, E2 by done. cbn [mbind res_bind].
  rewrite I3. cbn [mbind res_bind]. rewrite N3. split; [done|]. split; [lia|done].
Qed.

Lemma hexToBytes_bytesToHex v : bytes_ok v -> hexToBytes (bytesToHex v) = Ok v.
Proof.
  intros Hv. destruct (hex_run v Hv) as (E1 & E2 & E3). unfold hexToBytes. rewrite E1, E2, E3.
  rewrite decide_False; [done|]. rewrite Nat.mul_comm, Nat.Div0.mod_mul. tauto.
Qed.

End HttpFacts.
