(* ===== verification/JsonText.v ===== *)
(** The text of flat JSON objects: what RFC 8259 makes of it, as laws of the JSON
    library, and a concrete library ([FlatJson]) that reads and writes it. *)
From Stdlib Require Import ZArith Lia Ascii.
From stdpp Require Import base option list strings pretty.
From S2P Require Import Prelude Keys Access Services Http.
Local Open Scope Z_scope.

Module JsonText.
Import ServiceTypes.

Definition quote_char : ascii := ascii_of_nat 34.
Definition newline : string := String (ascii_of_nat 10) EmptyString.
Definition quoted (s : string) : string := String quote_char (s +:+ String quote_char EmptyString).

(** Text that stands for itself between quotes: printable, no quote, no
    backslash. *)
Definition plain_char (c : ascii) : Prop :=
  32 <= Hex.code c < 127 /\ c <> quote_char /\ Hex.code c <> 92.
Definition plain (s : string) : Prop := Forall plain_char (String.list_ascii_of_string s).
#[export] Instance plain_dec s : Decision (plain s).
Proof. unfold plain, plain_char. apply _. Defined.

Inductive scalar := SStr (s : string) | SNum (n : Z).

Definition scalar_ok (v : scalar) : Prop :=
  match v with SStr s => plain s | SNum n => 0 <= n end.
#[export] Instance scalar_ok_dec v : Decision (scalar_ok v).
Proof. destruct v; apply _. Defined.

(** The text without white space. *)
Definition render_scalar (v : scalar) : string :=
  match v with SStr s => quoted s | SNum n => to_string n end.
Definition render_member (m : string * scalar) : string :=
  quoted m.1 +:+ ":" +:+ render_scalar m.2.
Fixpoint render_tail (l : list (string * scalar)) : string :=
  match l with
  | [] => "}"
  | m :: l' => "," +:+ render_member m +:+ render_tail l'
  end.
Definition render (l : list (string * scalar)) : string :=
  match l with
  | [] => "{}"
  | m :: l' => "{" +:+ render_member m +:+ render_tail l'
  end.

(** Such texts are valid UTF-8; such a document is read as the object it
    writes. [dump(2)] writes the members in
    the order of their keys, each on a line of its own. *)
Class JsonTextLaws `{JsonDocLaws} : Prop := {
  plain_ok s : plain s -> text_ok s;
  parse_render l :
    Forall (fun m => plain m.1 /\ scalar_ok m.2) l -> NoDup l.*1 ->
    exists j, json_parse (render l) = inr j /\ is_object j = true /\
      (forall k, json_contains j k = bool_decide (k ∈ l.*1)) /\
      (forall k v, (k, v) ∈ l -> exists x, json_at j k = Ok x /\
        match v with
        | SStr s => get_str x = Ok s
        | SNum n => forall w, n < 2 ^ w -> get_uint w x = Ok n
        end);
  dump_first k b l text :
    plain k -> Forall (fun m => String.leb k m.1 = true) l ->
    dump_value (JObj ((k, JBool b) :: l)) = Ok text ->
    exists rest, text = "{" +:+ newline +:+ "  " +:+ quoted k +:+ ": "
      +:+ (if b : bool then "true" else "false") +:+ rest;
}.

End JsonText.

(** ** A concrete library *)

Module FlatJson.
Import ServiceTypes JsonText StdString.

Inductive flat := FStr (s : string) | FNum (n : Z) | FObj (l : list (string * scalar)) | FNone.

Fixpoint until_quote (s : string) : option (string * string) :=
  match s with
  | EmptyString => None
  | String c s' =>
      if decide (c = quote_char) then Some (EmptyString, s')
      else match until_quote s' with Some (p, r) => Some (String c p, r) | None => None end
  end.

Fixpoint read_number (n : Z) (s : string) : Z * string :=
  match s with
  | String c s' => match digit c with Some k => read_number (10 * n + k) s' | None => (n, s) end
  | EmptyString => (n, EmptyString)
  end.

Definition read_scalar (s : string) : option (scalar * string) :=
  match s with
  | String c s' =>
      if decide (c = quote_char)
      then '(t, r) ← until_quote s'; Some (SStr t, r)
      else match digit c with
           | Some _ => let (n, r) := read_number 0 s in Some (SNum n, r)
           | None => None
           end
  | EmptyString => None
  end.

(** One character, which must be [c]. *)
Definition expect (c : ascii) (s : string) : option string :=
  match s with
  | String c' s' => if decide (c' = c) then Some s' else None
  | EmptyString => None
  end.

Definition read_member (s : string) : option (string * scalar * string) :=
  s ← expect quote_char s;
  '(k, s) ← until_quote s;
  s ← expect ":"%char s;
  '(v, s) ← read_scalar s;
  Some (k, v, s).

(** One unit of fuel per member; the length of the text is enough. *)
Fixpoint read_tail (fuel : nat) (s : string) : option (list (string * scalar)) :=
  match fuel with
  | O => None
  | S fuel' =>
      if decide (s = "}"%string) then Some []
      else
        s ← expect ","%char s;
        '(m, s) ← read_member s;
        l ← read_tail fuel' s;
        Some (m :: l)
  end.

Definition read (s : string) : option (list (string * scalar)) :=
  if decide (s = "{}"%string) then Some []
  else
    s ← expect "{"%char s;
    '(m, s) ← read_member s;
    l ← read_tail (S (String.length s)) s;
    Some (m :: l).

Fixpoint assoc (k : string) (l : list (string * scalar)) : option scalar :=
  match l with
  | [] => None
  | (k', v) :: l' => if decide (k = k') then Some v else assoc k l'
  end.

Definition of_scalar (v : scalar) : flat :=
  match v with SStr s => FStr s | SNum n => FNum n end.

Definition flat_at (j : flat) (k : string) : option flat :=
  match j with FObj l => of_scalar <$> assoc k l | _ => None end.

#[export] Instance json : Json := {|
  Access.json := flat;
  json_parse s := match read s with Some l => inr (FObj l) | None => inl "syntax error"%string end;
  is_object j := match j with FObj _ => true | _ => false end;
  json_contains j k := bool_decide (is_Some (flat_at j k));
  at_ j k := default FNone (flat_at j k);
  is_string j := match j with FStr _ => true | _ => false end;
  get_string j := match j with FStr s => s | _ => EmptyString end;
  json_object kvs := FObj ((fun kv => (kv.1, SStr kv.2)) <$> kvs);
  dump j := match j with FObj l => Ok (render l) | _ => Throw (std_exception "unsupported") end;
|}.

(** An indented text; of a nested value, only that it is there. *)
Definition scalar_text (v : value) : string :=
  match v with
  | JBool b => if b then "true" else "false"
  | JNum z => to_string z
  | JStr s => quoted s
  | JArr _ => "[]"
  | JObj _ => "{}"
  end.

Fixpoint indented (l : list (string * value)) : string :=
  match l with
  | [] => newline +:+ "}"
  | (k, v) :: l' => "," +:+ newline +:+ "  " +:+ quoted k +:+ ": " +:+ scalar_text v +:+ indented l'
  end.

Definition dump2 (v : value) : string :=
  match v with
  | JObj ((k, v) :: l) => "{" +:+ newline +:+ "  " +:+ quoted k +:+ ": " +:+ scalar_text v +:+ indented l
  | v => scalar_text v
  end.

#[export] Instance json_doc : JsonDoc := {|
  json_at j k := match flat_at j k with Some x => Ok x | None => Throw (std_exception "key not found") end;
  get_uint w j :=
    match j with
    | FNum n => Ok (wrap w n)
    | _ => Throw (std_exception "type must be number")
    end;
  get_str j := match j with FStr s => Ok s | _ => Throw (std_exception "type must be string") end;
  dump_value v := Ok (dump2 v);
|}.

(** *** Reading back what is written *)

Lemma until_quote_app s r :
  plain s -> until_quote (s +:+ String quote_char r) = Some (s, r).
Proof.
  unfold plain. induction s as [|c s IH]; intros Hs.
  - done.
  - cbn [String.list_ascii_of_string] in Hs. apply Forall_cons in Hs as [(_ & Hc & _) Hs].
    change ((String c s) +:+ String quote_char r) with (String c (s +:+ String quote_char r)).
    cbn [until_quote]. rewrite decide_False by done. by rewrite IH.
Qed.

Lemma cons_app c s r : String c s +:+ r = String c (s +:+ r).
Proof. done. Qed.

Lemma char_app c r : String c EmptyString +:+ r = String c r.
Proof. done. Qed.

Lemma string_app_assoc (a b c : string) : (a +:+ b) +:+ c = a +:+ (b +:+ c).
Proof. induction a as [|x a IH]; [done|]. by apply (f_equal (String x)). Qed.

Lemma pretty_go_app x s t : pretty_N_go x s +:+ t = pretty_N_go x (s +:+ t).
Proof.
  revert s. induction (N.lt_wf_0 x) as [x _ IH]. intros s.
  destruct (decide (x = 0%N)) as [->|Hx]; [by rewrite !pretty_N_go_0|].
  rewrite (pretty_N_go_step x s), (pretty_N_go_step x (s +:+ t)) by lia.
  by rewrite IH by (apply N.div_lt; lia).
Qed.

(** The text after a number does not go on with a digit. *)
Definition no_digit (r : string) : Prop :=
  match r with String c _ => digit c = None | EmptyString => True end.

Lemma read_number_stop n r : no_digit r -> read_number n r = (n, r).
Proof. destruct r as [|c r]; [done|]. cbn. by intros ->. Qed.

Lemma read_number_go x r : read_number 0 (pretty_N_go x r) = read_number (Z.of_N x) r.
Proof.
  revert r. induction (N.lt_wf_0 x) as [x _ IH]. intros r.
  destruct (decide (x = 0%N)) as [->|Hx]; [by rewrite pretty_N_go_0|].
  rewrite pretty_N_go_step by lia. rewrite IH by (apply N.div_lt; lia). cbn [read_number].
  rewrite HttpFacts.digit_char by (apply N.mod_lt; lia). f_equal. pose proof (N.div_mod x 10). lia.
Qed.

Lemma read_number_app z r : 0 <= z -> no_digit r -> read_number 0 (to_string z +:+ r) = (z, r).
Proof.
  intros Hz Hr. unfold to_string, pretty, pretty_N. case_decide as E.
  - replace z with 0 by lia. exact (read_number_stop 0 r Hr).
  - rewrite pretty_go_app, read_number_go. rewrite read_number_stop by done. f_equal. lia.
Qed.

Lemma quoted_app s r : quoted s +:+ r = String quote_char (s +:+ String quote_char r).
Proof.
  change (quoted s +:+ r) with (String quote_char ((s +:+ String quote_char EmptyString) +:+ r)).
  by rewrite string_app_assoc.
Qed.

Lemma read_scalar_app v r :
  scalar_ok v -> no_digit r -> read_scalar (render_scalar v +:+ r) = Some (v, r).
Proof.
  intros Hv Hr. destruct v as [s|n]; cbn [render_scalar scalar_ok] in *.
  - rewrite quoted_app. cbn [read_scalar]. rewrite decide_True by done.
    by rewrite until_quote_app.
  - destruct (HttpFacts.to_string_head n) as (c & t & k & E & Ek).
    pose proof (read_number_app n r Hv Hr) as En. rewrite E in *.
    rewrite cons_app in *. cbn [read_scalar].
    rewrite decide_False by (intros ->; by vm_compute in Ek). by rewrite Ek, En.
Qed.

Lemma read_member_app m r :
  plain m.1 -> scalar_ok m.2 -> no_digit r -> read_member (render_member m +:+ r) = Some (m, r).
Proof.
  intros Hk Hv Hr. unfold render_member. rewrite string_app_assoc, quoted_app.
  unfold read_member. cbn [expect]. rewrite decide_True by done. cbn [mbind option_bind].
  rewrite until_quote_app by done. cbn [mbind option_bind].
  change ((":" +:+ render_scalar m.2) +:+ r) with (String ":" (render_scalar m.2 +:+ r)).
  cbn [expect]. rewrite decide_True by done.
  cbn [mbind option_bind]. rewrite read_scalar_app by done. by destruct m.
Qed.

Lemma tail_no_digit l : no_digit (render_tail l).
Proof. by destruct l. Qed.

Lemma read_tail_render l fuel :
  (length l < fuel)%nat -> Forall (fun m => plain m.1 /\ scalar_ok m.2) l ->
  read_tail fuel (render_tail l) = Some l.
Proof.
  revert fuel. induction l as [|m l IH]; intros [|fuel] Hf Hl; cbn [length] in Hf; try lia; [done|].
  apply Forall_cons in Hl as [[Hk Hv] Hl]. cbn [render_tail read_tail].
  rewrite decide_False by done. rewrite char_app. cbn [expect]. rewrite decide_True by done.
  cbn [mbind option_bind]. rewrite read_member_app by (done || apply tail_no_digit).
  cbn [mbind option_bind]. rewrite IH by (done || lia). done.
Qed.

Lemma tail_length l : (length l < S (String.length (render_tail l)))%nat.
Proof.
  induction l as [|m l IH]; cbn [length render_tail]; [lia|].
  assert (forall a b : string, String.length (a +:+ b) = (String.length a + String.length b)%nat) as Ha.
  { intros a b. induction a as [|c a IHa]; [done|]. exact (f_equal S IHa). }
  rewrite !Ha. change (String.length ",") with 1%nat. lia.
Qed.

Lemma read_render l : Forall (fun m => plain m.1 /\ scalar_ok m.2) l -> read (render l) = Some l.
Proof.
  intros Hl. destruct l as [|m l]; [done|]. apply Forall_cons in Hl as [[Hk Hv] Hl].
  unfold read, render. rewrite decide_False by (unfold render_member, quoted; done).
  rewrite char_app. cbn [expect]. rewrite decide_True by done. cbn [mbind option_bind].
  rewrite read_member_app by (done || apply tail_no_digit). cbn [mbind option_bind].
  rewrite read_tail_render by (done || apply tail_length). done.
Qed.

Lemma assoc_elem k v l : NoDup l.*1 -> (k, v) ∈ l -> assoc k l = Some v.
Proof.
  induction l as [|[k' v'] l IH]; cbn [fmap list_fmap]; [by intros _ ?%not_elem_of_nil|].
  intros [Hn Hnd]%NoDup_cons. rewrite elem_of_cons. intros [[= -> ->]|Hin]; cbn [assoc].
  - by rewrite decide_True.
  - rewrite decide_False; [by apply IH|]. intros ->. apply Hn. by apply (list_elem_of_fmap_2 fst) in Hin.
Qed.

Lemma assoc_is_Some k l : is_Some (assoc k l) <-> k ∈ l.*1.
Proof.
  induction l as [|[k' v'] l IH]; cbn [assoc fmap list_fmap].
  - split; [by intros []|by intros ?%not_elem_of_nil].
  - rewrite elem_of_cons. case_decide as E; cbn [fst].
    + split; [by left|by eexists].
    + rewrite IH. split; [by right|by intros [|]].
Qed.

#[export] Instance json_laws : JsonLaws.
Proof.
  refine {| text_ok := plain |}. intros kvs Ht Hn.
  exists (render ((fun kv => (kv.1, SStr kv.2)) <$> kvs)), (FObj ((fun kv => (kv.1, SStr kv.2)) <$> kvs)).
  split; [done|]. split.
  { cbn. rewrite read_render; [done|]. apply Forall_fmap. by eapply Forall_impl. }
  split; [done|]. intros k v Hin.
  assert (assoc k ((fun kv => (kv.1, SStr kv.2)) <$> kvs) = Some (SStr v)) as E.
  { apply assoc_elem; [by rewrite <- list_fmap_compose|].
    by apply (list_elem_of_fmap_2 (fun kv : string * string => (kv.1, SStr kv.2))) in Hin. }
  cbn. by rewrite E.
Defined.

#[export] Instance json_doc_laws : JsonDocLaws.
Proof.
  split.
  - intros w [s|n|l|] z Hw; try done. cbn. intros [= <-]. apply Z.mod_pos_bound. lia.
  - intros v _. by eexists.
Qed.

#[export] Instance json_text_laws : JsonTextLaws.
Proof.
  split.
  - done.
  - intros l Hl Hn. exists (FObj l). cbn. rewrite read_render by done.
    split; [done|]. split; [done|]. split.
    + intros k. apply bool_decide_ext. rewrite fmap_is_Some. apply assoc_is_Some.
    + intros k v Hin. rewrite (assoc_elem k v l Hn Hin). eexists. split; [done|].
      rewrite Forall_forall in Hl. destruct (Hl _ Hin) as [_ Hv]. destruct v as [s|n]; [done|].
      intros w Hw. cbn in Hv |- *. f_equal. unfold wrap. by rewrite Z.mod_small.
  - intros k b l text _ _. cbn. intros [= <-]. eexists. by destruct b.
Qed.

End FlatJson.
