(* ===== verification/Routes.v ===== *)
(** access_admin/routes_api and main: the handlers registered with the HTTP
    servers, and how the program starts. The arguments of a call are evaluated
    from left to right; C++ leaves the order open, which can matter for the text
    of an error only. *)
From Stdlib Require Import ZArith Lia Ascii.
From stdpp Require Import base option list gmap strings.
From S2P Require Import Prelude LittleEndian Wire Replay Crypto Keys Events Detector Access FrameHandling Engine Sqlite SqliteStore AuditLog Config HwService AppState Services Http JsonText.
Local Open Scope Z_scope.

Module Routes.
Import ServiceTypes AppState Services HttpTypes StdString.

Section Routes.
Context `{Sodium, Env, Json, !JsonDoc, HwService.Http} {D F : Type}.
Context `{Sqlite D, Files F, !SqliteFiles F D}.

(** [sodium_ready] is [sodium_init() >= 0]; [event_vector_max] the [max_size()]
    of a vector of events. *)
Context (sodium_ready : bool) (event_vector_max : Z).

Abbreviation App := (AppState D F).
Abbreviation Handler := (Request -> M (AppState D F) Response).

Definition sendResult (r : ServiceResult) : M App Response := lift (setJson (body r) (http_status r)).

(** [if (!requireAuth(req, res, app.cfg.admin.adminToken)) return;] *)
Definition requireAuth (req : Request) (k : M App Response) : M App Response :=
  s ← get;
  if negb (checkAuth req (Config.adminToken (Config.admin (cfg s))))
  then sendResult (errorResult "unauthorized" kHttpUnauthorized)
  else k.

(** [try { m } catch (const std::exception& e) { ... e.what() ... }] *)
Definition or_error (status : Z) (m : M App Response) : M App Response :=
  try_catch m (fun e =>
    match FrameHandler.what_of e with
    | Some what => sendResult (errorResult what status)
    | None => throw e
    end).

(** [j.at(key).get<uint32_t>()] and [j.at(key).get<std::string>()] *)
Definition at_u32 (j : json) (key : string) : M App Z :=
  lift (x ← json_at j key; get_uint 32 x).
Definition at_string (j : json) (key : string) : M App string :=
  lift (x ← json_at j key; get_str x).

(** [req.has_param(name) ? conv(req.get_param_value(name)) : d] *)
Definition param_or (conv : string -> res Z) (req : Request) (name : string) (d : Z) : M App Z :=
  lift (match q_param req name with Some v => conv v | None => Ok d end).

(** [static_cast<uint32_t>(std::stoul(req.matches[i]))] *)
Definition path_id (req : Request) (i : nat) : M App Z :=
  lift (n ← stoul (match_ req i); Ok (u32 n)).

Definition get_root : Handler := fun _ =>
  mret (set_header "Location" "/static/index.html" (set_status kHttpRedirect Response_new)).

Definition get_events : Handler := fun req => requireAuth req (
  after ← param_or stoull req "after" 0;
  limit ← param_or stoull req "limit" kDefaultLimit;
  r ← getEvents event_vector_max after limit;
  sendResult r).

Definition get_readers : Handler := fun req => requireAuth req (r ← listReaders; sendResult r).

Definition post_readers : Handler := fun req => requireAuth req (or_error kHttpBadRequest (
  j ← lift (parse_body req);
  reader_id ← at_u32 j "reader_id";
  current_key_version ← at_u32 j "current_key_version";
  r ← upsertReader reader_id current_key_version;
  sendResult r)).

Definition delete_reader : Handler := fun req => requireAuth req (or_error kHttpServerError (
  reader_id ← path_id req 1;
  r ← deleteReader reader_id;
  sendResult r)).

Definition post_reader_door : Handler := fun req => requireAuth req (or_error kHttpBadRequest (
  j ← lift (parse_body req);
  reader_id ← path_id req 1;
  door_id ← at_u32 j "door_id";
  r ← bindDoor reader_id door_id;
  sendResult r)).

Definition delete_reader_door : Handler := fun req => requireAuth req (or_error kHttpServerError (
  reader_id ← path_id req 1;
  door_id ← path_id req 2;
  r ← unbindDoor reader_id door_id;
  sendResult r)).

Definition post_unquarantine : Handler := fun req => requireAuth req (or_error kHttpServerError (
  reader_id ← path_id req 1;
  r ← unquarantineReader reader_id;
  sendResult r)).

Definition get_door_roles : Handler := fun req => requireAuth req (r ← listDoorRoles; sendResult r).

Definition post_door_roles : Handler := fun req => requireAuth req (or_error kHttpBadRequest (
  j ← lift (parse_body req);
  door_id ← at_u32 j "door_id";
  role ← at_string j "role";
  r ← allowRole door_id role;
  sendResult r)).

Definition delete_door_roles : Handler := fun req => requireAuth req (or_error kHttpBadRequest (
  j ← lift (parse_body req);
  door_id ← at_u32 j "door_id";
  role ← at_string j "role";
  r ← revokeRole door_id role;
  sendResult r)).

Definition get_cards : Handler := fun req => requireAuth req (
  limit ← param_or stoull req "limit" kDefaultLimit;
  offset ← param_or stoull req "offset" 0;
  r ← listCards limit offset;
  sendResult r).

Definition post_cards : Handler := fun req => requireAuth req (or_error kHttpBadRequest (
  j ← lift (parse_body req);
  kv ← (if json_contains j "key_version"
        then v ← at_u32 j "key_version"; mret (Some v) else mret None);
  card_id ← at_string j "card_id";
  role ← at_string j "role";
  r ← upsertCard card_id role kv;
  sendResult r)).

Definition delete_cards : Handler := fun req => requireAuth req (or_error kHttpBadRequest (
  j ← lift (parse_body req);
  card_hmac ← at_string j "card_hmac";
  r ← deleteCard card_hmac;
  sendResult r)).

Definition get_audit : Handler := fun req => requireAuth req (
  limit ← param_or stoi req "limit" (i32 kDefaultLimit);
  offset ← param_or stoi req "offset" 0;
  r ← listAuditLog limit offset;
  sendResult r).

Definition post_audit_verify : Handler := fun req => requireAuth req (
  r ← verifyAuditChain; sendResult r).

(** The double quote. *)
Definition quote : string := String (ascii_of_nat 34) EmptyString.

Definition get_db_export : Handler := fun req => requireAuth req (
  result ← exportDatabase;
  if negb (x_ok result)
  then mret (set_content (x_error result) "text/plain" (set_status (x_status result) Response_new))
  else mret (set_content (x_data result) "application/octet-stream"
         (set_header "Content-Disposition"
            ("attachment; filename=" +:+ quote +:+ "access.db" +:+ quote) Response_new))).

(** [result.body.value(key, d)]: the bodies here are objects of texts. *)
Definition body_text (v : value) (key d : string) : string :=
  match v with
  | JObj l =>
      match list_find (fun kv => kv.1 = key) l with
      | Some (_, (_, JStr s)) => s
      | _ => d
      end
  | _ => d
  end.

Definition post_db_import : Handler := fun req => requireAuth req (
  match q_db req with
  | None =>
      mret (set_content "expected multipart form-data with file field 'db'" "text/plain"
        (set_status kHttpBadRequest Response_new))
  | Some content =>
      result ← importDatabase content;
      if negb (ok result)
      then mret (set_content (body_text (body result) "error" "unknown error") "text/plain"
             (set_status (http_status result) Response_new))
      else mret (set_content (body_text (body result) "message" "OK") "text/plain" Response_new)
  end).

(** The hardware endpoint: a signature instead of the token. *)
Definition post_hw_uid : Handler := fun req =>
  s ← get;
  let sigHex := q_header req "X-HW-Signature" in
  let '(good, sigErr) := HwService.verifyHwSignature sodium_ready sigHex (q_body req)
    (Config.hwSharedSecretHex (Config.admin (cfg s))) in
  if negb good then
    let status := if decide (sigErr = "misconfigured"%string) then kHttpServerError
                  else kHttpUnauthorized in
    lift (setJson (JObj [("allow", JBool false); ("reason", JStr sigErr)]%string) status)
  else or_error kHttpBadRequest (
    j ← lift (parse_body req);
    hwReq ← lift (HwRequest.parseHwUidRequest j);
    match hwReq with
    | None => sendResult (errorResult "invalid request" kHttpBadRequest)
    | Some hwReq =>
        if decide (HwService.hw_seq hwReq = 0)
        then sendResult (errorResult "hw_seq must be > 0" kHttpBadRequest)
        else r ← processHwUid hwReq; sendResult r
    end).

(** [registerRoutes]: method, path and handler; the files under /static are
    served by httplib. *)
Definition registerRoutes : list (string * string * Handler) := [
  ("GET", "/", get_root);
  ("GET", "/api/events", get_events);
  ("GET", "/api/readers", get_readers);
  ("POST", "/api/readers", post_readers);
  ("DELETE", "/api/readers/(\d+)", delete_reader);
  ("POST", "/api/readers/(\d+)/doors", post_reader_door);
  ("DELETE", "/api/readers/(\d+)/doors/(\d+)", delete_reader_door);
  ("POST", "/api/readers/(\d+)/unquarantine", post_unquarantine);
  ("GET", "/api/door_roles", get_door_roles);
  ("POST", "/api/door_roles", post_door_roles);
  ("DELETE", "/api/door_roles", delete_door_roles);
  ("GET", "/api/cards", get_cards);
  ("POST", "/api/cards", post_cards);
  ("DELETE", "/api/cards", delete_cards);
  ("GET", "/api/audit", get_audit);
  ("POST", "/api/audit/verify", post_audit_verify);
  ("GET", "/api/db/export", get_db_export);
  ("POST", "/api/db/import", post_db_import);
  ("POST", "/api/hw/uid", post_hw_uid)]%string.

End Routes.
End Routes.

(** ** main *)

Module Main.
Import ServiceTypes AppState Services HttpTypes.

Section Main.
Context `{Sodium, Env, Json, !JsonDoc, HwService.Http, Yaml} {D F : Type}.
Context `{Sqlite D, Files F, !SqliteFiles F D}.

(** The decision service on the second port: [POST /api/decision/frame]. *)
Definition decision_frame (req : Request) : M (AppState D F) Response :=
  let answer allow reason status :=
    lift (setJson (JObj [("allow", JBool allow); ("reason", JStr reason)]%string) status) in
  match q_body req with
  | EmptyString => answer false "empty_frame"%string 400
  | _ =>
      try_catch
        (result ← decide_frame (bytes_of_string (q_body req));
         answer (Engine.allow result) (Engine.reason result) 200)
        (fun e =>
           match FrameHandler.what_of e with
           | Some _ => answer false "internal_error"%string 500
           | None => throw e
           end)
  end.

(** [const uint16_t decisionPort = cfg.admin.port + 1;] *)
Definition decisionPort (c : Config.Config) : Z := wrap 16 (Config.port (Config.admin c) + 1).

(** [argv[1]], if given. *)
Definition config_path (argv1 : option string) : string :=
  default "config/access_security.yaml"%string argv1.

(** [main] up to the servers: the state they start from. *)
Definition start (sodium_ready : bool) (argv1 : option string) (ticks0 : nat) (files0 : F) :
    res (AppState D F) :=
  _ ← HttpUtils.sodiumInitOrThrow sodium_ready;
  cfg ← Config.loadFromYaml (config_path argv1);
  let path := Config.masterKeyPath (Config.keyManagement cfg) in
  master ← KeyManager.loadMasterKeyHexFile path (read_file path files0);
  km ← KeyManager.KeyManager_new master
    (KeyManager.mkKeyManagerConfig (Config.currentKeyVersion (Config.keyManagement cfg))
       (Config.allowPreviousKeyVersion (Config.keyManagement cfg)));
  let app := AppState_new cfg (Config.sqlitePath (Config.storage cfg)) km ticks0 files0 in
  match openOrCreate app with
  | (app', Ok _) => Ok app'
  | (_, Throw e) => Throw e
  | (_, Fault) => Fault
  end.

End Main.
End Main.

(** ** Lemmas *)

Module RouteFacts.
Import ServiceTypes AppState AppSpec AppFacts Services HttpTypes StdString HttpFacts Routes Main.

Section RouteFacts.
Context `{Sodium, Env, Json, !JsonDoc, HwService.Http} {D F : Type}.
Context `{Sqlite D, Files F, !SqliteFiles F D}.
Context (sodium_ready : bool) (event_vector_max : Z).

(** The request shows the token the server asks for, if it asks for one. *)
Definition authorized (s : AppState D F) (req : Request) : bool :=
  checkAuth req (Config.adminToken (Config.admin (cfg s))).

Lemma requireAuth_denies (s : AppState D F) req k text :
  authorized s req = false ->
  dump_value (body (errorResult "unauthorized" kHttpUnauthorized)) = Ok text ->
  requireAuth req k s = (s, Ok (mkResponse 401 [] text "application/json")).
Proof.
  unfold authorized. intros Ha Et. unfold requireAuth. rewrite (M_bind_ok get _ s s s) by done.
  rewrite Ha. cbn [negb]. unfold sendResult, lift, setJson. by rewrite Et.
Qed.

Lemma requireAuth_passes (s : AppState D F) req k :
  authorized s req = true -> requireAuth req k s = k s.
Proof.
  unfold authorized. intros Ha. unfold requireAuth. rewrite (M_bind_ok get _ s s s) by done.
  by rewrite Ha.
Qed.

(** Handlers that begin by asking for the token. *)
Definition guarded (h : Request -> M (AppState D F) Response) : Prop :=
  exists k, forall req, h req = requireAuth req (k req).

Lemma routes_guarded :
  Forall (fun r : string * string * (Request -> M (AppState D F) Response) =>
    r.1.2 = "/"%string \/ r.1.2 = "/api/hw/uid"%string \/ guarded r.2)
    (registerRoutes sodium_ready event_vector_max).
Proof.
  unfold registerRoutes. repeat (apply Forall_cons_2;
    [first [by left|by right; left|right; right; by eexists]|]). apply Forall_nil_2.
Qed.

Lemma path_id_run (s : AppState D F) req i n :
  is_u64 n -> match_ req i = to_string n -> path_id req i s = (s, Ok (u32 n)).
Proof.
  intros Hn Em. unfold path_id, lift. rewrite Em. unfold stoul.
  by rewrite sto_unsigned_to_string.
Qed.

(** The response to a request that is not signed with the secret. *)
Definition hw_refusal (sigErr : string) : res Response :=
  setJson (JObj [("allow", JBool false); ("reason", JStr sigErr)]%string)
    (if decide (sigErr = "misconfigured"%string) then kHttpServerError else kHttpUnauthorized).

(** The hardware endpoint as a table. *)
Lemma hw_route_run (s : AppState D F) req :
  post_hw_uid sodium_ready req s =
    match HwService.verifyHwSignature sodium_ready (q_header req "X-HW-Signature") (q_body req)
            (Config.hwSharedSecretHex (Config.admin (cfg s))) with
    | (false, sigErr) => (s, hw_refusal sigErr)
    | (true, _) =>
        or_error kHttpBadRequest
          (match parse_body req ≫= HwRequest.parseHwUidRequest with
           | Throw e => throw e
           | Fault => fault
           | Ok None => sendResult (errorResult "invalid request" kHttpBadRequest)
           | Ok (Some hwReq) =>
               if decide (HwService.hw_seq hwReq = 0)
               then sendResult (errorResult "hw_seq must be > 0" kHttpBadRequest)
               else r ← processHwUid hwReq; sendResult r
           end) s
    end.
Proof.
  unfold post_hw_uid. rewrite (M_bind_ok get _ s s s) by done.
  destruct (HwService.verifyHwSignature _ _ _ _) as [[] sigErr]; [|done]. cbn [negb].
  unfold or_error, try_catch, mbind, M_bind, res_bind, lift.
  destruct (parse_body req) as [j|e|]; cbn [mbind res_bind]; [|done..].
  by destruct (HwRequest.parseHwUidRequest j) as [[hwReq|]|e|].
Qed.

End RouteFacts.

Lemma parseHex_loop_array n hex k :
  Hex.parseHex_loop n hex = Ok k -> length k = n /\ bytes_ok k.
Proof.
  revert hex k. induction n as [|n IH]; intros hex k; cbn;
    [intros [= <-]; split; [done|by apply Forall_nil_2]|].
  destruct hex as [|c1 [|c2 hex]]; [done..|]. intros E. inv_res.
  destruct (IH hex _ E2) as [El Hl]. split; [cbn; congruence|]. constructor; [apply u8_range|done].
Qed.

Lemma parseHex_array s k : Hex.parseHex s = Ok k -> array_ok 32 k.
Proof. unfold Hex.parseHex. case_decide; [done|]. apply parseHex_loop_array. Qed.

(** *** What the handlers do to the server *)

Section Handlers.
Context `{SodiumLaws, Env, JsonDocLaws, HwService.Http} {D F : Type}.
Context `{SqliteReliable D, Files F, !SqliteFiles F D}.

(** A response whose texts are printable is sent. *)
Lemma sendResult_run (r : ServiceResult) (s : AppState D F) :
  Forall printable (texts (body r)) ->
  exists text, dump_value (body r) = Ok text /\
    sendResult r s = (s, Ok (mkResponse (http_status r) [] text "application/json")).
Proof.
  intros Hp. destruct (dump_printable _ Hp) as [text E]. exists text. split; [done|].
  unfold sendResult, lift, setJson. by rewrite E.
Qed.

(** A handler that returns is not interrupted. *)
Lemma or_error_ok status (m : M (AppState D F) Response) (s s' : AppState D F) r :
  m s = (s', Ok r) -> or_error status m s = (s', Ok r).
Proof. intros E. unfold or_error, try_catch. by rewrite E. Qed.

(** What is thrown before anything changed gives the error response. *)
Lemma or_error_throw status (m : M (AppState D F) Response) (s : AppState D F) e what :
  m s = (s, Throw e) -> FrameHandler.what_of e = Some what -> printable what ->
  exists text, or_error status m s = (s, Ok (mkResponse status [] text "application/json")).
Proof.
  intros E Ew Hp. unfold or_error, try_catch. rewrite E, Ew.
  destruct (sendResult_run (errorResult what status) s) as (text & _ & Es); [|by exists text].
  apply Forall_cons_2; [by_decision|by apply Forall_singleton].
Qed.

(** A request of the administration, after the token and the arguments. *)
Lemma admin_run (s : AppState D F) d (r : ServiceSpec.request) :
  AppSpec.serving s d -> ServiceSpec.request_ok s r ->
  match r with
  | ServiceSpec.BindDoor reader _ => view_key_version (policy_of d) reader <> 0
  | ServiceSpec.UpsertCard _ _ _ => False
  | _ => True
  end ->
  exists s' d' text, (x ← ServiceSpec.run_request r; sendResult x) s
      = (s', Ok (mkResponse 200 [] text "application/json")) /\
    AppSpec.serving s' d' /\ AppSpec.kept s s' /\
    StoreSpec.view_equiv (policy_of d')
      (StoreSpec.apply_update (ServiceSpec.update_of s r) (policy_of d)).
Proof.
  intros Hs Hr Hb.
  destruct (ServiceFacts.requests_run [r] s s d (policy_of d))
    as (s' & d' & E & Hs' & Hk & Ev & _); try done.
  - by apply Forall_singleton.
  - split; [by destruct r|done].
  - cbn [ServiceSpec.run_requests fmap list_fmap] in E. unfold mbind, M_bind in E |- *.
    destruct (ServiceSpec.run_request r s) as [s1 [x|e|]]; try done.
    change ((s1, Ok [x]) = (s', Ok [ServiceSpec.response_of s r])) in E. injection E as <- ->.
    assert (ServiceSpec.response_of s r = done_) as -> by (by destruct r).
    destruct (sendResult_run done_ s1) as (text & _ & Es); [by repeat constructor; by_decision|].
    rewrite Es. by exists s1, d', text.
Qed.

(** What changes nothing and answers 400, if it answers, does so under the
    handler of the endpoint. *)
Lemma or_error_keeps (m : M (AppState D F) Response) (s : AppState D F) r :
  m s = (s, r) -> (forall resp, r = Ok resp -> p_status resp = 400) ->
  exists r', or_error kHttpBadRequest m s = (s, r') /\
    forall resp, r' = Ok resp -> p_status resp = 400 \/ p_status resp = 401 \/ p_status resp = 500.
Proof.
  intros E Hr. unfold or_error, try_catch. rewrite E. destruct r as [resp|e|].
  - eexists. split; [done|]. intros ? [= <-]. left. by apply Hr.
  - destruct (FrameHandler.what_of e); eexists; (split; [done|]); [|done].
    unfold setJson. intros resp E'. inv_res. by left.
  - by eexists.
Qed.

(** The fields of a parsed request fit their types. *)
Lemma parse_ranges (j : json) req :
  HwRequest.parse j = Ok req ->
  is_u32 (HwService.reader_id req) /\ is_u32 (HwService.door_id req) /\ is_u64 (HwService.hw_seq req).
Proof.
  unfold HwRequest.parse. intros E. inv_res.
  split_and!; (eapply get_uint_range; [|eassumption]; lia).
Qed.

(** The file of the database, and what else a start needs. *)
Record startable `{Yaml, !FilesLaws F D} (argv1 : option string) (f : F) (c : Config.Config)
    (t : Sql.tables) : Prop := {
  st_config : Config.loadFromYaml (config_path argv1) = Ok c;
  st_key : exists text k, read_file (Config.masterKeyPath (Config.keyManagement c)) f = Some text /\
    Hex.parseHex text = Ok k;
  st_version : Config.currentKeyVersion (Config.keyManagement c) <> 0;
  st_events : 1 <= Config.maxEvents (Config.admin c);
  st_db : file_db (Config.sqlitePath (Config.storage c)) f = Some t;
  st_log : ChainFacts.log_ready (AppFacts.with_anchor t);
}.

Lemma start_run `{YamlLaws, !FilesLaws F D, !FilesReliable F D} argv1 n (f : F) c t :
  startable argv1 f c t ->
  exists s d, start true argv1 n f = Ok s /\ serving s d /\ cfg s = c /\
    Sql.current (content d) = with_anchor t /\ replayByReader s = ∅ /\
    HandlerFacts.config_ok (runtime_config c) /\ array_ok 32 (KeyManager._masterKey (keyManager s)).
Proof.
  intros [Hc (text & k & Er & Ek) Hv He Hd Hl]. unfold start. cbn [HttpUtils.sodiumInitOrThrow negb].
  cbn [mbind res_bind]. rewrite Hc. cbn [mbind res_bind]. rewrite Er. cbn [KeyManager.loadMasterKeyHexFile].
  rewrite Ek. cbn [mbind res_bind]. unfold KeyManager.KeyManager_new.
  cbn [KeyManager.currentKeyVersion]. rewrite decide_False by done. cbn [mbind res_bind].
  pose proof (ConfigFacts.loadFromYaml_ok _ _ Hc) as Hok.
  set (s0 := AppState_new c _ _ n f).
  destruct (wp_returns True openOrCreate s0 (fun _ s => exists d, serving s d /\ kept s0 s /\
      Sql.current (content d) = with_anchor t)) as (s & [] & E & d & Hs & Hk & Ec); [|done|].
  { apply (wp_openOrCreate True (fun _ => _) s0 t); try done.
    - intros _. split; [apply Hok|done].
    - intros s d Hs Hk Ec _. by exists d. }
  rewrite E. exists s, d. split; [done|]. split; [done|].
  split; [apply Hk|]. split; [done|]. split; [apply Hk|]. split.
  - pose proof (ConfigSpec.ok_frame _ Hok) as []. by split.
  - rewrite (k_keys _ _ Hk). by eapply parseHex_array.
Qed.

End Handlers.

End RouteFacts.

(** ** Properties *)

Module RouteProps.
Import ServiceTypes AppState AppSpec AppFacts Services HttpTypes StdString Routes Main RouteFacts
  MemFiles AppProps ToySodium HandlerProps HwProps FlatJson.

(** The settings file, with a token for the administration and the secret of
    the reader hardware, and the disk the server starts on. *)
Definition yaml_files : list (string * ToyYaml.tree) := [
  ("serve.yaml", ToyYaml.Map [("admin", ToyYaml.Map [("admin_token", ToyYaml.Text "secret");
     ("hw_shared_secret_hex", ToyYaml.Text test_secret)])])]%string.

#[export] Instance serve_yaml : Yaml := ToyYaml.toy_yaml yaml_files.

Definition key_text : string := CardIdHasher.toHex (replicate 32 9).

Definition disk : filesys :=
  {["data/access.db"%string := Db AppProps.test_tables; "secrets/master_key.hex"%string := Raw key_text]}.

Definition serve_config : Config.Config :=
  Eval vm_compute in match Config.loadFromYaml "serve.yaml" with Ok c => c | _ => Config.Config_default end.

Definition served : AppState connection filesys :=
  Eval vm_compute in match start true (Some "serve.yaml"%string) 0 disk with Ok s => s | _ => test_start end.

(** The port of the decision endpoint is the next one modulo 2^16: 0 after 65535. *)
Example decision_port_wraps :
  Main.decisionPort (Config.mkConfig (Config.frameHandler serve_config) (Config.storage serve_config)
    (Config.mkAdminConfig "127.0.0.1" 65535 "" "" 0 1 "local" "") (Config.keyManagement serve_config)
    (Config.experiment serve_config)) = 0.
Proof. reflexivity. Qed.

Definition request_of (header : string -> string) (path_groups : list string) (body : string) : Request :=
  mkRequest body header (fun _ => None) path_groups None.

Definition with_token (token : string) (name : string) : string :=
  if decide (name = "X-Admin-Token"%string) then token else EmptyString.

(** C23: without the token nothing happens. When the settings have a token, every
    registered route other than the redirect "/" and the hardware endpoint (which
    asks for a signature) answers a request that does not carry it with status
    401 and leaves the server exactly as it was: database, audit log, engine,
    detector, events and files. *)
Theorem admin_routes_need_token {D F : Type} `{Sodium, Env, JsonDocLaws, HwService.Http, Sqlite D, Files F}
    `{!SqliteFiles F D} (sodium_ready : bool) (event_vector_max : Z) (method path : string)
    (handler : Request -> M (AppState D F) Response) (req : Request) (s : AppState D F) :
  (method, path, handler) ∈ registerRoutes sodium_ready event_vector_max ->
  path <> "/"%string -> path <> "/api/hw/uid"%string ->
  Config.adminToken (Config.admin (cfg s)) <> EmptyString ->
  q_header req "X-Admin-Token" <> Config.adminToken (Config.admin (cfg s)) ->
  exists text, handler req s = (s, Ok (mkResponse 401 [] text "application/json")).
Proof.
  intros Hin Hp Hq Ht Hh. pose proof (routes_guarded sodium_ready event_vector_max) as Hg.
  rewrite Forall_forall in Hg. destruct (Hg _ Hin) as [E|[E|[k Hk]]]; [done..|]. cbn in Hk.
  destruct (dump_printable (body (errorResult "unauthorized" kHttpUnauthorized))) as [text E];
    [by repeat constructor; by_decision|].
  exists text. rewrite Hk. apply requireAuth_denies; [|done]. unfold authorized, checkAuth.
  destruct (Config.adminToken _) eqn:Et; [done|]. by apply bool_decide_false.
Qed.

Lemma admin_routes_need_token_witness :
  exists text, delete_reader (request_of (with_token "guess") ["1"%string] "") served
    = (served, Ok (mkResponse 401 [] text "application/json")).
Proof.
  refine (admin_routes_need_token true 1000 "DELETE" "/api/readers/(\d+)" delete_reader
    (request_of (with_token "guess") ["1"%string] "") served _ _ _ _ _);
    [|discriminate|discriminate|discriminate|discriminate].
  unfold registerRoutes. rewrite !elem_of_cons. do 4 right. left. reflexivity.
Defined.

(** C24: a start on good settings serves. If the settings load, the master key
    file holds a key, the key version is not 0, the event buffer has room and the
    database file is a database, then [main] gets to the point where it listens:
    store, audit log and engine are open on exactly that database (with a first
    anchor, if it had none), the settings are the ones loaded and meet what the
    frame handler assumes, the master key has 32 bytes, and every replay window
    is empty. *)
Theorem startup_serves {D F : Type} `{SodiumLaws, Env, JsonDocLaws, HwService.Http, YamlLaws}
    `{SqliteReliable D, Files F, !SqliteFiles F D, !FilesLaws F D, !FilesReliable F D}
    (argv1 : option string) (n : nat) (f : F) (c : Config.Config) (t : Sql.tables) :
  startable argv1 f c t ->
  exists s d, start true argv1 n f = Ok s /\ serving s d /\ cfg s = c /\
    Sql.current (content d) = with_anchor t /\ replayByReader s = ∅ /\
    HandlerFacts.config_ok (runtime_config c) /\ array_ok 32 (KeyManager._masterKey (keyManager s)).
Proof. apply start_run. Qed.

#[export] Instance serve_yaml_laws : YamlLaws := ToyYaml.toy_yaml_laws yaml_files.

Lemma serve_startable : startable (Some "serve.yaml"%string) disk serve_config AppProps.test_tables.
Proof.
  split; [vm_compute; reflexivity| |by_decision|by_decision|vm_compute; reflexivity|].
  - exists key_text, (replicate 32 9). split; vm_compute; reflexivity.
  - split; [by eexists|by_decision|vm_compute; reflexivity].
Qed.

Lemma startup_serves_witness :
  exists s d, start true (Some "serve.yaml"%string) 0 disk = Ok s /\ serving s d /\
    cfg s = serve_config /\ Sql.current (content d) = with_anchor AppProps.test_tables /\
    replayByReader s = ∅ /\ HandlerFacts.config_ok (runtime_config serve_config) /\
    array_ok 32 (KeyManager._masterKey (keyManager s)).
Proof. refine (startup_serves (Some "serve.yaml"%string) 0 disk serve_config AppProps.test_tables serve_startable). Defined.

(** A reader id in a path is a number, and it wraps. On a server that is up,
    an authorized [DELETE /api/readers/n] with [n] written in decimal removes the
    reader [n mod 2^32] when [n] fits 64 bits (so that 4294967297 removes reader
    1), and is refused with status 500 and no effect when it does not. *)
Theorem path_ids_wrap {D F : Type} `{SodiumLaws, Env, JsonDocLaws, HwService.Http}
    `{SqliteReliable D, Files F, !SqliteFiles F D} (s : AppState D F) (d : D) (req : Request) (n : Z) :
  serving s d -> authorized s req = true -> match_ req 1 = to_string n -> 0 <= n ->
  (n < 2 ^ 64 -> exists s' d' text,
     delete_reader req s = (s', Ok (mkResponse 200 [] text "application/json")) /\
     serving s' d' /\ kept s s' /\
     StoreSpec.view_equiv (policy_of d')
       (StoreSpec.apply_update (StoreSpec.RemoveReader (n mod 2 ^ 32)) (policy_of d))) /\
  (2 ^ 64 <= n -> exists text,
     delete_reader req s = (s, Ok (mkResponse 500 [] text "application/json"))).
Proof.
  intros Hs Ha Em Hn. unfold delete_reader. rewrite requireAuth_passes by done. split; intros Hw.
  - assert (is_u64 n) as Hn64 by (unfold is_u64; lia).
    destruct (admin_run s d (ServiceSpec.DeleteReader (u32 n))) as (s' & d' & text & E & Hs' & Hk & Ev);
      [done|split; [apply u32_range|done]|done|].
    exists s', d', text. split; [|done]. apply or_error_ok.
    by rewrite (M_bind_ok _ _ _ _ _ (path_id_run s req 1 n Hn64 Em)).
  - apply (or_error_throw _ _ _ (std_exception "stoul") "stoul"); [|done|].
    + apply M_bind_throw. unfold path_id, lift. rewrite Em. unfold stoul, sto_unsigned.
      rewrite HttpFacts.number_to_string by done. by rewrite decide_True.
    + by_decision.
Qed.

Definition served_connection : connection :=
  ("data/access.db"%string, Sql.mkDatabase (with_anchor AppProps.test_tables) None true).

Lemma served_serving : serving served served_connection.
Proof.
  split; [vm_compute; reflexivity..|by_decision|reflexivity|reflexivity|].
  split; [by eexists|by_decision|vm_compute; reflexivity].
Qed.

Lemma path_ids_wrap_witness :
  exists s' d' text,
    delete_reader (request_of (with_token "secret") ["4294967297"%string] "") served
      = (s', Ok (mkResponse 200 [] text "application/json")) /\
    serving s' d' /\ kept served s' /\
    StoreSpec.view_equiv (policy_of d')
      (StoreSpec.apply_update (StoreSpec.RemoveReader 1) (policy_of served_connection)).
Proof.
  refine (proj1 (path_ids_wrap served served_connection
    (request_of (with_token "secret") ["4294967297"%string] "") 4294967297 served_serving _ _ _) _).
  - vm_compute. reflexivity.
  - vm_compute. reflexivity.
  - lia.
  - lia.
Defined.

(** C22: the hardware endpoint decides signed scans only. Whatever the request,
    either the server is left exactly as it was and the answer, if there is one,
    has status 400, 401 or 500; or the body carries a valid signature and parses
    as a scan whose reader and door have 32 bits and whose number has 64 and is
    not 0, and the request is what [processHwUid] makes of this scan. *)
Theorem hw_route_gate {D F : Type} `{Sodium, Env, JsonDocLaws, HwService.Http, Sqlite D, Files F}
    `{!SqliteFiles F D} (ready : bool) (s : AppState D F) (req : Request) :
  (exists r, post_hw_uid ready req s = (s, r) /\
     forall resp, r = Ok resp -> p_status resp = 400 \/ p_status resp = 401 \/ p_status resp = 500) \/
  (exists j hw,
     (HwService.verifyHwSignature ready (q_header req "X-HW-Signature") (q_body req)
        (Config.hwSharedSecretHex (Config.admin (cfg s)))).1 = true /\
     json_parse (q_body req) = inr j /\ HwRequest.parseHwUidRequest j = Ok (Some hw) /\
     is_u32 (HwService.reader_id hw) /\ is_u32 (HwService.door_id hw) /\
     0 < HwService.hw_seq hw < 2 ^ 64 /\
     post_hw_uid ready req s = or_error 400 (r ← processHwUid hw; sendResult r) s).
Proof.
  rewrite hw_route_run. destruct (HwService.verifyHwSignature _ _ _ _) as [[] sigErr]; cycle 1.
  { left. eexists. split; [done|]. unfold hw_refusal, setJson. intros resp E. inv_res. cbn.
    case_decide; auto. }
  unfold parse_body. destruct (json_parse (q_body req)) as [what|j] eqn:Ej; cbn [mbind res_bind].
  { left. by eapply or_error_keeps. }
  destruct (HwRequest.parseHwUidRequest j) as [[hw|]|e|] eqn:Eh; try (left; by eapply or_error_keeps).
  - case_decide as Hz.
    + left. eapply or_error_keeps; [done|]. intros resp E. unfold setJson in E. by inv_res.
    + right. exists j, hw. split; [done|]. split; [done|]. split; [done|].
      unfold HwRequest.parseHwUidRequest in Eh.
      destruct (HwRequest.parse j) as [hw'|e|] eqn:Ep; try done. injection Eh as ->.
      destruct (parse_ranges j hw Ep) as (R1 & R2 & R3). unfold is_u64 in R3.
      split; [done|]. split; [done|]. split; [lia|done].
  - left. eapply or_error_keeps; [done|]. intros resp E. unfold setJson in E. by inv_res.
Qed.

(** A scan of card 04A1 at reader 1 and door 2, signed with the secret. *)
Definition scan_body : string :=
  JsonText.render [("uid", JsonText.SStr "04A1"); ("reader_id", JsonText.SNum 1);
    ("door_id", JsonText.SNum 2); ("hw_seq", JsonText.SNum 7)]%string.

Definition signed_scan (body : string) : Request :=
  mkRequest body (fun name => if decide (name = "X-HW-Signature"%string)
    then CardIdHasher.toHex (HMAC (HwService.hexToBytesLoose test_secret)
      (bytes_of_string ("POST /api/hw/uid" +:+ String (ascii_of_nat 10) EmptyString +:+ body)))
    else EmptyString) (fun _ => None) [] None.


(** It is decided (the card is not enrolled); with a body that is no JSON, it is
    not. *)
Example signed_scan_decided :
  let status body := r ← (post_hw_uid true (signed_scan body) served).2; Ok (p_status r) in
  status scan_body = Ok 200 /\ status "x"%string = Ok 400.
Proof. vm_compute. split; reflexivity. Qed.

Lemma hw_route_gate_witness :
  let req := signed_scan scan_body in
  (exists r, post_hw_uid true req served = (served, r) /\
     forall resp, r = Ok resp -> p_status resp = 400 \/ p_status resp = 401 \/ p_status resp = 500) \/
  (exists j hw,
     (HwService.verifyHwSignature true (q_header req "X-HW-Signature") (q_body req) test_secret).1 = true /\
     json_parse (q_body req) = inr j /\ HwRequest.parseHwUidRequest j = Ok (Some hw) /\
     is_u32 (HwService.reader_id hw) /\ is_u32 (HwService.door_id hw) /\
     0 < HwService.hw_seq hw < 2 ^ 64 /\
     post_hw_uid true req served = or_error 400 (r ← processHwUid hw; sendResult r) served).
Proof. exact (hw_route_gate true served (signed_scan scan_body)). Defined.

End RouteProps.
