(* ===== verification/Life.v ===== *)
(** What the engine, the services and the routes do to the state of a server
    whatever fails: the database may refuse any statement. Which calls leave the
    policy on disk alone, which extend the log only, which can end a quarantine; and
    that event buffer and replay windows stay within their sizes. *)
From Stdlib Require Import ZArith Lia Ascii.
From stdpp Require Import base option list gmap strings relations.
From S2P Require Import Prelude LittleEndian Wire Replay Crypto Keys Events Detector Access FrameHandling Engine Sqlite SqliteStore AuditLog Config HwService AppState Durable Services Http JsonText Routes.
Local Open Scope Z_scope.

(** ** The frame handler and the engine *)

Module EngineLife.
Import DurableSpec DurableFacts Engine.

(** A text the log can hold. *)
Definition short (s : string) : Prop := cstr s = s /\ is_u32 (Z.of_nat (String.length s)).
#[global] Instance short_dec s : Decision (short s).
Proof. unfold short. apply _. Defined.

(** What the engine audits of a result. *)
Definition loggable (r : FrameHandler.HandleResult) : Prop :=
  Packet.Header_ok (FrameHandler.hdr r) /\ short (FrameHandler.reason r).

(** The readers in quarantine. *)
Definition quarantined (d : option Detector.ProtocolAnomalyDetector) (r : Z) : bool :=
  match d with Some d => Detector.isQuarantined d r | None => false end.

(** The replay windows of the readers, of size [B]; the event buffer, if there is
    one. *)
Definition windows_compact (B : Z) (m : gmap Z ReplayWindow.ReplayWindow) : Prop :=
  map_Forall (fun _ => ReplaySpec.compact B) m.

Definition events_bounded (n : Z) (o : option EventBus.EventBus) : Prop :=
  match o with Some b => EventBus.bounded n b | None => True end.

(** The size of the windows the handler makes. *)
Definition window_size (f : FrameHandler.FrameHandlerConfig) : Z :=
  if decide (FrameHandler.replayWindowSize f = 0) then 1 else FrameHandler.replayWindowSize f.

Section EngineLife.
Context `{SodiumLaws, Env, Json} {D F : Type}.
Context `{SqliteLaws D, Files F, !SqliteFiles F D, !FilesLaws F D}.
Context (chain : bool) (key : bytes) (B : Z).

Abbreviation P := (extended (chain_kept D chain) key).

(** From one state of the handler to a later one, and of the engine. *)
Record hmoved (s s' : HState D) : Prop := {
  hm_disk : moved P (h_ext s) (h_ext s');
  hm_windows : windows_compact B (h_windows s) -> windows_compact B (h_windows s');
}.

#[global] Instance hmoved_preorder : PreOrder hmoved.
Proof. split; [by intros s|]. intros s1 s2 s3 [] []. split; [by etransitivity|auto]. Qed.

Record emoved (s s' : EState D) : Prop := {
  em_handler : hmoved (e_h s) (e_h s');
  em_events n : events_bounded n (e_events s) -> events_bounded n (e_events s');
  em_quarantine r : quarantined (e_detector s) r = true -> quarantined (e_detector s') r = true;
}.

#[global] Instance emoved_preorder : PreOrder emoved.
Proof. split; [by intros s|]. intros s1 s2 s3 [] []. split; [by etransitivity|auto..]. Qed.

Abbreviation hquiet m := (always (fun _ : HState D => True) hmoved m).
Abbreviation equiet m := (always (fun _ : EState D => True) emoved m).

(** *** The handler *)

Lemma hquiet_now : keeps (fun _ : HState D => True) hmoved nowUnixMs is_u64.
Proof. intros s _. split_and!; [done|done|intros a [= <-]; apply u64_range]. Qed.

Lemma hquiet_random n : hquiet (randombytes (W := D) n).
Proof. intros s _. by split_and!. Qed.

Lemma hquiet_ext {A} (m : M D A) Q :
  keeps (fun _ : D => True) (moved P) m Q -> keeps (fun _ : HState D => True) hmoved (on_ext m) Q.
Proof. intros Hm. eapply keeps_zoom; [exact Hm|done|]. intros s d _ _ Hd. by split. Qed.

Lemma hquiet_windows f :
  (forall m, windows_compact B m -> windows_compact B (f m)) -> hquiet (modify_windows (W := D) f).
Proof. intros Hf s _. split_and!; [done|split; [done|apply Hf]|done]. Qed.

Lemma hquiet_remember window seq : hquiet (FrameHandler.remember_at (W := D) window seq).
Proof.
  unfold FrameHandler.remember_at. destruct window as [r|]; [|by apply keeps_ret; [apply _|]].
  apply hquiet_windows. intros m Hm i w. rewrite lookup_alter_Some.
  intros [(-> & w' & Ew & ->)|[_ Ew]]; [apply ReplayFacts.compact_remember|]; by eapply Hm.
Qed.

Lemma short_reason w : short w -> forall hd pt a, Packet.Header_ok hd ->
  loggable (FrameHandler.mkHandleResult a w pt hd).
Proof. by split. Qed.

Lemma parse_code_short w : short (FrameHandler.parseErrorToCode w).
Proof. unfold FrameHandler.parseErrorToCode. repeat case_match; by_decision. Qed.

Lemma decrypt_code_short w : short (FrameHandler.decryptExceptionToCode w).
Proof. unfold FrameHandler.decryptExceptionToCode. case_match; by_decision. Qed.

(** The decryptor: an error is one of three words. *)
Lemma hquiet_decrypt d f :
  keeps (fun _ : HState D => True) hmoved (FrameDecryptor.decrypt d f)
    (fun r => short (FrameDecryptor.error r)).
Proof.
  unfold FrameDecryptor.decrypt. destruct (FrameDecryptor.decryptFrame d f) as [pt|e|];
    [|apply keeps_ret; [apply _|by_decision]|apply keeps_fault, _].
  apply (keeps_bind _ _ _ _ (fun o => forall e, o = Some e -> short e)).
  - unfold FrameDecryptor.checkTimestamp. case_decide; [by apply keeps_ret; [apply _|]|].
    apply always_bind; [apply _|by eapply keeps_always, hquiet_now|]. intros now.
    case_decide; (apply keeps_ret; [apply _|]); [|done].
    intros e [= <-]. case_decide; by_decision.
  - intros [e|] He; (apply keeps_ret; [apply _|]); [by apply He|by_decision].
Qed.

Lemma hquiet_reader h f :
  Packet.Header_ok (Frame.header f) ->
  keeps (fun _ : HState D => True) hmoved (FrameHandler.validateReader h f)
    (fun r : option FrameHandler.HandleResult * Z => forall e, r.1 = Some e -> loggable e).
Proof.
  intros Hf. unfold FrameHandler.validateReader.
  assert (forall w kv, short w ->
    keeps (fun _ : HState D => True) hmoved (mret (Some (FrameHandler.makeError w (Frame.header f)), kv))
      (fun r : option FrameHandler.HandleResult * Z => forall e, r.1 = Some e -> loggable e)) as Herr.
  { intros w kv Hw. apply keeps_ret; [apply _|]. intros e [= <-]. by split. }
  destruct (negb _); [apply Herr; by_decision|].
  apply always_bind; [apply _|by eapply keeps_always, hquiet_ext, quiet_version|]. intros kv.
  case_decide; [apply Herr; by_decision|]. destruct (FrameHandler.enforceReaderDoorBinding _);
    [|by apply keeps_ret; [apply _|]].
  apply always_bind; [apply _|apply hquiet_ext, quiet_bound|]. intros ok.
  destruct (negb ok); [apply Herr; by_decision|by apply keeps_ret; [apply _|]].
Qed.

Lemma hquiet_replay h f :
  window_size (FrameHandler._config h) = B -> Packet.Header_ok (Frame.header f) ->
  keeps (fun _ : HState D => True) hmoved (FrameHandler.checkReplay h f)
    (fun r : option FrameHandler.HandleResult * option Z => forall e, r.1 = Some e -> loggable e).
Proof.
  intros HB Hf. unfold FrameHandler.checkReplay, FrameHandler.getOrCreateWindow.
  destruct (negb _); [by apply keeps_ret; [apply _|]|].
  apply always_bind; [apply _| |intros w].
  - apply always_bind; [apply _|by apply keeps_get; [apply _|]|]. intros s.
    destruct (h_windows s !! _); [by apply keeps_ret; [apply _|]|].
    fold (window_size (FrameHandler._config h)). rewrite HB.
    keeps_by ltac:(apply hquiet_windows; intros m Hm; apply map_Forall_insert_2;
      [apply ReplayFacts.compact_new|done]).
  - destruct (FrameHandler.isReplay _ _); (apply keeps_ret; [apply _|]); [|done].
    intros e [= <-]. split; [done|by_decision].
Qed.

Lemma hquiet_try h f window :
  Packet.Header_ok (Frame.header f) ->
  keeps (fun _ : HState D => True) hmoved (FrameHandler.tryDecrypt h f window) loggable.
Proof.
  intros Hf. unfold FrameHandler.tryDecrypt.
  assert (forall w, short w -> keeps (fun _ : HState D => True) hmoved
    (mret (FrameHandler.makeError w (Frame.header f))) loggable) as Herr.
  { intros w Hw. by apply keeps_ret; [apply _|]. }
  apply (keeps_bind _ _ _ _ (fun x => forall e, x = inr e -> loggable e)).
  { apply keeps_lift; [apply _|]. unfold FrameHandler.deriveKey. intros x E e ->.
    repeat case_match; simplify_eq; split; done || by_decision. }
  intros [k|e] Hk; [|apply keeps_ret; [apply _|by apply Hk]].
  apply keeps_try; [apply _| |].
  - apply always_bind; [apply _|apply hquiet_random|]. intros rnd.
    apply (keeps_bind _ _ _ _ (fun r => short (FrameDecryptor.error r))); [apply hquiet_decrypt|].
    intros dec Hd. destruct (negb _); [by apply Herr|].
    apply always_bind; [apply _| |].
    + destruct (FrameHandler.antiReplayEnabled _); [|by apply keeps_ret; [apply _|]].
      apply hquiet_remember.
    + intros _. apply keeps_ret; [apply _|]. split; [done|by_decision].
  - intros e. destruct (FrameHandler.what_of e); apply Herr; [apply decrypt_code_short|by_decision].
Qed.

(** Whatever bytes the handler is given: the disk stays as it is, and what it
    reports can be logged. *)
Lemma hquiet_handle h b :
  window_size (FrameHandler._config h) = B -> ParserFacts.span_ok b -> keeps (fun _ : HState D => True) hmoved (FrameHandler.handle h b) loggable.
Proof.
  intros HB Hb. unfold FrameHandler.handle.
  assert (Packet.Header_ok Packet.Header_default) as Hd by by_decision.
  apply (keeps_bind _ _ _ _ (fun x => match x with
    | inl f => Packet.Header_ok (Frame.header f) | inr e => loggable e end)).
  { unfold FrameHandler.parseFrame. destruct (FrameParser.parseFrame b _) as [f|[]|] eqn:E;
      try (apply keeps_ret; [apply _|]); try (apply keeps_fault, _);
      try (split; [done|first [apply parse_code_short|by_decision]]).
    destruct (WireSpec.parse_inv _ _ _ Hb E) as (Hl & _ & _ & _ & ->).
    by apply WireSpec.frame_at_ok; [apply Hb|]. }
  intros [f|e] Hf; [|by apply keeps_ret; [apply _|]].
  eapply keeps_bind; [apply _|by apply hquiet_reader|]. intros [[e|] kv] He; cbn in He;
    [by apply keeps_ret; [apply _|apply He]|].
  unfold FrameHandler.validateKeyVersion. destruct (FrameHandler.key_version_ok _ _ _);
    [|by apply keeps_ret; [apply _|split; [done|by_decision]]].
  eapply keeps_bind; [apply _|by apply hquiet_replay|]. intros [[e|] w] He'; cbn in He';
    [by apply keeps_ret; [apply _|apply He']|]. by apply hquiet_try.
Qed.

(** *** The engine *)

Lemma equiet_h {A} (m : M (HState D) A) Q :
  keeps (fun _ : HState D => True) hmoved m Q -> keeps (fun _ : EState D => True) emoved (on_h m) Q.
Proof. intros Hm. eapply keeps_zoom; [exact Hm|done|]. intros s t _ _ []. by split. Qed.

Lemma equiet_push ev : equiet (push_event (W := D) ev).
Proof.
  intros s _. unfold push_event. destruct (e_events s) as [b|] eqn:E; [|by split_and!].
  pose proof (fun n => EventFacts.push_bounded n ev b) as Hb.
  destruct (EventBus.push ev b) as [b' [z|e|]]; (split_and!; [done|split; [done|cbn; rewrite E; apply Hb|done]|done]).
Qed.

Lemma equiet_publish ev : equiet (publish (W := D) ev).
Proof.
  unfold publish. apply always_bind; [apply _|by apply keeps_get; [apply _|]|]. intros s.
  destruct (e_events s); [|by apply keeps_ret; [apply _|]].
  apply always_bind; [apply _|by eapply keeps_always, equiet_h, hquiet_now|]. intros now.
  apply equiet_push.
Qed.

(** A call of the detector that lifts no quarantine. *)
Lemma equiet_detector {A} (f : Detector.ProtocolAnomalyDetector -> Detector.ProtocolAnomalyDetector * A) :
  (forall d, (f d).1 = d \/ exists c, (f d).1 = Detector.run_call c d /\
     forall r, c <> Detector.CallUnquarantine r) -> equiet (on_detector (W := D) f).
Proof.
  intros Hf s _. unfold on_detector. destruct (e_detector s) as [d|] eqn:E; [|by split_and!].
  destruct (f d) as [d' a] eqn:Ef. cbn. split_and!; [done| |done]. split; [done|done|].
  rewrite E. cbn. intros r. specialize (Hf d). rewrite Ef in Hf. cbn in Hf.
  destruct Hf as [->|(c & -> & Hc)]; [done|].
  rewrite !DetectorFacts.isQuarantined_getState, !bool_decide_eq_true.
  by apply DetectorFacts.run_call_quarantined.
Qed.

(** The log of the server. *)
#[local] Instance life_log : IAuditLog D :=
  AuditInstance.sqlite_audit (SqliteAuditLog.mkSqliteAuditLog key chain).

Lemma card_hash_short pepper card c : CardIdHasher.hmacHex pepper card = Ok c -> short c.
Proof.
  intros E. destruct (decide (card = EmptyString)) as [->|Hc]; [done|].
  rewrite CardFacts.hmacHex_run in E by done. injection E as <-. destruct (HMAC_array pepper (bytes_of_string card)) as [Hl Hb].
  split; [by apply CardFacts.toHex_no_nul|].
  assert (String.length (CardIdHasher.toHex (HMAC pepper (bytes_of_string card))) = 64%nat) as ->;
    [|by compute].
  change 64%nat with (2 * 32)%nat. rewrite <- Hl, <- CardFacts.toHex_length.
  generalize (CardIdHasher.toHex (HMAC pepper (bytes_of_string card))). clear. by induction s; cbn; auto.
Qed.

Lemma equiet_log e hd a w card action :
  Packet.Header_ok hd -> short w -> short card -> short action ->
  equiet (logAuditEvent (W := D) e hd a w card action).
Proof.
  intros [] [] [] []. unfold logAuditEvent. destruct (negb _); [by apply keeps_ret; [apply _|]|].
  apply always_bind; [apply _| |intros _; apply equiet_publish].
  apply equiet_h, hquiet_ext, quiet_append; [by split|by split_and!].
Qed.

Lemma equiet_deny e hd w : Packet.Header_ok hd -> short w -> equiet (deny (W := D) e hd w).
Proof.
  intros Hh Hw. unfold deny. apply always_bind; [apply _| |].
  - apply equiet_log; done || by_decision.
  - intros _. by apply keeps_ret; [apply _|].
Qed.

Lemma equiet_role c :
  short c -> keeps (fun _ : EState D => True) emoved (on_h (on_ext (roleForCardHmac c)))
    (fun role => forall r, role = Some r -> cstr r = r).
Proof. intros [Hc _]. by apply equiet_h, hquiet_ext, quiet_role. Qed.

(** The card hash and the role it resolves to. *)
Lemma equiet_resolve e card kv :
  keeps (fun _ : EState D => True) emoved (resolveCardHmac e card kv)
    (fun x => short x.1 /\ forall r, x.2 = Some r -> cstr r = r).
Proof.
  unfold resolveCardHmac.
  assert (forall kv' (k : string -> option string -> M (EState D) (string * option string)) Q,
    (forall c role, short c -> (forall r, role = Some r -> cstr r = r) ->
       keeps (fun _ : EState D => True) emoved (k c role) Q) ->
    keeps (fun _ : EState D => True) emoved
      (pepper ← lift (KeyManager.deriveCardPepper (_keyManager e) kv');
       c ← lift (CardIdHasher.hmacHex pepper card);
       role ← on_h (on_ext (roleForCardHmac c)); k c role) Q) as Hstep.
  { intros kv' k Q Hk. apply always_bind; [apply _|by apply keeps_lift; [apply _|]|]. intros pepper.
    apply (keeps_bind _ _ _ _ short); [apply keeps_lift; [apply _|apply card_hash_short]|]. intros c Hc.
    eapply keeps_bind; [apply _|by apply equiet_role|]. intros role Hr. by apply Hk. }
  case_decide; apply Hstep; intros c role Hc Hr; [by apply keeps_ret; [apply _|]|].
  case_decide; [|by apply keeps_ret; [apply _|]].
  apply Hstep. intros c' role' Hc' Hr'. apply keeps_ret; [apply _|]. split; [|done].
  by case_decide.
Qed.

Lemma equiet_policy e (r : FrameHandler.HandleResult) req :
  loggable r -> equiet (checkAccessPolicy (W := D) e r req).
Proof.
  intros [Hh Hw]. unfold checkAccessPolicy.
  case_decide as Ha; [by apply equiet_deny; [|by_decision]|].
  destruct (negb _); [by apply equiet_deny; [|by_decision]|].
  apply always_bind; [apply _|by eapply keeps_always, equiet_h, hquiet_ext, quiet_version|]. intros kv.
  case_decide; [by apply equiet_deny; [|by_decision]|].
  eapply keeps_bind; [apply _|apply equiet_resolve|]. intros [c [role|]] [Hc Hr]; cbn in Hc, Hr.
  - apply (keeps_bind _ _ _ _ (fun x => short (reason x))).
    + unfold checkRoleAccess. apply always_bind; [apply _| |].
      * by apply equiet_h, hquiet_ext, quiet_allowed, Hr.
      * intros ok. apply keeps_ret; [apply _|]. destruct (negb ok); by_decision.
    + intros x Hx. apply always_bind; [apply _| |intros _; by apply keeps_ret; [apply _|]].
      apply equiet_log; [done..|]. rewrite Ha. by_decision.
  - apply always_bind; [apply _| |intros _; by apply keeps_ret; [apply _|]].
    apply equiet_log; [done|by_decision|done|]. rewrite Ha. by_decision.
Qed.

Lemma equiet_deny_quarantined e (r : FrameHandler.HandleResult) :
  loggable r -> equiet (deny_quarantined (W := D) e r).
Proof.
  intros [Hh _]. unfold deny_quarantined, publishDecisionEvent.
  keeps_by ltac:(first [apply equiet_publish|by apply equiet_log; done || by_decision]).
Qed.

Ltac detector_call := apply equiet_detector; intros ?; right.

Lemma equiet_rollback e active hd : equiet (checkRollback (W := D) e active hd).
Proof.
  unfold checkRollback, publishAnomalyEvent. case_decide; [|by apply keeps_ret; [apply _|]].
  apply always_bind; [apply _|by eapply keeps_always, equiet_h, hquiet_now|]. intros now.
  keeps_by ltac:(first [apply equiet_publish
    |detector_call; by exists (Detector.CallSeq (Packet.reader_id hd) (Packet.seqno hd) now)]).
Qed.

Lemma equiet_nonce e active hd : equiet (checkNonce (W := D) e active hd).
Proof.
  unfold checkNonce, publishAnomalyEvent. case_decide; [|by apply keeps_ret; [apply _|]].
  apply always_bind; [apply _|by apply keeps_lift; [apply _|]|]. intros expected.
  destruct (negb _); [|by apply keeps_ret; [apply _|]].
  apply always_bind; [apply _|by eapply keeps_always, equiet_h, hquiet_now|]. intros now.
  keeps_by ltac:(first [apply equiet_publish
    |detector_call; by exists (Detector.CallNonceMismatch (Packet.reader_id hd) now)]).
Qed.

Lemma equiet_report active (r : FrameHandler.HandleResult) : equiet (reportRejection (W := D) active r).
Proof.
  unfold reportRejection, publishAnomalyEvent. destruct (negb _); [by apply keeps_ret; [apply _|]|].
  assert (forall (k : Z -> M (EState D) unit), (forall now, equiet (k now)) ->
    equiet (now ← on_h nowUnixMs; k now)) as Hnow.
  { intros k Hk. apply always_bind; [apply _|by eapply keeps_always, equiet_h, hquiet_now|done]. }
  destruct (decide (_ = "replay"%string)).
  { apply Hnow. intros now. keeps_by ltac:(first [apply equiet_publish
      |detector_call; by exists (Detector.CallReplay (Packet.reader_id (FrameHandler.hdr r))
         (Packet.seqno (FrameHandler.hdr r)) now)]). }
  destruct (decide (_ \/ _)); [|by apply keeps_ret; [apply _|]].
  apply Hnow. intros now. keeps_by ltac:(first [apply equiet_publish
    |detector_call; by exists (Detector.CallTagFailure (Packet.reader_id (FrameHandler.hdr r)) now)]).
Qed.

(** Whatever bytes the engine is given, and whatever fails: the policy stays, the
    log is at most extended, its chain stays intact, and no quarantine ends. *)
Lemma equiet_engine e b :
  window_size (_frameHandlerCfg e) = B -> ParserFacts.span_ok b -> equiet (handleFrameBytes (W := D) e b).
Proof.
  intros HB Hb. unfold handleFrameBytes.
  eapply keeps_bind; [apply _|by apply equiet_h, hquiet_handle|]. intros r Hr. unfold decideFrame.
  apply always_bind; [apply _|by apply keeps_get; [apply _|]|]. intros s.
  apply always_bind; [apply _|apply equiet_publish|]. intros _.
  apply always_bind; [apply _| |intros q].
  { destruct (detector_active s); [|by apply keeps_ret; [apply _|]].
    apply equiet_detector. intros d. by left. }
  destruct q; [by apply equiet_deny_quarantined|].
  apply always_bind; [apply _|apply equiet_rollback|]. intros [].
  { by apply equiet_deny_quarantined. }
  apply always_bind; [apply _|apply equiet_nonce|]. intros [].
  { by apply equiet_deny_quarantined. }
  apply always_bind; [apply _|apply equiet_publish|]. intros _. unfold concludeFrame.
  destruct (negb _).
  - apply always_bind; [apply _|apply equiet_report|]. intros _. apply equiet_deny; apply Hr.
  - apply always_bind; [apply _| |intros _].
    + destruct (detector_active s); [|by apply keeps_ret; [apply _|]].
      detector_call. by eexists (Detector.CallSuccess _ _).
    + destruct (Payload.parseAccessRequestJson _); [by apply equiet_policy| |apply keeps_fault, _].
      apply equiet_deny; [apply Hr|by_decision].
Qed.

End EngineLife.
End EngineLife.

(** ** The server *)

Module ServerLife.
Import DurableSpec DurableFacts EngineLife AppState AppSpec Services ServiceTypes HttpTypes Routes.

Section ServerLife.
Context `{SodiumLaws, Env, !HwFacts.EnvLaws, JsonDocLaws, HwService.Http} {D F : Type}.
Context `{SqliteLaws D, Files F, !SqliteFiles F D, !FilesLaws F D}.

(** The tables that survive when the process ends now: what is committed, or what
    the database file holds if there is no connection. *)
Definition on_disk (s : AppState D F) : option Sql.tables :=
  match store s with
  | Some d => Some (ChainFacts.committed (content d))
  | None => file_db (dbPath s) (files s)
  end.

(** The scan of a request is small enough for the length field of a frame. *)
Definition scan_fits (req : HwService.HwUidRequest) : Prop := forall text,
  HwService.buildPayloadJson (HwService.uid req) (HwService.action req) = Ok text ->
  is_u32 (Z.of_nat (String.length text)).

(** A body that fits into memory, and into a frame if it is a scan. *)
Definition modest (req : Request) : Prop :=
  is_u64 (Z.of_nat (String.length (q_body req))) /\
  forall j hw, parse_body req = Ok j -> HwRequest.parseHwUidRequest j = Ok (Some hw) -> scan_fits hw.

Context (c : Config.Config) (path : string) (km : KeyManager.KeyManager).

Abbreviation chain := (Config.auditChainEnabled (Config.experiment c)).
Abbreviation key := (KeySpec.key_for km KeySpec.ForAudit).
Abbreviation size := (window_size (runtime_config c)).
Abbreviation capacity := (Config.maxEvents (Config.admin c)).

(** A connection, if there is one, is on the file of the database. *)
Definition on_file (o : option D) : Prop :=
  match o with Some d => conn_path d = path | None => True end.

(** The objects of a server that was started with [c], [path] and [km]. *)
Record server_ok (s : AppState D F) : Prop := {
  so_cfg : cfg s = c;
  so_path : dbPath s = path;
  so_keys : keyManager s = km;
  so_audit : audit s = None \/ audit s = Some (SqliteAuditLog.mkSqliteAuditLog key chain);
  so_conn : on_file (store s);
  so_engine e : engine s = Some e -> e = Engine.mkDecisionEngine true true km (runtime_config c);
  so_events : EventBus.bounded capacity (events s);
  so_windows : windows_compact size (replayByReader s);
}.

Lemma server_ok_store s s' :
  cfg s' = cfg s -> dbPath s' = dbPath s -> keyManager s' = keyManager s -> audit s' = audit s ->
  engine s' = engine s -> EventBus.bounded capacity (events s') ->
  windows_compact size (replayByReader s') ->
  on_file (store s') -> server_ok s -> server_ok s'.
Proof. intros E1 E2 E3 E4 E5 He Hw Hf []. split; rewrite ?E4, ?E5; try done; congruence. Qed.

(** As [main] makes it. *)
Lemma server_ok_new n f : server_ok (AppState_new c path km n f).
Proof. split; first [done|by left|apply EventFacts.bounded_new]. Qed.

Lemma server_ok_moved (P : relation Sql.tables) s d d' :
  server_ok s -> store s = Some d -> moved P d d' -> conn_path d' = path.
Proof. intros Hs E [Ep _]. pose proof (so_conn _ Hs) as Hc. rewrite E in Hc. by rewrite Ep. Qed.

(** From one state of the server to a later one: the disk by [P], the detector
    by [K]. *)
Record changed (P : relation Sql.tables) (K : relation Detector.ProtocolAnomalyDetector)
    (s s' : AppState D F) : Prop := {
  ch_disk t : on_disk s = Some t -> exists t', on_disk s' = Some t' /\ P t t';
  ch_detector : K (anomalyDetector s) (anomalyDetector s');
}.

#[global] Instance changed_preorder P K `{!PreOrder P, !PreOrder K} : PreOrder (changed P K).
Proof.
  split; [intros s; split; [intros t E; by exists t|done]|]. intros s1 s2 s3 [D1 K1] [D2 K2]. split.
  - intros t (t2 & E2 & P2)%D1. destruct (D2 t2 E2) as (t3 & E3 & P3). exists t3. by split; [|etransitivity].
  - by etransitivity.
Qed.

Lemma changed_mono (P P' : relation Sql.tables) (K K' : relation Detector.ProtocolAnomalyDetector) s s' :
  (forall t t', P t t' -> P' t t') -> (forall d d', K d d' -> K' d d') ->
  changed P K s s' -> changed P' K' s s'.
Proof. intros HP HK [Hd Hk]. split; [|auto]. intros t (t' & E & Ht)%Hd. eauto. Qed.

Lemma changed_still P K `{!PreOrder P, !PreOrder K} s s' :
  on_disk s' = on_disk s -> anomalyDetector s' = anomalyDetector s -> changed P K s s'.
Proof. intros Ed Ek. split; [|by rewrite Ek]. intros t E. exists t. by rewrite Ed. Qed.

(** No quarantine ends. *)
Definition persists (d d' : Detector.ProtocolAnomalyDetector) : Prop := forall r,
  Detector.isQuarantined d r = true -> Detector.isQuarantined d' r = true.

#[global] Instance persists_preorder : PreOrder persists.
Proof. split; [by intros d r|]. intros d1 d2 d3 H12 H23 r. auto. Qed.

Abbreviation outside := (changed (extended (chain_kept D chain) key) persists).
Abbreviation inside := (changed (grown (chain_kept D chain) key) (fun _ _ => True)).

Lemma outside_inside s s' : outside s s' -> inside s s'.
Proof. apply changed_mono; [by intros t t' []|done]. Qed.

#[global] Instance any_detector : PreOrder (fun _ _ : Detector.ProtocolAnomalyDetector => True).
Proof. split; repeat intro; exact I. Qed.

(** *** The pieces the services are made of *)

Section Pieces.
Context (P : relation Sql.tables) (K : relation Detector.ProtocolAnomalyDetector).
Context `{!PreOrder P, !PreOrder K}.

(** What leaves the database and the detector alone. *)
Lemma server_still {A} (m : M (AppState D F) A) Q :
  (forall s, server_ok s -> server_ok (m s).1 /\ store (m s).1 = store s /\
     files (m s).1 = files s /\ anomalyDetector (m s).1 = anomalyDetector s /\
     forall a, (m s).2 = Ok a -> Q a) -> keeps server_ok (changed P K) m Q.
Proof.
  intros Hm s Hs. destruct (Hm s Hs) as (Hi & Es & Ef & Ed & HQ). split_and!; [done| |done].
  split; [|by rewrite Ed]. intros t E. exists t. split; [|done]. unfold on_disk in *.
  by rewrite Es, Ef, (so_path _ Hi), <- (so_path _ Hs).
Qed.

Lemma server_push_event kind message r door :
  always server_ok (changed P K) (push_event (D := D) (F := F) kind message r door).
Proof.
  apply server_still. intros s [Hc Hp Hk Ha Hf He Hb Hw].
  unfold push_event, nowUnixMs, zoom, mbind, M_bind. cbn [events set_ticks].
  set (ev := EventBus.mkEvent _ _ _ _ _ _ _ _ _). pose proof (EventFacts.push_bounded _ ev _ Hb) as Hb'.
  destruct (EventBus.push _ _) as [b [[]|e|]]; by split_and!.
Qed.

Lemma server_store {A} (m : M D A) Q :
  keeps (fun _ => True) (moved P) m Q -> keeps server_ok (changed P K) (on_store (F := F) m) Q.
Proof.
  intros Hm s Hs. unfold on_store. destruct (store s) as [d|] eqn:E; [|by split_and!].
  destruct (Hm d I) as (_ & Hd & HQ). destruct (m d) as [d' r]. cbn [fst snd] in *.
  split_and!; [apply (server_ok_store s); try done; [apply Hs..|by eapply server_ok_moved]| |done].
  split; [|done]. unfold on_disk. rewrite E. intros t [= <-].
  eexists. split; [done|]. apply Hd.
Qed.

Lemma server_view {A} (m : M (Engine.EState D) A) Q :
  (forall t t', extended (chain_kept D chain) key t t' -> P t t') -> (forall d d', persists d d' -> K d d') ->
  keeps (fun _ => True) (emoved chain key size) m Q -> keeps server_ok (changed P K) (on_view (F := F) m) Q.
Proof.
  intros HP HK Hm s Hs. unfold on_view. destruct (store s) as [d|] eqn:E; [|by split_and!].
  destruct (Hm (engine_view d s) I) as (_ & [[Hd Hw] He Hq] & HQ). destruct (m (engine_view d s)) as [t r].
  cbn [fst snd] in *.
  split_and!; [apply (server_ok_store s); try done; [|apply Hw, Hs|by eapply server_ok_moved]| |done].
  { specialize (He capacity (so_events _ Hs)). cbn. destruct (Engine.e_events t); [done|apply Hs]. }
  split.
  - unfold on_disk. rewrite E. intros t0 [= <-]. eexists. split; [done|]. apply HP, Hd.
  - apply HK. intros q Hq'. specialize (Hq q Hq'). cbn. by destruct (Engine.e_detector t).
Qed.

Lemma server_decide b :
  (forall t t', extended (chain_kept D chain) key t t' -> P t t') -> (forall d d', persists d d' -> K d d') ->
  ParserFacts.span_ok b -> always server_ok (changed P K) (decide_frame (D := D) (F := F) b).
Proof.
  intros HP HK Hb s Hs. unfold decide_frame, on_engine.
  destruct (engine s) as [e|] eqn:Ee; [|by split_and!]. destruct (audit s) as [l|] eqn:E; [|by split_and!].
  destruct (so_audit _ Hs) as [?|El]; [congruence|]. rewrite E in El. injection El as ->.
  apply (server_view _ _ HP HK); [|done]. apply equiet_engine; [|done]. by rewrite (so_engine _ Hs e Ee).
Qed.

End Pieces.

(** *** A scan *)

Hypothesis master_ok : array_ok 32 (KeyManager._masterKey km).

Lemma quiet_build reader door seq kv ts uid action :
  is_u32 reader -> is_u32 door -> is_u64 seq -> is_u32 kv -> is_u64 ts ->
  (forall text, HwService.buildPayloadJson uid action = Ok text -> is_u32 (Z.of_nat (String.length text))) ->
  keeps (fun _ : HState D => True) (hmoved chain key size)
    (HwService.buildEncryptedFrameBytes km reader door seq kv ts uid action (modes_of c))
    ParserFacts.span_ok.
Proof.
  intros Hr Hd Hs Hk Ht Hl h _. destruct (HwService.buildPayloadJson uid action) as [text|e|] eqn:E.
  - destruct (HwFacts.build_run (Engine.mkDecisionEngine true true km (runtime_config c)) (modes_of c)
      reader door seq kv ts uid action text h) as (h' & f & nonce & Eb & Ew & Ex & _ & Hf & Hlen & _);
      [by split|done..|]. cbn in Eb. rewrite Eb. split_and!; [done|split; cbn; by rewrite ?Ex, ?Ew|].
    intros b [= <-]. apply WireSpec.serialize_span_ok; [done|]. rewrite Hlen. by apply Hl.
  - unfold HwService.buildEncryptedFrameBytes. rewrite E. by split_and!.
  - unfold HwService.buildEncryptedFrameBytes. rewrite E. by split_and!.
Qed.

Lemma quiet_scan req :
  is_u32 (HwService.reader_id req) -> is_u32 (HwService.door_id req) -> is_u64 (HwService.hw_seq req) ->
  scan_fits req ->
  keeps (fun _ : Engine.EState D => True) (emoved chain key size) (HwService.prepareScan km (modes_of c) req)
    (fun x => match x with inl _ => True | inr (_, b) => ParserFacts.span_ok b end).
Proof.
  intros Hr Hd Hs Hf. unfold HwService.prepareScan.
  eapply keeps_bind; [apply _|apply equiet_h, hquiet_now|]. intros ts Ht.
  eapply keeps_bind; [apply _|apply equiet_h, hquiet_ext, quiet_version|]. intros kv Hk. cbn beta in *.
  assert (forall w r d q, always (fun _ : Engine.EState D => True) (emoved chain key size)
    (HwService.pushHwEvent w r d q)) as Hpush.
  { intros w r d q. unfold HwService.pushHwEvent.
    apply always_bind; [apply _|by eapply keeps_always, equiet_h, hquiet_now|]. intros now. apply equiet_push. }
  case_decide; (apply always_bind; [apply _|apply Hpush|]; intros _).
  - by apply keeps_ret; [apply _|].
  - eapply keeps_bind; [apply _|apply equiet_h, quiet_build; done|]. intros b Hb.
    by apply keeps_ret; [apply _|].
Qed.

(** *** What anybody may call *)

Context (sodium_ready : bool) (event_vector_max : Z).

(** The request shows the token. *)
Abbreviation token_shown req := (checkAuth req (Config.adminToken (Config.admin c))).

Section Handlers.
Context (P : relation Sql.tables) (K : relation Detector.ProtocolAnomalyDetector).
Context `{!PreOrder P, !PreOrder K}.

Abbreviation fine m := (always server_ok (changed P K) m).

Lemma server_send r : fine (sendResult (D := D) (F := F) r).
Proof. by apply keeps_lift; [apply _|]. Qed.

Lemma server_or_error status (m : M (AppState D F) Response) : fine m -> fine (or_error status m).
Proof.
  intros Hm. apply keeps_try; [apply _|done|]. intros e.
  destruct (FrameHandler.what_of e); [apply server_send|apply keeps_throw, _].
Qed.

(** Behind the token. *)
Lemma server_auth req (k : M (AppState D F) Response) :
  (token_shown req = true -> fine k) -> fine (requireAuth req k).
Proof.
  intros Hk. unfold requireAuth. apply (keeps_bind _ _ _ _ server_ok); [by apply keeps_get; [apply _|]|].
  intros s Hs. rewrite (so_cfg _ Hs). destruct (checkAuth _ _); [by apply Hk|apply server_send].
Qed.

Section Engine.
Context (HP : forall t t', extended (chain_kept D chain) key t t' -> P t t') (HK : forall d d', persists d d' -> K d d').

Lemma server_hw_uid req :
  is_u32 (HwService.reader_id req) -> is_u32 (HwService.door_id req) -> is_u64 (HwService.hw_seq req) ->
  scan_fits req -> fine (processHwUid (D := D) (F := F) req).
Proof.
  intros Hr Hd Hs Hf. unfold processHwUid.
  apply (keeps_bind _ _ _ _ server_ok); [by apply keeps_get; [apply _|]|].
  intros s Ok. rewrite (so_cfg _ Ok), (so_keys _ Ok).
  eapply keeps_bind; [apply _|by apply server_view, quiet_scan|]. intros [r|[kv b]] Hb;
    [by apply keeps_ret; [apply _|]|].
  apply always_bind; [apply _| |intros x; by apply keeps_ret; [apply _|]].
  case_decide; [by apply keeps_lift; [apply _|]|by apply server_decide].
Qed.

Lemma server_post_hw_uid req : modest req -> fine (post_hw_uid (D := D) (F := F) sodium_ready req).
Proof.
  intros [_ Hq]. unfold post_hw_uid. apply always_bind; [apply _|by apply keeps_get; [apply _|]|].
  intros s. destruct (HwService.verifyHwSignature _ _ _ _) as [[] err]; cbn [negb];
    [|by apply keeps_lift; [apply _|]].
  apply server_or_error.
  apply (keeps_bind _ _ _ _ (fun j => parse_body req = Ok j)); [by apply keeps_lift; [apply _|]|].
  intros j Ej. apply (keeps_bind _ _ _ _ (fun o => HwRequest.parseHwUidRequest j = Ok o));
    [by apply keeps_lift; [apply _|]|].
  intros [hw|] Eh; [|apply server_send]. case_decide; [apply server_send|].
  apply always_bind; [apply _| |intros r; apply server_send].
  assert (HwRequest.parse j = Ok hw) as Ep by (revert Eh; unfold HwRequest.parseHwUidRequest; by case_match; intros [= <-]).
  destruct (RouteFacts.parse_ranges j hw Ep) as (? & ? & ?). apply server_hw_uid; eauto.
Qed.

Lemma server_decision_frame req : modest req -> fine (Main.decision_frame (D := D) (F := F) req).
Proof.
  intros [Hl _]. unfold Main.decision_frame. destruct (q_body req) as [|a b] eqn:E;
    [by apply keeps_lift; [apply _|]|].
  apply keeps_try; [apply _| |].
  - apply always_bind; [apply _| |intros r; by apply keeps_lift; [apply _|]].
    apply server_decide; [done..|]. split; [apply bytes_of_string_ok|].
    by rewrite length_bytes_of_string.
  - intros e. destruct (FrameHandler.what_of e); [by apply keeps_lift; [apply _|]|apply keeps_throw, _].
Qed.

End Engine.
End Handlers.

(** *** What administrators may call *)

Section Administration.
Context `{!SqliteConfined D}.

Abbreviation fine m := (always server_ok inside m).

Lemma server_query {A} (m : M D A) :
  always (fun _ => True) (moved (extended (chain_kept D chain) key)) m -> fine (on_store (F := F) m).
Proof.
  intros Hm. apply server_store; [apply _..|]. eapply keeps_weaken; [|exact Hm].
  intros d d' _. apply moved_mono. by intros t t' [].
Qed.

Lemma server_update u : fine (on_store (F := F) (StoreSpec.run_update (D := D) u)).
Proof. apply server_store; [apply _..|]. apply grown_update, _. Qed.

Lemma server_detector (f : AppState D F -> Detector.ProtocolAnomalyDetector) :
  fine (modify (fun s => set_detector (f s) s)).
Proof.
  apply (keeps_modify server_ok); [|done]. intros s []. split; [done|]. split; [|done]. intros t E.
  by exists t.
Qed.

Ltac store_call := first
  [ apply (server_update (StoreSpec.PutReader _ _)) | apply (server_update (StoreSpec.RemoveReader _))
  | apply (server_update (StoreSpec.BindDoor _ _)) | apply (server_update (StoreSpec.UnbindDoor _ _))
  | apply (server_update (StoreSpec.GrantRole _ _)) | apply (server_update (StoreSpec.WithdrawRole _ _))
  | apply (server_update (StoreSpec.PutCard _ _)) | apply (server_update (StoreSpec.RemoveCard _))
  | apply server_query; first [apply quiet_list_readers|apply quiet_list_doors|apply quiet_list_roles
      |apply quiet_list_cards|apply quiet_verify] ].

Ltac serve := keeps_by ltac:(first
  [ store_call | apply server_push_event; apply _ | apply server_detector | apply server_send; apply _ ]).

Lemma server_request r : fine (ServiceSpec.run_request (D := D) (F := F) r).
Proof.
  destruct r; cbn [ServiceSpec.run_request];
    unfold upsertReader, deleteReader, bindDoor, unbindDoor, allowRole, revokeRole, upsertCard, deleteCard;
    serve.
Qed.

Lemma server_unquarantine r : fine (unquarantineReader (D := D) (F := F) r).
Proof.
  unfold unquarantineReader. apply always_bind; [apply _|by apply keeps_get; [apply _|]|]. intros s.
  destruct (negb _); [by apply keeps_ret; [apply _|]|].
  destruct (Detector.unquarantine _ _) as [d was].
  apply always_bind; [apply _|apply (server_detector (fun _ => d))|]. intros _. serve.
Qed.

Lemma server_readers : fine (listReaders (D := D) (F := F)).
Proof. unfold listReaders. serve. Qed.

Lemma server_roles : fine (listDoorRoles (D := D) (F := F)).
Proof. unfold listDoorRoles. serve. Qed.

Lemma server_cards n m : fine (listCards (D := D) (F := F) n m).
Proof. unfold listCards. serve. Qed.

Lemma server_events n a l : fine (getEvents (D := D) (F := F) n a l).
Proof. unfold getEvents. serve. Qed.

Lemma server_verify : fine (verifyAuditChain (D := D) (F := F)).
Proof. unfold verifyAuditChain. serve. Qed.

Lemma server_export : fine (exportDatabase (D := D) (F := F)).
Proof. unfold exportDatabase. serve. Qed.

Lemma server_audit limit offset : fine (listAuditLog (D := D) (F := F) limit offset).
Proof.
  unfold listAuditLog. apply always_bind; [apply _| |intros []; cbn [negb]].
  - apply server_query. by intros d _.
  - apply always_bind; [apply _|by apply server_query, quiet_run; [|repeat constructor]|].
    intros r. by apply keeps_ret; [apply _|].
  - by apply keeps_ret; [apply _|].
Qed.

End Administration.

(** *** Opening and importing *)

Section Opening.

(** With no claim about the disk. *)
Abbreviation sane m := (always server_ok (fun _ _ => True) m).

#[local] Instance any_state : PreOrder (fun _ _ : AppState D F => True).
Proof. split; repeat intro; exact I. Qed.

Lemma sane_intro {A} (m : M (AppState D F) A) : (forall s, server_ok s -> server_ok (m s).1) -> sane m.
Proof. intros Hm s Hs. by split_and!; [apply Hm|..]. Qed.

Lemma sane_inside {A} (m : M (AppState D F) A) : always server_ok inside m -> sane m.
Proof. intros Hm. by eapply keeps_weaken. Qed.

Lemma sane_files {A} (f : F -> F * A) : sane (on_files f).
Proof. apply sane_intro. intros s []. unfold on_files. by destruct (f _). Qed.

Lemma sane_push kind w r q : sane (push_event (D := D) (F := F) kind w r q).
Proof. apply sane_inside, server_push_event; apply _. Qed.

Lemma log_new_result k ch (d : D) l :
  (SqliteAuditLog.SqliteAuditLog_new true k ch d).2 = Ok l -> l = SqliteAuditLog.mkSqliteAuditLog k ch.
Proof.
  unfold SqliteAuditLog.SqliteAuditLog_new. cbn [negb]. unfold mbind, M_bind.
  destruct (SqliteAuditLog.initSchema d) as [d' [[]|e|]]; [by intros [= <-]|done..].
Qed.

Lemma sane_make_store : sane (make_store (D := D) (F := F)).
Proof.
  apply sane_intro. intros s Hs. unfold make_store, mbind, M_bind, get, on_files.
  destruct (sqlite3_open _ _) as [f [d|]] eqn:Eo; [|by destruct Hs].
  pose proof (quiet_open (chain_kept D chain) key d I) as (_ & [Ep _] & _). apply open_path in Eo.
  rewrite Eo, (so_path _ Hs) in Ep.
  destruct (SqliteAccessStore.SqliteAccessStore_open d) as [d' [[]|e|]]; [|by destruct Hs..].
  destruct (store s); by apply (server_ok_store s); try apply Hs.
Qed.

(** A connection to the file of the database, where there was none. *)
Lemma server_make_store s :
  server_ok s -> store s = None ->
  server_ok (make_store s).1 /\ outside s (make_store s).1.
Proof.
  intros Hs En. split; [by apply sane_make_store|]. unfold make_store, mbind, M_bind, get, on_files.
  pose proof (fun t => open_keeps (dbPath s) (files s) (dbPath s) t) as Ek.
  destruct (sqlite3_open (dbPath s) (files s)) as [f [d|]] eqn:Eo; cbn [fst] in Ek.
  - pose proof (quiet_open (chain_kept D chain) key d I) as (_ & [_ Hd] & _).
    destruct (SqliteAccessStore.SqliteAccessStore_open d) as [d' [[]|e|]]; cbn [fst snd] in *; [|split; [|done]..].
    + rewrite En. split; [|done]. unfold on_disk. rewrite En. intros t E. eexists. split; [done|].
      rewrite (open_content _ _ _ _ _ Eo E) in Hd. exact Hd.
    + unfold on_disk. rewrite En. intros t E. exists t. split; [|done]. cbn. rewrite En. by apply Ek.
    + unfold on_disk. rewrite En. intros t E. exists t. split; [|done]. cbn. rewrite En. by apply Ek.
  - split; [|done]. unfold on_disk. cbn. rewrite En. intros t E. exists t. split; [|done]. by apply Ek.
Qed.

(** Opening, but for the step that makes the store. *)
Lemma openOrCreate_by (R : relation (AppState D F)) `{!PreOrder R} s :
  (forall s s', outside s s' -> R s s') -> server_ok s ->
  (forall s', server_ok s' -> store s' = store s -> server_ok (make_store s').1 /\ R s' (make_store s').1) ->
  server_ok (openOrCreate s).1 /\ R s (openOrCreate s).1.
Proof.
  intros HR Hs Hm. unfold openOrCreate. rewrite (M_bind_ok get _ s s s) by done.
  apply keeps_bind_at; [apply _| |intros o s1 E1].
  { unfold on_files. pose proof (create_keeps (parent_path (dbPath s)) (dbPath s) (files s)) as Ec.
    destruct (create_directories _ _) as [f o]. cbn [fst] in *. split; [by destruct Hs|].
    apply HR, changed_still; [apply _..| |done]. unfold on_disk. cbn. by rewrite Ec. }
  assert (server_ok s1 /\ store s1 = store s) as [Hs1 Es1].
  { unfold on_files in E1. destruct (create_directories _ _). injection E1 as <- _. by destruct Hs. }
  apply keeps_bind_at; [apply _|by destruct o|]. intros [] s2 E2.
  assert (s2 = s1) as -> by (destruct o; by injection E2).
  apply keeps_bind_at; [apply _|by apply Hm|]. intros [] s3 E3.
  assert (server_ok s3) as Hs3 by (pose proof (Hm s1 Hs1 Es1) as [Hs3 _]; by rewrite E3 in Hs3).
  clear Hm E1 E2 E3 Hs1 Es1 o s1.
  match goal with |- server_ok (?m s3).1 /\ _ => assert (always server_ok R m) as Htail end;
    [|destruct (Htail s3 Hs3) as (? & ? & _); by split].
  apply (keeps_weaken _ outside); [by intros s4 s5 _; apply HR|].
  rewrite (so_cfg _ Hs), (so_keys _ Hs).
  apply always_bind; [apply _|apply server_store, quiet_schema; apply _|]. intros _.
  apply (keeps_bind _ _ _ _ (fun h => h = key)).
  { apply keeps_lift; [apply _|]. rewrite AppFacts.audit_hash_run. by intros a [= <-]. }
  intros h ->. apply (keeps_bind _ _ _ _ (fun l => l = SqliteAuditLog.mkSqliteAuditLog key chain)).
  { apply server_store; [apply _..|]. intros d _. destruct (quiet_log_new (chain_kept D chain) key key chain d I) as (_ & Hd & _).
    split_and!; [done..|]. intros l. apply log_new_result. }
  intros l ->. apply always_bind; [apply _| |intros _].
  { apply (keeps_modify server_ok); [|done]. intros s4 []. split; [split; cbn; auto|].
    by apply changed_still; [apply _..| |]. }
  keeps_by ltac:(first [apply server_push_event; apply _
    |apply (keeps_modify server_ok); [|done]; intros s4 []; (split; [by split; cbn; try done; intros ? [= <-]|]);
     by apply changed_still; [apply _..| |]]).
Qed.

Lemma server_open s :
  server_ok s -> store s = None -> server_ok (openOrCreate s).1 /\ outside s (openOrCreate s).1.
Proof. intros Hs En. apply openOrCreate_by; [apply _|done..|]. intros s' Hs' E. apply server_make_store; congruence. Qed.

Lemma sane_openOrCreate : sane (openOrCreate (D := D) (F := F)).
Proof.
  apply sane_intro. intros s Hs. apply (openOrCreate_by (fun _ _ => True)); [done..|].
  intros s' Hs' _. split; [by apply sane_make_store|done].
Qed.

Ltac sane := keeps_by ltac:(first
  [ apply sane_files | apply sane_push | apply sane_openOrCreate
  | apply sane_intro; intros ? []; split; cbn; first [done|auto] ]).

Lemma sane_integrity p : sane (sqliteIntegrityOk (D := D) (F := F) p).
Proof.
  unfold sqliteIntegrityOk. apply always_bind; [apply _|apply sane_files|]. intros [d|];
    [|by apply keeps_ret; [apply _|]]. destruct (negb _); [sane|].
  destruct (sqlite_run _ _ _) as [d' r]. sane.
Qed.

Lemma sane_verify_upload p k : sane (verifyUploadedAuditChain (D := D) (F := F) p k).
Proof.
  unfold verifyUploadedAuditChain. apply always_bind; [apply _|apply sane_files|]. intros [d|];
    [|by apply keeps_ret; [apply _|]]. apply always_bind; [apply _|by apply keeps_lift; [apply _|]|].
  intros hash. destruct (AuditVerify.verifyAuditChain true hash d) as [d' [vr|e|]]; sane.
Qed.

Lemma sane_replace p q : sane (replaceDbFile (D := D) (F := F) p q).
Proof. unfold replaceDbFile. sane. Qed.

Lemma sane_reset : sane (reset_all (D := D) (F := F)).
Proof. unfold reset_all. sane. Qed.

Lemma sane_import_file p : sane (importDbFile (D := D) (F := F) p).
Proof.
  unfold importDbFile.
  keeps_by ltac:(first [apply sane_integrity|apply sane_verify_upload|apply sane_replace|apply sane_reset
    |apply sane_files|apply sane_push|apply sane_openOrCreate]).
Qed.

Lemma sane_import data : sane (importDatabase (D := D) (F := F) data).
Proof.
  unfold importDatabase. keeps_by ltac:(first [apply sane_import_file|apply sane_files]).
Qed.

Lemma sane_post_import req : sane (post_db_import (D := D) (F := F) req).
Proof.
  unfold post_db_import, requireAuth. keeps_by ltac:(first [apply sane_import|apply sane_inside, server_send; apply _]).
Qed.

End Opening.

(** *** The log after an import *)

Section Imported.
Context `{!SqliteReliable D, !FilesReliable F D, !UploadLaws F D}.

(** What a restart would find is a log that verifies. *)
Definition verifies (s : AppState D F) : Prop :=
  exists t, on_disk s = Some t /\ ChainSpec.chain_ok key t.

Lemma verifies_inside s s' : inside s s' -> chain = true -> verifies s -> verifies s'.
Proof.
  intros [Hd _] Hch (t & E & Hc). destruct (Hd t E) as (t' & E' & [_ Hg]). exists t'. split; [done|].
  apply Hg; [|done]. by split; [apply ChainFacts.reliable_readable|].
Qed.

Lemma verifies_outside s s' : outside s s' -> chain = true -> verifies s -> verifies s'.
Proof. intros Ho%outside_inside. by apply verifies_inside. Qed.

(** Work on another file than the database's. *)
Record elsewhere (s s' : AppState D F) : Prop := {
  el_store : store s' = store s;
  el_path : dbPath s' = dbPath s;
  el_file t : file_db (dbPath s) (files s) = Some t -> file_db (dbPath s) (files s') = Some t;
}.

Lemma elsewhere_verifies s s' : elsewhere s s' -> verifies s -> verifies s'.
Proof.
  intros [Es Ep Ef] (t & E & Hc). exists t. split; [|done]. unfold on_disk in *. rewrite Es, Ep.
  destruct (store s); auto.
Qed.

#[local] Instance elsewhere_preorder : PreOrder elsewhere.
Proof.
  split; [by intros s|]. intros s1 s2 s3 [] []. split; [congruence..|]. intros t E.
  replace (dbPath s1) with (dbPath s2) by done. rewrite el_path0 in *. auto.
Qed.

(** The checks of an upload leave the server alone. *)
Lemma elsewhere_open p s f o :
  sqlite3_open p (files s) = (f, o) -> elsewhere s (set_files f s).
Proof.
  intros E. split; [done..|]. intros t Et. pose proof (open_keeps p (files s) (dbPath s) t Et) as Ek.
  by rewrite E in Ek.
Qed.

Lemma elsewhere_close d s :
  conn_path d <> dbPath s -> elsewhere s (set_files (sqlite3_close d (files s)) s).
Proof. intros Hn. split; [done..|]. intros t Et. cbn. by rewrite close_keeps by done. Qed.

Lemma integrity_elsewhere p s : p <> dbPath s -> elsewhere s (sqliteIntegrityOk p s).1.
Proof.
  intros Hp. unfold sqliteIntegrityOk, mbind, M_bind, on_files.
  destruct (sqlite3_open p (files s)) as [f [d|]] eqn:Eo; [|by eapply elsewhere_open].
  pose proof (open_path _ _ _ _ Eo) as Ep. pose proof (run_path kIntegrityCheckSql [] d) as Er.
  etransitivity; [by eapply elsewhere_open|]. destruct (negb _).
  - apply (elsewhere_close d (set_files f s)). by rewrite Ep.
  - destruct (sqlite_run kIntegrityCheckSql [] d) as [d' r].
    apply (elsewhere_close d' (set_files f s)). cbn in *. by rewrite Er, Ep.
Qed.

Lemma integrity_database p s :
  exists_ p (files s) = true -> (sqliteIntegrityOk p s).2 = Ok None -> is_Some (file_db p (files s)).
Proof.
  intros Hx. unfold sqliteIntegrityOk, mbind, M_bind, on_files.
  destruct (file_db p (files s)) as [t|] eqn:Ef; [by eexists|].
  destruct (sqlite3_open p (files s)) as [f [d|]] eqn:Eo; [|done].
  destruct (negb _); [done|]. pose proof (not_a_database p (files s) f d) as Hn.
  destruct (sqlite_run kIntegrityCheckSql [] d) as [d' [[|row rows] rc]]; [done|]. cbn in *.
  intros E. exfalso. apply (Hn row); try done. by case_decide.
Qed.

Lemma verify_elsewhere p k s : p <> dbPath s -> elsewhere s (verifyUploadedAuditChain p k s).1.
Proof.
  intros Hp. unfold verifyUploadedAuditChain, mbind, M_bind, on_files.
  destruct (sqlite3_open p (files s)) as [f [d|]] eqn:Eo; [|by eapply elsewhere_open].
  pose proof (open_path _ _ _ _ Eo) as Ep. etransitivity; [by eapply elsewhere_open|].
  rewrite AppFacts.audit_hash_run. cbn [lift].
  pose proof (AppFacts.verify_stays (KeySpec.key_for k KeySpec.ForAudit) d) as Ev.
  destruct (AuditVerify.verifyAuditChain true _ d) as [d' [vr|e|]]; [|done..].
  apply (elsewhere_close d' (set_files f s)). cbn in *. by rewrite Ev, Ep.
Qed.

(** Closing what is open, before the file is replaced. *)
Lemma reset_closed p s t :
  server_ok s -> p <> path -> file_db p (files s) = Some t ->
  exists s', reset_all s = (s', Ok tt) /\ server_ok s' /\ store s' = None /\ file_db p (files s') = Some t.
Proof.
  intros Hs Hp Ef. assert (server_ok (reset_all s).1 /\ True /\ _) as [Hs' _] by apply (sane_reset s Hs).
  revert Hs'. unfold reset_all, mbind, M_bind, get, on_files. pose proof (so_conn _ Hs) as Hc.
  destruct (store s) as [d|]; intros Hs'; (eexists; split; [reflexivity|]); (split; [exact Hs'|]);
    (split; [done|]); [|done]. cbn in *. by rewrite close_keeps by congruence.
Qed.

(** An import leaves a log that verifies, if there was one. *)
Lemma import_file_verifies p s :
  chain = true -> p <> path -> p <> path +:+ ".bak" -> exists_ p (files s) = true ->
  (forall t, file_db p (files s) = Some t -> ChainSpec.log_fits t) ->
  server_ok s -> verifies s -> verifies (importDbFile p s).1.
Proof.
  intros Hch Hp Hb Hx Hfit Hs Hv. unfold importDbFile. rewrite (M_bind_ok get _ s s s) by done.
  rewrite (so_keys _ Hs), (so_path _ Hs).
  pose proof (integrity_elsewhere p s) as He. rewrite (so_path _ Hs) in He. specialize (He Hp).
  pose proof (integrity_database p s Hx) as Hdb. pose proof (sane_integrity p s Hs) as (Hs1 & _).
  pose proof (AppFacts.integrity_run p s) as Hrun.
  destruct (sqliteIntegrityOk p s) as [s1 [[err|]|e|]] eqn:E1; cbn [fst snd] in *;
    rewrite ?(M_bind_ok _ _ _ _ _ E1), ?(M_bind_throw _ _ _ _ _ E1);
    try (by eapply elsewhere_verifies); [|unfold mbind, M_bind; rewrite E1; by eapply elsewhere_verifies].
  destruct (Hdb eq_refl) as [t Et]. destruct (Hrun t Et) as (f1 & r1 & Er1 & F1). injection Er1 as -> <-.
  apply (elsewhere_verifies _ _ He) in Hv. clear He Hdb Hrun E1. set (s1 := set_files f1 s) in *.
  pose proof (verify_elsewhere p km s1) as He. rewrite (so_path _ Hs1) in He. specialize (He Hp).
  pose proof (sane_verify_upload p km s1 Hs1) as (Hs2 & _).
  destruct (AppFacts.verify_upload_run p km s1 t F1 (Hfit t Et)) as (f2 & r2 & E2 & F2 & Hok & _).
  rewrite E2 in He, Hs2. rewrite (M_bind_ok _ _ _ _ _ E2). apply (elsewhere_verifies _ _ He) in Hv.
  destruct r2 as [err|]; [exact Hv|]. specialize (Hok eq_refl). clear He Hv.
  destruct (reset_closed p (set_files f2 s1) t Hs2 Hp F2) as (s3 & E3 & Hs3 & En & F3).
  rewrite (M_bind_ok _ _ _ _ _ E3).
  pose proof (sane_replace path p s3 Hs3) as (Hs4 & _).
  destruct (AppFacts.replace_run path p s3 t Hp Hb F3) as (f4 & r4 & E4 & F4 & Hrel).
  rewrite E4 in Hs4. rewrite (M_bind_ok _ _ _ _ _ E4). specialize (Hrel _). subst r4. specialize (F4 eq_refl).
  assert (verifies (set_files f4 s3)) as Hv4.
  { exists t. split; [|done]. unfold on_disk. cbn. rewrite En. by rewrite (so_path _ Hs3). }
  destruct (server_open (set_files f4 s3) Hs4 En) as [Hs5 Ho5].
  apply (verifies_outside _ _ Ho5 Hch) in Hv4.
  destruct (openOrCreate (set_files f4 s3)) as [s5 [[]|e|]] eqn:E5; cbn [fst] in *;
    unfold mbind at 1, M_bind at 1; rewrite E5; [|done..].
  pose proof (server_push_event (extended (chain_kept D chain) key) persists "admin" "db imported + reopened" 0 0 s5 Hs5)
    as (_ & Ho6 & _). apply (verifies_outside _ _ Ho6 Hch) in Hv4.
  unfold mbind, M_bind. by destruct (push_event _ _ _ _ s5) as [s6 [[]|e|]].
Qed.

Lemma import_verifies data s :
  chain = true -> server_ok s -> verifies s -> verifies (importDatabase data s).1.
Proof.
  intros Hch Hs Hv. unfold importDatabase. rewrite (M_bind_ok get _ s s s) by done.
  case_decide; [done|]. set (tmp := dbPath s +:+ ".upload.tmp").
  assert (tmp <> path) as Hp by (subst tmp; rewrite (so_path _ Hs); by apply append_ne).
  set (s1 := set_files (write_file tmp data (files s)) s).
  rewrite (M_bind_ok _ _ s s1 tt) by done.
  assert (server_ok s1) as Hs1 by (by destruct Hs).
  assert (verifies s1) as Hv1.
  { apply (elsewhere_verifies s); [|done]. split; [done..|]. intros t. cbn.
    rewrite write_keeps; [done|]. rewrite (so_path _ Hs). congruence. }
  assert (verifies (importDbFile tmp s1).1) as Hv2.
  { apply import_file_verifies; try done.
    - subst tmp. rewrite (so_path _ Hs). by intros ?%(inj _).
    - apply write_exists.
    - intros t. apply upload_fits. }
  pose proof (sane_import_file tmp s1 Hs1) as (Hs2 & _). unfold mbind, M_bind.
  destruct (importDbFile tmp s1) as [s2 [[ok error]|e|]]; [|done..]. cbn [fst on_files] in *.
  destruct (negb ok); (apply (elsewhere_verifies s2); [|done]; split; [done..|]; intros t; cbn;
    rewrite remove_keeps; [done|]; rewrite (so_path _ Hs2); congruence).
Qed.

Lemma post_import_verifies req s :
  chain = true -> server_ok s -> verifies s -> verifies (post_db_import req s).1.
Proof.
  intros Hch Hs Hv. unfold post_db_import, requireAuth. rewrite (M_bind_ok get _ s s s) by done.
  destruct (negb _); [done|]. destruct (q_db req) as [data|]; [|done].
  pose proof (import_verifies data s Hch Hs Hv) as Hi. unfold mbind, M_bind.
  destruct (importDatabase data s) as [s1 [r|e|]]; [|done..]. cbn in *. by destruct (negb (ok r)).
Qed.

End Imported.

(** *** All routes *)

(** The routes that ask for no token. *)
Definition public (p : string) : Prop := p = "/"%string \/ p = "/api/hw/uid"%string.

#[global] Instance public_dec p : Decision (public p).
Proof. unfold public. apply _. Defined.

Definition import_path : string := "/api/db/import".

Abbreviation the_routes := (registerRoutes (D := D) (F := F) sodium_ready event_vector_max).

(** Without the token, nothing but the disk of an outsider changes. *)
Lemma routes_outside : Forall (fun r : string * string * (Request -> M (AppState D F) Response) =>
  forall req, modest req -> public r.1.2 \/ token_shown req = false ->
  always server_ok outside (r.2 req)) the_routes.
Proof.
  assert (forall (p : string) req (k : M (AppState D F) Response), ~ public p ->
    public p \/ token_shown req = false -> always server_ok outside (requireAuth req k)) as Hauth.
  { intros p req k Hp [?|E]; [done|]. apply server_auth; [apply _..|]. by rewrite E. }
  unfold registerRoutes. repeat (apply Forall_cons_2; [|]); [..|apply Forall_nil_2]; cbn [fst snd];
    intros req Hm Ho; first
      [ apply (fun Hn => Hauth _ _ _ Hn Ho); by_decision
      | apply server_post_hw_uid; [apply _..|done|done|done]
      | unfold get_root; by apply keeps_ret; [apply _|] ].
Qed.

Ltac service_call :=
  lazymatch goal with
  | |- keeps _ _ (sendResult _) _ => apply server_send; apply _
  | |- keeps _ _ (upsertReader _ _) _ => apply (server_request (ServiceSpec.UpsertReader _ _))
  | |- keeps _ _ (deleteReader _) _ => apply (server_request (ServiceSpec.DeleteReader _))
  | |- keeps _ _ (bindDoor _ _) _ => apply (server_request (ServiceSpec.BindDoor _ _))
  | |- keeps _ _ (unbindDoor _ _) _ => apply (server_request (ServiceSpec.UnbindDoor _ _))
  | |- keeps _ _ (allowRole _ _) _ => apply (server_request (ServiceSpec.AllowRole _ _))
  | |- keeps _ _ (revokeRole _ _) _ => apply (server_request (ServiceSpec.RevokeRole _ _))
  | |- keeps _ _ (upsertCard _ _ _) _ => apply (server_request (ServiceSpec.UpsertCard _ _ _))
  | |- keeps _ _ (deleteCard _) _ => apply (server_request (ServiceSpec.DeleteCard _))
  | |- keeps _ _ listReaders _ => apply server_readers
  | |- keeps _ _ listDoorRoles _ => apply server_roles
  | |- keeps _ _ (listCards _ _) _ => apply server_cards
  | |- keeps _ _ (getEvents _ _ _) _ => apply server_events
  | |- keeps _ _ verifyAuditChain _ => apply server_verify
  | |- keeps _ _ exportDatabase _ => apply server_export
  | |- keeps _ _ (listAuditLog _ _) _ => apply server_audit
  | |- keeps _ _ (unquarantineReader _) _ => apply server_unquarantine
  | |- keeps _ _ (post_hw_uid _ _) _ =>
      apply server_post_hw_uid; [apply _..|by intros t t' []|done|done]
  end.

(** With it, everything but an import keeps what was logged. *)
Lemma routes_inside `{!SqliteConfined D} :
  Forall (fun r : string * string * (Request -> M (AppState D F) Response) =>
    forall req, modest req -> r.1.2 <> import_path -> always server_ok inside (r.2 req)) the_routes.
Proof.
  unfold registerRoutes. repeat (apply Forall_cons_2; [|]); [..|apply Forall_nil_2]; cbn [fst snd];
    intros req Hm Hp; try (by destruct Hp);
    unfold get_events, get_readers, post_readers, delete_reader, post_reader_door, delete_reader_door,
      post_unquarantine, get_door_roles, post_door_roles, delete_door_roles, get_cards, post_cards,
      delete_cards, get_audit, post_audit_verify, get_db_export, get_root, param_or, path_id, at_u32, at_string;
    try (apply server_auth; [apply _..|]; intros _); try (apply server_or_error; [apply _..|]);
    keeps_by ltac:(idtac; service_call).
Qed.

End ServerLife.
End ServerLife.
