(* ===== verification/System.v ===== *)
(** The whole server over its life: requests of administrators and of anybody
    else, imports, crashes and restarts, in any order, with a database that may
    fail at any time. What they can do to what is on disk, to the quarantine list
    and to the buffers of the server. *)
From Stdlib Require Import ZArith Lia Ascii.
From stdpp Require Import base option list gmap strings relations.
From S2P Require Import Prelude LittleEndian Wire Replay Crypto Keys Events Detector Access FrameHandling Engine Sqlite SqliteStore AuditLog Config HwService AppState Durable FailClosed Services Http JsonText Routes Life.
Local Open Scope Z_scope.

(** ** A server in the world

    Requests of administrators and of others reach a server that is up, one at a
    time; a request that faults takes it down. The process can end at any time (a
    crash, the power supply) and be started again, on the configuration and the
    key it had and a file system that still holds what was committed. A failure in
    the middle of a request is a database all of whose later statements fail. *)

Module SystemSpec.
Import AppState HttpTypes Routes ServerLife.

Record node (D F : Type) := mkNode { app : AppState D F; up : bool }.
Arguments mkNode {D F} _ _.
Arguments app {D F} _.
Arguments up {D F} _.

Inductive actor := Outsider | Administrator | Importer | PowerSupply.

Definition survived {A} (r : res A) : bool := match r with Fault => false | _ => true end.
Definition came_up {A} (r : res A) : bool := match r with Ok _ => true | _ => false end.

Section SystemSpec.
Context `{SodiumLaws, Env, JsonDocLaws, HwService.Http} {D F : Type}.
Context `{SqliteLaws D, Files F, !SqliteFiles F D, !FilesLaws F D}.
Context (sodium_ready : bool) (event_vector_max : Z).

(** Who calls a route: without the token, an outsider. *)
Definition caller (s : AppState D F) (path : string) (req : Request) : actor :=
  if bool_decide (public path) || negb (RouteFacts.authorized s req) then Outsider
  else if decide (path = import_path) then Importer else Administrator.

Inductive node_step : actor -> node D F -> node D F -> Prop :=
| step_route verb path handler req s s' r :
    In (verb, path, handler) (registerRoutes sodium_ready event_vector_max) ->
    modest req -> handler req s = (s', r) ->
    node_step (caller s path req) (mkNode s true) (mkNode s' (survived r))
| step_decision req s s' r :
    modest req -> Main.decision_frame req s = (s', r) ->
    node_step Outsider (mkNode s true) (mkNode s' (survived r))
| step_restart ticks0 files0 s b s' r :
    (forall t, on_disk s = Some t -> file_db (dbPath s) files0 = Some t) ->
    openOrCreate (AppState_new (cfg s) (dbPath s) (keyManager s) ticks0 files0) = (s', r) ->
    node_step PowerSupply (mkNode s b) (mkNode s' (came_up r)).

(** Some steps by some of them. *)
Definition steps_by (who : actor -> Prop) : relation (node D F) :=
  rtc (fun n n' => exists a, who a /\ node_step a n n').

(** A server that [main] started, after any history. *)
Definition running_since (s0 : AppState D F) (n : node D F) : Prop :=
  steps_by (fun _ => True) (mkNode s0 true) n.

End SystemSpec.
End SystemSpec.

Module SystemFacts.
Import ChainFacts DurableSpec EngineLife AppState AppSpec HttpTypes Routes ServerLife SystemSpec.

Section SystemFacts.
Context `{SodiumLaws, Env, !HwFacts.EnvLaws, JsonDocLaws, HwService.Http} {D F : Type}.
Context `{SqliteLaws D, Files F, !SqliteFiles F D, !FilesLaws F D}.
Context (sodium_ready : bool) (event_vector_max : Z).
Context (c : Config.Config) (path : string) (km : KeyManager.KeyManager).
Hypothesis master_ok : array_ok 32 (KeyManager._masterKey km).

Abbreviation step := (node_step (D := D) (F := F) sodium_ready event_vector_max).
Abbreviation ok := (server_ok c path km).
Abbreviation chain := (Config.auditChainEnabled (Config.experiment c)).
Abbreviation key := (KeySpec.key_for km KeySpec.ForAudit).

(** A restart: the disk continues, the detector starts afresh. *)
Lemma restart_step s s' b b' :
  ok s -> step PowerSupply (mkNode s b) (mkNode s' b') ->
  ok s' /\ changed (extended (chain_kept D chain) key) (fun _ _ => True) s s'.
Proof.
  intros Hs Hstep. inversion Hstep as [? ? ? ? ? ? ? ? ? ? Hc| |ticks0 files0 ? ? ? r Hf E]; subst;
    [unfold caller in Hc; repeat case_match; discriminate|].
  rewrite (so_cfg _ _ _ _ Hs), (so_path _ _ _ _ Hs), (so_keys _ _ _ _ Hs) in *.
  set (s1 := AppState_new c path km ticks0 files0) in *.
  destruct (server_open c path km s1) as [Hs' [Hd _]]; [apply server_ok_new|done|].
  rewrite E in Hs', Hd. split; [done|]. split; [|done].
  intros t Ht. apply Hd. unfold on_disk. cbn. by apply Hf.
Qed.

(** A step of anybody without the token. *)
Lemma outsider_step s s' b b' :
  ok s -> step Outsider (mkNode s b) (mkNode s' b') ->
  ok s' /\ changed (extended (chain_kept D chain) key) persists s s'.
Proof.
  intros Hs Hstep. inversion Hstep as [v p h req ? ? r Hin Hm E Hc| req ? ? r Hm E|]; subst.
  - assert (public p \/ checkAuth req (Config.adminToken (Config.admin c)) = false) as Ho.
    { unfold caller, RouteFacts.authorized in Hc. rewrite (so_cfg _ _ _ _ Hs) in Hc.
      case_bool_decide; [by left|right]. cbn in Hc.
      destruct (checkAuth _ _); [|done]. cbn in Hc. by case_decide. }
    pose proof (routes_outside c path km master_ok sodium_ready event_vector_max) as Hr.
    rewrite Forall_forall in Hr. apply list_elem_of_In in Hin.
    specialize (Hr _ Hin req Hm Ho s Hs). cbn in Hr. rewrite E in Hr. by destruct Hr as (? & ? & _).
  - destruct (server_decision_frame c path km (extended (chain_kept D chain) key) persists (fun _ _ Ht => Ht)
      (fun _ _ Hd => Hd) req Hm s Hs) as (? & ? & _). by rewrite E in *.
Qed.

(** A step of an administrator. *)
Lemma administrator_step `{!SqliteConfined D} s s' b b' :
  ok s -> step Administrator (mkNode s b) (mkNode s' b') ->
  ok s' /\ changed (grown (chain_kept D chain) key) (fun _ _ => True) s s'.
Proof.
  intros Hs Hstep. inversion Hstep as [v p h req ? ? r Hin Hm E Hc| |]; subst.
  assert (p <> import_path) as Hp.
  { intros ->. unfold caller in Hc. by repeat case_match. }
  pose proof (routes_inside c path km master_ok sodium_ready event_vector_max) as Hr.
  rewrite Forall_forall in Hr. apply list_elem_of_In in Hin.
  specialize (Hr _ Hin req Hm Hp s Hs). cbn in Hr. rewrite E in Hr. by destruct Hr as (? & ? & _).
Qed.

Lemma import_handler s s' b b' :
  ok s -> step Importer (mkNode s b) (mkNode s' b') -> exists req r, post_db_import req s = (s', r).
Proof.
  intros Hs Hstep. inversion Hstep as [v p h req ? ? r Hin Hm E Hc| |]; subst.
  assert (p = import_path) as ->. { unfold caller in Hc. by repeat case_match. }
  assert (h = post_db_import) as ->; [|by exists req, r].
  unfold registerRoutes in Hin. cbn [In] in Hin. repeat destruct Hin as [Hin|Hin]; by simplify_eq.
Qed.

(** An import leaves a server that is put together as before. *)
Lemma importer_step s s' b b' :
  ok s -> step Importer (mkNode s b) (mkNode s' b') -> ok s'.
Proof.
  intros Hs Hstep. destruct (import_handler s s' b b' Hs Hstep) as (req & r & E).
  pose proof (sane_post_import c path km req s Hs) as (Hs' & _). by rewrite E in Hs'.
Qed.

Lemma any_step `{!SqliteConfined D} a n n' : ok (app n) -> step a n n' -> ok (app n').
Proof.
  intros Hs Hstep. destruct n as [s b], n' as [s' b'], a; cbn in *.
  - by eapply outsider_step.
  - by eapply administrator_step.
  - by eapply importer_step.
  - by eapply restart_step.
Qed.

Lemma history_ok `{!SqliteConfined D} s0 n :
  ok s0 -> running_since sodium_ready event_vector_max s0 n -> ok (app n).
Proof.
  intros H0s Hn. unfold running_since, steps_by in Hn. remember (mkNode s0 true) as n0 eqn:E.
  assert (ok (app n0)) as Hn0 by by rewrite E. clear E.
  induction Hn as [m|n1 n2 n3 (a & _ & H12) _ IH]; [done|]. by eapply IH, any_step.
Qed.

(** Anybody's steps leave a log that verifies, if there was one. *)
Lemma any_verifies `{!SqliteConfined D, !SqliteReliable D, !FilesReliable F D, !UploadLaws F D} n n' :
  chain = true -> ok (app n) -> verifies km (app n) ->
  steps_by sodium_ready event_vector_max (fun _ => True) n n' -> verifies km (app n').
Proof.
  intros Hch Hn Hv Hsteps. induction Hsteps as [n|n1 n2 n3 (a & _ & H12) _ IH]; [done|].
  apply IH; [by eapply any_step|]. clear IH n3. destruct n1 as [s b], n2 as [s' b']. cbn [app] in *.
  destruct a.
  - destruct (outsider_step _ _ _ _ Hn H12) as [_ Ho]. by eapply verifies_outside.
  - destruct (administrator_step _ _ _ _ Hn H12) as [_ Ho]. by eapply verifies_inside.
  - destruct (import_handler _ _ _ _ Hn H12) as (req & r & E).
    pose proof (post_import_verifies c path km req s Hch Hn Hv) as Hp. by rewrite E in Hp.
  - destruct (restart_step _ _ _ _ Hn H12) as [_ Ho]. eapply verifies_inside; [apply _| |done..].
    eapply changed_mono; [|done|exact Ho]. by intros t t' [].
Qed.

(** Many steps, each of which keeps a relation. *)
Lemma steps_keep `{!SqliteConfined D} (who : actor -> Prop) P K `{!PreOrder P, !PreOrder K} n n' :
  (forall a s s' b b', who a -> ok s -> step a (mkNode s b) (mkNode s' b') -> changed P K s s') ->
  ok (app n) -> steps_by sodium_ready event_vector_max who n n' ->
  ok (app n') /\ changed P K (app n) (app n').
Proof.
  intros Hstep Hn Hsteps. induction Hsteps as [n|n1 n2 n3 (a & Ha & H12) _ IH]; [done|].
  assert (ok (app n2)) as Hn2 by by eapply any_step. destruct (IH Hn2) as [Hn3 H23]. split; [done|].
  etransitivity; [|exact H23]. destruct n1 as [s1 b1], n2 as [s2 b2]. by eapply Hstep.
Qed.

End SystemFacts.

(** What [main] starts. *)
Lemma start_ok `{SodiumLaws, Env, JsonDocLaws, HwService.Http, Yaml} {D F : Type}
    `{SqliteLaws D, Files F, !SqliteFiles F D, !FilesLaws F D, !HwFacts.EnvLaws}
    ready argv1 n0 (f0 : F) (s : AppState D F) :
  Main.start ready argv1 n0 f0 = Ok s ->
  Config.loadFromYaml (Main.config_path argv1) = Ok (cfg s) /\
  server_ok (cfg s) (dbPath s) (keyManager s) s /\ array_ok 32 (KeyManager._masterKey (keyManager s)) /\
  forall t, file_db (dbPath s) f0 = Some t -> exists t', on_disk s = Some t' /\
    extended (chain_kept D (Config.auditChainEnabled (Config.experiment (cfg s)))) (audit_key s) t t'.
Proof.
  unfold Main.start. intros E. inv_res.
  match goal with Hk : KeyManager.KeyManager_new _ _ = Ok ?km |- _ =>
    unfold KeyManager.KeyManager_new in Hk; case_decide; [done|]; injection Hk as <- end.
  match type of E with context [AppState_new ?c ?p ?km _ _] =>
    destruct (server_open c p km (AppState_new c p km n0 f0)) as [Hs [Hd _]]; [apply server_ok_new|done|] end.
  destruct (openOrCreate _) as [s' [[]|e|]]; [|done..]. injection E as <-. cbn in Hs, Hd.
  unfold audit_key. pose proof Hs as [-> -> -> _ _ _ _ _].
  split; [done|]. split; [exact Hs|]. split; [|exact Hd]. cbn.
  destruct (read_file _ _); [|done]. by eapply RouteFacts.parseHex_array.
Qed.

(** A server that is put together as [main] does keeps its memory in bounds. *)
Lemma ok_memory `{SodiumLaws, Env, JsonDocLaws, HwService.Http, YamlLaws} {D F : Type}
    `{SqliteLaws D, Files F, !SqliteFiles F D, !FilesLaws F D} yaml c path km (s : AppState D F) :
  Config.loadFromYaml yaml = Ok c -> server_ok c path km s ->
  Z.of_nat (length (EventBus._events (events s))) <= Config.maxEvents (Config.admin c) /\
  forall reader w, replayByReader s !! reader = Some w ->
    ReplayWindow._window w = window_size (Config.frameHandler c) /\
    Z.of_nat (length (ReplayWindow._order w)) <= window_size (Config.frameHandler c) /\
    Z.of_nat (size (ReplayWindow._seen w)) = Z.of_nat (length (ReplayWindow._order w)).
Proof.
  intros Hc%ConfigFacts.loadFromYaml_ok Hs. split.
  - destruct (so_events _ _ _ _ Hs) as [_ Hl]. destruct Hc as [_ _ _ _ [? _] _ _ _]. lia.
  - intros r w Ew. destruct (so_windows _ _ _ _ Hs r w Ew) as [Hw Hse Hnd Hl].
    change (window_size (runtime_config c)) with (window_size (Config.frameHandler c)) in *.
    assert (1 <= window_size (Config.frameHandler c)).
    { destruct Hc as [[]]. unfold window_size, is_u64 in *. case_decide; lia. }
    split_and!; [done|lia|]. f_equal. rewrite Hse. by apply size_list_to_set.
Qed.

(** Steps of a server [main] started, each of which keeps a relation. *)
Lemma since_start `{SodiumLaws, Env, JsonDocLaws, HwService.Http, Yaml} {D F : Type}
    `{SqliteLaws D, Files F, !SqliteFiles F D, !FilesLaws F D, !HwFacts.EnvLaws}
    `{!SqliteConfined D} ready maxev argv1 n0 (f0 : F) (s0 : AppState D F) (n n' : node D F)
    (who : actor -> Prop) P K `{!PreOrder P, !PreOrder K} :
  Main.start ready argv1 n0 f0 = Ok s0 -> running_since ready maxev s0 n ->
  steps_by ready maxev who n n' ->
  (array_ok 32 (KeyManager._masterKey (keyManager s0)) -> forall a s s' b b', who a ->
     server_ok (cfg s0) (dbPath s0) (keyManager s0) s ->
     node_step ready maxev a (mkNode s b) (mkNode s' b') -> changed P K s s') ->
  changed P K (app n) (app n').
Proof.
  intros Hs Hn Hsteps Hstep. destruct (start_ok _ _ _ _ _ Hs) as (_ & Hok & Hm & _).
  eapply (steps_keep ready maxev _ _ _ Hm who P K); [by apply Hstep| |exact Hsteps].
  by eapply (history_ok ready maxev).
Qed.

(** What the server grants, the policy has ground for; and so has what it logs. *)
Lemma decide_permitted `{SodiumLaws, Env, JsonDocLaws, HwService.Http} {D F : Type}
    `{SqliteLaws D, !SqliteRows D, Files F, !SqliteFiles F D, !FilesLaws F D}
    c path km (s s' : AppState D F) d b x v :
  let e := Engine.mkDecisionEngine true true km (runtime_config c) in
  server_ok c path km s -> store s = Some d -> SqliteSound.settled v (content d) ->
  ParserFacts.span_ok b -> Services.decide_frame b s = (s', x) ->
  (forall r, x = Ok r -> Engine.allow r = true -> exists f req, FailClosedSpec.permitted e v b f req) /\
  exists d', store s' = Some d' /\
    SqliteSound.added (FailClosedSpec.justified e v b) (committed (content d)) (committed (content d')).
Proof.
  intros e Hs Es Hv Hb. unfold Services.decide_frame, on_engine, on_view. rewrite Es.
  destruct (engine s) as [e'|] eqn:Ee; [destruct (audit s) as [l|]|]; cycle 1.
  1, 2: intros [= <- <-]; split; [done|]; exists d; by split; [|apply SqliteSound.added_preorder].
  rewrite (so_engine _ _ _ _ Hs e' Ee). fold e.
  pose proof (FailClosedFacts.ekeeps_engine (AccessStoreSound0 := SqliteSound.sqlite_sound l) v
    (FailClosedSpec.justified e v b) e b Hb (fun _ Hj => Hj) (engine_view d s) Hv) as (_ & Hl & Hr).
  destruct (Engine.handleFrameBytes e b _) as [t y]. intros [= <- <-]. split; [exact Hr|]. by eexists.
Qed.

(** What is on disk of a server that serves. *)
Lemma serving_disk `{SodiumLaws, Env} {D F : Type} `{SqliteLaws D, Files F, !SqliteFiles F D, !FilesLaws F D}
    (s : AppState D F) d : serving s d -> on_disk s = Some (Sql.current (content d)).
Proof. intros []. unfold on_disk, committed. by simplify_option_eq. Qed.

End SystemFacts.

(** ** Properties *)

Module SystemProps.
Import ChainFacts DurableSpec AppState AppSpec HttpTypes Routes ServerLife SystemSpec SystemFacts.
Import MemFiles AppProps ToySodium HandlerProps HwService.HwProps FlatJson RouteProps.
Import ServiceSpec ServiceFacts ServiceProps.

(** In memory, a statement of the policy keeps the log. *)
#[export] Instance connection_confined : SqliteConfined connection.
Proof.
  intros s ps [p db] Hs. cbn [sqlite_run sqlite content laws]. rewrite conn_run_text, MemDb.run_text.
  cbn [snd fst]. destruct (Sql.meaning s ps db) as [[rows db']|] eqn:E; cbn; [|done].
  by eapply DurableFacts.policy_log.
Defined.

(** A server that watches for misuse. *)
Definition strict_files : list (string * ToyYaml.tree) := [
  ("strict.yaml", ToyYaml.Map [("admin", ToyYaml.Map [("admin_token", ToyYaml.Text "secret")]);
     ("experiment", ToyYaml.Map [("misuse_detection_enabled", ToyYaml.Flag true);
        ("nonce_mode", ToyYaml.Text "deterministic")])]);
  ("tiny.yaml", ToyYaml.Map [("frame_handler", ToyYaml.Map [("replay_window_size", ToyYaml.Num 1)]);
     ("admin", ToyYaml.Map [("max_events", ToyYaml.Num 2)])])]%string.

#[export] Instance strict_yaml : Yaml := ToyYaml.toy_yaml strict_files.
#[export] Instance strict_yaml_laws : YamlLaws := ToyYaml.toy_yaml_laws strict_files.

Definition strict : AppState connection filesys :=
  Eval vm_compute in match Main.start true (Some "strict.yaml"%string) 0 disk with
                     | Ok s => s | _ => test_start end.

Lemma strict_starts : Main.start true (Some "strict.yaml"%string) 0 disk = Ok strict.
Proof. vm_compute. reflexivity. Qed.

(** A body that is no frame: its denial is logged, and reader 0 is quarantined. *)
Definition junk : Request := request_of (fun _ => EmptyString) [] "x".

Definition attacked : AppState connection filesys :=
  Eval vm_compute in (Main.decision_frame junk strict).1.

Definition junk_answer : Response :=
  Eval vm_compute in match (Main.decision_frame junk strict).2 with Ok r => r | _ => Response_new end.

Definition disk_of (s : AppState connection filesys) : Sql.tables :=
  default Sql.no_tables (on_disk s).

(** The power supply fails; the server comes up on what was committed. *)
Definition disk_after : filesys :=
  Eval vm_compute in <["data/access.db"%string := Db (disk_of attacked)]> disk.

Definition recovered : AppState connection filesys :=
  Eval vm_compute in
    (openOrCreate (AppState_new (cfg attacked) (dbPath attacked) (keyManager attacked) 7 disk_after)).1.

Lemma junk_modest : modest junk.
Proof. split; [by_decision|]. intros j hw E. vm_compute in E. discriminate. Qed.

(** The administrator takes reader 1 out of the policy. *)
Definition removal : Request := request_of (with_token "secret") ["1"%string] "".

Definition administered : AppState connection filesys :=
  Eval vm_compute in (delete_reader removal attacked).1.

Definition removal_answer : Response :=
  Eval vm_compute in match (delete_reader removal attacked).2 with Ok r => r | _ => Response_new end.

Lemma administration who : who Administrator ->
  steps_by true 1000 who (mkNode attacked true) (mkNode administered true).
Proof.
  intros Hw. apply rtc_once. exists Administrator. split; [done|].
  refine (step_route true 1000 "DELETE" "/api/readers/(\d+)" delete_reader removal attacked administered
    (Ok removal_answer) _ _ _).
  - unfold registerRoutes. cbn [In]. do 4 right. by left.
  - split; [by_decision|]. intros j hw E. vm_compute in E. discriminate.
  - vm_compute. reflexivity.
Qed.

Lemma attack who : who Outsider ->
  steps_by true 1000 who (mkNode strict true) (mkNode attacked true).
Proof.
  intros Hw. apply rtc_once. exists Outsider. split; [done|].
  refine (step_decision true 1000 junk strict attacked (Ok junk_answer) junk_modest _). vm_compute. reflexivity.
Qed.

Lemma recovery who : who PowerSupply ->
  steps_by true 1000 who (mkNode attacked true) (mkNode recovered true).
Proof.
  intros Hw. apply rtc_once. exists PowerSupply. split; [done|].
  refine (step_restart true 1000 7 disk_after attacked true recovered (Ok tt) _ _).
  - intros t E. vm_compute in E. injection E as <-. vm_compute. reflexivity.
  - vm_compute. reflexivity.
Qed.

Definition attacked_again : AppState connection filesys :=
  Eval vm_compute in (Main.decision_frame junk attacked).1.

Lemma attack_again who : who Outsider ->
  steps_by true 1000 who (mkNode attacked true) (mkNode attacked_again true).
Proof.
  intros Hw. apply rtc_once. exists Outsider. split; [done|].
  refine (step_decision true 1000 junk attacked attacked_again (Ok junk_answer) junk_modest _).
  vm_compute. reflexivity.
Qed.

(** C2: outsiders change no policy and erase no trace. Take a server that [main]
    started, after any history of requests, imports and restarts, on a database of
    which a statement touches only the tables it names. Whatever
    requests then arrive that do not show the token of the administration (scans
    with or without a valid signature and frames of any bytes included), whatever
    statements of the database fail in between, and however often the process ends
    and is started again: what is on disk is the same policy, and the same log with
    at most new entries at its end. If the chain is switched on, and the query for
    the last hash is one that does not fail ([chain_kept]; on a database where it
    fails, [failed_query_forks_log] applies), the chain is intact if it was
    before. *)
Theorem outsiders_change_no_policy {D F : Type}
    `{SodiumLaws, Env, !HwFacts.EnvLaws, JsonDocLaws, HwService.Http, Yaml}
    `{SqliteLaws D, Files F, !SqliteFiles F D, !FilesLaws F D}
    `{!SqliteConfined D} (ready : bool) (event_vector_max : Z) (argv1 : option string) (ticks0 : nat)
    (files0 : F) (s0 : AppState D F) (n n' : node D F) (t : Sql.tables) :
  Main.start ready argv1 ticks0 files0 = Ok s0 ->
  running_since ready event_vector_max s0 n ->
  steps_by ready event_vector_max (fun a => a = Outsider \/ a = PowerSupply) n n' ->
  on_disk (app n) = Some t ->
  exists t', on_disk (app n') = Some t' /\
    extended (chain_kept D (Config.auditChainEnabled (Config.experiment (cfg s0)))) (audit_key s0) t t'.
Proof.
  intros Hs Hn Hsteps Ht.
  refine (ch_disk _ (fun _ _ => True) _ _ (since_start _ _ _ _ _ _ _ _ _ _ _ Hs Hn Hsteps _) t Ht).
  intros Hm a s s' b b' [-> | ->] Hss Hstep; [|by eapply restart_step].
  destruct (outsider_step _ _ _ _ _ Hm _ _ _ _ Hss Hstep) as [_ []]. by split.
Qed.

Lemma outsiders_change_no_policy_witness :
  exists t', on_disk recovered = Some t' /\
    extended (chain_kept connection true) (audit_key strict) (AppFacts.with_anchor AppProps.test_tables) t'.
Proof.
  refine (outsiders_change_no_policy true 1000 (Some "strict.yaml"%string) 0 disk strict
    (mkNode strict true) (mkNode recovered true) _ strict_starts _ _ _).
  - apply rtc_refl.
  - etransitivity; [apply attack; by left|apply recovery; by right].
  - vm_compute. reflexivity.
Defined.


(** C10: nobody rewrites the log but by an import. On a server that [main]
    started, after any history: whatever anybody requests, administrators
    included, import apart, whatever statements of the database fail (a statement
    that does not fail touches only the tables it names), and however
    often the process ends and is started again, the committed log is the old one
    with at most new entries at its end. If the query for the last hash is one that
    does not fail, and the log is kept with the chain and its chain was intact, the
    chain is intact (if that query fails, see [failed_query_forks_log]). *)
Theorem log_only_grows {D F : Type}
    `{SodiumLaws, Env, !HwFacts.EnvLaws, JsonDocLaws, HwService.Http, Yaml}
    `{SqliteLaws D, Files F, !SqliteFiles F D, !FilesLaws F D}
    `{!SqliteConfined D} (ready : bool) (event_vector_max : Z) (argv1 : option string) (ticks0 : nat)
    (files0 : F) (s0 : AppState D F) (n n' : node D F) (t : Sql.tables) :
  Main.start ready argv1 ticks0 files0 = Ok s0 ->
  running_since ready event_vector_max s0 n ->
  steps_by ready event_vector_max (fun a => a <> Importer) n n' ->
  on_disk (app n) = Some t ->
  exists t', on_disk (app n') = Some t' /\ Sql.audit_log t `prefix_of` Sql.audit_log t' /\
    (LogReadable D -> Config.auditChainEnabled (Config.experiment (cfg s0)) = true ->
     ChainSpec.chain_ok (audit_key s0) t -> ChainSpec.chain_ok (audit_key s0) t').
Proof.
  intros Hs Hn Hsteps Ht.
  assert (changed (grown (chain_kept D (Config.auditChainEnabled (Config.experiment (cfg s0)))) (audit_key s0))
    (fun _ _ => True) (app n) (app n')) as [Hd _].
  { refine (since_start _ _ _ _ _ _ _ _ _ _ _ Hs Hn Hsteps _). intros Hm a s s' b b' Ha Hss Hstep.
    destruct a; [|by eapply administrator_step|done|].
    - by eapply outside_inside, outsider_step.
    - destruct (restart_step _ _ _ _ _ _ _ _ _ Hss Hstep) as [_ Hc].
      by eapply changed_mono; [..|exact Hc]; [intros ? ? []|]. }
  destruct (Hd t Ht) as (t' & E & [Hl Hc]). exists t'. split_and!; [done..|]. intros Hr Hch.
  apply Hc. by split.
Qed.

(** C27: an outsider lifts no quarantine. On a server that [main] started, after any
    history: a reader in quarantine stays there through all requests that do not
    show the token; only an administrator or a restart lets it back in. *)
Theorem outsiders_lift_no_quarantine {D F : Type}
    `{SodiumLaws, Env, !HwFacts.EnvLaws, JsonDocLaws, HwService.Http, Yaml}
    `{SqliteLaws D, Files F, !SqliteFiles F D, !FilesLaws F D}
    `{!SqliteConfined D} (ready : bool) (event_vector_max : Z) (argv1 : option string) (ticks0 : nat)
    (files0 : F) (s0 : AppState D F) (n n' : node D F) (reader : Z) :
  Main.start ready argv1 ticks0 files0 = Ok s0 ->
  running_since ready event_vector_max s0 n ->
  steps_by ready event_vector_max (fun a => a = Outsider) n n' ->
  Detector.isQuarantined (anomalyDetector (app n)) reader = true ->
  Detector.isQuarantined (anomalyDetector (app n')) reader = true.
Proof.
  intros Hs Hn Hsteps. assert (changed (extended (chain_kept D (Config.auditChainEnabled (Config.experiment (cfg s0))))
    (audit_key s0)) persists (app n) (app n')) as [_ Hk]; [|by apply Hk].
  refine (since_start _ _ _ _ _ _ _ _ _ _ _ Hs Hn Hsteps _). intros Hm a s s' b b' -> Hss Hstep.
  by eapply outsider_step.
Qed.

Lemma outsiders_lift_no_quarantine_witness :
  Detector.isQuarantined (anomalyDetector attacked) 0 = true /\
  Detector.isQuarantined (anomalyDetector attacked_again) 0 = true /\
  Detector.isQuarantined (anomalyDetector recovered) 0 = false.
Proof.
  split; [vm_compute; reflexivity|]. split; [|vm_compute; reflexivity].
  refine (outsiders_lift_no_quarantine true 1000 (Some "strict.yaml"%string) 0 disk strict
    (mkNode attacked true) (mkNode attacked_again true) 0 strict_starts _ _ _).
  - by apply attack.
  - by apply attack_again.
  - vm_compute. reflexivity.
Defined.

Lemma log_only_grows_witness :
  Sql.readers (disk_of administered) !! 1 = None /\
  exists t', on_disk administered = Some t' /\
    Sql.audit_log (disk_of attacked) `prefix_of` Sql.audit_log t' /\
    (LogReadable connection -> true = true -> ChainSpec.chain_ok (audit_key strict) (disk_of attacked) ->
     ChainSpec.chain_ok (audit_key strict) t').
Proof.
  split; [vm_compute; reflexivity|].
  refine (log_only_grows true 1000 (Some "strict.yaml"%string) 0 disk strict
    (mkNode attacked true) (mkNode administered true) (disk_of attacked) strict_starts _ _ _).
  - by apply attack.
  - by apply administration.
  - vm_compute. reflexivity.
Defined.

(** C4: the log always verifies. On files and a database that do not fail, with
    the chain switched on and an intact log on disk when [main] starts the server:
    after any requests by anybody, imports of any file included, and any number of
    crashes and restarts, what is on disk is a log whose chain is intact. *)
Theorem log_always_verifies {D F : Type}
    `{SodiumLaws, Env, !HwFacts.EnvLaws, JsonDocLaws, HwService.Http, Yaml}
    `{SqliteReliable D, Files F, !SqliteFiles F D, !FilesLaws F D, !FilesReliable F D, !UploadLaws F D}
    `{!SqliteConfined D} (ready : bool) (event_vector_max : Z) (argv1 : option string) (ticks0 : nat)
    (files0 : F) (s0 : AppState D F) (n : node D F) (t : Sql.tables) :
  Main.start ready argv1 ticks0 files0 = Ok s0 ->
  Config.auditChainEnabled (Config.experiment (cfg s0)) = true ->
  file_db (dbPath s0) files0 = Some t -> ChainSpec.chain_ok (audit_key s0) t ->
  running_since ready event_vector_max s0 n ->
  exists t', on_disk (app n) = Some t' /\ ChainSpec.chain_ok (audit_key s0) t'.
Proof.
  intros Hs Hch Ef Hc Hn. destruct (start_ok _ _ _ _ _ Hs) as (_ & Hok & Hm & Hd).
  refine (any_verifies ready event_vector_max _ _ _ Hm (mkNode s0 true) n Hch Hok _ Hn).
  destruct (Hd t Ef) as (t' & E & [[_ Hg] _ _ _ _]).
  exists t'. split; [done|]. apply Hg; [|done]. by split; [apply reliable_readable|].
Qed.

(** A disk on which a server has been before; an administrator imports a backup. *)
Definition used_disk : filesys :=
  <["data/access.db"%string := Db (AppFacts.with_anchor AppProps.test_tables)]>
  (<["secrets/master_key.hex"%string := Raw (CardIdHasher.toHex (KeyManager._masterKey KeyProps.test_km))]> disk).

Definition used : AppState connection filesys :=
  Eval vm_compute in match Main.start true (Some "strict.yaml"%string) 0 used_disk with
                     | Ok s => s | _ => test_start end.

Definition upload : Request :=
  mkRequest EmptyString (with_token "secret") (fun _ => None) [] (Some "backup"%string).

Definition imported : AppState connection filesys := Eval vm_compute in (post_db_import upload used).1.

Definition import_answer : Response :=
  Eval vm_compute in match (post_db_import upload used).2 with Ok r => r | _ => Response_new end.

Example imported_ok :
  p_content import_answer = "IMPORT OK (integrity + verify passed, DB swapped, reopened)"%string.
Proof. reflexivity. Qed.

Lemma importing who : who Importer ->
  steps_by true 1000 who (mkNode used true) (mkNode imported true).
Proof.
  intros Hw. apply rtc_once. exists Importer. split; [done|].
  refine (step_route true 1000 "POST" "/api/db/import" post_db_import upload used imported
    (Ok import_answer) _ _ _).
  - unfold registerRoutes. cbn [In]. do 17 right. by left.
  - split; [by_decision|]. intros j hw E. vm_compute in E. discriminate.
  - vm_compute. reflexivity.
Qed.

Lemma log_always_verifies_witness :
  exists t', on_disk imported = Some t' /\ ChainSpec.chain_ok (audit_key used) t'.
Proof.
  refine (log_always_verifies true 1000 (Some "strict.yaml"%string) 0 used_disk used
    (mkNode imported true) (AppFacts.with_anchor AppProps.test_tables) _ _ _ _ _).
  - vm_compute. reflexivity.
  - reflexivity.
  - vm_compute. reflexivity.
  - split; [vm_compute; reflexivity|by eexists].
  - by apply importing.
Defined.

(** C40: the buffers of the server are bounded. Whatever anybody sends to a server
    that [main] started, and whatever statements of the database fail: the event
    buffer never holds more than max_events events, and each replay window never
    more than replay_window_size numbers (one, if that is 0), each once. This bounds
    the buffers, not the server: there is a window for each reader that has been in
    the policy, and the detector keeps a record of every reader number in any frame
    it sees, authentic or not (example [detector_remembers_strangers]). *)
Theorem server_buffers_bounded {D F : Type}
    `{SodiumLaws, Env, !HwFacts.EnvLaws, JsonDocLaws, HwService.Http, YamlLaws}
    `{SqliteLaws D, Files F, !SqliteFiles F D, !FilesLaws F D}
    `{!SqliteConfined D} (ready : bool) (event_vector_max : Z) (argv1 : option string) (ticks0 : nat)
    (files0 : F) (s0 : AppState D F) (n : node D F) :
  Main.start ready argv1 ticks0 files0 = Ok s0 ->
  running_since ready event_vector_max s0 n ->
  Z.of_nat (length (EventBus._events (events (app n)))) <= Config.maxEvents (Config.admin (cfg s0)) /\
  forall reader w, replayByReader (app n) !! reader = Some w ->
    ReplayWindow._window w = EngineLife.window_size (Config.frameHandler (cfg s0)) /\
    Z.of_nat (length (ReplayWindow._order w)) <= EngineLife.window_size (Config.frameHandler (cfg s0)) /\
    Z.of_nat (size (ReplayWindow._seen w)) = Z.of_nat (length (ReplayWindow._order w)).
Proof.
  intros Hs Hn. destruct (start_ok _ _ _ _ _ Hs) as (Hc & Hok & Hm & _).
  eapply ok_memory; [exact Hc|]. by eapply (history_ok ready event_vector_max).
Qed.

(** Two frames nobody sealed, in the name of readers nobody knows: both are refused,
    and the detector has a record of each. *)
Definition forged (reader : Z) : Request :=
  request_of (fun _ => EmptyString) [] (string_of_bytes (Frame.serialize
    (Frame.mkFrame (Packet.mkHeader reader 2 1234 42 2 (replicate 24 0)) [] (replicate 16 0)))).

Example detector_remembers_strangers :
  size (Detector._readers (anomalyDetector strict)) = 0%nat /\
  let s := (Main.decision_frame (forged 8888) (Main.decision_frame (forged 7777) strict).1).1 in
  size (Detector._readers (anomalyDetector s)) = 2%nat.
Proof. vm_compute. split; reflexivity. Qed.

(** A server with room for two events and one number for each reader, and the
    request it gets: the frame is accepted, and more than two events come up. *)
Definition tiny_disk : filesys := Eval vm_compute in
  <["data/access.db"%string := Db (Sql.current (content enrolled_connection))]>
  (<["secrets/master_key.hex"%string := Raw (CardIdHasher.toHex (KeyManager._masterKey KeyProps.test_km))]> disk).

Definition tiny : AppState connection filesys :=
  Eval vm_compute in match Main.start true (Some "tiny.yaml"%string) 0 tiny_disk with
                     | Ok s => s | _ => test_start end.

Definition frame_request : Request :=
  request_of (fun _ => EmptyString) [] (string_of_bytes (Frame.serialize
    (sealed_frame EngineProps.test_header (bytes_of_string (JsonText.render
       [("card_id", JsonText.SStr "04A1"); ("action", JsonText.SStr "open")]%string))))).

Definition tiny_after : AppState connection filesys :=
  Eval vm_compute in (Main.decision_frame frame_request tiny).1.

Definition tiny_answer : Response :=
  Eval vm_compute in match (Main.decision_frame frame_request tiny).2 with Ok r => r | _ => Response_new end.

Lemma tiny_starts : Main.start true (Some "tiny.yaml"%string) 0 tiny_disk = Ok tiny.
Proof. vm_compute. reflexivity. Qed.

Lemma server_buffers_bounded_witness :
  EventBus._lastId (events tiny_after) = 4 /\
  Z.of_nat (length (EventBus._events (events tiny_after))) <= 2 /\
  forall reader w, replayByReader tiny_after !! reader = Some w ->
    ReplayWindow._window w = 1 /\ Z.of_nat (length (ReplayWindow._order w)) <= 1 /\
    Z.of_nat (size (ReplayWindow._seen w)) = Z.of_nat (length (ReplayWindow._order w)).
Proof.
  split; [reflexivity|].
  refine (server_buffers_bounded true 1000 (Some "tiny.yaml"%string) 0 tiny_disk tiny
    (mkNode tiny_after true) tiny_starts _).
  - apply rtc_once. exists Outsider. split; [done|].
    refine (step_decision true 1000 frame_request tiny tiny_after (Ok tiny_answer) _ _).
    + split; [by_decision|]. intros j hw E. vm_compute in E. discriminate.
    + vm_compute. reflexivity.
Defined.

Example tiny_granted : find_in "true" (p_content tiny_answer) = true.
Proof. reflexivity. Qed.

(** C3: the server fails closed. On a server that [main] started, after any
    history, while no change of the policy waits in an open transaction (one that a
    failed COMMIT and a failed ROLLBACK left behind), whatever statements of the
    database fail, the query for the last hash included: if a frame is granted, the
    policy in the database has ground for it. (Of a query that fails, the rows that
    were delivered are taken to be rows of its answer, [SqliteRows].) The bytes are a frame that the key of
    its reader authenticates; reader, key version and binding are in order; and the
    card has a role, under a pepper version in use, that may open the door. (Under
    which of the versions in use is not for sure: see [failed_lookup_revives_role].)
    And however the call ends, the log on disk keeps its entries, and an entry that
    is added says "granted" only of such a frame, with the frame's own numbers. *)
Theorem grants_fail_closed {D F : Type}
    `{SodiumLaws, Env, !HwFacts.EnvLaws, JsonDocLaws, HwService.Http, Yaml}
    `{SqliteLaws D, !SqliteRows D, Files F, !SqliteFiles F D, !FilesLaws F D}
    `{!SqliteConfined D} (ready : bool) (event_vector_max : Z) (argv1 : option string) (ticks0 : nat)
    (files0 : F) (s0 s' : AppState D F) (n : node D F) (d : D) (b : bytes) (x : res Engine.DecisionResult) :
  let policy := StoreSpec.policy (Sql.current (content d)) in
  Main.start ready argv1 ticks0 files0 = Ok s0 ->
  running_since ready event_vector_max s0 n ->
  store (app n) = Some d -> (forall old, Sql.saved (content d) = Some old -> StoreSpec.policy old = policy) ->
  ParserFacts.span_ok b -> Services.decide_frame b (app n) = (s', x) ->
  (forall r, x = Ok r -> Engine.allow r = true ->
     exists f req, FailClosedSpec.permitted (the_engine s0) policy b f req) /\
  exists d' rows, store s' = Some d' /\
    Sql.audit_log (committed (content d')) = Sql.audit_log (committed (content d)) ++ rows /\
    Forall (fun row => Audit.allow (ChainSpec.row_event row) = true ->
      FailClosedSpec.justified (the_engine s0) policy b (ChainSpec.row_event row)) rows.
Proof.
  intros v Hs Hn Es Hsv Hb E. destruct (start_ok _ _ _ _ _ Hs) as (_ & Hok & Hm & _).
  edestruct (decide_permitted (cfg s0)) as [Hr (d' & Ed & rows & Hl & Ha)];
    [by eapply (history_ok ready event_vector_max)|exact Es| |exact Hb|exact E|].
  - by split.
  - split; [exact Hr|]. by exists d', rows.
Qed.

(** The frame of [frame_request], on [tiny]. *)
Definition tiny_connection : connection :=
  ("data/access.db"%string, Sql.mkDatabase (Sql.current (content enrolled_connection)) None true).

Lemma grants_fail_closed_witness :
  let policy := StoreSpec.policy (Sql.current (content enrolled_connection)) in
  let b := bytes_of_string (q_body frame_request) in
  (exists f req, FailClosedSpec.permitted (the_engine tiny) policy b f req) /\
  exists d' rows, store tiny_after = Some d' /\
    Sql.audit_log (committed (content d')) = Sql.audit_log (committed (content tiny_connection)) ++ rows /\
    Forall (fun row => Audit.allow (ChainSpec.row_event row) = true ->
      FailClosedSpec.justified (the_engine tiny) policy b (ChainSpec.row_event row)) rows.
Proof.
  edestruct (grants_fail_closed true 1000 (Some "tiny.yaml"%string) 0 tiny_disk tiny tiny_after
    (mkNode tiny true) tiny_connection (bytes_of_string (q_body frame_request))
    (Ok (Engine.mkDecisionResult true "ok"))) as [Hr Hl]; cycle -1.
  - split; [by eapply Hr|exact Hl].
  - apply tiny_starts.
  - apply rtc_refl.
  - vm_compute. reflexivity.
  - by intros old [=].
  - vm_compute. by_decision.
  - vm_compute. reflexivity.
Defined.

(** C34: what was answered survives. On files and a database that do not fail: the
    server answers any sequence of requests to change the policy, and if the process
    ends then, without closing anything, a server started again on a file system
    that holds what was committed comes up, and serves the policy those requests
    come to, with the same log. *)
Theorem answered_requests_survive {D F : Type} `{SodiumLaws, Env, Json, HwService.Http}
    `{SqliteReliable D, Files F, !SqliteFiles F D, !FilesLaws F D, !FilesReliable F D}
    (s : AppState D F) (d : D) (l : list request) :
  serving s d -> Forall (request_ok s) l -> binds_known s (policy_of d) l ->
  1 <= Config.maxEvents (Config.admin (cfg s)) -> AppFacts.version_ok s ->
  exists s1, run_requests l s = (s1, Ok (response_of s <$> l)) /\
    forall n files1, (forall t, on_disk s1 = Some t -> file_db (dbPath s1) files1 = Some t) ->
    exists s2 d2, openOrCreate (AppState_new (cfg s1) (dbPath s1) (keyManager s1) n files1) = (s2, Ok tt) /\
      serving s2 d2 /\ StoreSpec.view_equiv (policy_of d2) (policy_after s (policy_of d) l) /\
      Sql.audit_log (Sql.current (content d2)) = Sql.audit_log (Sql.current (content d)).
Proof.
  intros Hs Hl Hb Hev Hv.
  destruct (requests_run l s s d (policy_of d)) as (s1 & d1 & E1 & Hs1 & Hk1 & Ev & El); try done.
  exists s1. split; [done|]. intros n f Hf. pose proof (serving_disk s1 d1 Hs1) as Ed.
  destruct (restart_opens s1 (Sql.current (content d1)) n f) as (s2 & d2 & E2 & Hs2 & _ & Hcur); [..|exists s2, d2].
  - by rewrite (k_cfg _ _ Hk1).
  - unfold AppFacts.version_ok. by rewrite (k_cfg _ _ Hk1).
  - apply Hs1.
  - by apply Hf.
  - split_and!; [done|done| |by rewrite Hcur].
    assert (policy_of d2 = policy_of d1) as ->; [|done]. cbn. by rewrite Hcur.
Qed.

Lemma answered_requests_survive_witness :
  exists s1, run_requests test_requests test_server = (s1, Ok (response_of test_server <$> test_requests)) /\
    forall n files1, (forall t, on_disk s1 = Some t -> file_db (dbPath s1) files1 = Some t) ->
    exists s2 d2, openOrCreate (AppState_new (cfg s1) (dbPath s1) (keyManager s1) n files1) = (s2, Ok tt) /\
      serving s2 d2 /\
      StoreSpec.view_equiv (policy_of d2) (policy_after test_server (policy_of test_connection) test_requests) /\
      Sql.audit_log (Sql.current (content d2)) = Sql.audit_log (Sql.current (content test_connection)).
Proof.
  refine (answered_requests_survive test_server test_connection test_requests test_serving _ _ _ _);
    [apply (enrolment_ok test_server (policy_of test_connection) _ _ _ _ _ _ test_enrollable)..| |].
  - by_decision.
  - split; by_decision.
Defined.

End SystemProps.
