(* ===== verification/Firmware.v ===== *)
(** hw_layer: the firmware of the card reader (hw_layer.ino with the constants
    of hw_config.h). The board (clock, WiFi, flash memory, HTTP client, card
    reader) is the class [Board]; what the firmware shows and sends is a trace. *)
From Stdlib Require Import ZArith Lia Ascii.
From stdpp Require Import base option list gmap strings pretty sorting.
From S2P Require Import Prelude LittleEndian Wire Crypto Keys Access FrameHandling Engine Sqlite Config HwService AppState Services Http JsonText Routes.
Local Open Scope Z_scope.

(** ** The board

    The calls to the libraries, with what they return. [HttpPost] takes the body
    and the header X-HW-Signature, if it is added, and gives the code and the
    text of the response; [ReadCard] gives the bytes of the UID. *)
#[local] Set Warnings "-register-all".
Inductive call : Type -> Type :=
| Millis : call Z
| Delay (ms : Z) : call unit
| WifiConnected : call bool
| WifiReset : call unit
| WifiBegin : call unit
| NvsGet (key : string) (d : Z) : call Z
| NvsPut (key : string) (v : Z) : call unit
| HttpPost (body : string) (signature : option string) : call (Z * string)
| NewCardPresent : call bool
| ReadCard : call (option bytes)
| HaltCard : call unit.

(** The state [X] of everything outside the processor. A call gives [None] when
    the power fails before it returns. *)
Class Board (X : Type) := {
  perform : forall {A}, call A -> X -> X * option A;
  md_hmac : bytes -> bytes -> bytes;
}.

Module Firmware.
Import JsonText.

(** The macros of hw_config.h the behaviour depends on. *)
Record HwConfig := mkHwConfig {
  SECRET_HEX : string;
  READER_ID : Z;
  DOOR_ID : Z;
  RESEND_DELAY_MS : Z;
  WIFI_TIMEOUT_MS : Z;
  LOOP_DELAY_MS : Z;
  ALLOW_FREQ_HZ : Z;
  ALLOW_BEEP_MS : Z;
  ALLOW_GAP_MS : Z;
  DENY_FREQ_HZ : Z;
  DENY_BEEP_MS : Z;
  DENY_GAP_MS : Z;
  DENY_PAUSE_MS : Z;
}.

Definition hw_config : HwConfig :=
  mkHwConfig "a7aa5de55ad5ccd6b9d155ded41751cb06276819e8188c062e64350b5966fae3" 2 6
    1500 20000 30 2000 120 60 500 140 60 80.

(** What can be seen of the firmware: the green LED, the tone of the buzzer (0
    is off), and the requests handed to the HTTP client. *)
Inductive output :=
| Led (on : bool)
| Tone (freq : Z)
| Posted (body : string) (signature : option string).

(** *** Hexadecimal text and HMAC *)

Definition hexNibble (c : ascii) : Z :=
  let c := Hex.code c in
  if decide (48 <= c <= 57) then u8 (c - 48)
  else if decide (97 <= c <= 102) then u8 (10 + c - 97)
  else if decide (65 <= c <= 70) then u8 (10 + c - 65)
  else 0.

(** [hex[i]] of a C string: its terminator at the end, undefined behind it. *)
Definition char_at (s : string) (i : nat) : res ascii :=
  match String.get i s with
  | Some c => Ok c
  | None => if decide (i = String.length s) then Ok zero else Fault
  end.

(** The [n] bytes from [out[i]] on. *)
Fixpoint hexBytes (hex : string) (i n : nat) : res bytes :=
  match n with
  | O => Ok []
  | S n' =>
      hi ← char_at hex (i * 2);
      lo ← char_at hex (i * 2 + 1);
      rest ← hexBytes hex (S i) n';
      Ok (u8 (Z.lor (Z.shiftl (hexNibble hi) 4) (hexNibble lo)) :: rest)
  end.
Definition hexToBytes32 (hex : string) : res bytes := hexBytes hex 0 32.

Definition H : string := "0123456789abcdef".
Definition hex_digit (n : Z) : ascii := default zero (String.get (Z.to_nat n) H).

Fixpoint hex_text (mac : bytes) : string :=
  match mac with
  | [] => EmptyString
  | b :: mac' =>
      String (hex_digit (Z.land (Z.shiftr b 4) 15))
        (String (hex_digit (Z.land b 15)) (hex_text mac'))
  end.

(** *** The card *)

(** [String(b, HEX)] *)
Definition hex_number (b : Z) : string :=
  if decide (b < 16) then String (hex_digit b) EmptyString
  else String (hex_digit (b / 16)) (String (hex_digit (b mod 16)) EmptyString).

Definition toupper (c : ascii) : ascii :=
  if decide (97 <= Hex.code c <= 122) then ascii_of_nat (Z.to_nat (Hex.code c - 32)) else c.
Fixpoint toUpperCase (s : string) : string :=
  match s with
  | EmptyString => EmptyString
  | String c s' => String (toupper c) (toUpperCase s')
  end.

Fixpoint uid_digits (uid : bytes) : string :=
  match uid with
  | [] => EmptyString
  | b :: uid' => (if decide (b < 16) then "0" else "") +:+ hex_number b +:+ uid_digits uid'
  end.
Definition uidToString (uid : bytes) : string := toUpperCase (uid_digits uid).

(** *** The answer *)

(** The text from position [i] on. *)
Fixpoint from (i : nat) (s : string) : string :=
  match i, s with
  | S i', String _ s' => from i' s'
  | S _, EmptyString => EmptyString
  | O, _ => s
  end.

(** [while (resp[i] == ':' || resp[i] == ' ') i++;] *)
Fixpoint skip_separators (s : string) : string :=
  match s with
  | String c s' => if decide (c = ":"%char \/ c = " "%char) then skip_separators s' else s
  | EmptyString => EmptyString
  end.

(** [None] is [false], [Some b] is [true] with [allowOut = b]. *)
Definition parseAllowFromJson (resp : string) : option bool :=
  match String.index 0 (quoted "allow") resp with
  | None => None
  | Some i =>
      match String.index i ":" resp with
      | None => None
      | Some i =>
          let rest := skip_separators (from i resp) in
          if String.prefix "true" rest then Some true
          else if String.prefix "false" rest then Some false
          else None
      end
  end.

(** The body of the request. *)
Definition request_body (hw : HwConfig) (uid : string) (seq : Z) : string :=
  "{" +:+ quoted "uid" +:+ ":" +:+ quoted uid
  +:+ "," +:+ quoted "reader_id" +:+ ":" +:+ to_string (READER_ID hw)
  +:+ "," +:+ quoted "door_id" +:+ ":" +:+ to_string (DOOR_ID hw)
  +:+ "," +:+ quoted "hw_seq" +:+ ":" +:+ to_string seq +:+ "}".

Section Firmware.
Context {X : Type} `{Board X} (hw : HwConfig).

(** The global variables, the board, and what has been put out. *)
Record Fw := mkFw {
  hwSeq : Z;
  lastUid : string;
  lastSendMs : Z;
  board : X;
  trace : list output;
}.

Definition set_board x s := mkFw (hwSeq s) (lastUid s) (lastSendMs s) x (trace s).
Definition set_seq n s := mkFw n (lastUid s) (lastSendMs s) (board s) (trace s).
Definition set_last uid now s := mkFw (hwSeq s) uid now (board s) (trace s).
Definition emit (o : output) : M Fw unit := modify (fun s =>
  mkFw (hwSeq s) (lastUid s) (lastSendMs s) (board s) (trace s ++ [o])).

Definition power_lost : exn := std_exception "power lost".

(** A call on the board. *)
Definition invoke {A} (c : call A) : M Fw A := fun s =>
  match perform c (board s) with
  | (x, Some a) => (set_board x s, Ok a)
  | (x, None) => (set_board x s, Throw power_lost)
  end.

Definition hmacSha256Hex (key : bytes) (msg : string) : string :=
  hex_text (md_hmac key (bytes_of_string msg)).

(** *** LED and buzzer *)

Definition ledsOff : M Fw unit := emit (Led false).

Definition beep (freq duration_ms : Z) : M Fw unit :=
  emit (Tone freq) ;;
  invoke (Delay duration_ms) ;;
  emit (Tone 0).

Definition signalAllow : M Fw unit :=
  ledsOff ;;
  emit (Led true) ;;
  beep (ALLOW_FREQ_HZ hw) (ALLOW_BEEP_MS hw) ;;
  invoke (Delay (ALLOW_GAP_MS hw)) ;;
  emit (Led false).

Fixpoint deny_blinks (n : nat) : M Fw unit :=
  match n with
  | O => mret tt
  | S n' =>
      emit (Led true) ;;
      beep (DENY_FREQ_HZ hw) (DENY_BEEP_MS hw) ;;
      invoke (Delay (DENY_GAP_MS hw)) ;;
      emit (Led false) ;;
      invoke (Delay (DENY_PAUSE_MS hw)) ;;
      deny_blinks n'
  end.

Definition signalDeny : M Fw unit := ledsOff ;; deny_blinks 2.

(** *** WiFi *)

(** The waiting loop; [Fault] if [fuel] is used up. *)
Fixpoint wait_wifi (fuel : nat) (start : Z) : M Fw unit :=
  match fuel with
  | O => fault
  | S fuel' =>
      up ← invoke WifiConnected;
      if up : bool then mret tt
      else
        now ← invoke Millis;
        if decide (u32 (now - start) < WIFI_TIMEOUT_MS hw)
        then invoke (Delay 500) ;; wait_wifi fuel' start
        else mret tt
  end.

(** [fuel] bounds the passes of the waiting loop. *)
Context (fuel : nat).

Definition connectWiFi : M Fw unit :=
  up ← invoke WifiConnected;
  if up : bool then mret tt
  else
    invoke WifiReset ;;
    invoke (Delay 100) ;;
    invoke WifiBegin ;;
    start ← invoke Millis;
    wait_wifi fuel start ;;
    _ ← invoke WifiConnected;
    mret tt.

(** *** Sending *)

(** The header, if a secret is configured. *)
Definition sign (body : string) : res (option string) :=
  if decide (SECRET_HEX hw <> EmptyString /\ String.length (SECRET_HEX hw) = 64%nat) then
    key ← hexToBytes32 (SECRET_HEX hw);
    Ok (Some (hmacSha256Hex key
      ("POST /api/hw/uid" +:+ String (ascii_of_nat 10) EmptyString +:+ body)))
  else Ok None.

(** [None] is [false], [Some b] is [true] with [allowOut = b]. *)
Definition postUidToServer (uid : string) : M Fw (option bool) :=
  connectWiFi ;;
  up ← invoke WifiConnected;
  if negb up then mret None
  else
    modify (fun s => set_seq (u64 (hwSeq s + 1)) s) ;;
    s ← get;
    invoke (NvsPut "hw_seq" (hwSeq s)) ;;
    let body := request_body hw uid (hwSeq s) in
    signature ← lift (sign body);
    emit (Posted body signature) ;;
    '(code, text) ← invoke (HttpPost body signature);
    let resp := if decide (0 < code) then text else EmptyString in
    if decide (200 <= code < 300) then mret (parseAllowFromJson resp) else mret None.

(** *** setup and loop *)

Definition setup : M Fw unit :=
  invoke (Delay 200) ;;
  ledsOff ;;
  seq ← invoke (NvsGet "hw_seq" 0);
  modify (set_seq seq) ;;
  connectWiFi.

Definition loop : M Fw unit :=
  present ← invoke NewCardPresent;
  if negb present then invoke (Delay (LOOP_DELAY_MS hw))
  else
    card ← invoke ReadCard;
    match card with
    | None => invoke (Delay (LOOP_DELAY_MS hw))
    | Some bytes =>
        let uid := uidToString bytes in
        now ← invoke Millis;
        s ← get;
        if decide (uid = lastUid s /\ u32 (now - lastSendMs s) < RESEND_DELAY_MS hw)
        then invoke HaltCard
        else
          modify (set_last uid now) ;;
          answer ← postUidToServer uid;
          (match answer with
           | Some true => signalAllow
           | _ => signalDeny
           end) ;;
          invoke HaltCard
    end.

End Firmware.
Arguments Fw X : clear implicits.
End Firmware.

(** ** What the libraries promise *)

Module FwSpec.
Import Firmware JsonText.

(** Flash memory: [nvs_cell] is what it holds under "hw_seq". A write the power
    fails in has or has not happened. *)
Class NvsLaws (X : Type) `{Board X} := {
  nvs_cell : X -> option Z;
  nvs_get_cell d x x' v : perform (NvsGet "hw_seq" d) x = (x', Some v) -> v = default d (nvs_cell x);
  nvs_cell_u64 x : is_u64 (default 0 (nvs_cell x));
  nvs_put_cell v x : is_u64 v ->
    nvs_cell (perform (NvsPut "hw_seq" v) x).1 = Some v \/
    (perform (NvsPut "hw_seq" v) x).2 = None /\
      nvs_cell (perform (NvsPut "hw_seq" v) x).1 = nvs_cell x;
  nvs_keep {A} (c : call A) x :
    match c with
    | NvsPut _ _ => True
    | _ => nvs_cell (perform c x).1 = nvs_cell x
    end;
}.

(** The clock: [now_ms] is the time since some start, without wrapping. A read of
    the clock or of the WiFi status takes a second at most, and so does the
    scheduler to come back from a delay. *)
Class ClockLaws (X : Type) `{Board X} := {
  now_ms : X -> Z;
  millis_now x x' v : perform Millis x = (x', Some v) -> v = u32 (now_ms x');
  read_time {A} (c : call A) x :
    match c with
    | Millis | WifiConnected => now_ms x <= now_ms (perform c x).1 <= now_ms x + 1000
    | _ => True
    end;
  delay_time ms x x' : perform (Delay ms) x = (x', Some tt) ->
    now_ms x + ms <= now_ms x' <= now_ms x + ms + 1000;
}.

(** mbedtls computes HMAC-SHA256. *)
Class MdLaws (X : Type) `{Board X, SodiumLaws} : Prop := {
  md_hmac_spec k m : md_hmac k m = HMAC k m;
}.

(** The request httplib delivers for the POST of the firmware. *)
Definition hw_request (body : string) (signature : option string) : HttpTypes.Request :=
  HttpTypes.mkRequest body
    (fun name => if decide (name = "X-HW-Signature"%string) then default EmptyString signature
                 else EmptyString)
    (fun _ => None) [] None.

(** The power stays, the WiFi is up, and a POST reaches the handler of the
    server, whose state no other call changes. *)
Class NetworkLaws (X D F : Type) `{Board X, Sodium, Env, Json, !JsonDoc, HwService.Http, Sqlite D, Files F}
    `{!SqliteFiles F D} := {
  server : X -> AppState.AppState D F;
  net_power {A} (c : call A) x : is_Some (perform c x).2;
  net_up x : (perform WifiConnected x).2 = Some true;
  net_keep {A} (c : call A) x :
    match c with
    | HttpPost _ _ => True
    | _ => server (perform c x).1 = server x
    end;
  net_post body signature x s' resp :
    Routes.post_hw_uid true (hw_request body signature) (server x) = (s', Ok resp) ->
    exists x', perform (HttpPost body signature) x
        = (x', Some (HttpTypes.p_status resp, HttpTypes.p_content resp)) /\ server x' = s';
}.

Section FwSpec.
Context {X : Type} `{Board X} (hw : HwConfig) (fuel : nat).

(** The global variables are lost with the power. *)
Definition power_off (s : Fw X) : Fw X := mkFw 0 "" 0 (board s) (trace s).

Definition returned {A} (r : res A) : bool := match r with Ok _ => true | _ => false end.

(** The life of a reader: switched on and off at any time, losing power inside
    any call of the board. [life true] is a reader between two passes of [loop],
    [life false] one that has to be switched on (again). The counter does not
    reach its last value. *)
Inductive life : bool -> Fw X -> Prop :=
| life_new x : life false (mkFw 0 "" 0 x [])
| life_off s : life true s -> life false s
| life_boot s s' r : life false s -> setup hw fuel (power_off s) = (s', r) -> life (returned r) s'
| life_loop s s' r : life true s -> hwSeq s < 2 ^ 64 - 1 -> loop hw fuel s = (s', r) ->
    life (returned r) s'.

(** The bodies handed to the HTTP client. *)
Definition posts (tr : list output) : list string :=
  omap (fun o => match o with Posted body _ => Some body | _ => None end) tr.

(** Requests with the numbers [ns]. *)
Definition requests_with (ns : list Z) (bodies : list string) : Prop :=
  exists uids, bodies = zip_with (request_body hw) uids ns /\ length uids = length ns.

End FwSpec.

(** Passes of the waiting loop that are enough. *)
Definition passes (hw : HwConfig) : nat := Z.to_nat (WIFI_TIMEOUT_MS hw / 500 + 2).

(** What a card holder sees and hears. *)
Definition beeps (freq : Z) : list output := [Led true; Tone freq; Tone 0; Led false].
Definition signal (hw : HwConfig) (allow : bool) : list output :=
  Led false :: (if allow then beeps (ALLOW_FREQ_HZ hw)
                else beeps (DENY_FREQ_HZ hw) ++ beeps (DENY_FREQ_HZ hw)).

End FwSpec.

(** ** Lemmas *)

Module FwFacts.
Import Firmware FwSpec JsonText.

(** *** Calls that reserve no number *)

Section Counter.
Context {X : Type} `{NvsLaws X} (hw : HwConfig) (fuel : nat).

Definition cell (s : Fw X) : Z := default 0 (nvs_cell (board s)).

(** Neither a number nor a request comes of it. *)
Record same (s s' : Fw X) : Prop := {
  sm_seq : hwSeq s' = hwSeq s;
  sm_cell : cell s' = cell s;
  sm_posts : posts (trace s') = posts (trace s);
}.
#[local] Instance same_preorder : PreOrder same.
Proof. split; [done|intros s1 s2 s3 [] []; split; congruence]. Qed.

Definition quiet {A} (m : M (Fw X) A) : Prop := forall s, same s (m s).1.

Lemma quiet_bind {A B} (m : M (Fw X) A) (f : A -> M (Fw X) B) :
  quiet m -> (forall a, quiet (f a)) -> quiet (m ≫= f).
Proof.
  intros Hm Hf s. specialize (Hm s). unfold mbind, M_bind. destruct (m s) as [s1 [a|e|]]; [|done..].
  etransitivity; [exact Hm|apply Hf].
Qed.

Lemma quiet_ret {A} (a : A) : quiet (mret a).
Proof. done. Qed.
Lemma quiet_lift {A} (r : res A) : quiet (lift r).
Proof. done. Qed.
Lemma quiet_fault {A} : quiet (fault (A := A)).
Proof. done. Qed.

Definition shows (o : output) : Prop := match o with Posted _ _ => False | _ => True end.

Lemma quiet_emit o : shows o -> quiet (emit o).
Proof.
  intros Ho s. split; [done..|]. unfold posts. cbn. rewrite omap_app. destruct o; [| |done];
    by rewrite app_nil_r.
Qed.

Definition not_put {A} (c : call A) : Prop := match c with NvsPut _ _ => False | _ => True end.

Lemma quiet_invoke {A} (c : call A) : not_put c -> quiet (invoke c).
Proof.
  intros Hc s. unfold invoke. pose proof (nvs_keep c (board s)) as Hk.
  assert (nvs_cell (perform c (board s)).1 = nvs_cell (board s)) as E by (by destruct c).
  destruct (perform c (board s)) as [x [a|]]; (split; [done| |done]); unfold cell; cbn in *; by rewrite E.
Qed.

End Counter.

Create HintDb quiet.
#[export] Hint Resolve quiet_bind quiet_ret quiet_lift quiet_fault : quiet.
#[export] Hint Extern 1 (quiet (invoke _)) => apply quiet_invoke; exact I : quiet.
#[export] Hint Extern 1 (quiet (emit _)) => apply quiet_emit; exact I : quiet.

(** Calls in sequence, with their cases. *)
Ltac solve_quiet :=
  repeat match goal with
  | |- quiet (_ ≫= _) => apply quiet_bind; [|intros ?]
  | |- quiet (let _ := _ in _) => cbv zeta
  | |- quiet (match ?b with _ => _ end) => destruct b
  | |- quiet _ => solve [auto with quiet nocore]
  end.

Section Quiet.
Context {X : Type} `{NvsLaws X} (hw : HwConfig) (fuel : nat).

Lemma quiet_beep freq ms : quiet (X := X) (beep freq ms).
Proof. unfold beep. solve_quiet. Qed.
#[local] Hint Resolve quiet_beep : quiet.

Lemma quiet_allow : quiet (X := X) (signalAllow hw).
Proof. unfold signalAllow, ledsOff. solve_quiet. Qed.

Lemma quiet_deny : quiet (X := X) (signalDeny hw).
Proof. unfold signalDeny, ledsOff. cbn [deny_blinks]. solve_quiet. Qed.

Lemma quiet_wait start : quiet (X := X) (wait_wifi hw fuel start).
Proof. induction fuel as [|n IH]; cbn [wait_wifi]; solve_quiet. Qed.
#[local] Hint Resolve quiet_wait : quiet.

Lemma quiet_connect : quiet (X := X) (connectWiFi hw fuel).
Proof. unfold connectWiFi. solve_quiet. Qed.

End Quiet.
#[export] Hint Resolve quiet_allow quiet_deny quiet_connect : quiet.

(** *** Numbers and requests over the life of a reader *)

Section Life.
Context {X : Type} `{NvsLaws X} (hw : HwConfig) (fuel : nat).

(** The requests carry increasing numbers, the last one at most what the flash
    memory holds; a running reader holds the same number. *)
Record inv (on : bool) (s : Fw X) : Prop := {
  iv_requests : exists ns, requests_with hw ns (posts (trace s)) /\ StronglySorted Z.lt ns /\
    Forall (fun n => 0 < n <= cell s) ns;
  iv_on : on = true -> hwSeq s = cell s;
}.

Lemma inv_same on (s s' : Fw X) : same s s' -> inv on s -> inv on s'.
Proof. intros [E1 E2 E3] [Hr Ho]. split; [by rewrite E2, E3|]. rewrite E1, E2. exact Ho. Qed.

Lemma inv_off on on' (s : Fw X) : inv on s -> on' = false -> inv on' s.
Proof. by intros [] ->. Qed.

(** Calls that start with a running reader and keep the invariant. *)
Definition good {A} (m : M (Fw X) A) : Prop := forall s,
  inv true s -> hwSeq s < 2 ^ 64 - 1 -> inv (returned (m s).2) (m s).1.

Lemma quiet_inv {A} (m : M (Fw X) A) s : quiet m -> inv true s -> inv (returned (m s).2) (m s).1.
Proof.
  intros Hm Hs. apply (inv_same _ s); [apply Hm|]. destruct (m s).2; [done|by eapply inv_off..].
Qed.

Lemma good_quiet {A} (m : M (Fw X) A) : quiet m -> good m.
Proof. intros Hm s Hs _. by apply quiet_inv. Qed.

Lemma good_after {A B} (m : M (Fw X) A) (f : A -> M (Fw X) B) :
  quiet m -> (forall a, good (f a)) -> good (m ≫= f).
Proof.
  intros Hm Hf s Hs Hb. pose proof (Hm s) as Sm. pose proof (good_quiet m Hm s Hs Hb) as Hi.
  unfold mbind, M_bind. destruct (m s) as [s1 [a|e|]]; [|exact Hi..].
  apply Hf; [exact Hi|]. pose proof (sm_seq _ _ Sm) as E. cbn in E. lia.
Qed.

Lemma good_before {A B} (m : M (Fw X) A) (f : A -> M (Fw X) B) :
  good m -> (forall a, quiet (f a)) -> good (m ≫= f).
Proof.
  intros Hm Hf s Hs Hb. specialize (Hm s Hs Hb). unfold mbind, M_bind.
  destruct (m s) as [s1 [a|e|]]; [|exact Hm..]. apply (inv_same _ s1); [apply Hf|].
  destruct (f a s1).2; [done|by eapply inv_off..].
Qed.

(** A request with the next number. *)
Lemma requests_snoc ns bodies uid n :
  requests_with hw ns bodies -> requests_with hw (ns ++ [n]) (bodies ++ [request_body hw uid n]).
Proof.
  intros (uids & -> & Hl). exists (uids ++ [uid]). rewrite zip_with_app by done.
  split; [done|]. rewrite !length_app. cbn. lia.
Qed.

(** The number is written before the request leaves. *)
Lemma good_reserved uid (r : Z -> res (option string))
    (f : Z -> option string -> M (Fw X) (option bool)) :
  (forall n signature, quiet (f n signature)) ->
  good (modify (fun s => set_seq (u64 (hwSeq s + 1)) s) ;;
        s ← get;
        invoke (NvsPut "hw_seq" (hwSeq s)) ;;
        signature ← lift (r (hwSeq s));
        emit (Posted (request_body hw uid (hwSeq s)) signature) ;;
        f (hwSeq s) signature).
Proof.
  intros Hf s [(ns & Hr & Hs & Hn) Ho] Hb. specialize (Ho eq_refl).
  pose proof (nvs_cell_u64 (board s)) as Hc. fold (cell s) in Hc. unfold is_u64 in Hc.
  cbv [mbind M_bind modify get]. set (n := u64 (hwSeq s + 1)). cbn [hwSeq set_seq].
  assert (n = cell s + 1) as En by (unfold n, u64, wrap; rewrite Z.mod_small; lia).
  assert (is_u64 n) as Hn64 by (unfold is_u64; lia).
  assert (Forall (fun m => 0 < m <= n) ns) as Hn' by (eapply Forall_impl; [exact Hn|cbn; lia]).
  unfold invoke. cbn [board set_seq]. pose proof (nvs_put_cell n (board s) Hn64) as Hp.
  destruct (perform (NvsPut "hw_seq" n) (board s)) as [x [[]|]]; cbn [fst snd] in *; cycle 1.
  { split; [|done]. exists ns. split; [done|]. split; [done|]. unfold cell. cbn.
    destruct Hp as [->|[_ ->]]; done. }
  destruct Hp as [Ex|[? _]]; [|done]. set (s2 := set_board x (set_seq n s)).
  assert (inv true s2) as Hs2.
  { split; [exists ns|intros _]; unfold cell; cbn; rewrite Ex; done. }
  destruct (r n) as [sg|e|]; cbn [lift]; [|by eapply inv_off..].
  apply quiet_inv; [apply Hf|].
  split; [|by apply Hs2]. exists (ns ++ [n]). unfold posts. cbn. rewrite omap_app.
  split; [by apply requests_snoc|]. unfold cell. cbn. rewrite Ex. split.
  - apply StronglySorted_app_2; [|done|by repeat constructor].
    intros a b Ha ->%list_elem_of_singleton. rewrite Forall_forall in Hn. apply Hn in Ha. lia.
  - apply Forall_app_2; [done|]. apply Forall_singleton. cbn. lia.
Qed.

Lemma good_post uid : good (postUidToServer hw fuel uid).
Proof.
  unfold postUidToServer. apply good_after; [auto with quiet|intros _].
  apply good_after; [auto with quiet|intros up]. destruct up; cbn [negb]; [|by apply good_quiet].
  apply (good_reserved uid (fun n => sign hw (request_body hw uid n)) (fun n signature =>
    '(code, text) ← invoke (HttpPost (request_body hw uid n) signature);
    let resp := if decide (0 < code) then text else EmptyString in
    if decide (200 <= code < 300) then mret (parseAllowFromJson resp) else mret None)).
  intros n signature. solve_quiet.
Qed.

Lemma quiet_modify_last uid now : quiet (X := X) (modify (set_last uid now)).
Proof. by intros s. Qed.
#[local] Hint Resolve quiet_modify_last : quiet.

Lemma quiet_get : quiet (X := X) get.
Proof. by intros s. Qed.
#[local] Hint Resolve quiet_get : quiet.

Lemma good_loop : good (loop hw fuel).
Proof.
  unfold loop. apply good_after; [auto with quiet|intros present].
  destruct present; cbn [negb]; [|apply good_quiet; auto with quiet].
  apply good_after; [auto with quiet|intros card].
  destruct card as [bytes|]; [|apply good_quiet; auto with quiet].
  apply good_after; [auto with quiet|intros now]. apply good_after; [auto with quiet|intros s].
  case_decide; [apply good_quiet; auto with quiet|].
  apply good_after; [auto with quiet|intros _]. apply good_before; [apply good_post|].
  intros answer. solve_quiet.
Qed.

(** Calls that get a reader going. *)
Definition starts {A} (m : M (Fw X) A) : Prop := forall s,
  inv false s -> inv (returned (m s).2) (m s).1.

Lemma starts_after {A B} (m : M (Fw X) A) (f : A -> M (Fw X) B) :
  quiet m -> (forall a, starts (f a)) -> starts (m ≫= f).
Proof.
  intros Hm Hf s Hs. specialize (Hm s). unfold mbind, M_bind.
  destruct (m s) as [s1 [a|e|]]; [apply Hf|..]; by apply (inv_same _ s).
Qed.

(** The reader takes the number the flash memory holds. *)
Lemma starts_setup : starts (setup hw fuel).
Proof.
  unfold setup. apply starts_after; [auto with quiet|intros _].
  apply starts_after; [unfold ledsOff; auto with quiet|intros _].
  intros s Hs. pose proof (quiet_invoke (NvsGet "hw_seq" 0) I s) as Hq. revert Hq.
  cbv [mbind M_bind modify]. unfold invoke.
  destruct (perform _ (board s)) as [x [n|]] eqn:E; intros Hq; cbn [fst] in Hq;
    [|by eapply inv_same].
  apply nvs_get_cell in E. apply quiet_inv; [auto with quiet|].
  assert (cell (set_board x s) = cell s) as Ec by apply Hq.
  destruct (inv_same _ _ _ Hq Hs) as [Hr _]. split; [exact Hr|]. intros _. rewrite E. symmetry. exact Ec.
Qed.

Lemma life_inv on (s : Fw X) : life hw fuel on s -> inv on s.
Proof.
  induction 1 as [x|s _ IH|s s' r _ IH E|s s' r _ IH Hb E].
  - split; [|done]. exists []. split; [by exists []|]. split; constructor.
  - by eapply inv_off.
  - assert (inv false (power_off s)) as Hoff by (destruct IH as [Hr _]; by split).
    pose proof (starts_setup _ Hoff) as Hi. by rewrite E in Hi.
  - pose proof (good_loop s IH Hb) as Hi. by rewrite E in Hi.
Qed.

End Life.

(** *** The signature is the one the server expects *)

Lemma get_lookup s i : String.get i s = String.list_ascii_of_string s !! i.
Proof. revert i. induction s as [|c s IH]; intros [|i]; [done..|apply IH]. Qed.

Lemma text_length s : length (String.list_ascii_of_string s) = String.length s.
Proof. induction s as [|c s IH]; [done|]. cbn. by rewrite IH. Qed.

Lemma hexNibble_server c : hexNibble c = HwService.hexNibble c.
Proof.
  unfold hexNibble, HwService.hexNibble. repeat case_decide; try done; f_equal; lia.
Qed.

Lemma hexBytes_run hex n i :
  ((i + n) * 2 <= String.length hex)%nat ->
  hexBytes hex i n
  = Ok (HwService.hex_pairs (take (n * 2) (drop (i * 2) (String.list_ascii_of_string hex)))).
Proof.
  revert i. induction n as [|n IH]; intros i Hl; [done|].
  set (l := String.list_ascii_of_string hex) in *.
  destruct (lookup_lt_is_Some_2 l (i * 2)) as [c1 E1]; [unfold l; rewrite text_length; lia|].
  destruct (lookup_lt_is_Some_2 l (i * 2 + 1)) as [c2 E2]; [unfold l; rewrite text_length; lia|].
  cbn [hexBytes]. unfold char_at. rewrite !get_lookup. fold l. rewrite E1, E2.
  cbn [mbind res_bind]. rewrite IH by lia. cbn [mbind res_bind]. rewrite !hexNibble_server.
  rewrite (drop_S _ _ _ E1). rewrite (drop_S l c2 (S (i * 2))) by (rewrite <- E2; f_equal; lia).
  done.
Qed.

Lemma hexToBytes32_run hex :
  String.length hex = 64%nat -> hexToBytes32 hex = Ok (HwService.hexToBytesLoose hex).
Proof.
  intros Hl. unfold hexToBytes32. rewrite hexBytes_run by lia. unfold HwService.hexToBytesLoose.
  rewrite text_length, Hl. rewrite decide_False by (intros []; reflexivity).
  cbn [Nat.mul]. rewrite drop_0, take_ge; [done|]. rewrite text_length. lia.
Qed.

Lemma hex_text_server k : hex_text k = CardIdHasher.toHex k.
Proof.
  induction k as [|b k IH]; [done|]. cbn [hex_text CardIdHasher.toHex]. rewrite IH, Z.shiftr_0_r. done.
Qed.

(** *** The text of a card *)

Lemma toUpperCase_app a b : toUpperCase (a +:+ b) = toUpperCase a +:+ toUpperCase b.
Proof. induction a as [|c a IH]; [done|]. by apply (f_equal (String (toupper c))). Qed.

Lemma upper_digit n : 0 <= n < 16 ->
  plain_char (toupper (hex_digit n)) /\ HwService.hexNibble (toupper (hex_digit n)) = n.
Proof.
  intros Hn. pose proof (CardFacts.nibble_cases n Hn) as Hin. cbn in Hin.
  destruct_or! Hin; subst; (split; [by_decision|by vm_compute]).
Qed.

Lemma halves b : is_u8 b ->
  0 <= b / 16 < 16 /\ 0 <= b mod 16 < 16 /\ u8 (Z.lor (Z.shiftl (b / 16) 4) (b mod 16)) = b.
Proof.
  intros Hb. pose proof (CardFacts.nibbles b Hb) as Hn. revert Hn. unfold is_u8 in Hb.
  rewrite Z.shiftr_0_r, !(Z.land_ones _ 4), Z.shiftr_div_pow2 by lia. change (2 ^ 4) with 16.
  rewrite (Z.mod_small (b / 16)); [done|]. split; [apply Z.div_pos|apply Z.div_lt_upper_bound]; lia.
Qed.

(** Two upper-case digits for each byte, which read back as the byte. *)
Lemma uid_cons b uid : is_u8 b ->
  uidToString (b :: uid) = String (toupper (hex_digit (b / 16)))
    (String (toupper (hex_digit (b mod 16))) (uidToString uid)).
Proof.
  intros [Hb1 Hb2]. unfold uidToString. cbn [uid_digits]. rewrite !toUpperCase_app. unfold hex_number.
  case_decide as Hb; [|done]. rewrite Z.div_small, Z.mod_small by lia. done.
Qed.

Lemma uid_plain bytes : bytes_ok bytes -> plain (uidToString bytes).
Proof.
  unfold plain. induction 1 as [|b uid Hb _ IH]; [constructor|]. rewrite uid_cons by done.
  destruct (halves b Hb) as (N1 & N2 & _).
  cbn [String.list_ascii_of_string]. repeat apply Forall_cons_2; [by apply upper_digit..|done].
Qed.

Lemma uid_pairs bytes : bytes_ok bytes ->
  HwService.hex_pairs (String.list_ascii_of_string (uidToString bytes)) = bytes /\
  String.length (uidToString bytes) = (length bytes * 2)%nat.
Proof.
  induction 1 as [|b uid Hb _ [IH1 IH2]]; [done|]. rewrite uid_cons by done.
  destruct (halves b Hb) as (N1 & N2 & N3).
  cbn [String.list_ascii_of_string HwService.hex_pairs String.length length]. rewrite IH1, IH2.
  destruct (upper_digit _ N1) as [_ ->], (upper_digit _ N2) as [_ ->]. by rewrite N3.
Qed.

(** *** Termination *)

Section Terminating.
Context {X : Type} `{ClockLaws X} (hw : HwConfig) (fuel : nat).

Definition finishes {A} (m : M (Fw X) A) : Prop := forall s, (m s).2 <> Fault.

Lemma finishes_bind {A B} (m : M (Fw X) A) (f : A -> M (Fw X) B) :
  finishes m -> (forall a, finishes (f a)) -> finishes (m ≫= f).
Proof.
  intros Hm Hf s. specialize (Hm s). unfold mbind, M_bind.
  destruct (m s) as [s1 [a|e|]]; [apply Hf|done..].
Qed.

Lemma finishes_ret {A} (a : A) : finishes (mret a).
Proof. done. Qed.
Lemma finishes_modify f : finishes (modify f).
Proof. done. Qed.
Lemma finishes_get : finishes get.
Proof. done. Qed.
Lemma finishes_invoke {A} (c : call A) : finishes (invoke c).
Proof. intros s. unfold invoke. by destruct (perform c (board s)) as [x []]. Qed.

Lemma invoke_ok {A} (c : call A) (s s' : Fw X) a :
  invoke c s = (s', Ok a) -> exists x, perform c (board s) = (x, Some a) /\ s' = set_board x s.
Proof.
  unfold invoke. destruct (perform c (board s)) as [x [b|]]; [|done]. intros [= <- <-]. by exists x.
Qed.

(** A step of the waiting loop that began [k] passes ago. *)
Lemma pass_times {A} (c : call A) (s : Fw X) t0 k :
  match c with Millis | WifiConnected => True | _ => False end ->
  500 * k <= now_ms (board s) - t0 -> 
  500 * k <= now_ms (board (invoke c s).1) - t0 <= now_ms (board s) - t0 + 1000.
Proof.
  intros Hc Hk. unfold invoke. pose proof (read_time c (board s)) as Ht.
  assert (now_ms (board s) <= now_ms (perform c (board s)).1 <= now_ms (board s) + 1000) as Ht'
    by (by destruct c). destruct (perform c (board s)) as [x []]; cbn in *; lia.
Qed.

Lemma wait_run (s : Fw X) t0 k (n : nat) :
  let bound := WIFI_TIMEOUT_MS hw / 500 + 1 in
  0 <= WIFI_TIMEOUT_MS hw <= 100000000 ->
  0 <= k <= bound -> 500 * k <= now_ms (board s) - t0 <= 3500 * k ->
  bound < k + Z.of_nat n -> (wait_wifi hw n (u32 t0) s).2 <> Fault.
Proof.
  intros bound Ht. pose proof (Z.div_mod (WIFI_TIMEOUT_MS hw) 500 ltac:(lia)) as Hdiv.
  pose proof (Z.mod_pos_bound (WIFI_TIMEOUT_MS hw) 500 ltac:(lia)) as Hmod.
  assert (bound <= 200001) as Hbound by (unfold bound; lia).
  revert s k. induction n as [|n IH]; intros s k Hk He Hn; [lia|].
  cbn [wait_wifi]. unfold mbind, M_bind. pose proof (pass_times WifiConnected s t0 k I (proj1 He)) as T1.
  destruct (invoke WifiConnected s) as [s1 [[]|e|]] eqn:E1; cbn [fst] in T1; [done| |done|];
    [|exfalso; apply (finishes_invoke WifiConnected s); by rewrite E1].
  pose proof (pass_times Millis s1 t0 k I (proj1 T1)) as T2.
  destruct (invoke Millis s1) as [s2 [now|e|]] eqn:E2; cbn [fst] in T2; [|done|];
    [|exfalso; apply (finishes_invoke Millis s1); by rewrite E2].
  apply invoke_ok in E2 as (x & E2 & ->). cbn [board set_board] in T2.
  rewrite (millis_now _ _ _ E2). unfold u32, wrap.
  rewrite <- Zminus_mod, Z.mod_small by lia.
  case_decide as Hlt; [|done]. assert (k < bound) by (unfold bound in *; lia).
  destruct (invoke (Delay 500) (set_board x s1)) as [s3 [[]|e|]] eqn:E3; [|done|];
    [|exfalso; apply (finishes_invoke (Delay 500) (set_board x s1)); by rewrite E3].
  apply invoke_ok in E3 as (x' & E3 & ->). apply delay_time in E3. cbn [board set_board] in E3.
  apply (IH _ (k + 1)); cbn [board set_board]; lia.
Qed.

Lemma finishes_connect :
  0 <= WIFI_TIMEOUT_MS hw <= 100000000 -> (passes hw <= fuel)%nat -> finishes (connectWiFi hw fuel).
Proof.
  intros Ht Hf. unfold connectWiFi. apply finishes_bind; [apply finishes_invoke|intros []];
    [apply finishes_ret|].
  do 3 (apply finishes_bind; [apply finishes_invoke|intros _]).
  intros s. unfold mbind at 1, M_bind.
  destruct (invoke Millis s) as [s1 [start|e|]] eqn:E1; [|done|];
    [|exfalso; apply (finishes_invoke Millis s); by rewrite E1].
  apply invoke_ok in E1 as (x & E1 & ->). rewrite (millis_now _ _ _ E1).
  pose proof (wait_run (set_board x s) (now_ms x) 0 fuel) as Hw. cbn [board set_board] in Hw.
  unfold passes in Hf. pose proof (Z.div_pos (WIFI_TIMEOUT_MS hw) 500 ltac:(lia) ltac:(lia)).
  specialize (Hw Ht ltac:(lia) ltac:(lia) ltac:(lia)).
  unfold mbind, M_bind. destruct (wait_wifi hw fuel _ _) as [s2 [[]|e|]]; [|done..].
  apply (finishes_bind (invoke WifiConnected) (fun _ => mret tt)); [apply finishes_invoke|].
  intros _. apply finishes_ret.
Qed.

Lemma finishes_sign body : finishes (lift (sign hw body)).
Proof.
  intros s. unfold sign, lift. case_decide as Hs; [|done]. destruct Hs as [_ Hl].
  by rewrite hexToBytes32_run.
Qed.

Ltac solve_finishes :=
  repeat match goal with
  | |- finishes (_ ≫= _) => apply finishes_bind; [|intros ?]
  | |- finishes (let _ := _ in _) => cbv zeta
  | |- finishes (match ?b with _ => _ end) => destruct b
  | |- finishes _ =>
      solve [auto using finishes_ret, finishes_modify, finishes_get, finishes_invoke, finishes_sign]
  end.

Lemma finishes_setup : finishes (connectWiFi hw fuel) -> finishes (setup hw fuel).
Proof. intros Hc. unfold setup, ledsOff, emit. solve_finishes. Qed.

Lemma finishes_post uid : finishes (connectWiFi hw fuel) -> finishes (postUidToServer hw fuel uid).
Proof. intros Hc. unfold postUidToServer, emit. solve_finishes. Qed.

Lemma finishes_loop : finishes (connectWiFi hw fuel) -> finishes (loop hw fuel).
Proof.
  intros Hc. pose proof (fun uid => finishes_post uid Hc) as Hp.
  unfold loop, signalAllow, signalDeny, deny_blinks, beep, ledsOff, emit. solve_finishes.
Qed.

End Terminating.

(** *** What is shown *)

Section Shown.
Context {X : Type} `{Board X} (hw : HwConfig) (fuel : nat).

(** Calls that show nothing. *)
Definition silent {A} (m : M (Fw X) A) : Prop := forall s, trace (m s).1 = trace s.

Lemma silent_bind {A B} (m : M (Fw X) A) (f : A -> M (Fw X) B) :
  silent m -> (forall a, silent (f a)) -> silent (m ≫= f).
Proof.
  intros Hm Hf s. specialize (Hm s). unfold mbind, M_bind.
  destruct (m s) as [s1 [a|e|]]; [|done..]. rewrite Hf. exact Hm.
Qed.

Lemma silent_ret {A} (a : A) : silent (mret a).
Proof. done. Qed.
Lemma silent_fault {A} : silent (fault (A := A)).
Proof. done. Qed.
Lemma silent_invoke {A} (c : call A) : silent (invoke c).
Proof. intros s. unfold invoke. by destruct (perform c (board s)) as [x []]. Qed.

Lemma silent_wait n start : silent (wait_wifi hw n start).
Proof.
  induction n as [|n IH]; cbn [wait_wifi]; [apply silent_fault|].
  apply silent_bind; [apply silent_invoke|intros []; [apply silent_ret|]].
  apply silent_bind; [apply silent_invoke|intros now]. case_decide; [|apply silent_ret].
  apply silent_bind; [apply silent_invoke|intros _; exact IH].
Qed.

Lemma silent_connect : silent (connectWiFi hw fuel).
Proof.
  unfold connectWiFi. apply silent_bind; [apply silent_invoke|intros []; [apply silent_ret|]].
  do 4 (apply silent_bind; [apply silent_invoke|intros ?]).
  apply silent_bind; [apply silent_wait|intros _].
  apply silent_bind; [apply silent_invoke|intros _]. apply silent_ret.
Qed.

(** What a call adds to the trace. *)
Definition adds (Q : list output -> Prop) {A} (m : M (Fw X) A) (s : Fw X) : Prop :=
  exists l, trace (m s).1 = trace s ++ l /\ Q l.

Lemma adds_after Q {A B} (m : M (Fw X) A) (f : A -> M (Fw X) B) s :
  silent m -> Q [] -> (forall a s', adds Q (f a) s') -> adds Q (m ≫= f) s.
Proof.
  intros Hm H0' Hf. specialize (Hm s). unfold adds, mbind, M_bind.
  destruct (m s) as [s1 [a|e|]]; cbn in Hm; [|exists []; cbn; by rewrite app_nil_r..].
  destruct (Hf a s1) as (l & E & Hl). exists l. split; [|done]. rewrite E. f_equal. exact Hm.
Qed.

Lemma adds_silent (Q : list output -> Prop) {A} (m : M (Fw X) A) s : silent m -> Q [] -> adds Q m s.
Proof. intros Hm Hq. exists []. by rewrite Hm, app_nil_r. Qed.

(** A request was answered with success and permission. *)
Definition permitted (l : list output) : Prop :=
  exists body signature x x' code text,
    Posted body signature ∈ l /\
    perform (HttpPost body signature) x = (x', Some (code, text)) /\
    200 <= code < 300 /\ parseAllowFromJson text = Some true.

(** The frequency of the allow signal sounds after a permission only. *)
Definition honest (l : list output) : Prop := Tone (ALLOW_FREQ_HZ hw) ∈ l -> permitted l.

(** The request, and what it tells. *)
Lemma post_adds uid s :
  exists l, trace (postUidToServer hw fuel uid s).1 = trace s ++ l /\ honest l /\
    ((postUidToServer hw fuel uid s).2 = Ok (Some true) -> permitted l).
Proof.
  assert (forall f : Fw X * res (option bool), trace f.1 = trace s -> f.2 <> Ok (Some true) ->
    exists l, trace f.1 = trace s ++ l /\ honest l /\ (f.2 = Ok (Some true) -> permitted l)) as Hno.
  { intros f E Hf. exists []. rewrite app_nil_r. split; [done|]. split; [by intros ?%not_elem_of_nil|done]. }
  unfold postUidToServer. pose proof (silent_connect s) as T1. unfold mbind, M_bind.
  destruct (connectWiFi hw fuel s) as [s1 [[]|e|]]; cbn in T1; [|by apply Hno..].
  pose proof (silent_invoke WifiConnected s1) as T2.
  destruct (invoke WifiConnected s1) as [s2 [up|e|]]; cbn in T2; [|apply Hno; cbn; congruence..].
  destruct up; cbn [negb]; [|apply Hno; cbn; congruence].
  unfold modify, get. set (s3 := set_seq _ s2). set (n := hwSeq s3).
  pose proof (silent_invoke (NvsPut "hw_seq" n) s3) as T4.
  destruct (invoke (NvsPut "hw_seq" n) s3) as [s4 [[]|e|]]; cbn in T4; [|apply Hno; cbn; congruence..].
  set (body := request_body hw uid n). cbv zeta.
  destruct (sign hw body) as [sg|e|]; cbn [lift]; [|apply Hno; cbn; congruence..].
  unfold emit, modify. set (s5 := mkFw _ _ _ _ _). pose proof (silent_invoke (HttpPost body sg) s5) as T6.
  destruct (invoke (HttpPost body sg) s5) as [s6 [[code text]|e|]] eqn:E6; cbn in T6.
  - exists [Posted body sg]. assert (trace s6 = trace s ++ [Posted body sg]) as T by congruence.
    split; [by case_decide|]. split; [by intros [=]%list_elem_of_singleton|].
    case_decide as Hc; [|done]. cbn. rewrite decide_True by lia. intros [= Hp].
    apply (invoke_ok (HttpPost body sg)) in E6 as (x & E6 & _).
    exists body, sg, (board s5), x, code, text. split; [by apply list_elem_of_singleton|done].
  - exists [Posted body sg]. cbn. split; [congruence|]. split; [by intros [=]%list_elem_of_singleton|done].
  - exists [Posted body sg]. cbn. split; [congruence|]. split; [by intros [=]%list_elem_of_singleton|done].
Qed.

(** A property of what is shown that holds of parts and so of the whole. *)
Section Parts.
Context (Q : list output -> Prop) (Q_nil : Q []) (Q_app : forall l l', Q l -> Q l' -> Q (l ++ l')).

Definition always_adds {A} (m : M (Fw X) A) : Prop := forall s, adds Q m s.

Lemma adds_bind {A B} (m : M (Fw X) A) (f : A -> M (Fw X) B) :
  always_adds m -> (forall a, always_adds (f a)) -> always_adds (m ≫= f).
Proof.
  intros Hm Hf s. destruct (Hm s) as (l & E & Hl). unfold adds, mbind, M_bind.
  destruct (m s) as [s1 [a|e|]]; [|by exists l..]. cbn in E.
  destruct (Hf a s1) as (l' & E' & Hl'). exists (l ++ l'). rewrite E', E, app_assoc. auto.
Qed.

Lemma adds_invoke {A} (c : call A) : always_adds (invoke c).
Proof. intros s. apply adds_silent; [apply silent_invoke|done]. Qed.

Lemma adds_ret {A} (a : A) : always_adds (mret a).
Proof. intros s. by apply adds_silent. Qed.

Lemma adds_emit o : Q [o] -> always_adds (emit o).
Proof. intros Ho s. by exists [o]. Qed.

Ltac solve_adds :=
  repeat match goal with
  | |- always_adds (_ ≫= _) => apply adds_bind; [|intros ?]
  | |- always_adds (invoke _) => apply adds_invoke
  | |- always_adds (mret _) => apply adds_ret
  | |- always_adds (emit _) => apply adds_emit; auto
  end.

Lemma adds_deny :
  (forall b, Q [Led b]) -> Q [Tone (DENY_FREQ_HZ hw)] -> Q [Tone 0] -> always_adds (signalDeny hw).
Proof. intros Hl Hd Hz. unfold signalDeny, deny_blinks, beep, ledsOff. solve_adds. Qed.

Lemma adds_allow :
  (forall b, Q [Led b]) -> Q [Tone (ALLOW_FREQ_HZ hw)] -> Q [Tone 0] -> always_adds (signalAllow hw).
Proof. intros Hl Hd Hz. unfold signalAllow, beep, ledsOff. solve_adds. Qed.

End Parts.

(** Calls that never sound the frequency of the allow signal. *)
Definition not_allow (l : list output) : Prop := Tone (ALLOW_FREQ_HZ hw) ∉ l.
Lemma not_allow_app l l' : not_allow l -> not_allow l' -> not_allow (l ++ l').
Proof. unfold not_allow. rewrite elem_of_app. tauto. Qed.

Lemma not_allow_one o : o <> Tone (ALLOW_FREQ_HZ hw) -> not_allow [o].
Proof. intros Ho. unfold not_allow. rewrite list_elem_of_singleton. congruence. Qed.

Lemma no_allow_deny :
  ALLOW_FREQ_HZ hw <> 0 -> ALLOW_FREQ_HZ hw <> DENY_FREQ_HZ hw ->
  always_adds not_allow (signalDeny hw).
Proof.
  intros Hz Hd. apply adds_deny; try (intros; apply not_allow_one; congruence).
  - apply not_elem_of_nil.
  - apply not_allow_app.
Qed.

Lemma permitted_app l l' : permitted l -> permitted (l ++ l').
Proof.
  intros (body & sg & x & x' & code & text & Hp & Hr). exists body, sg, x, x', code, text.
  split; [|done]. apply elem_of_app. by left.
Qed.

(** The rest of a pass, after a call that added [l]. *)
Lemma honest_then {A B} (m : M (Fw X) A) (f : A -> M (Fw X) B) s l :
  trace (m s).1 = trace s ++ l -> honest l ->
  (forall a, (m s).2 = Ok a ->
     permitted l /\ always_adds (fun _ => True) (f a) \/ always_adds not_allow (f a)) ->
  adds honest (m ≫= f) s.
Proof.
  intros E Hl Hf. unfold adds, mbind, M_bind. destruct (m s) as [s1 [a|e|]]; [|by exists l..].
  cbn in E, Hf. destruct (Hf a eq_refl) as [[Hp Ha]|Hn].
  - destruct (Ha s1) as (l' & E' & _). exists (l ++ l'). rewrite E', E, app_assoc. split; [done|].
    intros _. by apply permitted_app.
  - destruct (Hn s1) as (l' & E' & Hl'). exists (l ++ l'). rewrite E', E, app_assoc. split; [done|].
    intros [Hi|Hi]%elem_of_app; [|done]. by apply permitted_app, Hl.
Qed.

Lemma honest_nil : honest [].
Proof. by intros ?%not_elem_of_nil. Qed.

(** A pass of [loop] sounds the allow signal after a permission only. *)
Lemma loop_honest s :
  ALLOW_FREQ_HZ hw <> 0 -> ALLOW_FREQ_HZ hw <> DENY_FREQ_HZ hw -> adds honest (loop hw fuel) s.
Proof.
  intros Hz Hd. unfold loop. pose proof honest_nil as Hn.
  assert (forall {A} (c : call A) s, adds honest (invoke c) s) as Hi
    by (intros; by apply adds_silent; [apply silent_invoke|]).
  apply adds_after; [apply silent_invoke|done|intros present s1].
  destruct present; cbn [negb]; [|apply Hi].
  apply adds_after; [apply silent_invoke|done|intros [bytes|] s2]; [|apply Hi].
  apply adds_after; [apply silent_invoke|done|intros now s3].
  apply adds_after; [by intros ?|done|intros st s4]. cbv zeta. case_decide; [apply Hi|].
  apply adds_after; [by intros ?|done|intros _ s5].
  destruct (post_adds (uidToString bytes) s5) as (l & E & Hl & Hp).
  apply (honest_then _ _ _ l E Hl). intros answer Ea. destruct answer as [[]|].
  - left. split; [by apply Hp|]. apply adds_bind; [done|apply adds_allow|intros _; apply adds_invoke]; done.
  - right. apply adds_bind; [apply not_allow_app|by apply no_allow_deny|intros _].
    apply adds_invoke, not_elem_of_nil.
  - right. apply adds_bind; [apply not_allow_app|by apply no_allow_deny|intros _].
    apply adds_invoke, not_elem_of_nil.
Qed.

End Shown.

(** *** The scan at the server *)

Section Served.
Context `{SodiumLaws, Env, !HwFacts.EnvLaws, JsonTextLaws, HwService.Http} {D F : Type}.
Context `{SqliteReliable D, Files F, !SqliteFiles F D} {X : Type} `{Board X, !MdLaws X}.
Context (hw : HwConfig).
Import ServiceTypes AppState AppSpec Services ServiceFacts Engine EngineSpec.

Lemma sign_run body :
  String.length (SECRET_HEX hw) = 64%nat ->
  sign hw body = Ok (Some (CardIdHasher.toHex (HMAC (HwService.hexToBytesLoose (SECRET_HEX hw))
    (bytes_of_string (HwService.signed_message body))))).
Proof.
  intros Hl. unfold sign. rewrite decide_True by (split; [by intros Es; rewrite Es in Hl|done]).
  rewrite hexToBytes32_run by done. cbn [mbind res_bind]. unfold hmacSha256Hex.
  by rewrite md_hmac_spec, hex_text_server.
Qed.

(** The members of the body. *)
Definition members (uid : string) (seq : Z) : list (string * scalar) :=
  [("uid", SStr uid); ("reader_id", SNum (READER_ID hw)); ("door_id", SNum (DOOR_ID hw));
   ("hw_seq", SNum seq)]%string.

Lemma request_body_render uid seq : request_body hw uid seq = render (members uid seq).
Proof. unfold request_body, render, members, render_tail, render_member. cbn [fst snd render_scalar].
  by rewrite !FlatJson.string_app_assoc. Qed.

(** The server reads the fields the firmware wrote. *)
Lemma request_body_parse uid seq :
  plain uid -> is_u32 (READER_ID hw) -> is_u32 (DOOR_ID hw) -> is_u64 seq ->
  exists j, json_parse (request_body hw uid seq) = inr j /\
    HwRequest.parseHwUidRequest j
    = Ok (Some (HwService.mkHwUidRequest uid (READER_ID hw) (DOOR_ID hw) seq "open")).
Proof.
  intros Hu [Hr1 Hr2] [Hd1 Hd2] [Hs1 Hs2]. rewrite request_body_render.
  destruct (parse_render (members uid seq)) as (j & Ej & _ & Hc & Hv).
  { repeat apply Forall_cons_2; try (split; [by_decision|done]). apply Forall_nil_2. }
  { by_decision. }
  exists j. split; [done|].
  assert (forall k, json_contains j k = bool_decide (k ∈ ["uid"; "reader_id"; "door_id"; "hw_seq"]%string))
    as Hc' by exact Hc. clear Hc.
  destruct (Hv "uid"%string (SStr uid)) as (x1 & A1 & G1); [by left|].
  destruct (Hv "reader_id"%string (SNum (READER_ID hw))) as (x2 & A2 & G2); [by right; left|].
  destruct (Hv "door_id"%string (SNum (DOOR_ID hw))) as (x3 & A3 & G3); [by do 2 right; left|].
  destruct (Hv "hw_seq"%string (SNum seq)) as (x4 & A4 & G4); [by do 3 right; left|].
  unfold HwRequest.parseHwUidRequest, HwRequest.parse, HwRequest.value_or. rewrite !Hc'.
  rewrite (bool_decide_true ("uid"%string ∈ _)) by (by left).
  rewrite (bool_decide_false ("action"%string ∈ _)) by by_decision.
  rewrite A1, A2, A3, A4. cbn [mbind res_bind].
  by rewrite G1, (G2 32), (G3 32), (G4 64).
Qed.

(** The answer is read back. *)
Lemma answer_read (b : bool) rest :
  parseAllowFromJson ("{" +:+ newline +:+ "  " +:+ quoted "allow" +:+ ": "
    +:+ (if b then "true" else "false") +:+ rest) = Some b.
Proof. by destruct b, rest. Qed.

Lemma response_read (r : HwService.HwResponse) text :
  dump_value (buildHwResponse r) = Ok text -> parseAllowFromJson text = Some (HwService.r_allow r).
Proof.
  intros E. destruct (dump_first "allow" (HwService.r_allow r)
    (("reason"%string, JStr (HwService.r_reason r)) ::
     match HwService.r_frame r with
     | None => []
     | Some (reader_id, door_id, seq, key_version) =>
         [("reader_id", JNum reader_id); ("door_id", JNum door_id); ("seq", JNum seq);
          ("key_version", JNum key_version)]%string
     end) text) as [rest ->]; [by_decision| |done|].
  - destruct (HwService.r_frame r) as [[[[? ?] ?] ?]|]; by repeat constructor.
  - by apply answer_read.
Qed.

Lemma hex_pairs_length l n : length l = (n * 2)%nat -> length (HwService.hex_pairs l) = n.
Proof.
  revert l. induction n as [|n IH]; intros [|c1 [|c2 l]] E; cbn in E |- *; try lia.
  f_equal. apply IH. lia.
Qed.

Lemma secret_length hex : String.length hex = 64%nat -> length (HwService.hexToBytesLoose hex) = 32%nat.
Proof.
  intros Hl. unfold HwService.hexToBytesLoose. rewrite text_length, Hl.
  rewrite decide_False by (intros []; reflexivity). apply hex_pairs_length. by rewrite text_length, Hl.
Qed.

Lemma response_texts (r : HwService.HwResponse) :
  printable (HwService.r_reason r) -> Forall printable (texts (buildHwResponse r)).
Proof.
  destruct r as [allow reason [[[[rd dr] sq] kv]|]]; cbn; intros Hr;
    repeat (apply Forall_cons_2; [first [exact Hr|by_decision]|]); apply Forall_nil_2.
Qed.

(** The reasons of a verdict are printable. *)
Lemma verdict_printable (e : DecisionEngine) v hd r :
  printable (Engine.reason (o_result (policy_verdict e v hd r))).
Proof. unfold policy_verdict. repeat case_match; cbn; by_decision. Qed.

Lemma scan_outcome_printable (s : AppState D F) v req hd :
  printable (Engine.reason (o_result (scan_outcome s v req hd))).
Proof. unfold scan_outcome. case_match; [by_decision|apply verdict_printable]. Qed.

(** The scan the firmware asks for. *)
Definition scan_of (uid : string) (seq : Z) : HwService.HwUidRequest :=
  HwService.mkHwUidRequest uid (READER_ID hw) (DOOR_ID hw) seq "open".

(** The server is up, knows the reader and can serve the scan; reader and server
    share the secret. *)
Record scannable (s : AppState D F) (d : D) (uid : string) (seq : Z) (text : string) : Prop := {
  sc_serving : serving s d;
  sc_ready : scan_ready s (scan_of uid seq) text;
  sc_knows : knows s (policy_of d) (scan_of uid seq);
  sc_seq : seq <> 0;
  sc_length : String.length (SECRET_HEX hw) = 64%nat;
  sc_secret : Config.hwSharedSecretHex (Config.admin (cfg s)) = SECRET_HEX hw;
}.

(** What the policy of the server says of it. *)
Definition verdict (s : AppState D F) (d : D) (uid : string) (seq : Z) (hd : Packet.Header) : bool :=
  Engine.allow (o_result (scan_outcome s (policy_of d) (scan_of uid seq) hd)).

(** The endpoint on the request of the firmware. *)
Lemma served_scan (s : AppState D F) d uid seq text :
  let req := scan_of uid seq in
  let body := request_body hw uid seq in
  plain uid -> scannable s d uid seq text ->
  exists signature s2 hd resp,
    sign hw body = Ok (Some signature) /\
    Packet.reader_id hd = READER_ID hw /\ Packet.door_id hd = DOOR_ID hw /\
    Routes.post_hw_uid true (hw_request body (Some signature)) s = (s2, Ok resp) /\
    HttpTypes.p_status resp = 200 /\
    parseAllowFromJson (HttpTypes.p_content resp) = Some (verdict s d uid seq hd).
Proof.
  intros req body Hp [Hs Hr Hk Hz Hl Hsec]. destruct (Hr) as [_ _ _ Sr Sd Sq _ _ _ _ _].
  destruct (request_body_parse uid seq Hp Sr Sd Sq) as (j & Ej & Eh).
  destruct (scan_run s s d (policy_of d) req text Hs) as (s2 & hd & E1 & E2 & Ep); try done.
  rewrite (sign_run body Hl). set (signature := CardIdHasher.toHex _).
  assert (HwService.verifyHwSignature true signature body (SECRET_HEX hw) = (true, EmptyString)) as Ev.
  { apply HwFacts.hw_verify_run. split; [by apply secret_length|].
    apply HwFacts.hexToBytesLoose_toHex, HMAC_array. }
  set (resp := HwService.scan_response _ _ _) in Ep.
  destruct (RouteFacts.sendResult_run (okResult (buildHwResponse resp)) s2) as (out & Eo & Es).
  { apply response_texts, scan_outcome_printable. }
  exists signature, s2, hd, (HttpTypes.mkResponse 200 [] out "application/json").
  split; [done|]. split; [done|]. split; [done|]. split; [|split; [done|by apply response_read in Eo]].
  rewrite RouteFacts.hw_route_run. cbn [hw_request HttpTypes.q_header HttpTypes.q_body].
  rewrite decide_True by done. change (default EmptyString (Some signature)) with signature.
  rewrite Hsec, Ev. unfold HttpTypes.parse_body.
  cbn [hw_request HttpTypes.q_body]. fold body in Ej. rewrite Ej. cbn [mbind res_bind]. rewrite Eh.
  cbn [HwService.hw_seq]. rewrite decide_False by done. apply RouteFacts.or_error_ok.
  rewrite (M_bind_ok _ _ _ _ _ Ep). exact Es.
Qed.

End Served.

(** *** A reader on the network *)

Section Networked.
Context `{SodiumLaws, Env, !HwFacts.EnvLaws, JsonTextLaws, HwService.Http} {D F : Type}.
Context `{SqliteReliable D, Files F, !SqliteFiles F D} {X : Type} `{Board X, !MdLaws X}.
Context `{!NetworkLaws X D F} (hw : HwConfig) (fuel : nat).

(** Calls that return, show [l], and change nothing else but the board. *)
Definition runs (l : list output) {A} (m : M (Fw X) A) : Prop := forall s,
  exists x a, m s = (mkFw (hwSeq s) (lastUid s) (lastSendMs s) x (trace s ++ l), Ok a) /\
    server x = server (board s).

Lemma runs_bind l l' {A B} (m : M (Fw X) A) (f : A -> M (Fw X) B) :
  runs l m -> (forall a, runs l' (f a)) -> runs (l ++ l') (m ≫= f).
Proof.
  intros Hm Hf s. destruct (Hm s) as (x & a & E & Es). rewrite (M_bind_ok _ _ _ _ _ E).
  destruct (Hf a (mkFw (hwSeq s) (lastUid s) (lastSendMs s) x (trace s ++ l))) as (x' & b & E' & Es').
  exists x', b. cbn in E', Es'. rewrite E', app_assoc. split; [done|congruence].
Qed.

Definition local_call {A} (c : call A) : Prop := match c with HttpPost _ _ => False | _ => True end.

Lemma runs_invoke {A} (c : call A) : local_call c -> runs [] (invoke c).
Proof.
  intros Hc s. unfold invoke. pose proof (net_keep c (board s)) as Hk.
  assert (server (perform c (board s)).1 = server (board s)) as Hs by (by destruct c).
  destruct (net_power c (board s)) as [a Ea]. destruct (perform c (board s)) as [x o].
  cbn in *. subst o. exists x, a. by rewrite app_nil_r.
Qed.

Lemma runs_emit o : runs [o] (emit o).
Proof. intros s. by exists (board s), tt. Qed.

Lemma runs_ret {A} (a : A) : runs [] (mret a).
Proof. intros s. exists (board s), a. rewrite app_nil_r. by destruct s. Qed.

Lemma runs_beep freq ms : runs [Tone freq; Tone 0] (beep freq ms).
Proof.
  apply (runs_bind [Tone freq] [Tone 0]); [apply runs_emit|intros _].
  apply (runs_bind [] [Tone 0]); [by apply runs_invoke|intros _; apply runs_emit].
Qed.

Lemma runs_allow : runs (signal hw true) (signalAllow hw).
Proof.
  apply (runs_bind [Led false]); [apply runs_emit|intros _].
  apply (runs_bind [Led true]); [apply runs_emit|intros _].
  apply (runs_bind [_; _] [Led false]); [apply runs_beep|intros _].
  apply (runs_bind [] [_]); [by apply runs_invoke|intros _; apply runs_emit].
Qed.

Lemma runs_blinks n : runs (concat (replicate n (beeps (DENY_FREQ_HZ hw)))) (deny_blinks hw n).
Proof.
  induction n as [|n IH]; [apply runs_ret|]. cbn [replicate concat deny_blinks].
  apply (runs_bind [Led true]); [apply runs_emit|intros _].
  apply (runs_bind [_; _] (Led false :: _)); [apply runs_beep|intros _].
  apply (runs_bind []); [by apply runs_invoke|intros _].
  apply (runs_bind [_]); [apply runs_emit|intros _].
  apply (runs_bind []); [by apply runs_invoke|intros _]. exact IH.
Qed.

Lemma runs_signal allow :
  runs (signal hw allow) (if allow : bool then signalAllow hw else signalDeny hw).
Proof.
  destruct allow; [apply runs_allow|].
  apply (runs_bind [Led false]); [apply runs_emit|intros _]. apply (runs_blinks 2).
Qed.

Lemma invoke_up (s : Fw X) :
  exists x, invoke WifiConnected s = (set_board x s, Ok true) /\ server x = server (board s).
Proof.
  unfold invoke. pose proof (net_up (board s)) as Hu.
  pose proof (net_keep WifiConnected (board s)) as Hk. cbn beta iota in Hk.
  destruct (perform WifiConnected (board s)) as [x o]. cbn in Hu, Hk. subst o. by exists x.
Qed.

Lemma runs_connect : runs [] (connectWiFi hw fuel).
Proof.
  intros s. destruct (invoke_up s) as (x & E & Es). exists x, tt. unfold connectWiFi.
  rewrite (M_bind_ok _ _ _ _ _ E), app_nil_r. by split.
Qed.

(** Posting a card the server can serve. *)
Lemma post_run (s : Fw X) d uid text :
  let n := hwSeq s + 1 in
  let srv := server (board s) in
  0 <= hwSeq s < 2 ^ 64 - 1 -> plain uid -> scannable hw srv d uid n text ->
  exists signature hd s', Packet.reader_id hd = READER_ID hw /\ Packet.door_id hd = DOOR_ID hw /\
    postUidToServer hw fuel uid s = (s', Ok (Some (verdict hw srv d uid n hd))) /\
    trace s' = trace s ++ [Posted (request_body hw uid n) (Some signature)].
Proof.
  intros n srv Hn Hu Hsc. unfold postUidToServer.
  destruct (runs_connect s) as (x1 & [] & E1 & S1). rewrite (M_bind_ok _ _ _ _ _ E1), app_nil_r.
  set (s1 := mkFw _ _ _ x1 _).
  destruct (invoke_up s1) as (x2 & E2 & S2). cbn [s1 board] in S2. rewrite S1 in S2. fold srv in S2.
  rewrite (M_bind_ok _ _ _ _ _ E2). cbn [negb]. set (s2 := set_board x2 s1).
  rewrite (M_bind_ok (modify _) _ s2 (set_seq (u64 (hwSeq s2 + 1)) s2) tt) by done.
  set (s3 := set_seq _ s2). rewrite (M_bind_ok get _ s3 s3 s3) by done.
  assert (hwSeq s3 = n) as ->
    by (change (u64 (hwSeq s + 1) = n); unfold n, u64, wrap; rewrite Z.mod_small; lia).
  destruct (runs_invoke (NvsPut "hw_seq" n) I s3) as (x4 & [] & E4 & S4).
  rewrite (M_bind_ok _ _ _ _ _ E4), app_nil_r. cbv zeta.
  destruct (served_scan hw srv d uid n text Hu Hsc)
    as (signature & srv' & hd & resp & Es & R1 & R2 & Ep & Ec & Ea).
  rewrite (M_bind_ok (lift _) _ _ _ (Some signature)) by (unfold lift; by rewrite Es).
  set (s4 := mkFw _ _ _ x4 _).
  rewrite (M_bind_ok (emit _) _ s4 _ tt) by done. set (s5 := mkFw _ _ _ _ (_ ++ [_])).
  assert (server (board s5) = srv) as S5 by (cbn; by rewrite S4).
  rewrite <- S5 in Ep. destruct (net_post _ _ _ _ _ Ep) as (x6 & E6 & _).
  rewrite (M_bind_ok (invoke _) _ s5 (set_board x6 s5)
    (HttpTypes.p_status resp, HttpTypes.p_content resp)) by (unfold invoke; by rewrite E6).
  rewrite Ec. rewrite decide_True by lia. rewrite decide_True by lia.
  exists signature, hd, (set_board x6 s5). split; [done|]. split; [done|]. split; [by rewrite Ea|done].
Qed.

(** A pass of [loop] with a card that was not sent last. *)
Lemma scan_shown (s : Fw X) x1 x2 bytes d text :
  let uid := uidToString bytes in
  let n := hwSeq s + 1 in
  let srv := server (board s) in
  perform NewCardPresent (board s) = (x1, Some true) ->
  perform ReadCard x1 = (x2, Some (Some bytes)) ->
  bytes_ok bytes -> uid <> lastUid s -> 0 <= hwSeq s < 2 ^ 64 - 1 ->
  scannable hw srv d uid n text ->
  exists signature hd s', Packet.reader_id hd = READER_ID hw /\ Packet.door_id hd = DOOR_ID hw /\
    loop hw fuel s = (s', Ok tt) /\
    trace s' = trace s ++ Posted (request_body hw uid n) (Some signature)
      :: signal hw (verdict hw srv d uid n hd).
Proof.
  intros uid n srv E1 E2 Hb Hu Hn Hsc. unfold loop.
  pose proof (net_keep NewCardPresent (board s)) as S1. rewrite E1 in S1. cbn [fst] in S1.
  pose proof (net_keep ReadCard x1) as S2. rewrite E2 in S2. cbn [fst] in S2.
  rewrite (M_bind_ok (invoke NewCardPresent) _ s (set_board x1 s) true)
    by (unfold invoke; by rewrite E1).
  cbn [negb]. rewrite (M_bind_ok (invoke ReadCard) _ _ (set_board x2 (set_board x1 s)) (Some bytes))
    by (unfold invoke; cbn [board set_board]; by rewrite E2).
  set (s2 := set_board x2 _). cbv zeta. fold uid.
  destruct (runs_invoke Millis I s2) as (x3 & now & E3 & S3).
  rewrite (M_bind_ok _ _ _ _ _ E3), app_nil_r. set (s3 := mkFw _ _ _ x3 _).
  rewrite (M_bind_ok get _ s3 s3 s3) by done.
  rewrite decide_False by (intros [Hl _]; by apply Hu).
  rewrite (M_bind_ok (modify _) _ s3 (set_last uid now s3) tt) by done. set (s4 := set_last uid now s3).
  assert (server (board s4) = srv) as S4.
  { change (server x3 = srv). rewrite S3. change (server x2 = srv). rewrite S2. exact S1. }
  destruct (post_run s4 d uid text) as (signature & hd & s5 & R1 & R2 & E5 & T5);
    [done|by apply uid_plain|by rewrite S4|].
  rewrite (M_bind_ok _ _ _ _ _ E5). rewrite S4. change (hwSeq s4 + 1) with n.
  set (allow := verdict _ _ _ _ _ _).
  destruct (runs_signal allow s5) as (x6 & [] & E6 & _).
  set (s6 := mkFw _ _ _ x6 _) in E6.
  destruct (runs_invoke HaltCard I s6) as (x7 & [] & E7 & _).
  exists signature, hd. eexists. split; [done|]. split; [done|]. split.
  { etransitivity; [exact (M_bind_ok _ (fun _ => invoke HaltCard) _ _ _ E6)|exact E7]. }
  cbn [trace s6]. rewrite T5, app_nil_r, <- app_assoc. done.
Qed.

End Networked.

End FwFacts.

(** ** A board in memory

    The clock moves with the calls, the flash memory is one cell, a card lies on
    the reader or not, and a POST is handled by the server at once. [up] tells
    whether there is a WiFi. *)

Module SimBoard.
Import Firmware FwSpec.

Section SimBoard.
Context `{SodiumLaws, Env, JsonDocLaws, HwService.Http} {D F : Type}.
Context `{Sqlite D, Files F, !SqliteFiles F D} (up : bool).

Record sim := mkSim {
  time : Z;
  flash : option Z;
  card : option bytes;
  remote : AppState.AppState D F;
}.

Definition at_time n x := mkSim n (flash x) (card x) (remote x).

Definition sim_perform {A} (c : call A) : sim -> sim * option A :=
  match c with
  | Millis => fun x => (at_time (time x + 1) x, Some (u32 (time x + 1)))
  | Delay ms => fun x => (at_time (time x + ms) x, Some tt)
  | WifiConnected => fun x => (x, Some up)
  | WifiReset => fun x => (x, Some tt)
  | WifiBegin => fun x => (x, Some tt)
  | NvsGet _ d => fun x => (x, Some (default d (u64 <$> flash x)))
  | NvsPut _ v => fun x => (mkSim (time x) (Some v) (card x) (remote x), Some tt)
  | HttpPost body signature => fun x =>
      let (s', r) := Routes.post_hw_uid true (hw_request body signature) (remote x) in
      (mkSim (time x) (flash x) (card x) s',
       Some (match r with
             | Ok resp => (HttpTypes.p_status resp, HttpTypes.p_content resp)
             | _ => (500, EmptyString)
             end))
  | NewCardPresent => fun x => (x, Some (bool_decide (is_Some (card x))))
  | ReadCard => fun x => (x, Some (card x))
  | HaltCard => fun x => (x, Some tt)
  end.

#[global] Instance sim_board : Board sim := {|
  perform A c := sim_perform c;
  md_hmac := HMAC;
|}.

#[global] Instance sim_md : MdLaws sim.
Proof. by split. Qed.

#[global] Instance sim_nvs : NvsLaws sim.
Proof.
  refine {| nvs_cell x := u64 <$> flash x |}.
  - cbn. by intros d x x' v [= _ <-].
  - intros [n [v|] c s]; [apply wrap_range; lia|by_decision].
  - intros v x Hv. left. cbn. f_equal. unfold u64, wrap. rewrite Z.mod_small; [done|]. exact Hv.
  - intros A c x. destruct c; try done. cbn. by destruct (Routes.post_hw_uid _ _ _).
Defined.

#[global] Instance sim_clock : ClockLaws sim.
Proof.
  refine {| now_ms := time |}.
  - by intros x x' v [= <- <-].
  - intros A c x. destruct c; try done; cbn; lia.
  - intros ms x x' [= <-]. cbn. lia.
Defined.

End SimBoard.
Arguments sim D F : clear implicits.

Section Online.
Context `{SodiumLaws, Env, JsonDocLaws, HwService.Http} {D F : Type}.
Context `{Sqlite D, Files F, !SqliteFiles F D}.

Definition online_network : @NetworkLaws (sim D F) D F (sim_board true) _ _ _ _ _ _ _ _.
Proof.
  refine {| server x := remote x |}.
  - intros A c x. destruct c; try by eexists. cbn. destruct (Routes.post_hw_uid _ _ _). by eexists.
  - done.
  - intros A c x. by destruct c.
  - intros body signature x s' resp E. eexists. cbn. rewrite E. by split.
Defined.

End Online.
End SimBoard.

(** ** Properties *)

Module FwProps.
Import Firmware FwSpec FwFacts SimBoard AppState AppSpec ServiceSpec ServiceFacts MemFiles AppProps
  ToySodium HandlerProps HwProps FlatJson RouteProps.

(** The device of the tests: reader 1 at door 2, with the secret of the server. *)
Definition test_hw : HwConfig :=
  mkHwConfig test_secret 1 2 1500 20000 30 2000 120 60 500 140 60 80.

Example uid_text : uidToString [4; 161; 11; 255] = "04A10BFF"%string.
Proof. reflexivity. Qed.

(** The text of a card is its bytes. Two upper-case hexadecimal digits per
    byte: plain text that decodes, with the decoder of the server, to the bytes
    read from the card, so that different cards have different texts. *)
Theorem uid_roundtrip (bytes : bytes) :
  bytes_ok bytes ->
  JsonText.plain (uidToString bytes) /\
  HwService.hexToBytesLoose (uidToString bytes) = bytes /\
  String.length (uidToString bytes) = (2 * length bytes)%nat.
Proof.
  intros Hb. destruct (uid_pairs bytes Hb) as [Hp Hl].
  split; [by apply uid_plain|]. split; [|lia]. unfold HwService.hexToBytesLoose.
  rewrite text_length, Hl. rewrite decide_False; [done|]. rewrite Nat.Div0.mod_mul. tauto.
Qed.

Lemma uid_roundtrip_witness :
  JsonText.plain (uidToString [4; 161]) /\
  HwService.hexToBytesLoose (uidToString [4; 161]) = [4; 161] /\
  String.length (uidToString [4; 161]) = 4%nat.
Proof. refine (uid_roundtrip [4; 161] _). by_decision. Defined.

(** C19: a number is never sent twice. Over the whole life of a reader, switched
    off and on at any time and losing power inside any call, as long as its flash
    memory keeps what was written (a write that the power interrupts may or may
    not have happened), the requests it has handed to the HTTP client are the
    bodies for strictly increasing positive numbers: the number is written before
    the request leaves, and switching on continues from what was written. *)
Theorem seq_never_reused {X : Type} `{NvsLaws X} (hw : HwConfig) (fuel : nat) (on : bool) (s : Fw X) :
  life hw fuel on s ->
  exists ns, requests_with hw ns (posts (trace s)) /\ StronglySorted Z.lt ns /\
    Forall (fun n => 0 < n) ns.
Proof.
  intros Hl%life_inv. destruct Hl as [(ns & Hr & Hs & Hn) _]. exists ns. split; [done|].
  split; [done|]. eapply Forall_impl; [exact Hn|]. cbn. lia.
Qed.

(** C21: the firmware always comes back. With a clock that advances by the time a
    delay asks for (and reads that take a second at most), the loop that waits for
    the WiFi ends after at most timeout / 500 + 2 passes, network or not, also
    when the 32-bit millisecond counter wraps; so every run of [setup] and of
    [loop] returns or loses power, from any state. *)
Theorem firmware_returns {X : Type} `{ClockLaws X} (hw : HwConfig) (fuel : nat) (s : Fw X) :
  0 <= WIFI_TIMEOUT_MS hw <= 100000000 -> (passes hw <= fuel)%nat ->
  (setup hw fuel s).2 <> Fault /\ (loop hw fuel s).2 <> Fault.
Proof.
  intros Ht Hf. pose proof (finishes_connect hw fuel Ht Hf) as Hc.
  split; [by apply finishes_setup|by apply finishes_loop].
Qed.

(** C20: only the server opens. In a pass of [loop], whatever the board does, the
    frequency of the allow signal sounds only if a request was handed to the HTTP
    client and answered with a 2xx code and a text whose first member "allow" is
    true: not without network, not on a timeout, not on an error of the server,
    and not on an answer that cannot be read. *)
Theorem allow_needs_answer {X : Type} `{Board X} (hw : HwConfig) (fuel : nat) (s : Fw X) :
  ALLOW_FREQ_HZ hw <> 0 -> ALLOW_FREQ_HZ hw <> DENY_FREQ_HZ hw ->
  exists l, trace (loop hw fuel s).1 = trace s ++ l /\
    (Tone (ALLOW_FREQ_HZ hw) ∈ l ->
     exists body signature x x' code text,
       Posted body signature ∈ l /\
       perform (HttpPost body signature) x = (x', Some (code, text)) /\
       200 <= code < 300 /\ parseAllowFromJson text = Some true).
Proof. intros Hz Hd. apply (loop_honest hw fuel s Hz Hd). Qed.

(** C5: what the card holder sees is the verdict of the policy. A reader whose
    POST reaches a server that is up, knows the reader, shares its secret and can
    serve the scan: one pass of [loop] on a card that was not sent last hands over
    one signed request with the next number, and then shows the allow signal if
    the policy of the server (with the detector) allows this card at this door,
    and the deny signal otherwise. *)
Theorem signal_is_verdict `{SodiumLaws, Env, !HwFacts.EnvLaws, JsonText.JsonTextLaws, HwService.Http}
    {D F : Type} `{SqliteReliable D, Files F, !SqliteFiles F D} {X : Type} `{Board X, !MdLaws X}
    `{!NetworkLaws X D F} (hw : HwConfig) (fuel : nat) (s : Fw X) (x1 x2 : X) (bytes : bytes) (d : D)
    (text : string) :
  let uid := uidToString bytes in
  let n := hwSeq s + 1 in
  let srv := server (board s) in
  perform NewCardPresent (board s) = (x1, Some true) ->
  perform ReadCard x1 = (x2, Some (Some bytes)) ->
  bytes_ok bytes -> uid <> lastUid s -> 0 <= hwSeq s < 2 ^ 64 - 1 -> scannable hw srv d uid n text ->
  exists signature hd s', Packet.reader_id hd = READER_ID hw /\ Packet.door_id hd = DOOR_ID hw /\
    loop hw fuel s = (s', Ok tt) /\
    trace s' = trace s ++ Posted (request_body hw uid n) (Some signature)
      :: signal hw (verdict hw srv d uid n hd).
Proof. apply scan_shown. Qed.

(** The server of the tests, with card 04A1 enrolled for door 2. *)
Definition card_server : AppState connection filesys :=
  Eval vm_compute in (run_requests (enrolment 1 1 2 "guard" "04A1" 1) served).1.

Definition card_connection : connection :=
  Eval vm_compute in default served_connection (store card_server).

(** A reader with a card on it, switched on with number 41 in flash memory. *)
Definition test_sim : sim connection filesys := mkSim 0 (Some 41) (Some [4; 161]) card_server.

#[export] Instance online_board : Board (sim connection filesys) := sim_board true.
#[export] Instance online_md : MdLaws (sim connection filesys) := sim_md true.
#[export] Instance online_nvs : NvsLaws (sim connection filesys) := sim_nvs true.
#[export] Instance online_net : NetworkLaws (sim connection filesys) connection filesys := online_network.

Definition new_reader : Fw (sim connection filesys) := mkFw 0 "" 0 test_sim [].
Definition started : Fw (sim connection filesys) := Eval vm_compute in (setup test_hw 42 new_reader).1.
Definition scanned : Fw (sim connection filesys) := Eval vm_compute in (loop test_hw 42 started).1.

(** The card opens door 2. *)
Example scan_allowed :
  drop 2 (trace scanned) = signal test_hw true.
Proof. vm_compute. reflexivity. Qed.

Lemma started_life : life test_hw 42 true started.
Proof. apply (life_boot test_hw 42 new_reader started (Ok tt)); [apply life_new|vm_compute; reflexivity]. Qed.

Lemma scanned_life : life test_hw 42 true scanned.
Proof.
  apply (life_loop test_hw 42 started scanned (Ok tt)); [exact started_life|by_decision|].
  vm_compute. reflexivity.
Qed.

Lemma seq_never_reused_witness :
  exists ns, requests_with test_hw ns (posts (trace scanned)) /\ StronglySorted Z.lt ns /\
    Forall (fun n => 0 < n) ns.
Proof. refine (seq_never_reused test_hw 42 true scanned scanned_life). Defined.

Lemma firmware_returns_witness :
  (@setup _ (sim_board false) test_hw 42 new_reader).2 <> Fault /\
  (@loop _ (sim_board false) test_hw 42 new_reader).2 <> Fault.
Proof.
  refine (@firmware_returns _ (sim_board false) (sim_clock false) test_hw 42 new_reader _ _);
    [by_decision|vm_compute; lia].
Defined.

Lemma allow_needs_answer_witness :
  exists l, trace (loop test_hw 42 started).1 = trace started ++ l /\
    (Tone 2000 ∈ l ->
     exists body signature x x' code text,
       Posted body signature ∈ l /\
       perform (HttpPost body signature) x = (x', Some (code, text)) /\
       200 <= code < 300 /\ parseAllowFromJson text = Some true).
Proof. refine (allow_needs_answer test_hw 42 started _ _); discriminate. Defined.

Definition card_text : string := JsonText.render [("card_id", JsonText.SStr "04A1");
  ("action", JsonText.SStr "open")]%string.

Lemma card_serving : serving card_server card_connection.
Proof.
  split; [vm_compute; reflexivity..|by_decision|reflexivity|reflexivity|].
  split; [by eexists|by_decision|vm_compute; reflexivity].
Qed.

Lemma card_scannable : scannable test_hw card_server card_connection "04A1" 42 card_text.
Proof.
  split; [exact card_serving| | |by_decision|vm_compute; reflexivity|vm_compute; reflexivity].
  - split; [by_decision|split; by_decision|by_decision..|vm_compute; reflexivity|vm_compute; reflexivity
      |by_decision| |].
    + intros d _. vm_compute. reflexivity.
    + intros Hn. by destruct Hn.
  - split; [by_decision|]. intros _. vm_compute. reflexivity.
Qed.

Lemma signal_is_verdict_witness :
  exists signature hd s', Packet.reader_id hd = 1 /\ Packet.door_id hd = 2 /\
    loop test_hw 42 started = (s', Ok tt) /\
    trace s' = trace started ++ Posted (request_body test_hw "04A1" 42) (Some signature)
      :: signal test_hw (verdict test_hw card_server card_connection "04A1" 42 hd).
Proof.
  refine (signal_is_verdict test_hw 42 started (board started) (board started) [4; 161] card_connection card_text
    _ _ _ _ _ _).
  - vm_compute. reflexivity.
  - vm_compute. reflexivity.
  - by_decision.
  - vm_compute. discriminate.
  - by_decision.
  - exact card_scannable.
Defined.

End FwProps.
